(* ===== verification/_CoqProject ===== *)
-Q . S2P
Prelude.v
GoStrings.v
GoFmt.v
AddonTypes.v
Common.v
VersionCache.v
GoHeap.v
Unstructured.v
TreeObject.v
Validator.v
Effects.v
Updater.v
Workflow.v
Manifests.v
Objects.v
Controller.v
WorkflowController.v
Manager.v
Samples.v
Protocol.v
Outcome.v
Progress.v
Deletion.v
FaultModel.v
Faults.v
FaultyDeletion.v
FatalFaults.v
ManagerSpec.v
System.v
Provenance.v
Dependencies.v
Typing.v
StatusMutex.v
Builder.v
BuilderSpec.v
Addonctl.v
AddonctlSpec.v
AddonctlRoot.v
DeepCopy.v
Clientset.v
ClientsetSpec.v
Schemes.v
TestUtil.v
TestUtilSpec.v
LoadTest.v
LoadTestSpec.v
FakeClient.v
Informers.v
InformersSpec.v
