(* ===== verification/Prelude.v ===== *)
(** * Addon Manager: a verification development

    The addon manager is a Kubernetes controller manager written in Go.  A
    user declares an [Addon] object; the addon controller validates it
    against the addons that are already installed, submits Argo workflows for
    its prerequisites, its installation and its deletion, and keeps phases, a
    checksum of the spec and a reason in the object's status.  The workflow
    controller copies the phase of a workflow back to the addon that owns it.
    Both write statuses through one updater and share a cache of the package
    versions they have seen.  The command line tool [addonctl] turns flags
    and manifest files into an addon, with workflows made by a builder, and
    sends it to the cluster.  A generated client gives other programs typed
    access to addons, with a fake for tests, informers and listers.

    ** Files

    - [Prelude]: errors, panics, iteration over Go maps, machine integers,
      hint database and tactics.
    - [GoStrings], [GoFmt]: what the program uses of Go's [strings], [fmt],
      [strconv] and [hash/adler32].
    - [AddonTypes]: [api/addon/v1alpha1/addon_types.go], [api/addon/const.go].
    - [Common]: [pkg/common/helpers.go], [pkg/common/schemas.go].
    - [VersionCache]: [pkg/addon/addon_version_cache.go]; the interface
      [VersionCacheClient] with its laws, and module [Cached], the
      implementation.
    - [GoHeap]: state with panics, loops over it, and heaps of objects.
    - [Unstructured], [TreeObject]: dynamically typed documents, the interface
      of the Kubernetes [unstructured] helpers with laws, and a concrete
      instance of it.
    - [Validator]: [pkg/addon/addon_validator.go], written against the cache
      interface.
    - [Effects]: the calls the controllers make to the outside, programs over
      them, executions, and a program logic.
    - [Updater]: [pkg/addon/addon_update.go].
    - [Workflow]: [pkg/workflows/workflow.go]; the interface [AddonLifecycle]
      with its laws, and the implementation.  [Manifests]: what it does to
      the documents inside a workflow.
    - [Objects]: [controllers/objects.go].
    - [Controller]: [controllers/addon_controller.go].
    - [WorkflowController]: [controllers/workflow_controller.go].
    - [Manager]: [main.go], [controllers/controller_manager_setup.go] and the
      constructors of the controllers.  [ManagerSpec]: how a start-up goes,
      what the controllers share, and which addon an event wakes.
    - [Samples]: a concrete environment in which the controllers run.
    - [Protocol]: what a reconcile may do, given what it has learnt.
    - [Outcome]: what reconciles write and return.
    - [Progress]: what a sequence of reconciles achieves.  [Deletion]: the
      same for an addon that is being deleted.  [FaultModel]: requests that
      fail, with a program logic for them.  [Faults], [FaultyDeletion]:
      installation and deletion in a cluster where requests fail.
      [FatalFaults]: the failures from which an addon does not recover.
    - [System]: both controllers interleaved against an API server.
      [Typing]: which statuses it ever stores.
    - [Provenance]: what a thread puts into the version cache.
      [Dependencies]: the system of [System] with the cache that the
      controllers share, restarts included.
    - [StatusMutex]: the map of status mutexes of
      [pkg/addon/addon_update.go], and both controllers as threads over it.
    - [Builder]: [pkg/workflows/workflow_builder.go].  [BuilderSpec]: the
      specification of the builder, and what its consumers see.
    - [Addonctl]: [pkg/addonctl/addonctl.go].  [AddonctlSpec]: what the tool
      accepts and sends.  [AddonctlRoot]: its flags and exit status.
    - [DeepCopy]: [api/addon/v1alpha1/zz_generated.deepcopy.go].
    - [Clientset]: the typed client and the clientset,
      [pkg/client/clientset/versioned].  [ClientsetSpec]: the requests they
      send.  [FakeClient]: the fake of the typed client, and how it stands in
      for it.  [Informers]: [pkg/client/informers/externalversions] and
      [pkg/client/listers].  [InformersSpec]: what they promise.
    - [Schemes]: [api/addon/v1alpha1/register.go], [pkg/common/scheme.go], the
      clientset's scheme, [pkg/common/k8sutil.go] and [pkg/version].
    - [TestUtil]: [test-bdd/testutil].  [TestUtilSpec]: what a cluster holds
      after them.  [LoadTest]: [test-load/main.go], ten goroutines and the
      collector as an interleaved process.  [LoadTestSpec]: that it ends.

    ** How code becomes definitions

    A Go string type is a [string] with the source's constants, a map a
    [gmap], a struct a record.  A method with a pointer receiver is a
    function to the updated record.  An error is [option error] or [result];
    a panic is [Panicked] or [Panic], so that [recover] is meaningful.  A
    function that ranges over a map takes a call path that names the loop
    execution, and the class [GoRange] gives an arbitrary order per path:
    theorems hold for every order.

    Controller code is a [Prog]: it returns, panics, or makes one [Call] (a
    request to the API server, an event, a look at the clock, an operation of
    the shared cache or of a status mutex) and continues with the response.
    Statements quantify over all responses.  [wp] carries ghost state along
    the calls; [exec] relates a program to its call traces.

    Controllers pass values on and never change one that another part still
    holds, so there maps and slices are values.  Where sharing matters, they
    are references into a heap: [Builder], whose objects are changed in place
    and appear in several places of a workflow, and [DeepCopy], which is about
    sharing.  The tool keeps its inputs and results in package variables;
    they are the state of [Addonctl], next to the builder's heap and the
    package variable [doDelete].

    Setting up is a [Setup]: the list of the calls made so far grows, an
    object is known by the position of the call that made it, and which calls
    fail is a parameter.  The generated client is a function of client-go,
    whose requests, object tracker, indexers and shared informers are
    interfaces with laws; a chain of steps on a request is a list.

    Outside the repository, and therefore parameters (type classes, with the
    documented behaviour as laws where a theorem needs it): semver, YAML and
    JSON, the [unstructured] helpers, the conversion to Argo types, label
    selectors, the finalizer helpers, [retry.RetryOnConflict], the setters
    of unstructured objects, the deep copies of [metav1] types, the file
    system, the dynamic client, client-go and controller-runtime, runtime
    schemes, and cobra.  Each theorem about them is
    also applied to concrete instances.

    ** What is shown

    - [System]: however reconciles and users interleave, with stale reads and
      lost responses, a completed status is never replaced by a running one
      for the same checksum, the race that the updater's guard is for.
    - [Typing]: in the same system every stored status has phases of the right
      kind in both fields, and a reason only where one belongs.
    - [Dependencies]: in that system with its cache every cache entry stands
      for a revision of the addon it names, and no prereqs or install workflow
      is submitted before the addon's dependencies are provided; but a
      duplicate of an installed package version is installed as well.
    - [StatusMutex]: status writes for one addon name exclude each other until
      its mutex is dropped from the map (and not afterwards), and the threads
      never deadlock on the mutexes.
    - [Protocol]: workflows are submitted, finalizers changed and old
      workflows deleted only under the conditions the design asks for.
    - [Outcome]: a spec change resets the status, an expired installation
      fails, an addon that still waits is always retried, what the workflow
      controller writes; and two behaviours that contradict the intent (a
      failed list loses a spec change, a completed addon loses its resources).
    - [Progress]: in a cluster that answers without errors, a new or edited
      addon waits as long as its dependencies make it invalid, whatever other
      addons do to the version cache, and gets installed by any sequence of
      reconciles in which its workflows do not fail and, once it is valid,
      finally succeed.  [Deletion]: an
      addon being deleted goes away, with its cache entry, as soon as its
      delete workflow has succeeded; a failed deletion is never retried.
    - [Faults], [FaultyDeletion]: both still come to their end when, in
      between, reads, status writes and updates fail, with or without having
      taken effect.  [FatalFaults]: a failed list of secrets or of observed
      resources is recorded as a final failure, and what a failed list of
      old workflows or a failed read loses.
    - [ManagerSpec]: a start-up makes a fixed list of calls up to the first
      that fails; the controllers share one updater, one cache and one
      dynamic client; an event on a deployed resource reconciles exactly the
      cached addon its label names.
    - [ClientsetSpec], [FakeClient], [InformersSpec]: every typed call is one
      documented request; the fake answers like the typed client; a factory
      runs each informer once; the listers agree with the store.
    - [Schemes]: the manager's scheme knows addons.  [TestUtilSpec]: the test
      helper puts exactly the file's addon into the cluster.
      [LoadTestSpec]: the load test ends whatever the order of its turns.
    - [Updater]: the contract of [UpdateStatus] and of [RemoveFromCache].
    - [Workflow]: the shape of every submitted workflow.  [Manifests]: every
      document that a submitted workflow passes to a step is labelled.
    - [Validator]: dependency resolution terminates within its depth limit and
      is sound and complete; soundness of validation; what the dependency
      check does and does not establish.
    - [VersionCache]: refinement of a finite map and the lookups.
    - [Common], [AddonTypes]: the round trip of workflow names, phases,
      reasons, parameters, the checksum's detection of edits, and the range
      in which the expiry test is exact.
    - [BuilderSpec]: the builder refines a specification in which a builder
      is a list of artifacts and one boolean of the process; what that
      boolean does to later workflows, and that built workflows escape the
      labelling of [Manifests].
    - [AddonctlSpec]: the outcome of [addonctl create] in every case, and the
      way of dependencies and of manifest documents into the addon.
    - [DeepCopy]: a deep copy equals its original and shares nothing with it,
      for every iteration order of the maps.

    ** Bounds and fuel

    [resolve_fuel] counts down from 256, the recursion limit of the source,
    where the source panics; with at most 255 cached versions the limit is
    not reached (shown, not assumed).  Every other loop is structural.
    [read_fuel], the depth to which [BuilderSpec] reads a built workflow, is
    shown to be enough for every workflow of the builder.  [retry_unroll]
    stands for any bounded number of retries.  Time is an
    [int64] of milliseconds with wrap-around; strings are byte strings.

    ** What is not modelled

    Logging and printing; the signal handler, the Kubernetes authentication
    plugins and the expansion interfaces, which are empty; the memory and CPU
    figures that the load test collects with other programs; and the scheme
    of the fake clientset, which is built like that of the clientset.
    [Updater] and [System] treat taking a status mutex as a call that
    returns; [StatusMutex] has the waiting, and there the API's answers are
    only required to be for the addon that was asked for.  One validation
    reads one state of the cache, and a cache call is atomic.  [Progress],
    [Deletion], [Faults] and [FaultyDeletion] have one reconcile at a time;
    [System], [Dependencies] and [StatusMutex] interleave them.
    In [Manager] the calls of one start-up are made one after the other, as
    in the code; the informers' own goroutines are only seen as started.  Of
    Go's own behaviour, data races and the memory limit are left out. *)
From stdpp Require Export base strings list gmap sorting pretty.
From Stdlib Require Export ZArith Ascii.

#[export] Set Warnings "-clear-no-such-hyp,-register-all".

(** ** Notation scope of the development *)
Declare Scope go_scope.
Delimit Scope go_scope with go.
Open Scope go_scope.

(** Go's [==] on comparable values. *)
Notation "x == y" := (bool_decide (x = y)) (at level 70, no associativity) : go_scope.
Notation "x != y" := (negb (bool_decide (x = y))) (at level 70, no associativity) : go_scope.

(** ** Errors

    A Go [error] is represented by its message ([err.Error()]) and by the
    reason a Kubernetes API status error carries, the part that
    [apierrors.IsNotFound], [IsConflict] and [IsAlreadyExists] look at.
    [nil] is [None]. *)
Inductive StatusReason :=
  | ReasonUnknown
  | ReasonNotFound
  | ReasonConflict
  | ReasonAlreadyExists.

#[global] Instance StatusReason_eq_dec : EqDecision StatusReason.
Proof. solve_decision. Defined.

Record error := mkError {
  Error : string;
  err_reason : StatusReason
}.

#[global] Instance error_eq_dec : EqDecision error.
Proof. solve_decision. Defined.

(** [fmt.Errorf] or [errors.New] without [%w]: only the text survives. *)
Definition Errorf (msg : string) : error := mkError msg ReasonUnknown.

(** [fmt.Errorf] with [%w]: the wrapped error stays visible to [errors.As]. *)
Definition Errorw (msg : string) (e : error) : error := mkError msg (err_reason e).

Definition has_reason (r : StatusReason) (e : option error) : bool :=
  match e with
  | Some e => err_reason e == r
  | None => false
  end.

Definition IsNotFound := has_reason ReasonNotFound.
Definition IsConflict := has_reason ReasonConflict.
Definition IsAlreadyExists := has_reason ReasonAlreadyExists.

(** A call that gives a value or an error. *)
Inductive result (A : Type) :=
  | Ok (a : A)
  | Err (e : error).
Arguments Ok {A} a.
Arguments Err {A} e.

(** What evaluating an expression that may panic gives. *)
Inductive outcome (A : Type) :=
  | Val (a : A)
  | Panicked (msg : string).
Arguments Val {A} a.
Arguments Panicked {A} msg.

Definition outcome_bind {A B : Type} (o : outcome A) (k : A -> outcome B) : outcome B :=
  match o with
  | Val a => k a
  | Panicked m => Panicked m
  end.

Notation "'let?' x := o 'in' k" := (outcome_bind o (fun x => k))
  (at level 10, x name, o at level 200, k at level 200) : go_scope.

(** A call that may panic and otherwise gives a value or an error, and the
    usual [if err != nil { return err }] after it. *)
Definition try_bind {A B : Type} (o : outcome (result A)) (k : A -> outcome (result B))
    : outcome (result B) :=
  let? r := o in
  match r with
  | Ok a => k a
  | Err e => Val (Err e)
  end.

Notation "'let!' x := o 'in' k" := (try_bind o (fun x => k))
  (at level 10, x name, o at level 200, k at level 200) : go_scope.

(** A loop over a slice that replaces each element, or stops at an error. *)
Fixpoint try_map {A B : Type} (f : A -> outcome (result B)) (l : list A)
    : outcome (result (list B)) :=
  match l with
  | [] => Val (Ok [])
  | x :: l' =>
      let! y := f x in
      let! ys := try_map f l' in
      Val (Ok (y :: ys))
  end.

Lemma try_bind_Ok {A B} (o : outcome (result A)) (k : A -> outcome (result B)) b :
  try_bind o k = Val (Ok b) -> exists a, o = Val (Ok a) /\ k a = Val (Ok b).
Proof. destruct o as [[a|e]|m]; simpl; [by exists a | done..]. Qed.

(** A loop that leaves every element as it is. *)
Lemma try_map_same {A} (f : A -> outcome (result A)) l :
  Forall (fun x => f x = Val (Ok x)) l -> try_map f l = Val (Ok l).
Proof. induction 1 as [|x l Hx Hl IH]; [done|]. cbn [try_map]. by rewrite Hx, IH. Qed.

(** ** Iteration over Go maps

    [for k, v := range m] visits the entries of [m] in an order the language
    leaves open and that differs from one execution of the loop to the next.
    [range t m] is the order in which the loop execution identified by the
    call path [t] visits [m]; a function that loops takes its own call path
    and hands extended ones to its callees, so two executions of a loop never
    share an order.  The theorems hold for every instance of the class. *)
Class GoRange := {
  range : forall {V : Type}, list nat -> gmap string V -> list (string * V);
  range_perm : forall (V : Type) t (m : gmap string V), range t m ≡ₚ map_to_list m
}.

(** A concrete order, used by the examples. *)
Definition range_fwd : GoRange :=
  {| range := fun V _ m => map_to_list m;
     range_perm := fun V _ m => reflexivity _ |}.

Section range_lemmas.
Context `{!GoRange} {V : Type}.
Implicit Types (m : gmap string V) (t : list nat).

Lemma elem_of_range t m k v : (k, v) ∈ range t m <-> m !! k = Some v.
Proof. by rewrite range_perm, elem_of_map_to_list. Qed.

Lemma NoDup_range_keys t m : NoDup (range t m).*1.
Proof. rewrite range_perm. apply NoDup_fst_map_to_list. Qed.

(** Copying a map entry by entry onto [acc], in whatever order, gives the
    left-biased union. *)
Lemma range_copy t m (acc : gmap string V) :
  foldl (fun a kv => <[kv.1 := kv.2]> a) acc (range t m) = m ∪ acc.
Proof.
  assert (forall (l : list (string * V)) (a : gmap string V), NoDup l.*1 ->
    foldl (fun a kv => <[kv.1 := kv.2]> a) a l = list_to_map l ∪ a) as Hgen.
  { induction l as [|[k v] l IH]; intros a Hnd; simpl.
    - by rewrite (left_id_L ∅ (∪)).
    - apply NoDup_cons in Hnd as [Hk Hnd]. rewrite IH by done.
      rewrite <-insert_union_l, insert_union_r; [done|].
      by apply not_elem_of_list_to_map_1. }
  rewrite Hgen by apply NoDup_range_keys. f_equal.
  rewrite <-(list_to_map_to_list m) at 2.
  apply list_to_map_proper; [apply NoDup_range_keys | apply range_perm].
Qed.
End range_lemmas.

(** ** Sizes of sets *)

Lemma gset_size_union_le (X Y : gset string) : size (X ∪ Y) <= size X + size Y.
Proof.
  rewrite size_union_alt. apply Nat.add_le_mono_l, subseteq_size. set_solver.
Qed.

Lemma size_list_to_set_le (l : list string) : size (list_to_set l : gset string) <= length l.
Proof.
  induction l as [|x l IH]; [done|]. rewrite list_to_set_cons.
  cbn [length]. etrans; [apply gset_size_union_le|]. rewrite size_singleton. lia.
Qed.

(** ** Keys of lists *)

Lemma NoDup_fmap_elem {A B} (f : A -> B) (l : list A) x y :
  NoDup (f <$> l) -> x ∈ l -> y ∈ l -> f x = f y -> x = y.
Proof.
  induction l as [|z l IH]; [by intros _ ?%elem_of_nil|]. cbn.
  rewrite NoDup_cons, list_elem_of_fmap. intros [Hz Hnd] Hx Hy Heq.
  apply elem_of_cons in Hx as [->|Hx], Hy as [->|Hy]; [done | exfalso.. | by apply IH].
  - apply Hz. by exists y.
  - apply Hz. by exists x.
Qed.

(** ** Machine integers *)

(** Two's-complement wrap-around of an [int64]. *)
Definition int64_wrap (z : Z) : Z := ((z + 2 ^ 63) mod 2 ^ 64 - 2 ^ 63)%Z.

Definition int64_range (z : Z) : Prop := (- 2 ^ 63 <= z < 2 ^ 63)%Z.

Lemma int64_wrap_id z : int64_range z -> int64_wrap z = z.
Proof. unfold int64_range, int64_wrap. intros H. rewrite Z.mod_small; lia. Qed.

Lemma int64_wrap_range z : int64_range (int64_wrap z).
Proof.
  unfold int64_range, int64_wrap.
  pose proof (Z.mod_pos_bound (z + 2 ^ 63) (2 ^ 64) ltac:(lia)). lia.
Qed.

(** ** Automation *)

Create HintDb addon discriminated.
Create Rewrite HintDb addon.

(** Case analysis on the boolean comparisons of a goal or a hypothesis. *)
Ltac go_cases :=
  repeat match goal with
  | H : context [bool_decide (?a = ?b)] |- _ =>
      destruct (bool_decide_reflect (a = b)); simplify_eq/=
  | |- context [bool_decide (?a = ?b)] =>
      destruct (bool_decide_reflect (a = b)); simplify_eq/=
  end.
