(* ===== verification/GoStrings.v ===== *)
(** Go's [strings] functions that the program calls, on byte strings, with
    the lemmas the components share. *)
From S2P Require Import Prelude.

Abbreviation chars := String.list_ascii_of_string.
Abbreviation of_chars := String.string_of_list_ascii.

(** ** Byte strings as lists *)

Lemma chars_app s1 s2 : chars (s1 +:+ s2) = chars s1 ++ chars s2.
Proof. induction s1 as [|a s1 IH]; simpl; [done|]. by rewrite <-IH. Qed.

Lemma length_chars s : length (chars s) = String.length s.
Proof. induction s; simpl; auto. Qed.

Lemma slength_app s1 s2 : String.length (s1 +:+ s2) = String.length s1 + String.length s2.
Proof. rewrite <-!length_chars, chars_app, length_app. done. Qed.

Lemma sapp_assoc s1 s2 s3 : (s1 +:+ s2) +:+ s3 = s1 +:+ (s2 +:+ s3).
Proof. induction s1 as [|a s1 IH]; [done|]. change (String a ((s1 +:+ s2) +:+ s3) = String a (s1 +:+ (s2 +:+ s3))). by rewrite IH. Qed.

Lemma sapp_nil_r s : s +:+ "" = s.
Proof. induction s as [|a s IH]; [done|]. change (String a (s +:+ "") = String a s). by rewrite IH. Qed.

Lemma sapp_nil_l s : "" +:+ s = s.
Proof. done. Qed.

Lemma sapp_cons a s1 s2 : String a s1 +:+ s2 = String a (s1 +:+ s2).
Proof. done. Qed.

Lemma of_chars_chars s : of_chars (chars s) = s.
Proof. apply String.string_of_list_ascii_of_string. Qed.

#[export] Hint Rewrite chars_app slength_app sapp_assoc sapp_nil_r sapp_nil_l : addon.

(** The bytes given by their codes. *)
Definition bytes (l : list nat) : string := of_chars (ascii_of_nat <$> l).

(** ** Prefixes and suffixes *)

Fixpoint strip_prefix (p s : string) : option string :=
  match p, s with
  | EmptyString, _ => Some s
  | String a p', String b s' => if a == b then strip_prefix p' s' else None
  | String _ _, EmptyString => None
  end.

Definition HasPrefix (s p : string) : bool :=
  match strip_prefix p s with Some _ => true | None => false end.

Definition srev (s : string) : string := of_chars (reverse (chars s)).

Definition HasSuffix (s p : string) : bool := HasPrefix (srev s) (srev p).

Definition TrimSuffix (s p : string) : string :=
  match strip_prefix (srev p) (srev s) with
  | Some r => srev r
  | None => s
  end.

Lemma strip_prefix_Some p s r : strip_prefix p s = Some r <-> s = p +:+ r.
Proof.
  revert s. induction p as [|a p IH]; intros s; simpl.
  - split; [by intros [= ->] | by intros ->].
  - destruct s as [|b s]; simpl; [done|].
    case_bool_decide as Hab; subst.
    + rewrite IH, sapp_cons. split; [by intros -> | by intros [=]].
    + rewrite sapp_cons. split; [done | by intros [=]].
Qed.

Lemma HasPrefix_spec s p : HasPrefix s p = true <-> exists r, s = p +:+ r.
Proof.
  unfold HasPrefix. split.
  - destruct (strip_prefix p s) as [r|] eqn:E; [|done].
    intros _. exists r. by apply strip_prefix_Some.
  - intros [r Hr]. apply strip_prefix_Some in Hr. by rewrite Hr.
Qed.

Lemma srev_involutive s : srev (srev s) = s.
Proof.
  unfold srev. rewrite String.list_ascii_of_string_of_list_ascii, reverse_involutive.
  apply of_chars_chars.
Qed.

Lemma chars_srev s : chars (srev s) = reverse (chars s).
Proof. unfold srev. apply String.list_ascii_of_string_of_list_ascii. Qed.

Lemma srev_app s1 s2 : srev (s1 +:+ s2) = srev s2 +:+ srev s1.
Proof.
  rewrite <-(of_chars_chars (srev s2 +:+ srev s1)), chars_app, !chars_srev, <-reverse_app.
  unfold srev. by rewrite chars_app.
Qed.

Lemma HasSuffix_spec s p : HasSuffix s p = true <-> exists r, s = r +:+ p.
Proof.
  unfold HasSuffix. rewrite HasPrefix_spec. split; intros [r Hr].
  - exists (srev r). rewrite <-(srev_involutive s), Hr, srev_app. by rewrite srev_involutive.
  - exists (srev r). by rewrite Hr, srev_app.
Qed.

(** ** strings.Split and strings.Join *)

(** [split_go sep skip cur s]: [skip] bytes of an occurrence of [sep] are
    still to be dropped, [cur] is the piece read so far. *)
Fixpoint split_go (sep : string) (skip : nat) (cur s : string) : list string :=
  match s with
  | EmptyString => [cur]
  | String a s' =>
      match skip with
      | S k => split_go sep k cur s'
      | O => if HasPrefix s sep
             then cur :: split_go sep (pred (String.length sep)) "" s'
             else split_go sep 0 (cur +:+ String a "") s'
      end
  end.

(** [strings.Split(s, sep)] for a non-empty [sep]. *)
Definition Split (s sep : string) : list string := split_go sep 0 "" s.

(** [strings.Join(l, sep)] *)
Definition Join (l : list string) (sep : string) : string := String.concat sep l.
Arguments Join : simpl never.

Lemma split_go_skip sep n s cur p :
  String.length p = n -> split_go sep n cur (p +:+ s) = split_go sep 0 cur s.
Proof.
  revert n. induction p as [|a p IH]; intros n Hn; simpl in *; subst; [done|].
  change (String a p +:+ s) with (String a (p +:+ s)). simpl. by apply IH.
Qed.

Lemma split_go_not_nil sep k cur s : split_go sep k cur s <> [].
Proof.
  revert k cur. induction s as [|a s IH]; intros [|k] cur; simpl; auto.
  destruct (HasPrefix (String a s) sep); [done | apply IH].
Qed.

Lemma Join_cons x l sep : l <> [] -> Join (x :: l) sep = x +:+ sep +:+ Join l sep.
Proof. destruct l; [done|]. intros _. unfold Join. reflexivity. Qed.

Lemma Join_split_go sep cur s :
  sep <> "" -> Join (split_go sep 0 cur s) sep = cur +:+ s.
Proof.
  intros Hsep. remember (String.length s) as n eqn:Hn.
  revert cur s Hn. induction n as [n IH] using lt_wf_ind; intros cur s ->.
  destruct s as [|a s]; simpl.
  - unfold Join. simpl. by rewrite sapp_nil_r.
  - destruct (HasPrefix (String a s) sep) eqn:Hp.
    + apply HasPrefix_spec in Hp as [r Hr]. destruct sep as [|b sep]; [done|].
      change (String b sep +:+ r) with (String b (sep +:+ r)) in Hr.
      injection Hr as -> ->. simpl.
      rewrite split_go_skip by done.
      rewrite Join_cons by apply split_go_not_nil.
      rewrite (IH (String.length r)); [done | | done].
      simpl. rewrite slength_app. lia.
    + rewrite (IH (String.length s)); [|simpl; lia | done].
      by rewrite sapp_assoc.
Qed.

(** Joining the pieces of a split gives the string back. *)
Lemma Join_Split s sep : sep <> "" -> Join (Split s sep) sep = s.
Proof. intros H. unfold Split. by rewrite Join_split_go. Qed.

(** Splitting at a single byte. *)
Definition byte_free (c : ascii) (s : string) : Prop := c ∉ chars s.

Lemma HasPrefix_byte a s c : HasPrefix (String a s) (String c "") = (c == a).
Proof. unfold HasPrefix. simpl. by case_bool_decide. Qed.

Lemma split_go_free c cur s :
  byte_free c s -> split_go (String c "") 0 cur s = [cur +:+ s].
Proof.
  unfold byte_free. revert cur. induction s as [|a s IH]; intros cur Hc.
  - simpl. by rewrite sapp_nil_r.
  - simpl in *. apply not_elem_of_cons in Hc as [Hne Hc].
    rewrite HasPrefix_byte, bool_decide_false by done.
    rewrite IH by done. by rewrite sapp_assoc.
Qed.

Lemma split_go_sep c cur s1 s2 :
  split_go (String c "") 0 cur (s1 +:+ String c s2) =
  split_go (String c "") 0 cur s1 ++ split_go (String c "") 0 "" s2.
Proof.
  revert cur. induction s1 as [|a s1 IH]; intros cur.
  - simpl. rewrite HasPrefix_byte. by rewrite bool_decide_true.
  - rewrite sapp_cons. simpl. rewrite !HasPrefix_byte.
    case_bool_decide; simpl; by rewrite IH.
Qed.

Lemma Split_free c s : byte_free c s -> Split s (String c "") = [s].
Proof. apply split_go_free. Qed.

Lemma Split_sep c s1 s2 :
  Split (s1 +:+ String c s2) (String c "") =
  Split s1 (String c "") ++ Split s2 (String c "").
Proof. apply split_go_sep. Qed.

(** Splitting a joined list gives the list back when no element contains the
    separator. *)
Lemma Split_Join c l :
  l <> [] -> Forall (byte_free c) l -> Split (Join l (String c "")) (String c "") = l.
Proof.
  intros Hne Hl. induction Hl as [|x l Hx Hl IH]; [done|].
  destruct l as [|y l].
  - change (Join [x] (String c "")) with x. by apply Split_free.
  - rewrite Join_cons by done. rewrite (sapp_cons c ""), sapp_nil_l, Split_sep, Split_free by done.
    by rewrite IH.
Qed.

Lemma Split_length s sep : 1 <= length (Split s sep).
Proof.
  unfold Split. pose proof (split_go_not_nil sep 0 "" s).
  destruct (split_go sep 0 "" s); simpl; [done | lia].
Qed.

(** ** Splitting at a longer separator *)

(** [strings.Contains(s, sep)] *)
Fixpoint Contains (s sep : string) : bool :=
  HasPrefix s sep || match s with EmptyString => false | String _ s' => Contains s' sep end.

(** No occurrence of [sep] starts inside the prefix [p] of [p +:+ s]. *)
Fixpoint no_start (sep p s : string) : bool :=
  match p with
  | EmptyString => true
  | String _ p' => negb (HasPrefix (p +:+ s) sep) && no_start sep p' s
  end.

Lemma split_go_no_start sep p s cur :
  no_start sep p s = true -> split_go sep 0 cur (p +:+ s) = split_go sep 0 (cur +:+ p) s.
Proof.
  revert cur. induction p as [|a p IH]; intros cur Hp; [by rewrite sapp_nil_l, sapp_nil_r|].
  cbn [no_start] in Hp. apply andb_prop in Hp as [Ha Hp]. apply negb_true_iff in Ha.
  rewrite sapp_cons in *. cbn [split_go]. rewrite Ha, IH by done. by rewrite sapp_assoc.
Qed.

Lemma HasPrefix_app s r : HasPrefix (s +:+ r) s = true.
Proof. apply HasPrefix_spec. by exists r. Qed.

(** A piece that ends where the next separator starts. *)
Lemma Split_piece sep p s :
  sep <> "" -> no_start sep p (sep +:+ s) = true -> Split (p +:+ (sep +:+ s)) sep = p :: Split s sep.
Proof.
  intros Hsep Hp. unfold Split. rewrite split_go_no_start, sapp_nil_l by done.
  destruct sep as [|c sep]; [done|].
  pose proof (HasPrefix_app (String c sep) s) as Hpre. rewrite sapp_cons in *.
  cbn [split_go]. rewrite Hpre. cbn [String.length pred]. by rewrite split_go_skip.
Qed.

Lemma HasPrefix_cons a s b p : HasPrefix (String a s) (String b p) = (b == a) && HasPrefix s p.
Proof. unfold HasPrefix. cbn [strip_prefix]. by case_bool_decide. Qed.

Lemma HasPrefix_empty s : HasPrefix s "" = true.
Proof. done. Qed.

Lemma HasPrefix_long s r p :
  String.length p <= String.length s -> HasPrefix (s +:+ r) p = HasPrefix s p.
Proof.
  revert s. induction p as [|b p IH]; intros s Hl; [done|].
  destruct s as [|a s]; simpl in Hl; [lia|].
  rewrite sapp_cons, !HasPrefix_cons. f_equal. apply IH. lia.
Qed.

Lemma HasSuffix_cons a s p : HasSuffix s p = true -> HasSuffix (String a s) p = true.
Proof. rewrite !HasSuffix_spec. intros [r ->]. by exists (String a r). Qed.

(** The first occurrence of the separator. *)
Lemma first_occurrence sep s :
  sep <> "" ->
  no_start sep s "" = true \/
  exists p r, s = p +:+ (sep +:+ r) /\ no_start sep p (sep +:+ r) = true.
Proof.
  intros Hsep. induction s as [|a s IH]; [by left|].
  destruct (HasPrefix (String a s) sep) eqn:Ha.
  - right. apply HasPrefix_spec in Ha as [r Hr]. by exists "", r.
  - destruct IH as [Hs|(p & r & -> & Hp)].
    + left. cbn [no_start]. by rewrite sapp_nil_r, Ha.
    + right. exists (String a p), r. split; [done|].
      cbn [no_start]. rewrite sapp_cons, Ha. done.
Qed.

Lemma no_start_Contains sep p s : sep <> "" -> no_start sep p s = true -> Contains p sep = false.
Proof.
  intros Hsep. induction p as [|a p IH]; intros Hp; [by destruct sep|].
  cbn [no_start] in Hp. apply andb_prop in Hp as [Ha Hp]. apply negb_true_iff in Ha.
  cbn [Contains]. rewrite IH by done. rewrite orb_false_r.
  destruct (HasPrefix (String a p) sep) eqn:Hpre; [|done].
  apply HasPrefix_spec in Hpre as [r Hr]. by rewrite Hr, sapp_assoc, HasPrefix_app in Ha.
Qed.

(** No piece of a split contains the separator. *)
Lemma Split_pieces sep s : sep <> "" -> Forall (fun p => Contains p sep = false) (Split s sep).
Proof.
  intros Hsep. remember (String.length s) as n eqn:Hn. revert s Hn.
  induction n as [n IH] using lt_wf_ind; intros s ->.
  destruct (first_occurrence sep s Hsep) as [Hs|(p & r & -> & Hp)].
  - unfold Split. rewrite <-(sapp_nil_r s), split_go_no_start by done. cbn [split_go].
    constructor; [|constructor]. rewrite sapp_nil_l. by eapply no_start_Contains.
  - rewrite Split_piece by done. constructor; [by eapply no_start_Contains|].
    eapply IH; [|reflexivity]. rewrite !slength_app.
    destruct sep; [done|]. simpl. lia.
Qed.

(** ** strings.TrimSpace *)

(** The UTF-8 encodings of the runes [unicode.IsSpace] accepts. *)
Definition space_encodings : list string :=
  bytes <$> ([[9]; [10]; [11]; [12]; [13]; [32]; [194; 133]; [194; 160]; [225; 154; 128];
    [226; 128; 168]; [226; 128; 169]; [226; 128; 175]; [226; 129; 159]; [227; 128; 128]]
    ++ ((fun k => [226; 128; 128 + k]) <$> seq 0 11)).

Fixpoint strip_any (encs : list string) (s : string) : option string :=
  match encs with
  | [] => None
  | e :: encs' => match strip_prefix e s with
                  | Some r => Some r
                  | None => strip_any encs' s
                  end
  end.

(** Each round removes at least one byte, so the length of the string is
    enough fuel. *)
Fixpoint trim_left (encs : list string) (fuel : nat) (s : string) : string :=
  match fuel with
  | O => s
  | S fuel' => match strip_any encs s with
               | Some r => trim_left encs fuel' r
               | None => s
               end
  end.

Definition trim_left_space (encs : list string) (s : string) : string :=
  trim_left encs (String.length s) s.

Definition TrimSpace (s : string) : string :=
  srev (trim_left_space (srev <$> space_encodings)
         (srev (trim_left_space space_encodings s))).

(** Printable ASCII other than the blank. *)
Definition graphic (a : ascii) : bool :=
  (33 <=? nat_of_ascii a)%nat && (nat_of_ascii a <=? 126)%nat.

Lemma strip_any_graphic encs a s :
  forallb (fun e => match e with EmptyString => false | String b _ => negb (graphic b) end) encs
    = true ->
  graphic a = true -> strip_any encs (String a s) = None.
Proof.
  intros He Ha. induction encs as [|e encs IH]; [done|].
  simpl in He. apply andb_prop in He as [H1 H2]. destruct e as [|b e]; [done|]. simpl.
  case_bool_decide as Hab; [|by auto]. subst. by rewrite Ha in H1.
Qed.

Lemma trim_left_graphic encs s :
  forallb (fun e => match e with EmptyString => false | String b _ => negb (graphic b) end) encs
    = true ->
  Forall (fun a => graphic a = true) (chars s) -> trim_left_space encs s = s.
Proof.
  intros He Hs. unfold trim_left_space. destruct s as [|a s]; simpl; [done|].
  inversion Hs; subst. by rewrite strip_any_graphic.
Qed.

(** A string of graphic bytes has nothing to trim. *)
Lemma TrimSpace_graphic s : Forall (fun a => graphic a = true) (chars s) -> TrimSpace s = s.
Proof.
  intros Hs. unfold TrimSpace.
  rewrite (trim_left_graphic space_encodings s) by (done || by vm_compute).
  rewrite trim_left_graphic; [apply srev_involutive | by vm_compute |].
  rewrite chars_srev. by apply Forall_reverse.
Qed.

(** ** Formatting verbs *)

(** [%q] (strconv.Quote).  Quotes, backslashes and control bytes are
    escaped; other bytes are copied, as Go does for printable UTF-8. *)
Definition dquote : ascii := ascii_of_nat 34.
Definition backslash : ascii := ascii_of_nat 92.

Definition hex_digit (n : N) : ascii :=
  ascii_of_N (if (n <? 10)%N then 48 + n else 87 + n)%N.

Definition quote_byte (a : ascii) : string :=
  let c := nat_of_ascii a in
  if (c =? 34)%nat then String backslash (String dquote "")
  else if (c =? 92)%nat then String backslash (String backslash "")
  else if (c =? 7)%nat then String backslash "a"
  else if (c =? 8)%nat then String backslash "b"
  else if (c =? 12)%nat then String backslash "f"
  else if (c =? 10)%nat then String backslash "n"
  else if (c =? 13)%nat then String backslash "r"
  else if (c =? 9)%nat then String backslash "t"
  else if (c =? 11)%nat then String backslash "v"
  else if (c <? 32)%nat || (c =? 127)%nat
  then String backslash (String "x" (String (hex_digit (N.of_nat c / 16))
         (String (hex_digit (N.of_nat c mod 16)) "")))
  else String a "".

Definition Quote (s : string) : string :=
  String dquote (foldr (fun a acc => quote_byte a +:+ acc) (String dquote "") (chars s)).

(** [%x] of a [uint32]: lower-case hexadecimal without leading zeros.  Eight
    digits are enough fuel for 32 bits. *)
Fixpoint hex_go (fuel : nat) (n : N) (acc : string) : string :=
  match fuel with
  | O => acc
  | S fuel' =>
      let acc' := String (hex_digit (n mod 16)) acc in
      if (n <? 16)%N then acc' else hex_go fuel' (n / 16) acc'
  end.

Definition hex_uint32 (n : N) : string := hex_go 8 n "".

(** [strings.Title] on ASCII text: the first letter of each word. *)
Definition is_word_byte (a : ascii) : bool :=
  let c := nat_of_ascii a in
  (48 <=? c)%nat && (c <=? 57)%nat || (65 <=? c)%nat && (c <=? 90)%nat
  || (97 <=? c)%nat && (c <=? 122)%nat || (c =? 95)%nat || (128 <=? c)%nat.

Definition to_title (a : ascii) : ascii :=
  let c := nat_of_ascii a in
  if (97 <=? c)%nat && (c <=? 122)%nat then ascii_of_nat (c - 32) else a.

Fixpoint title_go (in_word : bool) (s : string) : string :=
  match s with
  | EmptyString => EmptyString
  | String a s' => String (if in_word then a else to_title a) (title_go (is_word_byte a) s')
  end.

Definition Title (s : string) : string := title_go false s.

Example Title_prereqs : Title "prereqs" = "Prereqs".
Proof. reflexivity. Qed.

Example Split_example : Split "a-b--c" "-" = ["a"; "b"; ""; "c"].
Proof. reflexivity. Qed.

Example TrimSpace_example :
  TrimSpace (bytes [32; 10] +:+ "x y" +:+ bytes [226; 128; 131; 9]) = "x y".
Proof. reflexivity. Qed.

Example hex_example : hex_uint32 2473974951 = "9375dca7".
Proof. reflexivity. Qed.

(** ** Facts about hexadecimal output *)

Definition is_hex (a : ascii) : bool :=
  let c := nat_of_ascii a in
  (48 <=? c)%nat && (c <=? 57)%nat || (97 <=? c)%nat && (c <=? 102)%nat.

Lemma is_hex_digit n : (n < 16)%N -> is_hex (hex_digit n) = true.
Proof.
  intros H.
  assert (forallb (fun k => is_hex (hex_digit (N.of_nat k))) (seq 0 16) = true) as Hall
    by reflexivity.
  rewrite forallb_forall in Hall. specialize (Hall (N.to_nat n)).
  rewrite N2Nat.id in Hall. apply Hall. apply in_seq. lia.
Qed.

Lemma hex_go_props fuel n acc :
  Forall (fun a => is_hex a = true) (chars acc) ->
  Forall (fun a => is_hex a = true) (chars (hex_go fuel n acc)) /\
  String.length acc <= String.length (hex_go fuel n acc) <= fuel + String.length acc.
Proof.
  revert n acc. induction fuel as [|fuel IH]; intros n acc Hacc; simpl; [split; [done|lia]|].
  assert (Forall (fun a => is_hex a = true) (chars (String (hex_digit (n mod 16)) acc))) as H'.
  { constructor; [|done]. apply is_hex_digit. by apply N.mod_lt. }
  destruct (n <? 16)%N; [split; [done | simpl; lia]|].
  destruct (IH (n / 16)%N _ H') as [? ?]. simpl in *. split; [done | lia].
Qed.

Lemma hex_uint32_chars n : Forall (fun a => is_hex a = true) (chars (hex_uint32 n)).
Proof. apply hex_go_props. constructor. Qed.

Lemma hex_uint32_length n : 1 <= String.length (hex_uint32 n) <= 8.
Proof.
  unfold hex_uint32.
  split; [|pose proof (proj2 (hex_go_props 8 n "" ltac:(constructor))); simpl in *; lia].
  cbn [hex_go]. destruct (n <? 16)%N; [simpl; lia|].
  etrans; [|apply (hex_go_props 7)]; [simpl; lia|].
  constructor; [|constructor]. apply is_hex_digit. by apply N.mod_lt.
Qed.

Lemma is_hex_graphic a : is_hex a = true -> graphic a = true.
Proof.
  unfold is_hex, graphic. intros H.
  apply andb_true_intro. rewrite !Nat.leb_le.
  apply orb_prop in H as [H|H]; apply andb_prop in H as [H1 H2];
    apply Nat.leb_le in H1, H2; lia.
Qed.
