(* ===== verification/GoFmt.v ===== *)
(** The parts of Go's [fmt] and [hash/adler32] behind the addon checksum:
    the [%+v] rendering of structs, maps and slices, and Adler-32. *)
From S2P Require Import Prelude GoStrings.

(** ** The [%+v] verb *)

(** [fmt] prints a map in ascending order of its keys. *)
Definition sorted_entries {V : Type} (m : gmap string V) : list (string * V) :=
  merge_sort (fun x y : string * V => String.le x.1 y.1) (map_to_list m).

Definition fmt_map {V : Type} (f : V -> string) (m : gmap string V) : string :=
  "map[" +:+ Join ((fun kv => kv.1 +:+ ":" +:+ f kv.2) <$> sorted_entries m) " " +:+ "]".

Definition fmt_slice {A : Type} (f : A -> string) (l : list A) : string :=
  "[" +:+ Join (f <$> l) " " +:+ "]".

Definition fmt_struct (fields : list (string * string)) : string :=
  "{" +:+ Join ((fun nv => nv.1 +:+ ":" +:+ nv.2) <$> fields) " " +:+ "}".

(** A struct is printed as what precedes a field, the field's value and what
    follows it. *)
Lemma fmt_struct_split pre post name :
  exists p q, forall v, fmt_struct (pre ++ (name, v) :: post) = p +:+ v +:+ q.
Proof.
  assert (forall l : list (string * string), exists p q, forall v,
    Join ((fun nv => nv.1 +:+ ":" +:+ nv.2) <$> (l ++ (name, v) :: post)) " " = p +:+ v +:+ q)
    as Hgen.
  { induction l as [|[n w] l (p & q & IH)].
    - destruct post as [|f post].
      + exists (name +:+ ":"), "". intros v. unfold Join. simpl.
        by rewrite sapp_nil_r, sapp_assoc.
      + eexists (name +:+ ":"), _. intros v. rewrite app_nil_l, fmap_cons.
        rewrite Join_cons by done. simpl. rewrite !sapp_assoc. reflexivity.
    - eexists ((n +:+ ":" +:+ w) +:+ " " +:+ p), q. intros v.
      rewrite <-app_comm_cons, fmap_cons, Join_cons, IH.
      + by rewrite !sapp_assoc.
      + by destruct l. }
  destruct (Hgen pre) as (p & q & H). exists ("{" +:+ p), (q +:+ "}"). intros v.
  unfold fmt_struct. rewrite H. by rewrite !sapp_assoc.
Qed.

(** ** Adler-32 *)

Definition adler_mod : N := 65521.

Definition adler_step (ab : N * N) (c : ascii) : N * N :=
  let a := ((ab.1 + N_of_ascii c) mod adler_mod)%N in
  (a, ((ab.2 + a) mod adler_mod)%N).

(** [adler32.Checksum]: the [uint32] made of the two 16-bit sums. *)
Definition adler32_Checksum (s : string) : N :=
  let '(a, b) := foldl adler_step (1, 0)%N (chars s) in
  N.lor (N.shiftl b 16) a.

Example adler32_wikipedia : adler32_Checksum "Wikipedia" = 300286872%N.
Proof. reflexivity. Qed.

Lemma adler_step_bounds ab l :
  (ab.1 < adler_mod)%N -> (ab.2 < adler_mod)%N ->
  ((foldl adler_step ab l).1 < adler_mod)%N /\ ((foldl adler_step ab l).2 < adler_mod)%N.
Proof.
  revert ab. induction l as [|c l IH]; intros ab Ha Hb; simpl; [done|].
  apply IH; simpl; by apply N.mod_lt.
Qed.

(** The first sum only depends on the total of the bytes. *)
Definition byte_sum (l : list ascii) : N := foldr (fun c n => N_of_ascii c + n)%N 0%N l.

Lemma adler_fst ab l :
  (ab.1 < adler_mod)%N ->
  (foldl adler_step ab l).1 = ((ab.1 + byte_sum l) mod adler_mod)%N.
Proof.
  revert ab. induction l as [|c l IH]; intros ab Ha; simpl.
  - rewrite N.add_0_r. by rewrite N.mod_small.
  - rewrite IH by (simpl; by apply N.mod_lt). simpl.
    rewrite N.Div0.add_mod_idemp_l. f_equal. lia.
Qed.

Lemma lor_shift_add a b : (a < 2 ^ 16)%N -> N.lor (N.shiftl b 16) a = (b * 2 ^ 16 + a)%N.
Proof.
  intros Ha. rewrite <-N.lxor_lor, <-N.add_nocarry_lxor, N.shiftl_mul_pow2; [done|..];
  apply N.bits_inj; intros i; rewrite N.land_spec, N.bits_0;
  (destruct (N.lt_ge_cases i 16);
   [by rewrite N.shiftl_spec_low | rewrite (N.bits_above_log2 a), andb_false_r; [done|]]);
  (destruct (N.eq_dec a 0) as [->|Hn]; [simpl; lia|]);
  (apply N.lt_le_trans with 16%N; [|lia]; by apply N.log2_lt_pow2; lia).
Qed.

Lemma adler32_Checksum_eq s :
  adler32_Checksum s =
  ((foldl adler_step (1, 0) (chars s)).2 * 2 ^ 16 + (foldl adler_step (1, 0) (chars s)).1)%N.
Proof.
  unfold adler32_Checksum.
  pose proof (adler_step_bounds (1, 0)%N (chars s)) as H.
  destruct (foldl adler_step (1, 0)%N (chars s)) as [a b]. simpl in *.
  apply lor_shift_add. destruct H as [H _]; [done..|]. unfold adler_mod in H. lia.
Qed.

Lemma adler32_Checksum_lt s : (adler32_Checksum s < 2 ^ 32)%N.
Proof.
  rewrite adler32_Checksum_eq.
  pose proof (adler_step_bounds (1, 0)%N (chars s)) as H. unfold adler_mod in H.
  simpl in H. destruct H as [? ?]; [done..|]. lia.
Qed.

Lemma byte_sum_app l1 l2 : byte_sum (l1 ++ l2) = (byte_sum l1 + byte_sum l2)%N.
Proof. unfold byte_sum. induction l1 as [|c l1 IH]; simpl; [done|]. rewrite IH. lia. Qed.

(** Replacing one byte always changes the checksum. *)
Lemma adler32_one_byte p q a b :
  a <> b ->
  adler32_Checksum (p +:+ String a q) <> adler32_Checksum (p +:+ String b q).
Proof.
  intros Hab Heq. rewrite !adler32_Checksum_eq in Heq.
  set (A := foldl adler_step (1, 0)%N (chars (p +:+ String a q))) in *.
  set (B := foldl adler_step (1, 0)%N (chars (p +:+ String b q))) in *.
  destruct (adler_step_bounds (1, 0)%N (chars (p +:+ String a q))) as [HA _]; [done..|].
  destruct (adler_step_bounds (1, 0)%N (chars (p +:+ String b q))) as [HB _]; [done..|].
  fold A in HA. fold B in HB. unfold adler_mod in HA, HB.
  assert (A.1 = B.1) as H1 by lia.
  subst A B. rewrite !adler_fst in H1 by done.
  rewrite !chars_app, !byte_sum_app in H1. simpl in H1.
  assert (forall c, (N_of_ascii c < 256)%N) as Hc by apply N_ascii_bounded.
  pose proof (Hc a). pose proof (Hc b).
  assert (N_of_ascii a = N_of_ascii b) as Hn.
  { unfold adler_mod in H1. revert H1.
    generalize (N_of_ascii a) (N_of_ascii b) (byte_sum (chars p)) (byte_sum (chars q)) H H0.
    intros x y u v ? ? H1. zify. Z.to_euclidean_division_equations. lia. }
  apply Hab. rewrite <-(ascii_N_embedding a), <-(ascii_N_embedding b). by rewrite Hn.
Qed.

(** ** Reading hexadecimal back *)

Definition unhex_digit (a : ascii) : N :=
  let c := N_of_ascii a in if (c <? 58)%N then (c - 48)%N else (c - 87)%N.

Definition unhex (s : string) : N :=
  foldl (fun n a => n * 16 + unhex_digit a)%N 0%N (chars s).

Lemma unhex_hex_digit n : (n < 16)%N -> unhex_digit (hex_digit n) = n.
Proof.
  intros H.
  assert (forallb (fun k => unhex_digit (hex_digit (N.of_nat k)) =? N.of_nat k)%N (seq 0 16) = true)
    as Hall by reflexivity.
  rewrite forallb_forall in Hall. specialize (Hall (N.to_nat n)).
  rewrite N2Nat.id in Hall. apply N.eqb_eq, Hall, in_seq. lia.
Qed.

Lemma unhex_hex_go fuel n acc :
  (n < 16 ^ N.of_nat fuel)%N ->
  foldl (fun m a => m * 16 + unhex_digit a)%N 0%N (chars (hex_go fuel n acc)) =
  foldl (fun m a => m * 16 + unhex_digit a)%N n (chars acc).
Proof.
  revert n acc. induction fuel as [|fuel IH]; intros n acc Hn.
  - simpl in *. assert (n = 0)%N as -> by lia. done.
  - cbn [hex_go]. destruct (N.ltb_spec n 16).
    + simpl. rewrite N.mod_small, unhex_hex_digit by done. done.
    + rewrite IH.
      * cbn [chars foldl]. rewrite unhex_hex_digit by (by apply N.mod_lt).
        f_equal. pose proof (N.div_mod n 16 ltac:(done)). lia.
      * rewrite Nat2N.inj_succ, N.pow_succ_r' in Hn.
        apply N.Div0.div_lt_upper_bound. lia.
Qed.

Lemma unhex_hex_uint32 n : (n < 2 ^ 32)%N -> unhex (hex_uint32 n) = n.
Proof.
  intros H. unfold unhex, hex_uint32. rewrite unhex_hex_go; [done|].
  change (16 ^ N.of_nat 8)%N with (2 ^ 32)%N. done.
Qed.

Lemma hex_uint32_inj n m :
  (n < 2 ^ 32)%N -> (m < 2 ^ 32)%N -> hex_uint32 n = hex_uint32 m -> n = m.
Proof.
  intros Hn Hm H. rewrite <-(unhex_hex_uint32 n), <-(unhex_hex_uint32 m) by done.
  by rewrite H.
Qed.
