(* ===== verification/AddonTypes.v ===== *)
(** The Addon custom resource: [api/addon/v1alpha1/addon_types.go] and the
    constants of [api/addon/const.go].

    A Go string type ([ApplicationAssemblyPhase], [LifecycleStep],
    [PackageType], [FlexString]) is a [string] with the source's constants;
    a [map[string]T] is a [gmap string T]; a method with a pointer receiver
    that assigns fields is a function giving the updated record. *)
From S2P Require Import Prelude GoStrings GoFmt.

(** ** Constants (const.go) *)

Definition Group : string := "addonmgr.keikoproj.io".
Definition ManagedNameSpace : string := "addon-manager-system".
Definition FinalizerName : string := "delete.addonmgr.keikoproj.io".
Definition ResourceDefaultManageByLabel : string := "app.kubernetes.io/managed-by".
Definition ResourceDefaultOwnLabel : string := "app.kubernetes.io/name".
Definition ResourceDefaultPartLabel : string := "app.kubernetes.io/part-of".
Definition ResourceDefaultVersionLabel : string := "app.kubernetes.io/version".

(** [TTL.Milliseconds()] of one hour, and [TTL.String()]. *)
Definition TTL_Milliseconds : Z := 3600000.
Definition TTL_String : string := "1h0m0s".

(** ** The spec *)

Abbreviation FlexString := string (only parsing).
Abbreviation PackageType := string (only parsing).
Abbreviation ApplicationAssemblyPhase := string (only parsing).
Abbreviation LifecycleStep := string (only parsing).

Record ClusterContext := mkClusterContext {
  ClusterName : string;
  ClusterRegion : string;
  AdditionalConfigs : gmap string FlexString
}.

Record AddonParams := mkAddonParams {
  Params_Namespace : string;
  Params_Context : ClusterContext;
  Params_Data : gmap string FlexString
}.

Record KustomizeTemplate := mkKustomizeTemplate { KT_Template : gmap string string }.

Record KustomizeSpec := mkKustomizeSpec {
  KS_Labels : gmap string string;
  KS_Annotations : gmap string string;
  KS_Resources : list string;
  KS_Overlay : KustomizeTemplate
}.

Definition HelmPkg : PackageType := "helm".
Definition ShipPkg : PackageType := "ship".
Definition KustomizePkg : PackageType := "kustomize".
Definition CnabPkg : PackageType := "cnab".
Definition CompositePkg : PackageType := "composite".

Record AddonOverridesSpec := mkAddonOverridesSpec {
  Overrides_Kustomize : KustomizeSpec;
  Overrides_Template : gmap string string
}.

(** [Cmd] is the integer type [CmdType]. *)
Record SecretCmdSpec := mkSecretCmdSpec {
  Secret_Name : string;
  Secret_Cmd : Z;
  Secret_Args : list string
}.

Record WorkflowType := mkWorkflowType {
  NamePrefix : string;
  Role : string;
  WorkflowRole : string;
  Template : string
}.

Record LifecycleWorkflowSpec := mkLifecycleWorkflowSpec {
  LC_Prereqs : WorkflowType;
  LC_Install : WorkflowType;
  LC_Delete : WorkflowType;
  LC_Validate : WorkflowType
}.

Record PackageSpec := mkPackageSpec {
  PkgChannel : string;
  PkgName : string;
  PkgVersion : string;
  PkgType : PackageType;
  PkgDescription : string;
  PkgDeps : gmap string string
}.

(** [metav1.LabelSelector], the Kubernetes type of [spec.selector]. *)
Record LabelSelectorRequirement := mkLabelSelectorRequirement {
  LSR_Key : string;
  LSR_Operator : string;
  LSR_Values : list string
}.

Record LabelSelector := mkLabelSelector {
  MatchLabels : gmap string string;
  MatchExpressions : list LabelSelectorRequirement
}.

Record AddonSpec := mkAddonSpec {
  Spec_Package : PackageSpec;
  Params : AddonParams;
  Selector : LabelSelector;
  Overrides : AddonOverridesSpec;
  Secrets : list SecretCmdSpec;
  Lifecycle : LifecycleWorkflowSpec
}.

(** ** The status *)

Record AddonStatusLifecycle := mkAddonStatusLifecycle {
  Prereqs_Phase : ApplicationAssemblyPhase;
  Installed_Phase : ApplicationAssemblyPhase
}.

Record ObjectStatus := mkObjectStatus {
  Link : string;
  Obj_Name : string;
  Obj_Kind : string;
  Obj_Group : string;
  Obj_Status : string
}.

(** [StartTime] is an [int64] of milliseconds. *)
Record AddonStatus := mkAddonStatus {
  Checksum : string;
  Status_Lifecycle : AddonStatusLifecycle;
  Resources : list ObjectStatus;
  Reason : string;
  StartTime : Z
}.

(** The fields of [metav1.ObjectMeta] the program reads or writes.  A nil
    or zero deletion timestamp is [None]. *)
Record ObjectMeta := mkObjectMeta {
  Name : string;
  Namespace : string;
  ResourceVersion : string;
  DeletionTimestamp : option Z;
  Finalizers : list string;
  Labels : gmap string string
}.

Record Addon := mkAddon {
  Meta : ObjectMeta;
  Spec : AddonSpec;
  Status : AddonStatus
}.

#[global] Instance ClusterContext_eq_dec : EqDecision ClusterContext.
Proof. solve_decision. Defined.
#[global] Instance AddonParams_eq_dec : EqDecision AddonParams.
Proof. solve_decision. Defined.
#[global] Instance KustomizeTemplate_eq_dec : EqDecision KustomizeTemplate.
Proof. solve_decision. Defined.
#[global] Instance KustomizeSpec_eq_dec : EqDecision KustomizeSpec.
Proof. solve_decision. Defined.
#[global] Instance AddonOverridesSpec_eq_dec : EqDecision AddonOverridesSpec.
Proof. solve_decision. Defined.
#[global] Instance SecretCmdSpec_eq_dec : EqDecision SecretCmdSpec.
Proof. solve_decision. Defined.
#[global] Instance WorkflowType_eq_dec : EqDecision WorkflowType.
Proof. solve_decision. Defined.
#[global] Instance LifecycleWorkflowSpec_eq_dec : EqDecision LifecycleWorkflowSpec.
Proof. solve_decision. Defined.
#[global] Instance PackageSpec_eq_dec : EqDecision PackageSpec.
Proof. solve_decision. Defined.
#[global] Instance LabelSelectorRequirement_eq_dec : EqDecision LabelSelectorRequirement.
Proof. solve_decision. Defined.
#[global] Instance LabelSelector_eq_dec : EqDecision LabelSelector.
Proof. solve_decision. Defined.
#[global] Instance AddonSpec_eq_dec : EqDecision AddonSpec.
Proof. solve_decision. Defined.
#[global] Instance AddonStatusLifecycle_eq_dec : EqDecision AddonStatusLifecycle.
Proof. solve_decision. Defined.
#[global] Instance ObjectStatus_eq_dec : EqDecision ObjectStatus.
Proof. solve_decision. Defined.
#[global] Instance AddonStatus_eq_dec : EqDecision AddonStatus.
Proof. solve_decision. Defined.
#[global] Instance ObjectMeta_eq_dec : EqDecision ObjectMeta.
Proof. solve_decision. Defined.
#[global] Instance Addon_eq_dec : EqDecision Addon.
Proof. solve_decision. Defined.

(** Zero values, as Go's composite literals give them. *)
Definition zero_WorkflowType : WorkflowType := mkWorkflowType "" "" "" "".

Definition zero_AddonSpec : AddonSpec := {|
  Spec_Package := mkPackageSpec "" "" "" "" "" ∅;
  Params := mkAddonParams "" (mkClusterContext "" "" ∅) ∅;
  Selector := mkLabelSelector ∅ [];
  Overrides := mkAddonOverridesSpec (mkKustomizeSpec ∅ ∅ [] (mkKustomizeTemplate ∅)) ∅;
  Secrets := [];
  Lifecycle := mkLifecycleWorkflowSpec zero_WorkflowType zero_WorkflowType
                 zero_WorkflowType zero_WorkflowType |}.

Definition zero_AddonStatus : AddonStatus :=
  mkAddonStatus "" (mkAddonStatusLifecycle "" "") [] "" 0.

(** ** Field assignment *)

Definition set_Status (f : AddonStatus -> AddonStatus) (a : Addon) : Addon :=
  mkAddon (Meta a) (Spec a) (f (Status a)).

Definition set_Spec (f : AddonSpec -> AddonSpec) (a : Addon) : Addon :=
  mkAddon (Meta a) (f (Spec a)) (Status a).

Definition set_Meta (f : ObjectMeta -> ObjectMeta) (a : Addon) : Addon :=
  mkAddon (f (Meta a)) (Spec a) (Status a).

Definition set_Checksum (c : string) (s : AddonStatus) : AddonStatus :=
  mkAddonStatus c (Status_Lifecycle s) (Resources s) (Reason s) (StartTime s).

Definition set_Resources (r : list ObjectStatus) (s : AddonStatus) : AddonStatus :=
  mkAddonStatus (Checksum s) (Status_Lifecycle s) r (Reason s) (StartTime s).

Definition set_Reason (r : string) (s : AddonStatus) : AddonStatus :=
  mkAddonStatus (Checksum s) (Status_Lifecycle s) (Resources s) r (StartTime s).

Definition set_StartTime (t : Z) (s : AddonStatus) : AddonStatus :=
  mkAddonStatus (Checksum s) (Status_Lifecycle s) (Resources s) (Reason s) t.

Definition set_Prereqs (p : ApplicationAssemblyPhase) (s : AddonStatus) : AddonStatus :=
  mkAddonStatus (Checksum s) (mkAddonStatusLifecycle p (Installed_Phase (Status_Lifecycle s)))
    (Resources s) (Reason s) (StartTime s).

Definition set_Installed (p : ApplicationAssemblyPhase) (s : AddonStatus) : AddonStatus :=
  mkAddonStatus (Checksum s) (mkAddonStatusLifecycle (Prereqs_Phase (Status_Lifecycle s)) p)
    (Resources s) (Reason s) (StartTime s).

Abbreviation addon_Name a := (Name (Meta a)).
Abbreviation addon_Namespace a := (Namespace (Meta a)).

(** ** Phases and lifecycle steps *)

Definition Pending : ApplicationAssemblyPhase := "Pending".
Definition Succeeded : ApplicationAssemblyPhase := "Succeeded".
Definition Failed : ApplicationAssemblyPhase := "Failed".
Definition ValidationFailed : ApplicationAssemblyPhase := "Validation Failed".
Definition Deleting : ApplicationAssemblyPhase := "Deleting".
Definition DeleteFailed : ApplicationAssemblyPhase := "Delete Failed".
Definition DeleteSucceeded : ApplicationAssemblyPhase := "Delete Succeeded".

Definition Prereqs : LifecycleStep := "prereqs".
Definition Install : LifecycleStep := "install".
Definition Delete : LifecycleStep := "delete".
Definition Validate : LifecycleStep := "validate".

Definition phase_Succeeded (p : ApplicationAssemblyPhase) : bool :=
  (p == Succeeded) || (p == DeleteSucceeded).

Definition phase_Failed (p : ApplicationAssemblyPhase) : bool :=
  (p == Failed) || (p == DeleteFailed).

Definition phase_Completed (p : ApplicationAssemblyPhase) : bool :=
  phase_Succeeded p || phase_Failed p.

Definition phase_Deleting (p : ApplicationAssemblyPhase) : bool :=
  (p == Deleting) || (p == DeleteFailed) || (p == DeleteSucceeded).

Definition phase_Running (p : ApplicationAssemblyPhase) : bool :=
  (p == Pending) || (p == ValidationFailed).

(** ** Accessors *)

Definition GetPackageSpec (a : Addon) : PackageSpec :=
  let p := Spec_Package (Spec a) in
  {| PkgChannel := PkgChannel p;
     PkgName := PkgName p;
     PkgVersion := PkgVersion p;
     PkgType := PkgType p;
     PkgDescription := PkgDescription p;
     PkgDeps := PkgDeps p |}.

Definition GetInstallStatus (a : Addon) : ApplicationAssemblyPhase :=
  Installed_Phase (Status_Lifecycle (Status a)).

Definition GetPrereqStatus (a : Addon) : ApplicationAssemblyPhase :=
  Prereqs_Phase (Status_Lifecycle (Status a)).

(** The three fixed parameters, then the two maps copied over them entry by
    entry, in an unspecified order each. *)
Definition GetAllAddonParameters `{GoRange} (t : list nat) (a : Addon) : gmap string string :=
  let ps := Params (Spec a) in
  let params : gmap string string :=
    <["clusterRegion" := ClusterRegion (Params_Context ps)]>
    (<["clusterName" := ClusterName (Params_Context ps)]>
    (<["namespace" := Params_Namespace ps]> ∅)) in
  let params := foldl (fun m kv => <[kv.1 := kv.2]> m) params
    (range (0 :: t) (AdditionalConfigs (Params_Context ps))) in
  foldl (fun m kv => <[kv.1 := kv.2]> m) params (range (1 :: t) (Params_Data ps)).

Definition GetWorkflowType (a : Addon) (step : LifecycleStep) : result WorkflowType :=
  let lc := Lifecycle (Spec a) in
  if step == Install then Ok (LC_Install lc)
  else if step == Prereqs then Ok (LC_Prereqs lc)
  else if step == Delete then Ok (LC_Delete lc)
  else if step == Validate then Ok (LC_Validate lc)
  else Err (Errorf ("no WorkflowType of type " +:+ step +:+ " exists")).

(** ** The checksum *)

(** The [%+v] rendering of the spec. *)
Definition fmt_string (s : string) : string := s.

Definition fmt_WorkflowType (w : WorkflowType) : string :=
  fmt_struct [("NamePrefix", NamePrefix w); ("Role", Role w);
              ("WorkflowRole", WorkflowRole w); ("Template", Template w)].

Definition fmt_PackageSpec (p : PackageSpec) : string :=
  fmt_struct [("PkgChannel", PkgChannel p); ("PkgName", PkgName p);
              ("PkgVersion", PkgVersion p); ("PkgType", PkgType p);
              ("PkgDescription", PkgDescription p); ("PkgDeps", fmt_map fmt_string (PkgDeps p))].

Definition fmt_AddonParams (p : AddonParams) : string :=
  fmt_struct [("Namespace", Params_Namespace p);
    ("Context", fmt_struct [("ClusterName", ClusterName (Params_Context p));
                            ("ClusterRegion", ClusterRegion (Params_Context p));
                            ("AdditionalConfigs",
                              fmt_map fmt_string (AdditionalConfigs (Params_Context p)))]);
    ("Data", fmt_map fmt_string (Params_Data p))].

Definition fmt_LabelSelector (s : LabelSelector) : string :=
  fmt_struct [("MatchLabels", fmt_map fmt_string (MatchLabels s));
    ("MatchExpressions", fmt_slice (fun r =>
        fmt_struct [("Key", LSR_Key r); ("Operator", LSR_Operator r);
                    ("Values", fmt_slice fmt_string (LSR_Values r))]) (MatchExpressions s))].

Definition fmt_AddonOverridesSpec (o : AddonOverridesSpec) : string :=
  let k := Overrides_Kustomize o in
  fmt_struct [("Kustomize", fmt_struct [
      ("Labels", fmt_map fmt_string (KS_Labels k));
      ("Annotations", fmt_map fmt_string (KS_Annotations k));
      ("Resources", fmt_slice fmt_string (KS_Resources k));
      ("Overlay", fmt_struct [("Template", fmt_map fmt_string (KT_Template (KS_Overlay k)))])]);
    ("Template", fmt_map fmt_string (Overrides_Template o))].

Definition fmt_SecretCmdSpec (s : SecretCmdSpec) : string :=
  fmt_struct [("Name", Secret_Name s); ("Cmd", pretty (Secret_Cmd s));
              ("Args", fmt_slice fmt_string (Secret_Args s))].

Definition fmt_LifecycleWorkflowSpec (l : LifecycleWorkflowSpec) : string :=
  fmt_struct [("Prereqs", fmt_WorkflowType (LC_Prereqs l));
              ("Install", fmt_WorkflowType (LC_Install l));
              ("Delete", fmt_WorkflowType (LC_Delete l));
              ("Validate", fmt_WorkflowType (LC_Validate l))].

Definition fmt_AddonSpec (s : AddonSpec) : string :=
  fmt_struct [("PackageSpec", fmt_PackageSpec (Spec_Package s));
              ("Params", fmt_AddonParams (Params s));
              ("Selector", fmt_LabelSelector (Selector s));
              ("Overrides", fmt_AddonOverridesSpec (Overrides s));
              ("Secrets", fmt_slice fmt_SecretCmdSpec (Secrets s));
              ("Lifecycle", fmt_LifecycleWorkflowSpec (Lifecycle s))].

Definition CalculateChecksum (a : Addon) : string :=
  hex_uint32 (adler32_Checksum (fmt_AddonSpec (Spec a))).

(** ** Workflow names *)

Definition GetFormattedWorkflowName (a : Addon) (lifecycleStep : LifecycleStep) : string :=
  match GetWorkflowType a lifecycleStep with
  | Err _ => ""
  | Ok wt =>
      let prefix := addon_Name a in
      let prefix := if NamePrefix wt != "" then prefix +:+ "-" +:+ NamePrefix wt else prefix in
      prefix +:+ "-" +:+ lifecycleStep +:+ "-" +:+ CalculateChecksum a +:+ "-wf"
  end.

(** ** Status updates *)

Definition SetInstallStatus (phase : ApplicationAssemblyPhase) (reasons : list string)
    (a : Addon) : Addon :=
  let a := set_Status (set_Installed phase) a in
  if (phase == Pending) || (phase == ValidationFailed) || (phase == DeleteFailed)
     || (phase == Failed)
  then set_Status (set_Reason (Join reasons ", ")) a
  else set_Status (set_Reason "") a.

Definition SetPrereqAndInstallStatuses (phase : ApplicationAssemblyPhase) (reasons : list string)
    (a : Addon) : Addon * option error :=
  if phase == Pending then
    (SetInstallStatus Pending [] (set_Status (set_Prereqs Pending) a), None)
  else if phase == Failed then
    (SetInstallStatus Failed reasons (set_Status (set_Prereqs Failed) a), None)
  else if phase == Succeeded then
    (SetInstallStatus Pending [] (set_Status (set_Prereqs Succeeded) a), None)
  else
    (set_Status (set_Prereqs "") a,
     Some (Errorf ("unknown phase " +:+ phase +:+ ", is not supported for prereqs status"))).

Definition SetStatusByLifecyleStep (step : LifecycleStep) (phase : ApplicationAssemblyPhase)
    (reasons : list string) (a : Addon) : Addon * option error :=
  if step == Prereqs then SetPrereqAndInstallStatuses phase reasons a
  else if step == Install then (SetInstallStatus phase reasons a, None)
  else if step == Delete then
    if phase == Succeeded then (SetInstallStatus DeleteSucceeded reasons a, None)
    else if phase == Failed then (SetInstallStatus DeleteFailed reasons a, None)
    else (SetInstallStatus phase reasons a, None)
  else (a, None).

Definition ClearStatus (a : Addon) : Addon :=
  set_Status (fun s => set_Reason "" (set_Installed "" (set_Prereqs "" s))) a.

(** ** FlexString

    [json.Unmarshal] of [k8s.io/apimachinery/pkg/util/json], into a string, a
    bool and an int, is a parameter. *)
Section flexstring.
Context (unmarshal_string : string -> result string)
        (unmarshal_bool : string -> result bool)
        (unmarshal_int : string -> result Z).

Definition FlexString_UnmarshalJSON (b : string) : outcome (result FlexString) :=
  match b with
  | EmptyString => Panicked "index out of range [0] with length 0"
  | String c _ =>
      if c == dquote then
        match unmarshal_string b with
        | Err e => Val (Err e)
        | Ok out => Val (Ok out)
        end
      else
        match unmarshal_bool b with
        | Ok bo => Val (Ok (if bo then "true" else "false"))
        | Err _ =>
            match unmarshal_int b with
            | Ok i => Val (Ok (pretty i))
            | Err _ => Val (Err (Errorf "unable to unmarshal from bool or int into string"))
            end
        end
  end.
End flexstring.

(** The spec of [TestUpdateAddonStatusLifecycleFromWorkflow] in
    [pkg/addon/addon_update_test.go]; the test expects this checksum. *)
Definition sample_addon : Addon := {|
  Meta := mkObjectMeta "test-addon" "default" "1" None [] ∅;
  Spec := {|
    Spec_Package := mkPackageSpec "" "test-addon" "" "" "" ∅;
    Params := mkAddonParams "test-addon-ns" (mkClusterContext "" "" ∅) ∅;
    Selector := mkLabelSelector ∅ [];
    Overrides := Overrides zero_AddonSpec;
    Secrets := [];
    Lifecycle := Lifecycle zero_AddonSpec |};
  Status := zero_AddonStatus |}.

Example sample_checksum : CalculateChecksum sample_addon = "9375dca7".
Proof. vm_compute. reflexivity. Qed.

(** ** Facts about phases *)

Lemma Completed_not_Running p : phase_Completed p = true -> phase_Running p = false.
Proof.
  unfold phase_Completed, phase_Succeeded, phase_Failed, phase_Running.
  intros H. go_cases; done.
Qed.

(** ** Facts about status updates *)

Lemma Deleting_Succeeded p :
  phase_Deleting p = true -> phase_Succeeded p = true -> p = DeleteSucceeded.
Proof.
  unfold phase_Deleting, phase_Succeeded. rewrite !orb_true_iff, !bool_decide_eq_true.
  intros [[->| ->]|] [Hs|]; by subst.
Qed.

Lemma GetInstallStatus_SetInstallStatus p rs a :
  GetInstallStatus (SetInstallStatus p rs a) = p.
Proof. unfold SetInstallStatus. by case_match. Qed.

(** A status update touches phases and reason only. *)
Definition same_but_phases (a a' : Addon) : Prop :=
  Meta a' = Meta a /\ Spec a' = Spec a /\ Checksum (Status a') = Checksum (Status a) /\
  Resources (Status a') = Resources (Status a) /\ StartTime (Status a') = StartTime (Status a).

Lemma same_but_phases_refl a : same_but_phases a a.
Proof. done. Qed.

Lemma same_but_phases_trans a b c :
  same_but_phases a b -> same_but_phases b c -> same_but_phases a c.
Proof. unfold same_but_phases. intros (?&?&?&?&?) (?&?&?&?&?). split_and!; congruence. Qed.

#[global] Instance same_but_phases_preorder : PreOrder same_but_phases.
Proof. split; [exact same_but_phases_refl | exact same_but_phases_trans]. Qed.

Lemma SetInstallStatus_same p rs a : same_but_phases a (SetInstallStatus p rs a).
Proof. unfold SetInstallStatus. by case_match. Qed.

Lemma SetPrereqAndInstallStatuses_same p rs a :
  same_but_phases a (SetPrereqAndInstallStatuses p rs a).1.
Proof.
  unfold SetPrereqAndInstallStatuses. go_cases; try done;
    (etrans; [|apply SetInstallStatus_same]); done.
Qed.

Lemma SetStatusByLifecyleStep_same step p rs a :
  same_but_phases a (SetStatusByLifecyleStep step p rs a).1.
Proof.
  unfold SetStatusByLifecyleStep.
  repeat case_match; simpl;
    solve [apply SetPrereqAndInstallStatuses_same | apply SetInstallStatus_same | done].
Qed.

#[export] Hint Resolve same_but_phases_refl SetInstallStatus_same
  SetPrereqAndInstallStatuses_same SetStatusByLifecyleStep_same : addon.

Lemma GetFormattedWorkflowName_same a b step :
  Spec a = Spec b -> addon_Name a = addon_Name b ->
  GetFormattedWorkflowName a step = GetFormattedWorkflowName b step.
Proof.
  intros Hs Hn. unfold GetFormattedWorkflowName, GetWorkflowType, CalculateChecksum.
  by rewrite Hs, Hn.
Qed.

(** A reason is only kept with a phase that is pending or failed. *)
Definition reason_ok (a : Addon) : Prop :=
  Reason (Status a) <> "" ->
  GetInstallStatus a ∈ [Pending; ValidationFailed; DeleteFailed; Failed].

Lemma SetInstallStatus_reason_ok p rs a : reason_ok (SetInstallStatus p rs a).
Proof.
  unfold reason_ok. rewrite GetInstallStatus_SetInstallStatus.
  unfold SetInstallStatus. go_cases; intros Hr; try done; set_solver.
Qed.

(** The methods that assign the lifecycle status, as the callers use them. *)
Inductive status_op :=
  | OpSetInstallStatus (p : ApplicationAssemblyPhase) (rs : list string)
  | OpSetPrereqAndInstallStatuses (p : ApplicationAssemblyPhase) (rs : list string)
  | OpSetStatusByLifecyleStep (s : LifecycleStep) (p : ApplicationAssemblyPhase) (rs : list string)
  | OpClearStatus.

Definition run_status_op (a : Addon) (o : status_op) : Addon :=
  match o with
  | OpSetInstallStatus p rs => SetInstallStatus p rs a
  | OpSetPrereqAndInstallStatuses p rs => (SetPrereqAndInstallStatuses p rs a).1
  | OpSetStatusByLifecyleStep s p rs => (SetStatusByLifecyleStep s p rs a).1
  | OpClearStatus => ClearStatus a
  end.

Lemma SetPrereq_reason_ok p rs a :
  reason_ok a -> reason_ok (SetPrereqAndInstallStatuses p rs a).1.
Proof.
  intros Ha. unfold SetPrereqAndInstallStatuses.
  go_cases; try apply SetInstallStatus_reason_ok. exact Ha.
Qed.

Lemma run_status_op_reason_ok a o : reason_ok a -> reason_ok (run_status_op a o).
Proof.
  intros Ha. destruct o; simpl.
  - apply SetInstallStatus_reason_ok.
  - by apply SetPrereq_reason_ok.
  - unfold SetStatusByLifecyleStep.
    repeat case_match; simpl;
      solve [by apply SetPrereq_reason_ok | apply SetInstallStatus_reason_ok | done].
  - unfold reason_ok, ClearStatus. simpl. by intros [].
Qed.

(** ** Facts about the checksum and the workflow names *)

Lemma CalculateChecksum_length a : 1 <= String.length (CalculateChecksum a) <= 8.
Proof. apply hex_uint32_length. Qed.

Lemma CalculateChecksum_hex a : Forall (fun c => is_hex c = true) (chars (CalculateChecksum a)).
Proof. apply hex_uint32_chars. Qed.

Lemma CalculateChecksum_no_dash a : byte_free "-" (CalculateChecksum a).
Proof.
  intros Hin. pose proof (CalculateChecksum_hex a) as H.
  rewrite Forall_forall in H. by specialize (H _ Hin).
Qed.

Lemma CalculateChecksum_trim a : TrimSpace (CalculateChecksum a) = CalculateChecksum a.
Proof.
  apply TrimSpace_graphic.
  eapply Forall_impl; [apply CalculateChecksum_hex|]. intros c. apply is_hex_graphic.
Qed.

Lemma CalculateChecksum_inj a b :
  CalculateChecksum a = CalculateChecksum b ->
  adler32_Checksum (fmt_AddonSpec (Spec a)) = adler32_Checksum (fmt_AddonSpec (Spec b)).
Proof. apply hex_uint32_inj; apply adler32_Checksum_lt. Qed.

(** The steps the lifecycle spec has a workflow for. *)
Definition is_step (s : LifecycleStep) : Prop := s ∈ [Prereqs; Install; Delete; Validate].

Lemma is_step_cases s :
  is_step s -> s = Prereqs \/ s = Install \/ s = Delete \/ s = Validate.
Proof. unfold is_step. rewrite !elem_of_cons, elem_of_nil. tauto. Qed.

Lemma GetWorkflowType_step a s : is_step s -> exists wt, GetWorkflowType a s = Ok wt.
Proof. intros [->|[->|[->| ->]]]%is_step_cases; eexists; reflexivity. Qed.

Lemma GetFormattedWorkflowName_step a s :
  is_step s ->
  exists wt prefix,
    GetWorkflowType a s = Ok wt /\
    prefix = (if NamePrefix wt != "" then addon_Name a +:+ "-" +:+ NamePrefix wt else addon_Name a) /\
    GetFormattedWorkflowName a s = prefix +:+ "-" +:+ s +:+ "-" +:+ CalculateChecksum a +:+ "-wf".
Proof.
  intros Hs. destruct (GetWorkflowType_step a s Hs) as [wt Hwt].
  exists wt. eexists. split_and!; [done..|]. unfold GetFormattedWorkflowName. by rewrite Hwt.
Qed.

Lemma GetFormattedWorkflowName_length a s wt :
  is_step s -> GetWorkflowType a s = Ok wt ->
  String.length (addon_Name a) <= 31 -> String.length (NamePrefix wt) <= 10 ->
  String.length (GetFormattedWorkflowName a s) <= 63.
Proof.
  intros Hs Hwt Hn Hp.
  destruct (GetFormattedWorkflowName_step a s Hs) as (wt' & prefix & Hwt' & -> & ->).
  assert (wt' = wt) as -> by congruence.
  autorewrite with addon. pose proof (CalculateChecksum_length a).
  assert (String.length s <= 8) by (apply is_step_cases in Hs as [->|[->|[->| ->]]]; simpl; lia).
  case_bool_decide; simpl; autorewrite with addon; simpl; lia.
Qed.

(** ** Properties *)

(** Whatever sequence of status methods runs, a status reason is only
    ever present together with an installed phase that is pending or failed
    ([Pending], [ValidationFailed], [DeleteFailed], [Failed]). *)
Theorem status_reason_invariant (ops : list status_op) (a : Addon) :
  reason_ok a -> reason_ok (foldl run_status_op a ops).
Proof.
  revert a. induction ops as [|o ops IH]; intros a Ha; simpl; [done|].
  by apply IH, run_status_op_reason_ok.
Qed.

Lemma status_reason_invariant_witness :
  reason_ok (foldl run_status_op sample_addon
    [OpSetInstallStatus Failed ["ttl expired"]; OpSetStatusByLifecyleStep Delete Succeeded []]) /\
  Reason (Status (run_status_op sample_addon (OpSetInstallStatus Failed ["ttl expired"])))
    = "ttl expired".
Proof.
  split; [|reflexivity]. apply status_reason_invariant. unfold reason_ok. simpl. by intros [].
Defined.

(** The parameters handed to the workflows are, for every iteration
    order of the two maps, [spec.params.data] over
    [spec.params.context.additionalConfigs] over the three fixed ones. *)
Theorem GetAllAddonParameters_union `{GoRange} (t : list nat) (a : Addon) :
  GetAllAddonParameters t a =
  Params_Data (Params (Spec a)) ∪ (AdditionalConfigs (Params_Context (Params (Spec a))) ∪
    {["namespace" := Params_Namespace (Params (Spec a));
      "clusterName" := ClusterName (Params_Context (Params (Spec a)));
      "clusterRegion" := ClusterRegion (Params_Context (Params (Spec a)))]}).
Proof.
  unfold GetAllAddonParameters. rewrite !range_copy. by do 2 f_equal.
Qed.

(** Changing the package version of an addon, the rest of the spec fixed. *)
Definition set_PkgVersion (v : string) (a : Addon) : Addon :=
  set_Spec (fun s =>
    let p := Spec_Package s in
    mkAddonSpec (mkPackageSpec (PkgChannel p) (PkgName p) v (PkgType p) (PkgDescription p) (PkgDeps p))
      (Params s) (Selector s) (Overrides s) (Secrets s) (Lifecycle s)) a.

Lemma fmt_AddonSpec_PkgVersion a :
  exists p q, forall v, fmt_AddonSpec (Spec (set_PkgVersion v a)) = p +:+ v +:+ q.
Proof.
  set (pk := Spec_Package (Spec a)).
  destruct (fmt_struct_split [("PkgChannel", PkgChannel pk); ("PkgName", PkgName pk)]
    [("PkgType", PkgType pk); ("PkgDescription", PkgDescription pk);
     ("PkgDeps", fmt_map fmt_string (PkgDeps pk))] "PkgVersion") as (p1 & q1 & H1).
  destruct (fmt_struct_split [] [("Params", fmt_AddonParams (Params (Spec a)));
    ("Selector", fmt_LabelSelector (Selector (Spec a)));
    ("Overrides", fmt_AddonOverridesSpec (Overrides (Spec a)));
    ("Secrets", fmt_slice fmt_SecretCmdSpec (Secrets (Spec a)));
    ("Lifecycle", fmt_LifecycleWorkflowSpec (Lifecycle (Spec a)))] "PackageSpec")
    as (p2 & q2 & H2).
  exists (p2 +:+ p1), (q1 +:+ q2). intros v.
  unfold fmt_AddonSpec, set_PkgVersion, set_Spec, fmt_PackageSpec. simpl.
  simpl in H1, H2. rewrite H2, H1. by rewrite !sapp_assoc.
Qed.

(** Replacing one byte of the package version always changes the
    checksum, so the edit is seen as a new install cycle. *)
Theorem CalculateChecksum_detects_version_edit (a : Addon) (u w : string) (x y : ascii) :
  x <> y ->
  CalculateChecksum (set_PkgVersion (u +:+ String x w) a) <>
  CalculateChecksum (set_PkgVersion (u +:+ String y w) a).
Proof.
  intros Hxy Heq. apply CalculateChecksum_inj in Heq.
  destruct (fmt_AddonSpec_PkgVersion a) as (p & q & H).
  rewrite !H, <-!sapp_assoc, !(sapp_assoc (p +:+ u)) in Heq.
  by apply adler32_one_byte in Heq.
Qed.

Lemma CalculateChecksum_detects_version_edit_witness :
  CalculateChecksum (set_PkgVersion "v1.0" sample_addon) <>
  CalculateChecksum (set_PkgVersion "v2.0" sample_addon).
Proof. apply (CalculateChecksum_detects_version_edit sample_addon "v" ".0" "1" "2"). done. Defined.
