(* ===== verification/Common.v ===== *)
(** [pkg/common/helpers.go] and [pkg/common/schemas.go]: helpers shared by
    the controllers, among them the reading of a workflow name back into the
    addon checksum and the lifecycle step. *)
From S2P Require Import Prelude GoStrings GoFmt AddonTypes.

(** ** String slices *)

Fixpoint ContainsString (slice : list string) (s : string) : bool :=
  match slice with
  | [] => false
  | item :: slice' => if item == s then true else ContainsString slice' s
  end.

Definition RemoveString (slice : list string) (s : string) : list string :=
  foldl (fun result item => if item == s then result else result ++ [item]) [] slice.

(** ** Time *)

(** [IsExpired] at the clock value [now] (milliseconds), in [int64]
    arithmetic. *)
Definition IsExpired (now startTime ttlTime : Z) : bool :=
  (ttlTime <=? int64_wrap (now - startTime))%Z.

(** ** Schemas *)

Record GroupVersionResource := mkGVR {
  GVR_Group : string;
  GVR_Version : string;
  GVR_Resource : string
}.

Definition AddonGVR : GroupVersionResource :=
  mkGVR "addonmgr.keikoproj.io" "v1alpha1" "addons".

Definition CRDGVR : GroupVersionResource :=
  mkGVR "apiextensions.k8s.io" "v1" "customresourcedefinitions".

Definition SecretGVR : GroupVersionResource := mkGVR "" "v1" "secrets".

Definition WorkflowGVR : GroupVersionResource := mkGVR "argoproj.io" "v1alpha1" "workflows".

(** ** Argo workflow phases *)

(** The values of [wfv1.WorkflowPhase]; [WorkflowUnknown] is the empty
    string, [WorkflowOther] any value Argo does not declare. *)
Inductive WorkflowPhase :=
  | WorkflowUnknown
  | WorkflowPending
  | WorkflowRunning
  | WorkflowSucceeded
  | WorkflowFailed
  | WorkflowError
  | WorkflowOther (s : string).

#[global] Instance WorkflowPhase_eq_dec : EqDecision WorkflowPhase.
Proof. solve_decision. Defined.

Definition ConvertWorkflowPhaseToAddonPhase (lifecycle : LifecycleStep) (phase : WorkflowPhase)
    : ApplicationAssemblyPhase :=
  match phase with
  | WorkflowPending | WorkflowRunning => if lifecycle == Delete then Deleting else Pending
  | WorkflowSucceeded => if lifecycle == Delete then DeleteSucceeded else Succeeded
  | WorkflowFailed | WorkflowError => if lifecycle == Delete then DeleteFailed else Failed
  | _ => ""
  end.

(** ** Workflow names *)

Definition invalid_name (n : string) : error := Errorf ("invalid workflow name " +:+ n).
Definition invalid_lifecycle (n : string) : error :=
  Errorf ("invalid lifecycle in workflow name " +:+ n).

Definition ExtractChecksumAndLifecycleStep (addonWorkflowName : string)
    : result (string * LifecycleStep) :=
  let wfParts := Split addonWorkflowName "-" in
  let n := length wfParts in
  let part i := TrimSpace (default "" (wfParts !! i)) in
  if (n <? 4)%nat || (part (n - 1) != "wf")
  then Err (invalid_name addonWorkflowName)
  else
    let checksum := part (n - 2) in
    let l := part (n - 3) in
    if l == "prereqs" then Ok (checksum, Prereqs)
    else if l == "install" then Ok (checksum, Install)
    else if l == "validate" then Ok (checksum, Validate)
    else if l == "delete" then Ok (checksum, Delete)
    else Err (invalid_lifecycle addonWorkflowName).

(** ** Conversion from unstructured objects

    The Kubernetes converter and [encoding/json] on the target type are
    parameters; [U] is the unstructured object, [T] the typed one. *)
Section from_unstructured.
Context {U T : Type}
        (convert : U -> result T)
        (json_Marshal : U -> result string)
        (json_Unmarshal : string -> result T).

Definition FromUnstructuredObj (un : U) : result T :=
  match convert un with
  | Ok v => Ok v
  | Err err =>
      if Error err == "cannot convert int64 to v1alpha1.AnyString" then
        match json_Marshal un with
        | Err err => Err err
        | Ok data => json_Unmarshal data
        end
      else Err err
  end.
End from_unstructured.

(** ** Lemmas *)

Lemma ContainsString_spec slice s : ContainsString slice s = true <-> s ∈ slice.
Proof.
  induction slice as [|x l IH]; simpl.
  - by rewrite elem_of_nil.
  - rewrite elem_of_cons. case_bool_decide; [naive_solver|]. rewrite IH. naive_solver.
Qed.

Lemma RemoveString_filter slice s : RemoveString slice s = filter (fun x => x <> s) slice.
Proof.
  unfold RemoveString.
  assert (forall acc, foldl (fun r x => if x == s then r else r ++ [x]) acc slice =
                      acc ++ filter (fun x => x <> s) slice) as ->; [|done].
  induction slice as [|x l IH]; intros acc; simpl; [by rewrite app_nil_r|].
  rewrite IH, filter_cons. case_bool_decide; case_decide; try done.
  by rewrite <-app_assoc.
Qed.

(** The parts of a name that ends in a step, a checksum and [wf]. *)
Lemma Split_workflow_name p s c :
  byte_free "-" s -> byte_free "-" c ->
  Split (p +:+ "-" +:+ s +:+ "-" +:+ c +:+ "-wf") "-" = Split p "-" ++ [s; c; "wf"].
Proof.
  intros Hs Hc.
  assert (forall u : string, "-" +:+ u = String "-" u) as Hd by done.
  rewrite !Hd. rewrite Split_sep. f_equal. rewrite Split_sep, (Split_free _ s) by done. simpl.
  change "-wf" with (String "-" "wf"). rewrite Split_sep, (Split_free _ c) by done. done.
Qed.

Lemma step_graphic s : is_step s -> Forall (fun a => graphic a = true) (chars s) /\ byte_free "-" s.
Proof.
  intros [->|[->|[->| ->]]]%is_step_cases; split; try (by repeat constructor);
    by apply (bool_decide_unpack _).
Qed.

Lemma Extract_workflow_name p s c :
  is_step s -> byte_free "-" c -> TrimSpace c = c ->
  ExtractChecksumAndLifecycleStep (p +:+ "-" +:+ s +:+ "-" +:+ c +:+ "-wf") = Ok (c, s).
Proof.
  intros Hs Hc Ht. destruct (step_graphic s Hs) as [Hg Hd].
  unfold ExtractChecksumAndLifecycleStep. rewrite Split_workflow_name by done.
  pose proof (Split_length p "-") as Hl. revert Hl.
  generalize (Split p "-"). intros l Hl. rewrite length_app. simpl.
  assert (forall i j, i + j = 3 -> 0 < j ->
    (l ++ [s; c; "wf"]) !! (length l + 3 - j) = [s; c; "wf"] !! i) as Hlk.
  { intros i j Hi Hj. rewrite lookup_app_r by lia. f_equal. lia. }
  rewrite (Hlk 0 3), (Hlk 1 2), (Hlk 2 1) by lia. simpl.
  rewrite (TrimSpace_graphic s) by done. rewrite Ht.
  replace (_ <? 4)%nat with false by (symmetry; apply Nat.ltb_ge; lia). simpl.
  by apply is_step_cases in Hs as [->|[->|[->| ->]]].
Qed.

(** ** Properties *)

(** C36: the checksum and the lifecycle step are read back exactly from every
    workflow name the addon controller composes, whatever dashes the addon
    name and the prefix contain. *)
Theorem workflow_name_roundtrip (a : Addon) (s : LifecycleStep) :
  is_step s ->
  ExtractChecksumAndLifecycleStep (GetFormattedWorkflowName a s) = Ok (CalculateChecksum a, s).
Proof.
  intros Hs. destruct (GetFormattedWorkflowName_step a s Hs) as (wt & p & _ & _ & ->).
  apply Extract_workflow_name;
    [done | apply CalculateChecksum_no_dash | apply CalculateChecksum_trim].
Qed.

Lemma workflow_name_roundtrip_witness :
  GetFormattedWorkflowName sample_addon Install = "test-addon-install-9375dca7-wf" /\
  ExtractChecksumAndLifecycleStep (GetFormattedWorkflowName sample_addon Install)
    = Ok (CalculateChecksum sample_addon, Install).
Proof.
  split; [vm_compute; reflexivity|].
  apply workflow_name_roundtrip. unfold is_step. by apply (bool_decide_unpack _).
Defined.

(** The phases a [SetStatusByLifecyleStep] of the delete step may write. *)
Lemma delete_phase_Deleting ph rs a :
  ConvertWorkflowPhaseToAddonPhase Delete ph <> "" ->
  phase_Deleting (GetInstallStatus
    (SetStatusByLifecyleStep Delete (ConvertWorkflowPhaseToAddonPhase Delete ph) rs a).1) = true.
Proof.
  intros Hne. destruct ph; simpl in *; try done; unfold SetStatusByLifecyleStep; simpl;
    by rewrite GetInstallStatus_SetInstallStatus.
Qed.

Lemma install_phase_not_Deleting s ph rs a :
  s = Prereqs \/ s = Install ->
  ConvertWorkflowPhaseToAddonPhase s ph <> "" ->
  phase_Deleting (GetInstallStatus
    (SetStatusByLifecyleStep s (ConvertWorkflowPhaseToAddonPhase s ph) rs a).1) = false.
Proof.
  intros [->| ->] Hne; destruct ph; simpl in *; try done;
    unfold SetStatusByLifecyleStep; simpl;
    by rewrite GetInstallStatus_SetInstallStatus.
Qed.

(** The phase of a workflow, recorded on the addon for the workflow's
    lifecycle step, is a deletion phase exactly when the step is [delete];
    in particular a finished delete workflow is never taken for a finished
    installation. *)
Theorem workflow_phase_recorded (s : LifecycleStep) (ph : WorkflowPhase) (rs : list string)
    (a : Addon) :
  s ∈ [Prereqs; Install; Delete] ->
  ConvertWorkflowPhaseToAddonPhase s ph <> "" ->
  phase_Deleting (GetInstallStatus
    (SetStatusByLifecyleStep s (ConvertWorkflowPhaseToAddonPhase s ph) rs a).1)
  = bool_decide (s = Delete).
Proof.
  rewrite !elem_of_cons, elem_of_nil. intros Hs Hne.
  destruct Hs as [->|[->|[->|[]]]].
  - by apply install_phase_not_Deleting; [left|].
  - by apply install_phase_not_Deleting; [right|].
  - by apply delete_phase_Deleting.
Qed.

Lemma workflow_phase_recorded_witness :
  phase_Deleting (GetInstallStatus
    (SetStatusByLifecyleStep Delete (ConvertWorkflowPhaseToAddonPhase Delete WorkflowSucceeded) []
      sample_addon).1) = bool_decide (Delete = Delete).
Proof. apply workflow_phase_recorded; [by apply (bool_decide_unpack _) | done]. Defined.

(** C34: An installation is found expired exactly when at least its time to
    live and less than 2^63 milliseconds have passed since its start: the
    subtraction of [int64] values is exact in that range, and a start time
    so far in the past that the difference wraps around never expires. *)
Theorem IsExpired_bounds (now startTime ttlTime : Z) :
  (0 <= now < 2 ^ 63)%Z -> int64_range startTime -> (0 < ttlTime < 2 ^ 63)%Z ->
  IsExpired now startTime ttlTime = true <-> (ttlTime <= now - startTime < 2 ^ 63)%Z.
Proof.
  unfold IsExpired, int64_range. intros Hnow Hstart Httl. rewrite Z.leb_le.
  destruct (decide (now - startTime < 2 ^ 63)%Z) as [Hlt|Hge].
  - rewrite int64_wrap_id; unfold int64_range; lia.
  - unfold int64_wrap.
    replace ((now - startTime + 2 ^ 63) mod 2 ^ 64)%Z with (now - startTime - 2 ^ 63)%Z; [lia|].
    apply Z.mod_unique with (q := 1%Z); lia.
Qed.

Lemma IsExpired_bounds_witness :
  IsExpired 7200000 0 TTL_Milliseconds = true <-> (3600000 <= 7200000 - 0 < 2 ^ 63)%Z.
Proof. apply IsExpired_bounds; unfold int64_range; lia. Defined.
