(* ===== verification/VersionCache.v ===== *)
(** The version cache, [pkg/addon/addon_version_cache.go]: the packages the
    controllers have recorded, by package name and version.

    [Cached] is the implementation, a map of maps under one read-write lock;
    every method holds the lock for its whole access to the maps, so each is
    one atomic step here.  [VersionCacheClient] is the interface the
    validator and the controllers use, with its laws stated over a flat
    finite map; [Cached] is shown to implement it. *)
From S2P Require Import Prelude GoStrings GoFmt AddonTypes.

Record Version := mkVersion {
  V_Name : string;
  V_Namespace : string;
  V_Package : PackageSpec;
  PkgPhase : ApplicationAssemblyPhase
}.

#[global] Instance Version_eq_dec : EqDecision Version.
Proof. solve_decision. Defined.

Abbreviation V_PkgName v := (PkgName (V_Package v)).
Abbreviation V_PkgVersion v := (PkgVersion (V_Package v)).
Abbreviation V_PkgDeps v := (PkgDeps (V_Package v)).

(** [github.com/Masterminds/semver], a parameter. *)
Class Semver := {
  Constraint : Type;
  SemVersion : Type;
  NewConstraint : string -> option Constraint;
  NewVersion : string -> option SemVersion;
  Check : Constraint -> SemVersion -> bool
}.

(** Whether the version [v] parses and satisfies the constraint [c]. *)
Definition satisfies `{Semver} (c v : string) : bool :=
  match NewConstraint c, NewVersion v with
  | Some ct, Some sv => Check ct sv
  | _, _ => false
  end.

(** ** The interface *)

Class VersionCacheClient (C : Type) := {
  vc_AddVersion : Version -> C -> C;
  vc_GetVersions : list nat -> C -> string -> option (gmap string Version);
  vc_GetVersion : list nat -> C -> string -> string -> option Version;
  vc_HasVersionName : list nat -> C -> string -> bool * option Version;
  vc_RemoveVersion : string -> string -> C -> C;
  vc_RemoveVersions : string -> C -> C;
  vc_GetAllVersions : list nat -> C -> gmap string (gmap string Version)
}.

(** What an implementation promises: it behaves like the finite map [view]
    from (package name, version) to entries. *)
Class VersionCacheLaws (C : Type) `{Semver, VersionCacheClient C} := {
  view : C -> gmap (string * string) Version;
  view_AddVersion v c :
    view (vc_AddVersion v c) = <[(V_PkgName v, V_PkgVersion v) := v]> (view c);
  view_RemoveVersion p w c : view (vc_RemoveVersion p w c) = delete (p, w) (view c);
  view_RemoveVersions p c :
    view (vc_RemoveVersions p c) =
    filter (fun kv : (string * string) * Version => kv.1.1 <> p) (view c);
  GetVersions_Some t c p m w : vc_GetVersions t c p = Some m -> m !! w = view c !! (p, w);
  GetVersions_None t c p w : vc_GetVersions t c p = None -> view c !! (p, w) = None;
  GetVersion_exact t c p w v : view c !! (p, w) = Some v -> vc_GetVersion t c p w = Some v;
  GetVersion_sound t c p w v :
    vc_GetVersion t c p w = Some v ->
    exists w', view c !! (p, w') = Some v /\ (w' = w \/ satisfies w w' = true);
  GetVersion_complete t c p w :
    vc_GetVersion t c p w = None ->
    forall w', is_Some (view c !! (p, w')) -> w' <> w /\ satisfies w w' = false;
  HasVersionName_true t c n v :
    vc_HasVersionName t c n = (true, v) ->
    exists x p w, v = Some x /\ view c !! (p, w) = Some x /\ V_Name x = n;
  HasVersionName_false t c n v :
    vc_HasVersionName t c n = (false, v) ->
    v = None /\ forall p w x, view c !! (p, w) = Some x -> V_Name x <> n
}.

(** ** The implementation *)

Module Cached.

Record cached := mkCached { addons : gmap string (gmap string Version) }.

Definition NewAddonVersionCacheClient : cached := mkCached ∅.

Section methods.
Context `{GoRange, Semver}.

Definition AddVersion (v : Version) (c : cached) : cached :=
  let m := match addons c !! V_PkgName v with
           | None => <[V_PkgName v := ∅]> (addons c)
           | Some _ => addons c
           end in
  mkCached (<[V_PkgName v := <[V_PkgVersion v := v]> (default ∅ (m !! V_PkgName v))]> m).

Definition copyVersionMap (t : list nat) (m : gmap string Version) : gmap string Version :=
  foldl (fun vmap kv => <[kv.1 := kv.2]> vmap) ∅ (range t m).

Fixpoint deepCopy_go (t : list nat) (i : nat) (cacheCopy : gmap string (gmap string Version))
    (l : list (string * gmap string Version)) : gmap string (gmap string Version) :=
  match l with
  | [] => cacheCopy
  | (key, val) :: l' =>
      deepCopy_go t (S i) (<[key := copyVersionMap (1 :: i :: t) val]> cacheCopy) l'
  end.

Definition deepCopy (t : list nat) (c : cached) : gmap string (gmap string Version) :=
  deepCopy_go t 0 ∅ (range (0 :: t) (addons c)).

Definition GetVersions (t : list nat) (c : cached) (pkgName : string)
    : option (gmap string Version) :=
  match addons c !! pkgName with
  | None => None
  | Some m => Some (copyVersionMap t m)
  end.

Fixpoint resolve_go (ct : Constraint) (m : gmap string Version) (l : list (string * Version))
    : option Version :=
  match l with
  | [] => None
  | (key, _) :: l' =>
      match NewVersion key with
      | None => resolve_go ct m l'
      | Some sv => if Check ct sv then m !! key else resolve_go ct m l'
      end
  end.

Definition resolveVersion (t : list nat) (m : gmap string Version) (pkgVersion : string)
    : option Version :=
  match NewConstraint pkgVersion with
  | None => None
  | Some ct => resolve_go ct m (range t m)
  end.

Definition GetVersion (t : list nat) (c : cached) (pkgName pkgVersion : string)
    : option Version :=
  match GetVersions (0 :: t) c pkgName with
  | None => None
  | Some vmap =>
      match vmap !! pkgVersion with
      | None => resolveVersion (1 :: t) vmap pkgVersion
      | Some v => Some v
      end
  end.

Definition RemoveVersion (pkgName pkgVersion : string) (c : cached) : cached :=
  match addons c !! pkgName with
  | Some m =>
      match m !! pkgVersion with
      | Some _ => mkCached (<[pkgName := delete pkgVersion m]> (addons c))
      | None => c
      end
  | None => c
  end.

Definition RemoveVersions (pkgName : string) (c : cached) : cached :=
  match addons c !! pkgName with
  | Some _ => mkCached (delete pkgName (addons c))
  | None => c
  end.

Definition GetAllVersions (t : list nat) (c : cached) : gmap string (gmap string Version) :=
  deepCopy t c.

Fixpoint has_inner (name : string) (l : list (string * Version)) : option Version :=
  match l with
  | [] => None
  | (_, version) :: l' => if V_Name version == name then Some version else has_inner name l'
  end.

Fixpoint has_outer (t : list nat) (i : nat) (name : string)
    (l : list (string * gmap string Version)) : option Version :=
  match l with
  | [] => None
  | (_, vmap) :: l' =>
      match has_inner name (range (2 :: i :: t) vmap) with
      | Some version => Some version
      | None => has_outer t (S i) name l'
      end
  end.

Definition HasVersionName (t : list nat) (c : cached) (name : string) : bool * option Version :=
  match has_outer t 0 name (range (1 :: t) (GetAllVersions (0 :: t) c)) with
  | Some version => (true, Some version)
  | None => (false, None)
  end.

#[global] Instance cached_client : VersionCacheClient cached := {|
  vc_AddVersion := AddVersion;
  vc_GetVersions := GetVersions;
  vc_GetVersion := GetVersion;
  vc_HasVersionName := HasVersionName;
  vc_RemoveVersion := RemoveVersion;
  vc_RemoveVersions := RemoveVersions;
  vc_GetAllVersions := GetAllVersions |}.
End methods.

(** The finite map the nested maps stand for. *)
Definition abs (c : cached) : gmap (string * string) Version :=
  map_uncurry (M1:=gmap string) (M2:=gmap string) (addons c).

Section lemmas.
Context `{GoRange, Semver}.
Implicit Types (c : cached) (t : list nat).

Lemma lookup_abs c p w : abs c !! (p, w) = addons c !! p ≫= lookup w.
Proof. unfold abs. apply lookup_map_uncurry. Qed.

(** Copies are equal to their originals. *)
Lemma copyVersionMap_id t m : copyVersionMap t m = m.
Proof. unfold copyVersionMap. by rewrite range_copy, (right_id_L ∅ (∪)). Qed.

Lemma deepCopy_go_eq t i acc l :
  deepCopy_go t i acc l = foldl (fun a kv => <[kv.1 := kv.2]> a) acc l.
Proof.
  revert i acc. induction l as [|[k m] l IH]; intros i acc; simpl; [done|].
  by rewrite IH, copyVersionMap_id.
Qed.

Lemma deepCopy_id t c : deepCopy t c = addons c.
Proof.
  unfold deepCopy. rewrite deepCopy_go_eq, range_copy. apply (right_id_L ∅ (∪)).
Qed.

Lemma abs_AddVersion v c :
  abs (AddVersion v c) = <[(V_PkgName v, V_PkgVersion v) := v]> (abs c).
Proof.
  apply map_eq. intros [p w]. rewrite lookup_abs. unfold AddVersion. simpl.
  destruct (decide (p = V_PkgName v)) as [->|Hp].
  - rewrite lookup_insert_eq. simpl.
    destruct (decide (w = V_PkgVersion v)) as [->|Hw].
    + by rewrite !lookup_insert_eq.
    + rewrite !lookup_insert_ne, lookup_abs by congruence.
      destruct (addons c !! V_PkgName v) eqn:E; simpl; [by rewrite E|].
      by rewrite lookup_insert_eq.
  - rewrite !lookup_insert_ne, lookup_abs by congruence.
    destruct (addons c !! V_PkgName v) eqn:E; [done|].
    by rewrite lookup_insert_ne by congruence.
Qed.

Lemma abs_RemoveVersion p w c : abs (RemoveVersion p w c) = delete (p, w) (abs c).
Proof.
  apply map_eq. intros [p' w']. unfold RemoveVersion.
  destruct (decide ((p, w) = (p', w'))) as [[= <- <-]|Hne].
  - rewrite lookup_delete_eq. destruct (addons c !! p) as [m|] eqn:Ep.
    + destruct (m !! w) eqn:Ew; rewrite lookup_abs; simpl.
      * rewrite lookup_insert_eq. simpl. by rewrite lookup_delete_eq.
      * by rewrite Ep.
    + by rewrite lookup_abs, Ep.
  - rewrite lookup_delete_ne by done.
    destruct (addons c !! p) as [m|] eqn:Ep; [|done].
    destruct (m !! w) eqn:Ew; [|done]. rewrite !lookup_abs. simpl.
    destruct (decide (p = p')) as [->|Hp].
    + rewrite lookup_insert_eq, Ep. simpl. by rewrite lookup_delete_ne by congruence.
    + by rewrite lookup_insert_ne.
Qed.

Lemma abs_RemoveVersions p c :
  abs (RemoveVersions p c) =
  filter (fun kv : (string * string) * Version => kv.1.1 <> p) (abs c).
Proof.
  apply map_eq. intros [p' w]. unfold RemoveVersions.
  destruct (decide (p' = p)) as [->|Hp].
  - rewrite (map_lookup_filter_None_2 _ (abs c)) by (right; intros x _ Hx; by destruct Hx).
    destruct (addons c !! p) eqn:E; rewrite lookup_abs; simpl;
      [by rewrite lookup_delete_eq | by rewrite E].
  - transitivity (abs c !! (p', w)).
    + destruct (addons c !! p) eqn:E; [|done]. rewrite !lookup_abs. simpl.
      by rewrite lookup_delete_ne by congruence.
    + destruct (abs c !! (p', w)) as [x|] eqn:E; symmetry.
      * by apply map_lookup_filter_Some_2.
      * apply map_lookup_filter_None_2. by left.
Qed.

Lemma GetVersions_eq t c p : GetVersions t c p = addons c !! p.
Proof. unfold GetVersions. case_match; [|done]. by rewrite copyVersionMap_id. Qed.

Lemma resolve_go_Some ct m l v :
  (forall k x, (k, x) ∈ l -> m !! k = Some x) ->
  resolve_go ct m l = Some v ->
  exists w sv, m !! w = Some v /\ NewVersion w = Some sv /\ Check ct sv = true.
Proof.
  induction l as [|[k x] l IH]; intros Hl; simpl; [done|].
  assert (forall k x, (k, x) ∈ l -> m !! k = Some x) as Hl'
    by (intros; apply Hl; by apply elem_of_cons; right).
  destruct (NewVersion k) as [sv|] eqn:Ek; [|by auto].
  destruct (Check ct sv) eqn:Ec; [|by auto]. eauto.
Qed.

Lemma resolve_go_None ct m l :
  (forall k x, (k, x) ∈ l -> m !! k = Some x) ->
  resolve_go ct m l = None ->
  forall k x sv, (k, x) ∈ l -> NewVersion k = Some sv -> Check ct sv = false.
Proof.
  induction l as [|[k x] l IH]; intros Hl; simpl; [by intros _ ??? ?%elem_of_nil|].
  assert (forall k x, (k, x) ∈ l -> m !! k = Some x) as Hl'
    by (intros; apply Hl; by apply elem_of_cons; right).
  assert (m !! k = Some x) as Hk by (apply Hl; by apply elem_of_cons; left).
  intros Hn k' x' sv' Hin Hsv.
  apply elem_of_cons in Hin as [[= -> ->]|Hin].
  - rewrite Hsv in Hn. destruct (Check ct sv') eqn:Ec; congruence.
  - destruct (NewVersion k) as [sv|]; [|by eauto].
    destruct (Check ct sv); [congruence | by eauto].
Qed.

Lemma GetVersion_Some t c p w v :
  GetVersion t c p w = Some v ->
  exists w', abs c !! (p, w') = Some v /\ (w' = w \/ satisfies w w' = true).
Proof.
  unfold GetVersion. rewrite GetVersions_eq. intros Hg.
  destruct (addons c !! p) as [m|] eqn:Ep; [|done].
  destruct (m !! w) as [x|] eqn:Ew; simplify_eq.
  - exists w. rewrite lookup_abs, Ep. auto.
  - unfold resolveVersion in Hg. destruct (NewConstraint w) as [ct|] eqn:Ec; [|done].
    apply resolve_go_Some in Hg as (w' & sv & Hw' & Hsv & Hck);
      [|intros k x; by rewrite elem_of_range].
    exists w'. rewrite lookup_abs, Ep. split; [done|]. right.
    unfold satisfies. by rewrite Ec, Hsv.
Qed.

Lemma GetVersion_None t c p w :
  GetVersion t c p w = None ->
  forall w', is_Some (abs c !! (p, w')) -> w' <> w /\ satisfies w w' = false.
Proof.
  unfold GetVersion. rewrite GetVersions_eq. intros Hg w' [x Hx].
  rewrite lookup_abs in Hx. destruct (addons c !! p) as [m|] eqn:Ep; [|done].
  simpl in Hx. destruct (m !! w) as [y|] eqn:Ew; [done|]. split; [congruence|].
  unfold resolveVersion in Hg. unfold satisfies.
  destruct (NewConstraint w) as [ct|] eqn:Ec; [|done].
  destruct (NewVersion w') as [sv|] eqn:Ev; [|done].
  eapply resolve_go_None; [|done| |done].
  - intros k z. by rewrite elem_of_range.
  - by apply elem_of_range.
Qed.

Lemma GetVersion_hit t c p w v : abs c !! (p, w) = Some v -> GetVersion t c p w = Some v.
Proof.
  rewrite lookup_abs. unfold GetVersion. rewrite GetVersions_eq.
  destruct (addons c !! p); simpl; [|done]. by intros ->.
Qed.

Lemma has_inner_Some name l x : has_inner name l = Some x -> V_Name x = name /\ x ∈ l.*2.
Proof.
  induction l as [|[k y] l IH]; simpl; [done|]. case_bool_decide.
  - intros [= ->]. split; [done | apply elem_of_cons; by left].
  - intros Hi. destruct (IH Hi). split; [done | apply elem_of_cons; by right].
Qed.

Lemma has_inner_None name l x : has_inner name l = None -> x ∈ l.*2 -> V_Name x <> name.
Proof.
  induction l as [|[k y] l IH]; simpl; [by intros _ ?%elem_of_nil|].
  case_bool_decide; [done|]. intros Hn [->|Hin]%elem_of_cons; auto.
Qed.

Lemma elem_of_range_snd (m : gmap string Version) t x :
  x ∈ (range t m).*2 <-> exists k, m !! k = Some x.
Proof.
  rewrite list_elem_of_fmap. split.
  - intros ([k y] & -> & Hin). exists k. by apply elem_of_range in Hin.
  - intros [k Hk]. exists (k, x). split; [done|]. by apply elem_of_range.
Qed.

Lemma has_outer_Some t i name l x :
  has_outer t i name l = Some x ->
  V_Name x = name /\ exists p m w, (p, m) ∈ l /\ m !! w = Some x.
Proof.
  revert i. induction l as [|[p m] l IH]; intros i; simpl; [done|].
  destruct (has_inner name (range (2 :: i :: t) m)) as [y|] eqn:E.
  - intros [= <-]. apply has_inner_Some in E as [? [w Hw]%elem_of_range_snd].
    split; [done|]. exists p, m, w. split; [apply elem_of_cons; by left | done].
  - intros (? & p' & m' & w & Hin & Hw)%IH. split; [done|]. exists p', m', w.
    split; [apply elem_of_cons; by right | done].
Qed.

Lemma has_outer_None t i name l p m w x :
  has_outer t i name l = None -> (p, m) ∈ l -> m !! w = Some x -> V_Name x <> name.
Proof.
  revert i. induction l as [|[p' m'] l IH]; intros i; simpl; [by intros _ ?%elem_of_nil|].
  destruct (has_inner name (range (2 :: i :: t) m')) as [y|] eqn:E; [done|].
  intros Hn [[= -> ->]|Hin]%elem_of_cons Hw; [|by eauto].
  eapply has_inner_None; [done|]. apply elem_of_range_snd. eauto.
Qed.

Lemma HasVersionName_Some t c n v :
  HasVersionName t c n = (true, v) ->
  exists x p w, v = Some x /\ abs c !! (p, w) = Some x /\ V_Name x = n.
Proof.
  unfold HasVersionName, GetAllVersions. rewrite deepCopy_id.
  destruct (has_outer _ _ _ _) as [x|] eqn:E; intros [= <-].
  apply has_outer_Some in E as (Hn & p & m & w & Hin & Hw).
  apply elem_of_range in Hin. exists x, p, w. by rewrite lookup_abs, Hin.
Qed.

Lemma HasVersionName_None t c n v :
  HasVersionName t c n = (false, v) ->
  v = None /\ forall p w x, abs c !! (p, w) = Some x -> V_Name x <> n.
Proof.
  unfold HasVersionName, GetAllVersions. rewrite deepCopy_id.
  destruct (has_outer _ _ _ _) as [y|] eqn:E; intros [= <-]. split; [done|].
  intros p w x Hx. rewrite lookup_abs in Hx.
  destruct (addons c !! p) as [m|] eqn:Ep; [|done].
  eapply has_outer_None; [done| |exact Hx]. by apply elem_of_range.
Qed.

#[global] Instance cached_laws : VersionCacheLaws cached.
Proof.
  refine {| view := abs |}; simpl.
  - exact abs_AddVersion.
  - exact abs_RemoveVersion.
  - exact abs_RemoveVersions.
  - intros t c p m w. rewrite GetVersions_eq, lookup_abs. by intros ->.
  - intros t c p w. rewrite GetVersions_eq, lookup_abs. by intros ->.
  - exact GetVersion_hit.
  - exact GetVersion_Some.
  - exact GetVersion_None.
  - exact HasVersionName_Some.
  - exact HasVersionName_None.
Defined.
End lemmas.

End Cached.

(** ** Traces of cache updates *)

Inductive cache_op :=
  | OpAddVersion (v : Version)
  | OpRemoveVersion (p w : string)
  | OpRemoveVersions (p : string).

Definition run_cache_op (c : Cached.cached) (o : cache_op) : Cached.cached :=
  match o with
  | OpAddVersion v => Cached.AddVersion v c
  | OpRemoveVersion p w => Cached.RemoveVersion p w c
  | OpRemoveVersions p => Cached.RemoveVersions p c
  end.

(** The same update on the specification: one finite map. *)
Definition spec_cache_op (m : gmap (string * string) Version) (o : cache_op)
    : gmap (string * string) Version :=
  match o with
  | OpAddVersion v => <[(V_PkgName v, V_PkgVersion v) := v]> m
  | OpRemoveVersion p w => delete (p, w) m
  | OpRemoveVersions p => filter (fun kv : (string * string) * Version => kv.1.1 <> p) m
  end.

Lemma abs_run_cache_op c o : Cached.abs (run_cache_op c o) = spec_cache_op (Cached.abs c) o.
Proof.
  destruct o; simpl.
  - apply Cached.abs_AddVersion.
  - apply Cached.abs_RemoveVersion.
  - apply Cached.abs_RemoveVersions.
Qed.

(** Every entry is stored under its own package name and version. *)
Definition keys_ok (m : gmap (string * string) Version) : Prop :=
  forall p w v, m !! (p, w) = Some v -> V_PkgName v = p /\ V_PkgVersion v = w.

Lemma spec_cache_op_keys_ok m o : keys_ok m -> keys_ok (spec_cache_op m o).
Proof.
  intros Hm p w v. destruct o as [x|p' w'|p']; simpl.
  - rewrite lookup_insert_Some. intros [[[= <- <-] ->]|[_ Hv]]; [done | by apply Hm].
  - intros [_ Hv]%lookup_delete_Some. by apply Hm.
  - intros [Hv _]%map_lookup_filter_Some. by apply Hm.
Qed.

(** A concrete version scheme for the examples: versions start with the
    letter v, the only constraint is a star and every version meets it. *)
Definition star_semver : Semver := {|
  Constraint := unit;
  SemVersion := unit;
  NewConstraint := fun s => if s == "*" then Some tt else None;
  NewVersion := fun s => if HasPrefix s "v" then Some tt else None;
  Check := fun _ _ => true |}.

Definition sample_version (n p w : string) (deps : gmap string string)
    (ph : ApplicationAssemblyPhase) : Version :=
  mkVersion n "addon-manager-system" (mkPackageSpec "" p w CompositePkg "" deps) ph.

Definition sample_cache : Cached.cached :=
  foldl run_cache_op Cached.NewAddonVersionCacheClient
    [OpAddVersion (sample_version "a" "core/A" "v1" ∅ Succeeded);
     OpAddVersion (sample_version "b" "core/B" "v2" {["core/A" := "v1"]} Pending)].

(** ** Properties *)

(** C35: the cache refines a finite map keyed by (package name, version):
    after any sequence of updates the nested maps stand for exactly the map
    the specification computes, so [AddVersion] overwrites one key,
    [RemoveVersion] deletes one key and [RemoveVersions] the keys of one
    package, and nothing else changes. *)
Theorem cache_refines_finite_map (ops : list cache_op) (c : Cached.cached) :
  Cached.abs (foldl run_cache_op c ops) = foldl spec_cache_op (Cached.abs c) ops.
Proof.
  revert c. induction ops as [|o ops IH]; intros c; simpl; [done|].
  by rewrite IH, abs_run_cache_op.
Qed.

(** In every cache reachable from a new one, an entry is stored under its
    own package name and version. *)
Theorem cache_keys_invariant (ops : list cache_op) :
  keys_ok (Cached.abs (foldl run_cache_op Cached.NewAddonVersionCacheClient ops)).
Proof.
  assert (forall c, keys_ok (Cached.abs c) -> keys_ok (Cached.abs (foldl run_cache_op c ops)))
    as Hgen.
  { induction ops as [|o ops IH]; intros c Hc; simpl; [done|].
    apply IH. rewrite abs_run_cache_op. by apply spec_cache_op_keys_ok. }
  apply Hgen. intros p w v. by rewrite Cached.lookup_abs.
Qed.

(** [GetVersion] returns the entry of the exact version when there is
    one; otherwise, for every iteration order, it returns some cached version
    of the package that satisfies the version read as a constraint, and
    nothing only when no cached version does. *)
Theorem GetVersion_spec `{GoRange, Semver} (t : list nat) (c : Cached.cached) (p w : string) :
  match Cached.GetVersion t c p w with
  | Some v =>
      Cached.abs c !! (p, w) = Some v \/
      (Cached.abs c !! (p, w) = None /\
       exists w', Cached.abs c !! (p, w') = Some v /\ satisfies w w' = true)
  | None =>
      forall w', is_Some (Cached.abs c !! (p, w')) -> w' <> w /\ satisfies w w' = false
  end.
Proof.
  destruct (Cached.GetVersion t c p w) as [v|] eqn:E; [|by eapply Cached.GetVersion_None].
  destruct (Cached.abs c !! (p, w)) as [x|] eqn:Ex.
  - rewrite (Cached.GetVersion_hit _ _ _ _ _ Ex) in E. simplify_eq. by left.
  - right. split; [done|]. apply Cached.GetVersion_Some in E as (w' & Hw' & [->|Hs]);
      [congruence | eauto].
Qed.

(** [HasVersionName] finds an entry of the given addon name exactly when
    the cache has one, and the entry it returns carries that name. *)
Theorem HasVersionName_spec `{GoRange} (t : list nat) (c : Cached.cached) (n : string) :
  ((Cached.HasVersionName t c n).1 = true <->
    exists p w x, Cached.abs c !! (p, w) = Some x /\ V_Name x = n) /\
  forall x, (Cached.HasVersionName t c n).2 = Some x ->
    V_Name x = n /\ exists p w, Cached.abs c !! (p, w) = Some x.
Proof.
  destruct (Cached.HasVersionName t c n) as [[|] v] eqn:E; simpl.
  - apply Cached.HasVersionName_Some in E as (x & p & w & -> & Hx & Hn).
    split; [naive_solver|]. intros y [= <-]. eauto.
  - apply Cached.HasVersionName_None in E as [-> Hno].
    split; [|done]. split; [done|]. intros (p & w & x & Hx & Hn). by destruct (Hno p w x).
Qed.

