(* ===== verification/GoHeap.v ===== *)
(** Memory shared by reference: Go maps, slices and pointers.

    A computation takes a state and gives a value with the state afterwards,
    or panics.  A heap is the list of the objects allocated so far, a location
    the position of an object, so allocation never reuses a location and
    [prefix_of] says that no older object has changed. *)
From S2P Require Import Prelude.

Definition St (S A : Type) : Type := S -> outcome (A * S).

#[global] Instance St_ret S : MRet (St S) := fun A a s => Val (a, s).

#[global] Instance St_bind S : MBind (St S) := fun A B k m s =>
  match m s with
  | Val (a, s') => k a s'
  | Panicked msg => Panicked msg
  end.

Definition go_panic {S A : Type} (msg : string) : St S A := fun _ => Panicked msg.

Definition get_state {S : Type} : St S S := fun s => Val (s, s).

Definition modify_state {S : Type} (f : S -> S) : St S () := fun s => Val ((), f s).

(** [for _, x := range l], from left to right. *)
Fixpoint for_each {S A : Type} (f : A -> St S ()) (l : list A) : St S () :=
  match l with
  | [] => mret ()
  | x :: l' => f x ;; for_each f l'
  end.

(** Inversion of a computation that has returned, and the meaning of the
    primitive steps. *)
Ltac st_inv := intros; unfold mret, St_ret in *; simplify_eq/=.

Ltac st_eval := unfold get_state, modify_state, go_panic, mret, St_ret, mbind, St_bind.

(** The steps of a computation that returns. *)
Lemma St_bind_Val {S A B} (m : St S A) (k : A -> St S B) s b s' :
  (m ≫= k) s = Val (b, s') <-> exists a s1, m s = Val (a, s1) /\ k a s1 = Val (b, s').
Proof.
  unfold mbind, St_bind. split.
  - destruct (m s) as [[a s1]|] eqn:Hm; [|done]. intros Hk. by exists a, s1.
  - intros (a & s1 & -> & Hk). done.
Qed.

Lemma St_bind_step {S A B} (m : St S A) (k : A -> St S B) s a s1 :
  m s = Val (a, s1) -> (m ≫= k) s = k a s1.
Proof. unfold mbind, St_bind. by intros ->. Qed.

Lemma St_bind_ret {S A B} (a : A) (k : A -> St S B) s : (mret a ≫= k) s = k a s.
Proof. done. Qed.

Lemma for_each_app {S A} (f : A -> St S ()) l1 l2 s :
  for_each f (l1 ++ l2) s = (for_each f l1 ;; for_each f l2) s.
Proof.
  revert s. induction l1 as [|x l1 IH]; intros s; [done|].
  cbn. unfold mbind, St_bind. destruct (f x s) as [[[] s1]|]; [|done]. apply IH.
Qed.

(** A loop that steps through states of the form [g acc]. *)
Lemma for_each_fold {S A T} (f : A -> St S ()) (g : T -> S) (step : T -> A -> T) l acc :
  (forall x acc, f x (g acc) = Val ((), g (step acc x))) ->
  for_each f l (g acc) = Val ((), g (foldl step acc l)).
Proof.
  intros Hstep. revert acc. induction l as [|x l IH]; intros acc; cbn; [done|].
  unfold mbind, St_bind. rewrite Hstep. apply IH.
Qed.

(** ** Heaps *)

Abbreviation loc := nat (only parsing).

Definition invalid_memory : string := "runtime error: invalid memory address or nil pointer dereference".

Section heap.
Context {C : Type}.
Implicit Types (h : list C) (c : C) (l : loc).

Definition alloc (c : C) : St (list C) loc := fun h => Val (length h, h ++ [c]).

Definition deref (l : loc) : St (list C) C := fun h =>
  match h !! l with
  | Some c => Val (c, h)
  | None => Panicked invalid_memory
  end.

Definition store (l : loc) (c : C) : St (list C) () := fun h =>
  match h !! l with
  | Some _ => Val ((), <[l := c]> h)
  | None => Panicked invalid_memory
  end.

Lemma deref_Some h l c : h !! l = Some c -> deref l h = Val (c, h).
Proof. unfold deref. by intros ->. Qed.

Lemma store_Some h l c c' : h !! l = Some c' -> store l c h = Val ((), <[l := c]> h).
Proof. unfold store. by intros ->. Qed.

Lemma prefix_lookup_heap h h' l c : h `prefix_of` h' -> h !! l = Some c -> h' !! l = Some c.
Proof. intros Hp Hl. by eapply prefix_lookup_Some. Qed.

Lemma prefix_length_heap h h' : h `prefix_of` h' -> length h <= length h'.
Proof. apply prefix_length. Qed.

(** Storing beyond a prefix keeps it. *)
Lemma prefix_insert h h' l c :
  h `prefix_of` h' -> length h <= l -> h `prefix_of` <[l := c]> h'.
Proof.
  intros [k ->] Hl. rewrite insert_app_r_alt by done. by apply prefix_app_r.
Qed.

Lemma lookup_alloc h c : (h ++ [c]) !! length h = Some c.
Proof. by rewrite lookup_app_r, Nat.sub_diag by done. Qed.
End heap.

#[export] Hint Resolve prefix_lookup_heap prefix_insert lookup_alloc : addon.
