(* ===== verification/Unstructured.v ===== *)
(** Dynamically typed documents: the [map[string]interface{}] values the
    program gets from YAML, and the interface of the Kubernetes
    [unstructured] helpers and of [gopkg.in/yaml.v3] it calls. *)
From S2P Require Import Prelude.

(** A Go [interface{}] as the YAML and JSON decoders build it.  [VInt] is the
    Go type [int] that YAML gives, [VInt64] the [int64] of a JSON document;
    other scalars keep their text. *)
Inductive value :=
  | VNil
  | VBool (b : bool)
  | VInt (z : Z)
  | VInt64 (z : Z)
  | VScalar (text : string)
  | VString (s : string)
  | VSlice (l : list value)
  | VMap (m : list (string * value)).

Abbreviation object := (list (string * value)).

(** [m[k]], nil when absent. *)
Fixpoint obj_lookup {V : Type} (m : list (string * V)) (k : string) : option V :=
  match m with
  | [] => None
  | (k', v) :: m' => if k == k' then Some v else obj_lookup m' k
  end.

(** [m[k] = v] *)
Fixpoint obj_insert {V : Type} (k : string) (v : V) (m : list (string * V))
    : list (string * V) :=
  match m with
  | [] => [(k, v)]
  | (k', v') :: m' => if k == k' then (k, v) :: m' else (k', v') :: obj_insert k v m'
  end.

(** The value at the end of a path of nested maps. *)
Fixpoint obj_path (m : object) (p : list string) : option value :=
  match p with
  | [] => Some (VMap m)
  | [k] => obj_lookup m k
  | k :: p' =>
      match obj_lookup m k with
      | Some (VMap m') => obj_path m' p'
      | _ => None
      end
  end.

(** The effect on [m] of assigning [v] to the field that a path refers to:
    nested maps are shared, so the assignment shows in every map above. *)
Fixpoint set_path (p : list string) (v : value) (m : object) : object :=
  match p with
  | [] => m
  | [k] => obj_insert k v m
  | k :: p' =>
      match obj_lookup m k with
      | Some (VMap m') => obj_insert k (VMap (set_path p' v m')) m
      | _ => m
      end
  end.

(** A key of the path is missing in the map it should be in. *)
Fixpoint obj_absent (m : object) (p : list string) : bool :=
  match p with
  | [] => false
  | k :: p' =>
      match obj_lookup m k with
      | None => true
      | Some (VMap m') => obj_absent m' p'
      | Some _ => false
      end
  end.

(** [x == nil] for [x := m[k]] *)
Definition is_nil (v : option value) : bool :=
  match v with None | Some VNil => true | _ => false end.

(** [%T] of a decoded value. *)
Definition go_type (v : value) : string :=
  match v with
  | VNil => "<nil>"
  | VBool _ => "bool"
  | VInt _ => "int"
  | VInt64 _ => "int64"
  | VScalar _ => "float64"
  | VString _ => "string"
  | VSlice _ => "[]interface {}"
  | VMap _ => "map[string]interface {}"
  end.

(** Neither path leads through the other. *)
Definition apart (p q : list string) : Prop := ~ p `prefix_of` q /\ ~ q `prefix_of` p.

#[global] Instance apart_dec p q : Decision (apart p q).
Proof. unfold apart. apply _. Defined.

(** Decides [apart] of concrete paths. *)
Ltac solve_apart := apply (bool_decide_unpack _); vm_compute; exact I.

Lemma apart_head k k' p q : k <> k' -> apart (k :: p) (k' :: q).
Proof. intros Hne. split; intros Hp; by apply prefix_cons_inv_1 in Hp. Qed.

Lemma obj_lookup_insert {V} k (v : V) m : obj_lookup (obj_insert k v m) k = Some v.
Proof.
  induction m as [|[k' v'] m IH]; simpl; [by case_bool_decide|].
  case_bool_decide; simpl; case_bool_decide; done.
Qed.

Lemma obj_insert_same {V} k (v : V) m : obj_lookup m k = Some v -> obj_insert k v m = m.
Proof.
  induction m as [|[k' v'] m IH]; simpl; [done|].
  case_bool_decide; intros; simplify_eq; [done|]. by rewrite IH.
Qed.

Lemma obj_absent_path m p : obj_absent m p = true -> obj_path m p = None.
Proof.
  revert m. induction p as [|k p IH]; intros m Hp; [done|]. cbn in *.
  destruct (obj_lookup m k) as [[]|] eqn:Hk; try done; destruct p; try done. by apply IH.
Qed.

Lemma obj_lookup_insert_ne {V} k k' (v : V) m :
  k <> k' -> obj_lookup (obj_insert k v m) k' = obj_lookup m k'.
Proof.
  intros Hne. induction m as [|[j w] m IH]; simpl; [by case_bool_decide|].
  repeat (case_bool_decide; simplify_eq/=); done.
Qed.

Lemma obj_path_cons m k p : p <> [] ->
  obj_path m (k :: p) =
  match obj_lookup m k with Some (VMap m') => obj_path m' p | _ => None end.
Proof. by destruct p. Qed.

Lemma set_path_cons m k p v : p <> [] ->
  set_path (k :: p) v m =
  match obj_lookup m k with
  | Some (VMap m') => obj_insert k (VMap (set_path p v m')) m | _ => m end.
Proof. by destruct p. Qed.

Lemma apart_cons k p q : apart (k :: p) (k :: q) -> apart p q /\ p <> [] /\ q <> [].
Proof.
  intros [H1 H2]. split_and!.
  - split; intros Hp; [apply H1 | apply H2]; by apply prefix_cons.
  - intros ->. apply H1, prefix_cons, prefix_nil.
  - intros ->. apply H2, prefix_cons, prefix_nil.
Qed.

(** The first keys of a path are all that other paths can notice. *)
Lemma obj_path_ext m m' k p :
  obj_lookup m k = obj_lookup m' k -> obj_path m (k :: p) = obj_path m' (k :: p).
Proof. intros Hk. destruct p; simpl; by rewrite Hk. Qed.

Lemma obj_path_set_path_apart p v m q : apart p q -> obj_path (set_path p v m) q = obj_path m q.
Proof.
  revert m q. induction p as [|k p IH]; intros m q Hpq; [done|].
  destruct q as [|j q]; [by destruct Hpq as [_ []]; apply prefix_nil|].
  destruct (decide (k = j)) as [<-|Hne].
  - apply apart_cons in Hpq as (Hpq & Hp & Hq). rewrite set_path_cons by done.
    destruct (obj_lookup m k) as [[]|] eqn:Hk; try done.
    rewrite !obj_path_cons, obj_lookup_insert, Hk by done. by apply IH.
  - apply obj_path_ext. destruct p as [|k' p]; [by apply obj_lookup_insert_ne|].
    rewrite set_path_cons by done. destruct (obj_lookup m k) as [[]|]; try done.
    by apply obj_lookup_insert_ne.
Qed.

Record GroupVersionKind := mkGVK {
  GVK_Group : string;
  GVK_Version : string;
  GVK_Kind : string
}.

#[global] Instance GroupVersionKind_eq_dec : EqDecision GroupVersionKind.
Proof. solve_decision. Defined.

(** [yaml.Marshal], and [yaml.Unmarshal] of a document into a map that may already hold entries;
    the first component is the map afterwards. *)
Class Yaml := {
  yaml_Unmarshal : string -> object -> object * option error;
  yaml_Marshal : object -> result string
}.

(** The reading helpers of [k8s.io/apimachinery/pkg/apis/meta/v1/unstructured].
    A nested accessor gives [Ok None] when the path is absent and an error
    when a step of the path is not a map; it may panic on values it cannot
    deep-copy. *)
Class UnstructuredReader := {
  un_GroupVersionKind : object -> GroupVersionKind;
  un_NestedMap : object -> list string -> outcome (result (option object));
  un_NestedSlice : object -> list string -> outcome (result (option (list value)))
}.

(** The [unstructured.Unstructured] methods and helpers that read and change
    an object; [un_fmt] is its [%+v].  A setter that deep-copies its argument
    may panic. *)
Class UnstructuredObject := {
  un_NestedFieldNoCopy : object -> list string -> result (option value);
  un_NestedString : object -> list string -> result (option string);
  un_NestedInt64 : object -> list string -> result (option Z);
  un_SetNestedField : object -> value -> list string -> outcome (object * option error);
  un_SetNestedSlice : object -> list value -> list string -> outcome (object * option error);
  un_GetName : object -> string;
  un_GetNamespace : object -> string;
  un_GetLabels : object -> option (gmap string string);
  un_SetName : string -> object -> object;
  un_SetNamespace : string -> object -> object;
  un_SetGroupVersionKind : GroupVersionKind -> object -> object;
  un_SetLabels : gmap string string -> object -> object;
  un_fmt : object -> string
}.

(** [metadata] is absent or a map, as in every Kubernetes object. *)
Definition metadata_ok (o : object) : Prop :=
  match obj_lookup o "metadata" with
  | None | Some (VMap _) => True
  | Some _ => False
  end.

#[global] Instance metadata_ok_dec o : Decision (metadata_ok o).
Proof. unfold metadata_ok. destruct (obj_lookup o "metadata") as [[]|]; apply _. Defined.

(** The documented behaviour of these helpers: getters look at their path,
    setters assign their path and nothing else, and the metadata setters do
    nothing when [metadata] is not a map. *)
Class UnstructuredLaws `{UnstructuredObject} := {
  NestedFieldNoCopy_path o p v :
    un_NestedFieldNoCopy o p = Ok (Some v) -> obj_path o p = Some v;
  NestedFieldNoCopy_found o p v :
    obj_path o p = Some v -> un_NestedFieldNoCopy o p = Ok (Some v);
  NestedFieldNoCopy_absent o p :
    obj_absent o p = true -> un_NestedFieldNoCopy o p = Ok None;
  NestedInt64_path o p z : un_NestedInt64 o p = Ok (Some z) <-> obj_path o p = Some (VInt64 z);
  SetNestedField_path o v p o' :
    un_SetNestedField o v p = Val (o', None) -> obj_path o' p = Some v;
  SetNestedField_apart o v p o' e q :
    un_SetNestedField o v p = Val (o', e) -> apart p q -> obj_path o' q = obj_path o q;
  SetNestedSlice_path o l p o' :
    un_SetNestedSlice o l p = Val (o', None) -> obj_path o' p = Some (VSlice l);
  SetNestedSlice_apart o l p o' e q :
    un_SetNestedSlice o l p = Val (o', e) -> apart p q -> obj_path o' q = obj_path o q;
  GetName_path o o' :
    obj_path o ["metadata"; "name"] = obj_path o' ["metadata"; "name"] ->
    un_GetName o = un_GetName o';
  GetNamespace_path o o' :
    obj_path o ["metadata"; "namespace"] = obj_path o' ["metadata"; "namespace"] ->
    un_GetNamespace o = un_GetNamespace o';
  GetLabels_path o o' :
    obj_path o ["metadata"; "labels"] = obj_path o' ["metadata"; "labels"] ->
    un_GetLabels o = un_GetLabels o';
  SetName_get n o : metadata_ok o -> un_GetName (un_SetName n o) = n;
  SetName_apart n o q : apart ["metadata"; "name"] q -> obj_path (un_SetName n o) q = obj_path o q;
  SetNamespace_get n o : metadata_ok o -> un_GetNamespace (un_SetNamespace n o) = n;
  SetNamespace_apart n o q :
    apart ["metadata"; "namespace"] q -> obj_path (un_SetNamespace n o) q = obj_path o q;
  SetLabels_get l o : l <> ∅ -> metadata_ok o -> un_GetLabels (un_SetLabels l o) = Some l;
  SetLabels_apart l o q :
    apart ["metadata"; "labels"] q -> obj_path (un_SetLabels l o) q = obj_path o q;
  SetGroupVersionKind_apart g o q :
    apart ["apiVersion"] q -> apart ["kind"] q ->
    obj_path (un_SetGroupVersionKind g o) q = obj_path o q;
  SetName_bad n o : ~ metadata_ok o -> un_SetName n o = o;
  SetNamespace_bad n o : ~ metadata_ok o -> un_SetNamespace n o = o;
  SetLabels_bad l o : ~ metadata_ok o -> un_SetLabels l o = o
}.
