(* ===== verification/TreeObject.v ===== *)
(** A concrete [UnstructuredObject] that satisfies the laws, for the
    examples: getters walk down the nested maps, setters build the maps that
    are missing and fail on a value that is not a map. *)
From S2P Require Import Prelude Unstructured.

Fixpoint tree_set (p : list string) (v : value) (m : object) : option object :=
  match p with
  | [] => None
  | [k] => Some (obj_insert k v m)
  | k :: p' =>
      match obj_lookup m k with
      | None => (fun m' => obj_insert k (VMap m') m) <$> tree_set p' v []
      | Some (VMap m0) => (fun m' => obj_insert k (VMap m') m) <$> tree_set p' v m0
      | Some _ => None
      end
  end.

Definition not_a_map : error := Errorf "accessor error: value is not of the type map[string]interface{}".

Definition tree_setter (o : object) (v : value) (p : list string) : outcome (object * option error) :=
  Val (match tree_set p v o with Some o' => (o', None) | None => (o, Some not_a_map) end).

Definition tree_metadata (k : string) (v : value) (o : object) : object :=
  if bool_decide (metadata_ok o) then default o (tree_set ["metadata"; k] v o) else o.

Definition tree_string (o : object) (p : list string) : string :=
  match obj_path o p with Some (VString s) => s | _ => "" end.

Definition value_string (v : value) : string := match v with VString s => s | _ => "" end.

Definition tree_labels (o : object) : option (gmap string string) :=
  match obj_path o ["metadata"; "labels"] with
  | Some (VMap m) => Some (list_to_map (prod_map id value_string <$> m))
  | _ => None
  end.

#[global] Instance tree_object : UnstructuredObject := {|
  un_NestedFieldNoCopy o p := Ok (obj_path o p);
  un_NestedString o p :=
    match obj_path o p with
    | Some (VString s) => Ok (Some s) | None => Ok None | Some _ => Err not_a_map end;
  un_NestedInt64 o p :=
    match obj_path o p with
    | Some (VInt64 z) => Ok (Some z) | None => Ok None | Some _ => Err not_a_map end;
  un_SetNestedField := tree_setter;
  un_SetNestedSlice o l p := tree_setter o (VSlice l) p;
  un_GetName o := tree_string o ["metadata"; "name"];
  un_GetNamespace o := tree_string o ["metadata"; "namespace"];
  un_GetLabels := tree_labels;
  un_SetName n := tree_metadata "name" (VString n);
  un_SetNamespace n := tree_metadata "namespace" (VString n);
  un_SetGroupVersionKind g o :=
    obj_insert "apiVersion" (VString (GVK_Group g +:+ "/" +:+ GVK_Version g))
      (obj_insert "kind" (VString (GVK_Kind g)) o);
  un_SetLabels l := tree_metadata "labels" (VMap (prod_map id VString <$> map_to_list l));
  un_fmt _ := "&{}"
|}.

Lemma tree_set_cons k p v m : p <> [] ->
  tree_set (k :: p) v m =
  match obj_lookup m k with
  | None => (fun m' => obj_insert k (VMap m') m) <$> tree_set p v []
  | Some (VMap m0) => (fun m' => obj_insert k (VMap m') m) <$> tree_set p v m0
  | Some _ => None
  end.
Proof. by destruct p. Qed.

Lemma tree_set_path p v m m' : tree_set p v m = Some m' -> obj_path m' p = Some v.
Proof.
  revert m m'. induction p as [|k p IH]; intros m m' Hs; [done|].
  destruct (decide (p = [])) as [->|Hp]; [simplify_eq/=; apply obj_lookup_insert|].
  rewrite tree_set_cons in Hs by done. rewrite obj_path_cons by done.
  destruct (obj_lookup m k) as [[]|]; simplify_option_eq; rewrite obj_lookup_insert; by eapply IH.
Qed.

Lemma obj_path_empty q : q <> [] -> obj_path [] q = None.
Proof. by destruct q as [|k [|k' q]]. Qed.

Lemma tree_set_apart p v m m' q : tree_set p v m = Some m' -> apart p q -> obj_path m' q = obj_path m q.
Proof.
  revert m m' q. induction p as [|k p IH]; intros m m' q Hs Hq; [done|].
  destruct q as [|j q]; [by destruct Hq as [_ []]; apply prefix_nil|].
  destruct (decide (k = j)) as [<-|Hne].
  - apply apart_cons in Hq as (Hq & Hp & Hq'). rewrite tree_set_cons in Hs by done.
    rewrite !obj_path_cons by done.
    destruct (obj_lookup m k) as [[]|]; simplify_option_eq; rewrite obj_lookup_insert.
    + by apply IH.
    + erewrite (IH [] _ q) by done. by apply obj_path_empty.
  - apply obj_path_ext. destruct p as [|k' p]; [simplify_eq/=; by apply obj_lookup_insert_ne|].
    rewrite tree_set_cons in Hs by done.
    destruct (obj_lookup m k) as [[]|]; simplify_option_eq; by apply obj_lookup_insert_ne.
Qed.

Lemma tree_setter_path o v p o' : tree_setter o v p = Val (o', None) -> obj_path o' p = Some v.
Proof.
  unfold tree_setter. destruct (tree_set p v o) eqn:Hs; intros; simplify_eq.
  by eapply tree_set_path.
Qed.

Lemma tree_setter_apart o v p o' e q :
  tree_setter o v p = Val (o', e) -> apart p q -> obj_path o' q = obj_path o q.
Proof.
  unfold tree_setter. destruct (tree_set p v o) eqn:Hs; intros; simplify_eq; [|done].
  by eapply tree_set_apart.
Qed.

Lemma tree_metadata_path k v o :
  metadata_ok o -> obj_path (tree_metadata k v o) ["metadata"; k] = Some v.
Proof.
  intros Hm. unfold tree_metadata. rewrite bool_decide_eq_true_2 by done.
  destruct (tree_set ["metadata"; k] v o) as [o'|] eqn:Hs; [by eapply tree_set_path|].
  unfold metadata_ok in Hm. cbn [tree_set] in Hs.
  by destruct (obj_lookup o "metadata") as [[]|].
Qed.

Lemma tree_metadata_apart k v o q :
  apart ["metadata"; k] q -> obj_path (tree_metadata k v o) q = obj_path o q.
Proof.
  intros Hq. unfold tree_metadata. case_bool_decide; [|done].
  destruct (tree_set ["metadata"; k] v o) as [o'|] eqn:Hs; [by eapply tree_set_apart | done].
Qed.

Lemma tree_metadata_bad k v o : ~ metadata_ok o -> tree_metadata k v o = o.
Proof. intros Hm. unfold tree_metadata. by rewrite bool_decide_eq_false_2. Qed.

Lemma tree_labels_set (l : gmap string string) o :
  metadata_ok o ->
  tree_labels (tree_metadata "labels" (VMap (prod_map id VString <$> map_to_list l)) o) = Some l.
Proof.
  intros Hm. unfold tree_labels. rewrite tree_metadata_path by done.
  rewrite <-list_fmap_compose.
  rewrite (list_fmap_ext _ id), list_fmap_id, list_to_map_to_list; [done|].
  by intros i [].
Qed.

#[global] Instance tree_object_laws : UnstructuredLaws.
Proof.
  split; intros;
    cbn [un_NestedFieldNoCopy un_NestedInt64 un_SetNestedField un_SetNestedSlice un_GetName
      un_GetNamespace un_GetLabels un_SetName un_SetNamespace un_SetGroupVersionKind
      un_SetLabels tree_object] in *.
  - by simplify_eq.
  - by f_equal.
  - by rewrite obj_absent_path.
  - destruct (obj_path o p) as [[]|]; naive_solver.
  - by eapply tree_setter_path.
  - by eapply tree_setter_apart.
  - by eapply tree_setter_path.
  - by eapply tree_setter_apart.
  - unfold tree_string. by rewrite H.
  - unfold tree_string. by rewrite H.
  - unfold tree_labels. by rewrite H.
  - unfold tree_string. by rewrite tree_metadata_path.
  - by apply tree_metadata_apart.
  - unfold tree_string. by rewrite tree_metadata_path.
  - by apply tree_metadata_apart.
  - by apply tree_labels_set.
  - by apply tree_metadata_apart.
  - etrans; [by apply (obj_path_set_path_apart ["apiVersion"])|].
    by apply (obj_path_set_path_apart ["kind"]).
  - by apply tree_metadata_bad.
  - by apply tree_metadata_bad.
  - by apply tree_metadata_bad.
Qed.
