(* ===== verification/Validator.v ===== *)
(** The addon validator, [pkg/addon/addon_validator.go].

    The validator is written against the cache interface
    [VersionCacheClient]; YAML, the [unstructured] helpers and semver are
    parameters.  One run of [Validate] reads the cache at one instant. *)
From S2P Require Import Prelude GoStrings GoFmt AddonTypes Common VersionCache Unstructured.

Definition ErrDepNotInstalled : string := "required dependency is not installed".
Definition ErrDepPending : string := "required dependency is in pending state".

(** The key of the visited map. *)
Definition version_key (v : Version) : string := V_PkgName v +:+ ":" +:+ V_PkgVersion v.

Definition argoGKV : GroupVersionKind := mkGVK "argoproj.io" "v1alpha1" "Workflow".

Section validator.
Context `{GoRange, Semver, Yaml, UnstructuredReader}.
Context {C : Type} `{VersionCacheClient C}.

Record addonValidator := mkAddonValidator { av_cache : C; av_addon : Addon }.

Definition NewAddonValidator (a : Addon) (cache : C) : addonValidator :=
  mkAddonValidator cache a.

Definition addon_version (a : Addon) : Version :=
  mkVersion (addon_Name a) (addon_Namespace a) (GetPackageSpec a) (GetInstallStatus a).

Definition validateDuplicate (t : list nat) (av : addonValidator) (version : Version)
    : option error :=
  let p := Spec_Package (Spec (av_addon av)) in
  match vc_GetVersion t (av_cache av) (V_PkgName version) (V_PkgVersion version) with
  | Some v =>
      if V_Name v != V_Name version then
        Some (Errorf ("package version " +:+ PkgName p +:+ ":" +:+ PkgVersion p +:+
          " already exists and cannot be installed as a duplicate"))
      else None
  | None => None
  end.

Definition validateAddonNameLength (av : addonValidator) : option error :=
  if (31 <? String.length (addon_Name (av_addon av)))%nat then
    Some (Errorf ("Addon name " +:+ addon_Name (av_addon av) +:+
      " must be less than 32 characters"))
  else None.

(** [wfParam.(map[string]interface{})["name"].(string)] *)
Definition param_name (wfParam : value) : outcome string :=
  match wfParam with
  | VMap m =>
      match obj_lookup m "name" with
      | Some (VString s) => Val s
      | _ => Panicked "interface conversion: interface {} is not string"
      end
  | _ => Panicked "interface conversion: interface {} is not map[string]interface {}"
  end.

Fixpoint check_params (a : Addon) (key : LifecycleStep) (addonParams : gmap string string)
    (wfParameters : list value) : outcome (option error) :=
  match wfParameters with
  | [] => Val None
  | wfParam :: ps =>
      let? wfParamName := param_name wfParam in
      match addonParams !! wfParamName with
      | Some _ =>
          Val (Some (Errorf ("invalid workflow, parameter named " +:+ Quote wfParamName +:+
            " found in addon params and in workflow " +:+ GetFormattedWorkflowName a key)))
      | None => check_params a key addonParams ps
      end
  end.

(** The loop over the four workflow types; [data] is declared outside the
    loop and each template is decoded into it. *)
Fixpoint workflow_loop (t : list nat) (a : Addon) (i : nat) (data : object)
    (l : list (string * WorkflowType)) : outcome (option error) :=
  match l with
  | [] => Val None
  | (key, wt) :: l' =>
      if Template wt == "" then workflow_loop t a (S i) data l' else
      let '(data, err) := yaml_Unmarshal (Template wt) data in
      match err with
      | Some e =>
          Val (Some (Errorf ("invalid workflow template " +:+ Quote key +:+ ". " +:+ Error e)))
      | None =>
          if un_GroupVersionKind data != argoGKV then
            Val (Some (Errorf ("invalid workflow, type is not a valid kind " +:+ GVK_Kind argoGKV
              +:+ " and api-version " +:+ GVK_Group argoGKV +:+ "/" +:+ GVK_Version argoGKV)))
          else
          match obj_lookup data "spec" with
          | None => Val (Some (Errorf "invalid workflow, missing spec"))
          | Some _ =>
              let? args := un_NestedMap data ["spec"; "arguments"] in
              match args with
              | Ok (Some _) =>
                  let? params := un_NestedSlice data ["spec"; "arguments"; "parameters"] in
                  match params with
                  | Ok (Some wfParameters) =>
                      let addonParams := GetAllAddonParameters (i :: t) a in
                      let? err := check_params a key addonParams wfParameters in
                      match err with
                      | Some e => Val (Some e)
                      | None => workflow_loop t a (S i) data l'
                      end
                  | _ => workflow_loop t a (S i) data l'
                  end
              | _ => workflow_loop t a (S i) data l'
              end
          end
      end
  end.

Definition validateWorkflow (t : list nat) (av : addonValidator) : outcome (option error) :=
  let lc := Lifecycle (Spec (av_addon av)) in
  let workflowTypes : gmap string WorkflowType :=
    {[Prereqs := LC_Prereqs lc; Install := LC_Install lc; Delete := LC_Delete lc;
      Validate := LC_Validate lc]} in
  workflow_loop (1 :: t) (av_addon av) 0 [] (range (0 :: t) workflowTypes).

Definition not_installed_any (pkgName : string) : error :=
  Errorf (ErrDepNotInstalled +:+ ": " +:+ Quote pkgName).
Definition no_valid_versions (pkgName : string) : error :=
  Errorf (ErrDepNotInstalled +:+ ": " +:+ Quote pkgName +:+ " has no valid versions installed").
Definition not_installed (pkgName pkgVersion : string) : error :=
  Errorf (ErrDepNotInstalled +:+ ": " +:+ Quote pkgName +:+ ":" +:+ Quote pkgVersion).
Definition dep_pending (pkgName pkgVersion : string) : error :=
  Errorf (ErrDepPending +:+ ": " +:+ Quote pkgName +:+ ":" +:+ Quote pkgVersion).

Fixpoint version_found (l : list (string * Version)) : bool :=
  match l with
  | [] => false
  | (_, v) :: l' => if PkgPhase v == Succeeded then true else version_found l'
  end.

Fixpoint dependencies_loop (t : list nat) (c : C) (i : nat) (l : list (string * string))
    : option error :=
  match l with
  | [] => None
  | (pkgName, pkgVersion) :: l' =>
      let pkgName := TrimSpace pkgName in
      let pkgVersion := TrimSpace pkgVersion in
      if pkgVersion == "*" then
        match vc_GetVersions (0 :: i :: t) c pkgName with
        | None => Some (not_installed_any pkgName)
        | Some versions =>
            if version_found (range (1 :: i :: t) versions)
            then dependencies_loop t c (S i) l'
            else Some (no_valid_versions pkgName)
        end
      else
        match vc_GetVersion (2 :: i :: t) c pkgName pkgVersion with
        | None => Some (not_installed pkgName pkgVersion)
        | Some v =>
            if PkgPhase v == Succeeded then None
            else if PkgPhase v == Pending then Some (dep_pending pkgName pkgVersion)
            else Some (not_installed pkgName pkgVersion)
        end
  end.

Definition ValidateDependencies (t : list nat) (av : addonValidator) : option error :=
  dependencies_loop (1 :: t) (av_cache av) 0
    (range (0 :: t) (PkgDeps (Spec_Package (Spec (av_addon av))))).

Definition own_package (pkgName pkgVersion : string) : error :=
  Errorf ("invalid package dependency, addon cannot depend on it's own package name " +:+
    pkgName +:+ ":" +:+ pkgVersion).
Definition unresolvable (pkgName pkgVersion : string) : error :=
  Errorf (ErrDepNotInstalled +:+ ": unable to resolve required dependency " +:+
    pkgName +:+ ":" +:+ pkgVersion).
Definition circular (v : Version) : error :=
  Errorf ("circular dependency was found in " +:+ V_PkgName v +:+ ":" +:+ V_PkgVersion v).

Abbreviation visited_map := (gmap string Version).

(** The body of the loop over [n.PkgDeps]; [rec] is the recursive call. *)
Fixpoint resolve_loop (rec : list nat -> Version -> visited_map ->
      outcome (visited_map * option error))
    (t : list nat) (c : C) (n : Version) (i : nat) (l : list (string * string))
    (visited : visited_map) : outcome (visited_map * option error) :=
  match l with
  | [] => Val (delete (version_key n) visited, None)
  | (pkgName, pkgVersion) :: l' =>
      let pkgName := TrimSpace pkgName in
      let pkgVersion := TrimSpace pkgVersion in
      if pkgName == V_PkgName n then Val (visited, Some (own_package pkgName pkgVersion)) else
      match vc_GetVersion (1 :: i :: t) c pkgName pkgVersion with
      | None => Val (visited, Some (unresolvable pkgName pkgVersion))
      | Some v =>
          match visited !! version_key v with
          | Some _ => Val (visited, Some (circular v))
          | None =>
              let? r := rec (2 :: i :: t) v visited in
              match r with
              | (visited, Some err) => Val (visited, Some err)
              | (visited, None) => resolve_loop rec t c n (S i) l' visited
              end
          end
      end
  end.

(** [depth] counts up to 256 in the source; [fuel] is 256 - depth. *)
Fixpoint resolve_fuel (fuel : nat) (c : C) (t : list nat) (n : Version) (visited : visited_map)
    : outcome (visited_map * option error) :=
  match fuel with
  | O => Panicked "Recursive max depth of 256 seen, this is bad!"
  | S fuel' =>
      resolve_loop (resolve_fuel fuel' c) t c n 0 (range (0 :: t) (V_PkgDeps n))
        (<[version_key n := n]> visited)
  end.

Definition resolveDependencies (t : list nat) (av : addonValidator) (n : Version)
    (visited : visited_map) (depth : nat) : outcome (visited_map * option error) :=
  resolve_fuel (256 - depth) (av_cache av) t n visited.

Definition Validate_addon (t : list nat) (av : addonValidator) : outcome (bool * option error) :=
  let version := addon_version (av_addon av) in
  match validateDuplicate (0 :: t) av version with
  | Some err => Val (false, Some err)
  | None =>
  match validateAddonNameLength av with
  | Some err => Val (false, Some err)
  | None =>
  if Params_Namespace (Params (Spec (av_addon av))) == "" then
    Val (false, Some (Errorf "namespace is empty in addon.spec.params.namespace")) else
  let? err := validateWorkflow (1 :: t) av in
  match err with
  | Some err => Val (false, Some err)
  | None =>
  let? r := resolveDependencies (2 :: t) av version ∅ 0 in
  match r with
  | (_, Some err) => Val (false, Some err)
  | (_, None) =>
  match ValidateDependencies (3 :: t) av with
  | Some err => Val (false, Some err)
  | None => Val (true, None)
  end end end end end.
End validator.

Arguments addonValidator C : clear implicits.
Arguments mkAddonValidator {C}.
Arguments av_cache {C}.
Arguments av_addon {C}.

(** ** What dependency resolution establishes *)

Section resolution.
Context `{GoRange, Semver, Yaml, UnstructuredReader}.
Context {C : Type} `{!VersionCacheClient C, !VersionCacheLaws C}.
Implicit Types (c : C) (n v : Version) (visited : gmap string Version).

(** A cached version the constraint [w] on package [p] may resolve to. *)
Definition candidate c (p w : string) v : Prop :=
  exists w', view c !! (p, w') = Some v /\ (w' = w \/ satisfies w w' = true).

(** [n] has a dependency tree in the cache: every dependency names another
    package, resolves to a cached version that is not an ancestor, and has
    a tree itself. *)
Inductive has_tree c : gset string -> Version -> Prop :=
  | has_tree_intro path n :
      (forall k w, V_PkgDeps n !! k = Some w ->
        TrimSpace k <> V_PkgName n /\
        (exists v, candidate c (TrimSpace k) (TrimSpace w) v /\
          (version_key v ∉ {[version_key n]} ∪ path) /\
          has_tree c ({[version_key n]} ∪ path) v)) ->
      has_tree c path n.

(** The same for every version a dependency may resolve to. *)
Inductive all_trees c : gset string -> Version -> Prop :=
  | all_trees_intro path n :
      (forall k w, V_PkgDeps n !! k = Some w ->
        TrimSpace k <> V_PkgName n /\
        (exists v, candidate c (TrimSpace k) (TrimSpace w) v) /\
        (forall v, candidate c (TrimSpace k) (TrimSpace w) v ->
          (version_key v ∉ {[version_key n]} ∪ path) /\
          all_trees c ({[version_key n]} ∪ path) v)) ->
      all_trees c path n.

(** The names a resolution below [n] can visit. *)
Definition cached_keys c : gset string :=
  list_to_set ((fun kv => version_key kv.2) <$> map_to_list (view c)).

Lemma candidate_cached c p w v : candidate c p w v -> version_key v ∈ cached_keys c.
Proof.
  intros (w' & Hv & _). unfold cached_keys. rewrite elem_of_list_to_set, list_elem_of_fmap.
  exists ((p, w'), v). split; [done|]. by apply elem_of_map_to_list.
Qed.

Lemma size_cached_keys c : size (cached_keys c) <= size (view c).
Proof.
  unfold cached_keys. etrans; [apply size_list_to_set_le|].
  by rewrite length_fmap, length_map_to_list.
Qed.

Lemma GetVersion_candidate t c p w v : vc_GetVersion t c p w = Some v -> candidate c p w v.
Proof. apply GetVersion_sound. Qed.

(** The outcome of a resolution of [n]: no panic, the visited map restored
    on success, and a dependency tree behind a success. *)
Definition resolved c n visited (o : outcome (gmap string Version * option error)) : Prop :=
  exists visited' e, o = Val (visited', e) /\
    (e = None -> visited' = visited /\ has_tree c (dom visited) n).

(** What one dependency of [n] needs for a tree. *)
Definition dep_ok c n (path : gset string) (kw : string * string) : Prop :=
  TrimSpace kw.1 <> V_PkgName n /\
  exists v, candidate c (TrimSpace kw.1) (TrimSpace kw.2) v /\ (version_key v ∉ path) /\
    has_tree c path v.

Lemma resolve_loop_sound c n rec t l i visited :
  (forall t' v, version_key v ∈ cached_keys c -> visited !! version_key v = None ->
    resolved c v visited (rec t' v visited)) ->
  exists visited' e,
    resolve_loop rec t c n i l visited = Val (visited', e) /\
    (e = None -> visited' = delete (version_key n) visited /\
      Forall (dep_ok c n (dom visited)) l).
Proof.
  intros Hrec. revert i. induction l as [|[k w] l IH]; intros i; simpl.
  - exists (delete (version_key n) visited), None. split; [done | by auto].
  - case_bool_decide as Hk; [by eexists _, _|].
    destruct (vc_GetVersion (1 :: i :: t) c (TrimSpace k) (TrimSpace w)) as [v|] eqn:Hv;
      [|by eexists _, _].
    apply GetVersion_candidate in Hv.
    destruct (visited !! version_key v) eqn:Hvis; [by eexists _, _|].
    destruct (Hrec (2 :: i :: t) v) as (vs & e & Ho & Hok);
      [by eapply candidate_cached | done |]. rewrite Ho. simpl.
    destruct e as [e|]; [by eexists _, _|]. destruct (Hok eq_refl) as [-> Htree].
    destruct (IH (S i)) as (vs & e & Hl & Hall). exists vs, e. split; [done|].
    intros He. destruct (Hall He) as [-> Hrest]. split; [done|]. constructor; [|done].
    split; [done|]. exists v. split_and!; [done| |done]. by apply not_elem_of_dom.
Qed.

(** The keys below a root: [univ] holds every key a resolution visits, and
    each level of recursion takes one more of them. *)
Lemma resolve_fuel_sound c (univ : gset string) fuel :
  cached_keys c ⊆ univ ->
  forall t n visited,
    dom visited ⊆ univ -> version_key n ∈ univ -> visited !! version_key n = None ->
    size univ <= fuel + size (dom visited) ->
    resolved c n visited (resolve_fuel fuel c t n visited).
Proof.
  intros Hu. induction fuel as [|fuel IH]; intros t n visited Hd Hn Hvn Hsz; simpl.
  - exfalso. assert (size ({[version_key n]} ∪ dom visited) <= size univ) as Hle.
    { apply subseteq_size. set_solver. }
    rewrite size_union in Hle by (apply not_elem_of_dom in Hvn; set_solver).
    rewrite size_singleton in Hle. lia.
  - destruct (resolve_loop_sound c n (resolve_fuel fuel c) t
      (range (0 :: t) (V_PkgDeps n)) 0 (<[version_key n := n]> visited)) as (vs & e & Ho & Hok).
    { intros t' v Hv Hvv. apply IH; [| | done |].
      - rewrite dom_insert_L. set_solver.
      - set_solver.
      - rewrite dom_insert_L, size_union, size_singleton
          by (apply not_elem_of_dom in Hvn; set_solver). lia. }
    exists vs, e. split; [done|]. intros He. destruct (Hok He) as [-> Hall]. split.
    + by apply delete_insert_id.
    + constructor. intros k w Hkw. rewrite dom_insert_L, Forall_forall in Hall.
      apply (Hall (k, w)). by apply elem_of_range.
Qed.

Lemma resolve_root c t n :
  size (view c) <= 255 -> resolved c n ∅ (resolve_fuel 256 c t n ∅).
Proof.
  intros Hsz. apply (resolve_fuel_sound c ({[version_key n]} ∪ cached_keys c));
    [set_solver.. | done |].
  etrans; [apply gset_size_union_le|]. rewrite size_singleton.
  pose proof (size_cached_keys c). lia.
Qed.

(** Success when every possible choice has a tree. *)
Lemma resolve_loop_complete c n rec t l i visited :
  (forall k w, (k, w) ∈ l ->
    TrimSpace k <> V_PkgName n /\
    (exists v, candidate c (TrimSpace k) (TrimSpace w) v) /\
    forall v, candidate c (TrimSpace k) (TrimSpace w) v ->
      visited !! version_key v = None /\ forall t', rec t' v visited = Val (visited, None)) ->
  resolve_loop rec t c n i l visited = Val (delete (version_key n) visited, None).
Proof.
  revert i. induction l as [|[k w] l IH]; intros i Hl; simpl; [done|].
  destruct (Hl k w) as (Hk & [v0 Hv0] & Hall); [apply elem_of_cons; by left|].
  rewrite bool_decide_false by done.
  destruct (vc_GetVersion (1 :: i :: t) c (TrimSpace k) (TrimSpace w)) as [v|] eqn:Hv.
  - apply GetVersion_candidate in Hv. destruct (Hall v Hv) as [-> Hr].
    rewrite Hr. simpl. apply IH. intros k' w' Hin. apply Hl. apply elem_of_cons. by right.
  - exfalso. destruct Hv0 as (w' & Hw' & Hs).
    destruct (GetVersion_complete _ _ _ _ Hv w') as [Hne Hns]; [eauto|].
    destruct Hs; congruence.
Qed.

Lemma resolve_fuel_complete c (univ : gset string) fuel :
  cached_keys c ⊆ univ ->
  forall t n visited,
    dom visited ⊆ univ -> version_key n ∈ univ -> visited !! version_key n = None ->
    size univ <= fuel + size (dom visited) ->
    all_trees c (dom visited) n ->
    resolve_fuel fuel c t n visited = Val (visited, None).
Proof.
  intros Hu. induction fuel as [|fuel IH]; intros t n visited Hd Hn Hvn Hsz Htree.
  - destruct (resolve_fuel_sound c univ 0 Hu t n visited Hd Hn Hvn Hsz) as (? & ? & [=] & _).
  - simpl. rewrite <-(delete_insert_id visited (version_key n) n) at 2 by done.
    apply resolve_loop_complete. intros k w Hin%elem_of_range.
    inversion Htree as [path n' Hdeps]; subst.
    destruct (Hdeps k w Hin) as (Hk & Hex & Hall). split_and!; [done..|].
    intros v Hv. destruct (Hall v Hv) as [Hnot Ht].
    assert (<[version_key n := n]> visited !! version_key v = None) as Hvv
      by (apply not_elem_of_dom; by rewrite dom_insert_L).
    split; [done|]. intros t'. apply IH.
    + rewrite dom_insert_L. set_solver.
    + apply Hu. by eapply candidate_cached.
    + done.
    + rewrite dom_insert_L, size_union, size_singleton
        by (apply not_elem_of_dom in Hvn; set_solver). lia.
    + by rewrite dom_insert_L.
Qed.
End resolution.

(** ** What the dependency check establishes *)

Section dependencies.
Context `{GoRange, Semver, Yaml, UnstructuredReader}.
Context {C : Type} `{!VersionCacheClient C, !VersionCacheLaws C}.
Implicit Types (c : C) (t : list nat).

(** Some cached version the dependency may resolve to is installed. *)
Definition dep_installed c (k w : string) : Prop :=
  if decide (TrimSpace w = "*")
  then exists w' v, view c !! (TrimSpace k, w') = Some v /\ PkgPhase v = Succeeded
  else exists v, candidate c (TrimSpace k) (TrimSpace w) v /\ PkgPhase v = Succeeded.

(** Every cached version it may resolve to is installed. *)
Definition dep_all_installed c (k w : string) : Prop :=
  dep_installed c k w /\
  forall v, candidate c (TrimSpace k) (TrimSpace w) v -> TrimSpace w <> "*" ->
    PkgPhase v = Succeeded.

Lemma version_found_spec (l : list (string * Version)) :
  version_found l = true <-> exists k v, (k, v) ∈ l /\ PkgPhase v = Succeeded.
Proof.
  induction l as [|[k v] l IH]; simpl.
  - split; [done|]. intros (? & ? & ?%elem_of_nil & _). done.
  - case_bool_decide as Hv.
    + split; [|done]. intros _. exists k, v. split; [apply elem_of_cons; by left | done].
    + rewrite IH. split.
      * intros (k' & v' & Hin & Hs). exists k', v'. split; [apply elem_of_cons; by right | done].
      * intros (k' & v' & [[= -> ->]|Hin]%elem_of_cons & Hs); [done | by eauto].
Qed.

(** The branch for a star: any installed version of the package. *)
Lemma star_versions t c k m :
  vc_GetVersions t c k = Some m ->
  forall t', version_found (range t' m) = true <->
    exists w v, view c !! (k, w) = Some v /\ PkgPhase v = Succeeded.
Proof.
  intros Hm t'. rewrite version_found_spec. split.
  - intros (w & v & Hin%elem_of_range & Hs). exists w, v.
    split; [|done]. by rewrite <-(GetVersions_Some _ _ _ _ w Hm).
  - intros (w & v & Hv & Hs). exists w, v. split; [|done].
    apply elem_of_range. by rewrite (GetVersions_Some _ _ _ _ w Hm).
Qed.

Lemma candidate_found t c p w :
  (exists v, candidate c p w v) ->
  exists v, vc_GetVersion t c p w = Some v /\ candidate c p w v.
Proof.
  intros [v0 (w' & Hw' & Hs)]. destruct (vc_GetVersion t c p w) as [v|] eqn:Hv.
  - exists v. split; [done|]. by apply GetVersion_candidate in Hv.
  - destruct (GetVersion_complete _ _ _ _ Hv w') as [Hne Hns]; [eauto|]. destruct Hs; congruence.
Qed.

Lemma dependencies_loop_complete t c i (l : list (string * string)) :
  Forall (fun kw => dep_all_installed c kw.1 kw.2) l -> dependencies_loop t c i l = None.
Proof.
  revert i. induction l as [|[k w] l IH]; intros i Hall; simpl; [done|].
  apply Forall_cons in Hall as [[Hk Hv] Hl]. simpl in *. unfold dep_installed in Hk.
  case_bool_decide as Hstar.
  - rewrite decide_True in Hk by done.
    destruct (vc_GetVersions (0 :: i :: t) c (TrimSpace k)) as [m|] eqn:Hm.
    + rewrite (proj2 (star_versions _ _ _ _ Hm _) Hk). by apply IH.
    + destruct Hk as (w' & v & Hlk & _).
      by rewrite (GetVersions_None _ _ _ w' Hm) in Hlk.
  - rewrite decide_False in Hk by done. destruct Hk as (v0 & Hv0 & _).
    destruct (candidate_found (2 :: i :: t) c (TrimSpace k) (TrimSpace w)) as (v & -> & Hc);
      [by eauto|].
    by rewrite bool_decide_true by eauto.
Qed.

(** The check is sound as long as nothing follows a dependency with a
    version of its own. *)
Lemma dependencies_loop_sound t c i (l : list (string * string)) :
  (forall l1 k w l2, l = l1 ++ (k, w) :: l2 -> TrimSpace w <> "*" -> l2 = []) ->
  dependencies_loop t c i l = None ->
  Forall (fun kw => dep_installed c kw.1 kw.2) l.
Proof.
  revert i. induction l as [|[k w] l IH]; intros i Hlast Hnone; [done|].
  cbn [dependencies_loop] in Hnone.
  case_bool_decide as Hstar.
  - destruct (vc_GetVersions (0 :: i :: t) c (TrimSpace k)) as [m|] eqn:Hm; [|done].
    destruct (version_found (range (1 :: i :: t) m)) eqn:Hf; [|done].
    constructor.
    + unfold dep_installed. simpl. rewrite decide_True by done.
      by apply (star_versions _ _ _ _ Hm (1 :: i :: t)).
    + eapply IH; [|done]. intros l1 k' w' l2 ->. by apply (Hlast ((k, w) :: l1) k').
  - destruct (vc_GetVersion (2 :: i :: t) c (TrimSpace k) (TrimSpace w)) as [v|] eqn:Hv; [|done].
    destruct (bool_decide_reflect (PkgPhase v = Succeeded)) as [Hs|Hs];
      [|by case_bool_decide].
    rewrite (Hlast [] k w l eq_refl Hstar). constructor; [|done].
    unfold dep_installed. simpl. rewrite decide_False by done. exists v.
    split; [by apply GetVersion_candidate in Hv | done].
Qed.

Lemma dependencies_loop_pending t c i (l : list (string * string)) e :
  dependencies_loop t c i l = Some e -> HasPrefix (Error e) ErrDepPending = true ->
  exists k w v, (k, w) ∈ l /\ candidate c (TrimSpace k) (TrimSpace w) v /\ PkgPhase v = Pending.
Proof.
  revert i. induction l as [|[k w] l IH]; intros i; simpl; [done|].
  assert (forall (P : string -> string -> Version -> Prop),
    (exists k' w' v, (k', w') ∈ l /\ P k' w' v) ->
    exists k' w' v, (k', w') ∈ (k, w) :: l /\ P k' w' v) as Hweak.
  { intros P (k' & w' & v & Hin & HP). exists k', w', v.
    split; [apply elem_of_cons; by right | done]. }
  case_bool_decide as Hstar.
  - destruct (vc_GetVersions _ c (TrimSpace k)) as [m|] eqn:Hm; [|intros [= <-] Hp; by change (false = true) in Hp].
    destruct (version_found _); [|intros [= <-] Hp; by change (false = true) in Hp].
    intros Hl Hp. apply (Hweak (fun k w v => candidate c (TrimSpace k) (TrimSpace w) v /\ _)).
    by eapply IH.
  - destruct (vc_GetVersion _ c (TrimSpace k) (TrimSpace w)) as [v|] eqn:Hv; [|intros [= <-] Hp; by change (false = true) in Hp].
    case_bool_decide; [done|]. case_bool_decide as Hpend; [|intros [= <-] Hp; by change (false = true) in Hp].
    intros _ _. exists k, w, v. split; [apply elem_of_cons; by left|].
    split; [by apply GetVersion_candidate in Hv | done].
Qed.

(** Errors of the resolution never look like a pending dependency. *)
Lemma resolve_fuel_not_pending fuel c t n visited vs e :
  resolve_fuel fuel c t n visited = Val (vs, Some e) -> HasPrefix (Error e) ErrDepPending = false.
Proof.
  revert t n visited vs e. induction fuel as [|fuel IH]; intros t n visited vs e; simpl; [done|].
  generalize (range (0 :: t) (V_PkgDeps n)). intros l.
  generalize (<[version_key n := n]> visited) 0.
  induction l as [|[k w] l IHl]; intros vis i; simpl; [by intros [=]|].
  case_bool_decide; [by intros [= _ <-]|].
  destruct (vc_GetVersion _ c _ _) as [v|]; [|by intros [= _ <-]].
  destruct (vis !! version_key v); [by intros [= _ <-]|].
  destruct (resolve_fuel fuel c (2 :: i :: t) v vis) as [[vs' [e'|]]|m] eqn:Hr; simpl; [| |done].
  - intros [= <- <-]. by eapply IH.
  - apply IHl.
Qed.

Lemma check_params_not_pending a key (ps : gmap string string) l e :
  check_params a key ps l = Val (Some e) -> HasPrefix (Error e) ErrDepPending = false.
Proof.
  induction l as [|x l IH]; simpl; [done|].
  destruct (param_name x) as [s|m]; simpl; [|done].
  destruct (ps !! s); [by intros [= <-] | apply IH].
Qed.

Lemma workflow_loop_not_pending t a i data (l : list (string * WorkflowType)) e :
  workflow_loop t a i data l = Val (Some e) -> HasPrefix (Error e) ErrDepPending = false.
Proof.
  revert i data. induction l as [|[key wt] l IH]; intros i data; simpl; [done|].
  case_bool_decide; [by apply IH|].
  destruct (yaml_Unmarshal (Template wt) data) as [data' [err|]]; [by intros [= <-]|].
  case_bool_decide; simpl; [|by intros [= <-]].
  destruct (obj_lookup data' "spec"); [|by intros [= <-]].
  destruct (un_NestedMap data' _) as [[[m|]|e0]|msg]; simpl; try done; try apply IH.
  destruct (un_NestedSlice data' _) as [[[ps|]|e0]|msg]; simpl; try done; try apply IH.
  destruct (check_params a key _ ps) as [[e1|]|msg] eqn:Hc; simpl; try done; [|apply IH].
  intros [= <-]. by eapply check_params_not_pending.
Qed.
End dependencies.

(** ** What a successful validation establishes *)

Section validate.
Context `{GoRange, Semver, Yaml, UnstructuredReader}.
Context {C : Type} `{!VersionCacheClient C, !VersionCacheLaws C}.
Implicit Types (av : addonValidator C) (t : list nat).

(** The checks in the order of the source, each under its call path. *)
Lemma Validate_addon_ok t av :
  Validate_addon t av = Val (true, None) ->
  validateDuplicate (0 :: t) av (addon_version (av_addon av)) = None /\
  validateAddonNameLength av = None /\
  Params_Namespace (Params (Spec (av_addon av))) <> "" /\
  validateWorkflow (1 :: t) av = Val None /\
  (exists vs, resolveDependencies (2 :: t) av (addon_version (av_addon av)) ∅ 0 = Val (vs, None)) /\
  ValidateDependencies (3 :: t) av = None.
Proof.
  unfold Validate_addon. intros Hv.
  destruct (validateDuplicate _ av _) eqn:Hd; [done|].
  destruct (validateAddonNameLength av) eqn:Hl; [done|].
  destruct (bool_decide_reflect (Params_Namespace (Params (Spec (av_addon av))) = ""));
    [done|].
  destruct (validateWorkflow (1 :: t) av) as [[e|]|m] eqn:Hw; simpl in Hv; try done.
  destruct (resolveDependencies _ av _ ∅ 0) as [[vs [e|]]|m] eqn:Hr; simpl in Hv; try done.
  destruct (ValidateDependencies (3 :: t) av) eqn:Hdep; [done|]. split_and!; eauto.
Qed.

Lemma Validate_addon_shape t av b e :
  Validate_addon t av = Val (b, e) -> (b = true /\ e = None) \/ (b = false /\ is_Some e).
Proof.
  unfold Validate_addon. intros Hv.
  destruct (validateDuplicate _ av _); [simplify_eq; eauto|].
  destruct (validateAddonNameLength av); [simplify_eq; eauto|].
  destruct (bool_decide _); [simplify_eq; eauto|].
  destruct (validateWorkflow (1 :: t) av) as [[?|]|m]; simpl in Hv; simplify_eq; eauto.
  destruct (resolveDependencies _ av _ ∅ 0) as [[? [?|]]|m]; simpl in Hv; simplify_eq; eauto.
  destruct (ValidateDependencies (3 :: t) av); simplify_eq; eauto.
Qed.

Lemma name_length_ok av :
  validateAddonNameLength av = None -> String.length (addon_Name (av_addon av)) <= 31.
Proof. unfold validateAddonNameLength. case_match eqn:E; [done|]. by apply Nat.ltb_ge in E. Qed.

Lemma duplicate_ok t av v :
  validateDuplicate t av (addon_version (av_addon av)) = None ->
  view (av_cache av) !! (PkgName (Spec_Package (Spec (av_addon av))),
                         PkgVersion (Spec_Package (Spec (av_addon av)))) = Some v ->
  V_Name v = addon_Name (av_addon av).
Proof.
  unfold validateDuplicate. intros Hd Hv. simpl in Hd.
  rewrite (GetVersion_exact t _ _ _ _ Hv) in Hd. by case_bool_decide.
Qed.

Lemma Validate_addon_pending t av e :
  Validate_addon t av = Val (false, Some e) -> HasPrefix (Error e) ErrDepPending = true ->
  ValidateDependencies (3 :: t) av = Some e.
Proof.
  unfold Validate_addon. intros Hv Hp.
  assert (HasPrefix (Error e) ErrDepPending = false -> False) as Hno by congruence.
  destruct (validateDuplicate _ av _) eqn:Hd.
  { exfalso. apply Hno. unfold validateDuplicate in Hd. repeat case_match; simplify_eq; done. }
  destruct (validateAddonNameLength av) eqn:Hl.
  { exfalso. apply Hno. unfold validateAddonNameLength in Hl. case_match; simplify_eq; done. }
  destruct (bool_decide _); [exfalso; apply Hno; by simplify_eq|].
  destruct (validateWorkflow (1 :: t) av) as [[?|]|m] eqn:Hw; simpl in Hv; simplify_eq.
  { exfalso. apply Hno. by eapply workflow_loop_not_pending. }
  destruct (resolveDependencies _ av _ ∅ 0) as [[? [?|]]|m] eqn:Hr; simpl in Hv; simplify_eq.
  { exfalso. apply Hno. by eapply resolve_fuel_not_pending. }
  destruct (ValidateDependencies (3 :: t) av); by simplify_eq.
Qed.
End validate.

(** ** Concrete instances for the examples *)

(** Every template is a minimal Argo workflow. *)
Definition sample_yaml : Yaml := {|
  yaml_Unmarshal := fun _ _ =>
    ([("apiVersion", VString "argoproj.io/v1alpha1"); ("kind", VString "Workflow");
      ("spec", VMap [])], None);
  yaml_Marshal := fun _ => Ok "kind: Workflow" |}.

Definition sample_reader : UnstructuredReader := {|
  un_GroupVersionKind := fun o =>
    match obj_lookup o "apiVersion", obj_lookup o "kind" with
    | Some (VString a), Some (VString k) =>
        match Split a "/" with [g; v] => mkGVK g v k | _ => mkGVK "" a k end
    | _, _ => mkGVK "" "" ""
    end;
  un_NestedMap := fun _ _ => Val (Ok None);
  un_NestedSlice := fun _ _ => Val (Ok None) |}.

Definition sample_dependent (deps : gmap string string) : Addon := {|
  Meta := mkObjectMeta "c" "addon-manager-system" "1" None [] ∅;
  Spec := {|
    Spec_Package := mkPackageSpec "" "core/C" "v1" CompositePkg "" deps;
    Params := mkAddonParams "c-ns" (mkClusterContext "" "" ∅) ∅;
    Selector := mkLabelSelector ∅ [];
    Overrides := Overrides zero_AddonSpec;
    Secrets := [];
    Lifecycle := mkLifecycleWorkflowSpec zero_WorkflowType
      (mkWorkflowType "" "" "" "kind: Workflow") zero_WorkflowType zero_WorkflowType |};
  Status := zero_AddonStatus |}.

(** [core/A] is installed, [core/B] has failed. *)
Definition mixed_cache : Cached.cached :=
  foldl run_cache_op Cached.NewAddonVersionCacheClient
    [OpAddVersion (sample_version "a" "core/A" "v1" ∅ Succeeded);
     OpAddVersion (sample_version "b" "core/B" "v2" {["core/A" := "v1"]} Failed)].

(** ** Properties *)

Section properties.
Context `{GoRange, Semver, Yaml, UnstructuredReader}.
Context {C : Type} `{!VersionCacheClient C, !VersionCacheLaws C}.

(** C8: with at most 255 cached versions dependency resolution always
    returns, whatever the cache contains and in whatever order the maps are
    walked: the recursion never reaches the panic at depth 256.  When it
    returns no error the visited map is as it was and the package has a
    dependency tree in the cache in which no version is its own ancestor. *)
Theorem resolveDependencies_total_sound (t : list nat) (av : addonValidator C) (n : Version) :
  size (view (av_cache av)) <= 255 ->
  exists visited e,
    resolveDependencies t av n ∅ 0 = Val (visited, e) /\
    (e = None -> visited = ∅ /\ has_tree (av_cache av) ∅ n).
Proof.
  intros Hsz. destruct (resolve_root (av_cache av) t n Hsz) as (vs & e & Ho & Hok).
  exists vs, e. split; [exact Ho|]. intros He. destruct (Hok He) as [-> Ht].
  by rewrite dom_empty_L in Ht.
Qed.

(** C9: with at most 255 cached versions, dependency resolution accepts every
    package all of whose possible resolutions are free of cycles, of
    self-dependencies and of missing packages, for every iteration order.  (A
    longer chain of dependencies reaches the depth limit and panics.) *)
Theorem resolveDependencies_complete (t : list nat) (av : addonValidator C) (n : Version) :
  size (view (av_cache av)) <= 255 ->
  all_trees (av_cache av) ∅ n ->
  resolveDependencies t av n ∅ 0 = Val (∅, None).
Proof.
  intros Hsz Ht. unfold resolveDependencies. rewrite Nat.sub_0_r.
  apply (resolve_fuel_complete _ ({[version_key n]} ∪ cached_keys (av_cache av)));
    [set_solver | set_solver | set_solver | done | | by rewrite dom_empty_L].
  etrans; [apply gset_size_union_le|]. rewrite size_singleton.
  pose proof (size_cached_keys (av_cache av)). lia.
Qed.

(** C10: with at most 255 cached versions, an addon that passes validation is
    not a duplicate of a package version recorded for another addon, has a
    namespace, gives workflow names of at most 63 bytes for every step whose
    prefix has at most 10 (the bound of the CRD), and has a dependency tree in
    the cache. *)
Theorem Validate_sound (t : list nat) (av : addonValidator C) :
  size (view (av_cache av)) <= 255 ->
  Validate_addon t av = Val (true, None) ->
  (forall v, view (av_cache av) !! (PkgName (Spec_Package (Spec (av_addon av))),
               PkgVersion (Spec_Package (Spec (av_addon av)))) = Some v ->
     V_Name v = addon_Name (av_addon av)) /\
  Params_Namespace (Params (Spec (av_addon av))) <> "" /\
  (forall s wt, is_step s -> GetWorkflowType (av_addon av) s = Ok wt ->
     String.length (NamePrefix wt) <= 10 ->
     String.length (GetFormattedWorkflowName (av_addon av) s) <= 63) /\
  has_tree (av_cache av) ∅ (addon_version (av_addon av)).
Proof.
  intros Hsz (Hd & Hl & Hns & _ & [vs Hr] & _)%Validate_addon_ok. split_and!.
  - intros v. by apply (duplicate_ok (0 :: t)).
  - done.
  - intros s wt Hs Hwt Hp. eapply GetFormattedWorkflowName_length; eauto using name_length_ok.
  - destruct (resolve_root (av_cache av) (2 :: t) (addon_version (av_addon av)) Hsz)
      as (vs' & e & Ho & Hok).
    unfold resolveDependencies in Hr. rewrite Nat.sub_0_r, Ho in Hr.
    injection Hr as -> ->.
    destruct Hok as [_ Ht]; [done|]. by rewrite dom_empty_L in Ht.
Qed.

(** When every dependency is installed in every version it may resolve
    to, the dependency check accepts, for every iteration order. *)
Theorem ValidateDependencies_complete (t : list nat) (av : addonValidator C) :
  (forall k w, PkgDeps (Spec_Package (Spec (av_addon av))) !! k = Some w ->
    dep_all_installed (av_cache av) k w) ->
  ValidateDependencies t av = None.
Proof.
  intros Hall. apply dependencies_loop_complete. apply Forall_forall.
  intros [k w] Hin%elem_of_range. by apply Hall.
Qed.

(** A dependency with a version of its own that is installed ends the
    check: the dependencies the loop has not reached yet are accepted
    whatever their state. *)
Theorem ValidateDependencies_stops_early (t : list nat) (av : addonValidator C)
    (k w : string) (rest : list (string * string)) (v : Version) :
  range (0 :: t) (PkgDeps (Spec_Package (Spec (av_addon av)))) = (k, w) :: rest ->
  TrimSpace w <> "*" ->
  vc_GetVersion (2 :: 0 :: 1 :: t) (av_cache av) (TrimSpace k) (TrimSpace w) = Some v ->
  PkgPhase v = Succeeded ->
  ValidateDependencies t av = None.
Proof.
  intros Hr Hw Hg Hp. unfold ValidateDependencies. rewrite Hr. simpl.
  rewrite bool_decide_false by done. rewrite Hg. by rewrite bool_decide_true.
Qed.

(** For an addon with a single dependency, and for one whose
    dependencies all ask for any version, acceptance means that every
    dependency has an installed version in the cache. *)
Theorem ValidateDependencies_sound (t : list nat) (av : addonValidator C) :
  let deps := PkgDeps (Spec_Package (Spec (av_addon av))) in
  size deps <= 1 \/ (forall k w, deps !! k = Some w -> TrimSpace w = "*") ->
  ValidateDependencies t av = None ->
  forall k w, deps !! k = Some w -> dep_installed (av_cache av) k w.
Proof.
  intros deps Hdeps Hnone k w Hkw. unfold ValidateDependencies in Hnone.
  assert (Forall (fun kw => dep_installed (av_cache av) kw.1 kw.2) (range (0 :: t) deps)) as Hall.
  { eapply dependencies_loop_sound; [|exact Hnone]. intros l1 k' w' l2 Hl Hw'.
    destruct Hdeps as [Hsz|Hstar].
    - assert (length (range (0 :: t) deps) <= 1) as Hlen
        by (rewrite range_perm, length_map_to_list; done).
      rewrite Hl, length_app in Hlen. simpl in Hlen. by destruct l2; simpl in *; [|lia].
    - exfalso. apply Hw', (Hstar k'). apply (elem_of_range (0 :: t)). rewrite Hl.
      set_solver. }
  rewrite Forall_forall in Hall. apply (Hall (k, w)). by apply elem_of_range.
Qed.

(** Validation reports a pending dependency, the error on which the
    controller keeps the addon [Pending], only when some dependency
    resolves to a cached version in phase [Pending]. *)
Theorem pending_error_means_pending_dependency (t : list nat) (av : addonValidator C) (e : error) :
  Validate_addon t av = Val (false, Some e) ->
  HasPrefix (Error e) ErrDepPending = true ->
  exists k w v, PkgDeps (Spec_Package (Spec (av_addon av))) !! k = Some w /\
    candidate (av_cache av) (TrimSpace k) (TrimSpace w) v /\ PkgPhase v = Pending.
Proof.
  intros Hv Hp. apply Validate_addon_pending in Hv; [|done].
  unfold ValidateDependencies in Hv.
  apply dependencies_loop_pending in Hv as (k & w & v & Hin & Hc & Hph); [|done].
  exists k, w, v. split; [by apply elem_of_range in Hin | done].
Qed.
End properties.

(** ** Witnesses *)

Section witnesses.
#[local] Existing Instances range_fwd star_semver sample_yaml sample_reader.

Definition good_validator : addonValidator Cached.cached :=
  NewAddonValidator (sample_dependent {["core/A" := "v1"]}) sample_cache.

Definition pending_validator : addonValidator Cached.cached :=
  NewAddonValidator (sample_dependent {["core/B" := "v2"]}) sample_cache.

Definition mixed_validator : addonValidator Cached.cached :=
  NewAddonValidator (sample_dependent {["core/A" := "v1"; "core/B" := "v2"]}) mixed_cache.

Lemma sample_view p w v :
  view sample_cache !! (p, w) = Some v ->
  (p = "core/A" /\ v = sample_version "a" "core/A" "v1" ∅ Succeeded) \/
  (p = "core/B" /\ v = sample_version "b" "core/B" "v2" {["core/A" := "v1"]} Pending).
Proof.
  change (view sample_cache) with (Cached.abs sample_cache). unfold sample_cache.
  rewrite <-(app_nil_l [_; _]), foldl_app. simpl.
  rewrite !Cached.abs_AddVersion, !lookup_insert_Some.
  intros [[[= <- <-] <-]|[_ [[[= <- <-] <-]|[_ Hv]]]]; [by right | by left|].
  by rewrite Cached.lookup_abs in Hv.
Qed.

Lemma good_all_trees :
  all_trees (av_cache good_validator) ∅ (addon_version (av_addon good_validator)).
Proof.
  constructor. intros k w Hkw. simpl in Hkw.
  apply lookup_singleton_Some in Hkw as [<- <-]. split; [by vm_compute|]. split.
  - exists (sample_version "a" "core/A" "v1" ∅ Succeeded). exists "v1".
    split; [by vm_compute | by left].
  - intros v (w' & Hv%sample_view & _).
    destruct Hv as [[_ ->]|[Hp _]]; [|by vm_compute in Hp].
    split; [by apply (bool_decide_unpack _); vm_compute|].
    constructor. intros k w Hkw. simpl in Hkw. by apply lookup_empty_Some in Hkw.
Qed.

Lemma good_installed k w :
  PkgDeps (Spec_Package (Spec (av_addon good_validator))) !! k = Some w ->
  dep_all_installed (av_cache good_validator) k w.
Proof.
  intros Hkw. simpl in Hkw. apply lookup_singleton_Some in Hkw as [<- <-]. split.
  - unfold dep_installed. rewrite decide_False by done.
    exists (sample_version "a" "core/A" "v1" ∅ Succeeded). split; [|done].
    exists "v1". split; [by vm_compute | by left].
  - intros v (w' & Hv%sample_view & _) _.
    destruct Hv as [[_ ->]|[Hp _]]; [done | by vm_compute in Hp].
Qed.

Lemma resolveDependencies_total_sound_witness :
  exists visited e,
    resolveDependencies [] good_validator (addon_version (av_addon good_validator)) ∅ 0
      = Val (visited, e) /\
    (e = None -> visited = ∅ /\
      has_tree (av_cache good_validator) ∅ (addon_version (av_addon good_validator))).
Proof. apply resolveDependencies_total_sound. apply Nat.leb_le. vm_compute. reflexivity. Defined.

Lemma resolveDependencies_complete_witness :
  resolveDependencies [] good_validator (addon_version (av_addon good_validator)) ∅ 0
    = Val (∅, None).
Proof.
  apply resolveDependencies_complete; [|exact good_all_trees].
  apply Nat.leb_le. vm_compute. reflexivity.
Defined.

Lemma Validate_sound_witness :
  has_tree (av_cache good_validator) ∅ (addon_version (av_addon good_validator)).
Proof.
  apply (Validate_sound [] good_validator).
  - apply Nat.leb_le. vm_compute. reflexivity.
  - vm_compute. reflexivity.
Defined.

Lemma ValidateDependencies_complete_witness : ValidateDependencies [] good_validator = None.
Proof. apply ValidateDependencies_complete. exact good_installed. Defined.

(** The failed dependency [core/B] goes unnoticed. *)
Lemma ValidateDependencies_stops_early_witness :
  (exists t, ValidateDependencies t mixed_validator = None) /\
  PkgDeps (Spec_Package (Spec (av_addon mixed_validator))) !! "core/B" = Some "v2" /\
  PkgPhase <$> view (av_cache mixed_validator) !! ("core/B", "v2") = Some Failed.
Proof.
  split; [exists []|split; vm_compute; reflexivity].
  apply (ValidateDependencies_stops_early [] mixed_validator "core/A" "v1" [("core/B", "v2")]
    (sample_version "a" "core/A" "v1" ∅ Succeeded)); [vm_compute; reflexivity | done | | done].
  vm_compute. reflexivity.
Defined.

Lemma ValidateDependencies_sound_witness :
  dep_installed (av_cache good_validator) "core/A" "v1".
Proof.
  apply (ValidateDependencies_sound [] good_validator).
  - left. apply Nat.leb_le. vm_compute. reflexivity.
  - vm_compute. reflexivity.
  - vm_compute. reflexivity.
Defined.

Lemma pending_error_means_pending_dependency_witness :
  exists k w v, PkgDeps (Spec_Package (Spec (av_addon pending_validator))) !! k = Some w /\
    candidate (av_cache pending_validator) (TrimSpace k) (TrimSpace w) v /\ PkgPhase v = Pending.
Proof.
  apply (pending_error_means_pending_dependency [] pending_validator (dep_pending "core/B" "v2")).
  - vm_compute. reflexivity.
  - vm_compute. reflexivity.
Defined.
End witnesses.
