(* ===== verification/Effects.v ===== *)
(** The effects of the controllers and a small program logic for them.

    The controllers act on services outside the repository: the Kubernetes
    API (through the controller-runtime, dynamic and Argo clients), the event
    recorder and the clock.  They also share the version cache and the status
    mutexes.  A piece of controller code is a [Prog]: it returns, panics, or
    makes one [Call] and continues with whatever response comes back.  What
    the services answer is not defined here: statements quantify over the
    responses, and the witnesses run programs against concrete handlers. *)
From S2P Require Import Prelude GoStrings GoFmt AddonTypes Common VersionCache Unstructured.

Record NamespacedName := mkNN { NN_Namespace : string; NN_Name : string }.

#[global] Instance NamespacedName_eq_dec : EqDecision NamespacedName.
Proof. solve_decision. Defined.

#[global] Instance NamespacedName_countable : Countable NamespacedName.
Proof.
  refine (inj_countable' (fun n => (NN_Namespace n, NN_Name n)) (fun p => mkNN p.1 p.2) _).
  by intros [].
Defined.

Definition addon_key (a : Addon) : NamespacedName := mkNN (addon_Namespace a) (addon_Name a).

(** The fields of an Argo [Workflow] object the program reads.
    [wf_Controller] is what [metav1.GetControllerOf] gives: the kind and the
    name of the owner marked as controller. *)
Record Workflow := mkWorkflow {
  wf_Name : string;
  wf_Namespace : string;
  wf_DeletionTimestamp : option Z;
  wf_Controller : option (string * string);
  wf_Phase : WorkflowPhase;
  wf_Message : string
}.

(** A listed Kubernetes object: name, namespace and self link. *)
Record ListedObject := mkListed {
  lo_Name : string;
  lo_Namespace : string;
  lo_SelfLink : string
}.

(** The object lists [observeResources] reads. *)
Inductive ListKind :=
  | ServiceList | JobList | CronJobList | StatefulSetList | DeploymentList
  | DaemonSetList | ReplicaSetList | NamespaceList.

#[global] Instance ListKind_eq_dec : EqDecision ListKind.
Proof. solve_decision. Defined.

Inductive Call :=
  (* controller-runtime client on addons *)
  | CGetAddon (nn : NamespacedName)
  | CStatusUpdate (a : Addon)
  | CUpdate (a : Addon)
  (* workflows: the cached client, the Argo clientset, the dynamic client *)
  | CClientGetWorkflow (nn : NamespacedName)
  | CGetWorkflow (ns name : string)
  | CListWorkflows (ns : string) (selector : gmap string string)
  | CDeleteWorkflow (ns name : string)
  | CCreateWorkflow (ns : string) (owner : NamespacedName) (wf : object)
  | CDynDeleteWorkflow (ns name : string)
  (* secrets and observed resources; [None] lists all namespaces *)
  | CListSecrets (ns : string)
  | CList (kind : ListKind) (ns : option string) (selector : LabelSelector)
  (* recorder and clock *)
  | CEvent (eventtype reason message : string)
  | CNow
  (* the shared version cache and status mutexes *)
  | CReadCache
  | CAddVersion (v : Version)
  | CRemoveVersion (p w : string)
  | CHasVersionName (n : string)
  | CLockStatus (name : string)
  | CUnlockStatus (name : string)
  | CDropStatusMutex (name : string).

(** The response to a call.  A successful [CUpdate] refreshes the object from
    the server's answer. *)
Definition Resp (c : Call) : Type :=
  match c with
  | CGetAddon _ => result Addon
  | CStatusUpdate _ => option error
  | CUpdate _ => result Addon
  | CClientGetWorkflow _ | CGetWorkflow _ _ => result Workflow
  | CListWorkflows _ _ => result (list Workflow)
  | CDeleteWorkflow _ _ | CCreateWorkflow _ _ _ | CDynDeleteWorkflow _ _ => option error
  | CListSecrets _ => result (list object)
  | CList _ _ _ => result (list ListedObject)
  | CEvent _ _ _ => unit
  | CNow => Z
  | CReadCache => Cached.cached
  | CAddVersion _ | CRemoveVersion _ _ => unit
  | CHasVersionName _ => bool * option Version
  | CLockStatus _ | CUnlockStatus _ | CDropStatusMutex _ => unit
  end.

Inductive Prog (A : Type) : Type :=
  | Ret (a : A)
  | Panic (msg : string)
  | Vis (c : Call) (k : Resp c -> Prog A).
Arguments Ret {A} a.
Arguments Panic {A} msg.
Arguments Vis {A} c k.

#[global] Instance Prog_ret : MRet Prog := fun A a => Ret a.

#[global] Instance Prog_bind : MBind Prog := fun A B f =>
  fix go (p : Prog A) : Prog B :=
    match p with
    | Ret a => f a
    | Panic m => Panic m
    | Vis c k => Vis c (fun r => go (k r))
    end.

Definition call (c : Call) : Prog (Resp c) := Vis c Ret.

Definition lift_outcome {A : Type} (o : outcome A) : Prog A :=
  match o with Val a => Ret a | Panicked m => Panic m end.

(** [defer func() { if err := recover(); err != nil { ... } }()] in a
    function whose results are then zero. *)
Fixpoint recover {A : Type} (zero : A) (p : Prog A) : Prog A :=
  match p with
  | Ret a => Ret a
  | Panic _ => Ret zero
  | Vis c k => Vis c (fun r => recover zero (k r))
  end.

(** [defer d()] *)
Fixpoint defer {A : Type} (d : Prog unit) (p : Prog A) : Prog A :=
  match p with
  | Ret a => d ≫= fun _ => Ret a
  | Panic m => d ≫= fun _ => Panic m
  | Vis c k => Vis c (fun r => defer d (k r))
  end.

(** ** Running a program against a handler *)

Fixpoint run {W A : Type} (h : W -> forall c : Call, W * Resp c) (w : W) (p : Prog A)
    : W * outcome A :=
  match p with
  | Ret a => (w, Val a)
  | Panic m => (w, Panicked m)
  | Vis c k => let '(w, r) := h w c in run h w (k r)
  end.

(** ** Executions: the calls a program makes and the responses it gets *)

Definition event : Type := { c : Call & Resp c }.

Inductive exec {A : Type} : Prog A -> list event -> outcome A -> Prop :=
  | exec_ret a : exec (Ret a) [] (Val a)
  | exec_panic m : exec (Panic m) [] (Panicked m)
  | exec_vis c k r tr o : exec (k r) tr o -> exec (Vis c k) (existT c r :: tr) o.

Definition exec_shape {A : Type} (p : Prog A) (tr : list event) (o : outcome A) : Prop :=
  match p with
  | Ret a => tr = [] /\ o = Val a
  | Panic m => tr = [] /\ o = Panicked m
  | Vis c k => exists r tr', tr = existT c r :: tr' /\ exec (k r) tr' o
  end.

Lemma exec_inv {A} (p : Prog A) tr o : exec p tr o -> exec_shape p tr o.
Proof. intros []; simpl; eauto. Qed.

Lemma exec_ret_nil {A} (a : A) tr o ev : exec (mret a) tr o -> ev ∉ tr.
Proof. intros [-> _]%exec_inv. apply not_elem_of_nil. Qed.

Lemma exec_call_bind {B} c (f : Resp c -> Prog B) tr o :
  exec (call c ≫= f) tr o -> exists r tr', tr = existT c r :: tr' /\ exec (f r) tr' o.
Proof. intros He. exact (exec_inv _ _ _ He). Qed.

Lemma exec_bind {A B} (p : Prog A) (f : A -> Prog B) tr o :
  exec (p ≫= f) tr o ->
  (exists tr1 tr2 a, tr = tr1 ++ tr2 /\ exec p tr1 (Val a) /\ exec (f a) tr2 o) \/
  (exists m, exec p tr (Panicked m) /\ o = Panicked m).
Proof.
  revert tr. induction p as [a|m|c k IH]; intros tr He.
  - left. exists [], tr, a. split; [done|]. split; [constructor | exact He].
  - right. exists m. apply exec_inv in He as [-> ->]. split; [constructor | done].
  - apply exec_inv in He as (r & tr' & -> & He).
    destruct (IH r tr' He) as [(tr1 & tr2 & a & -> & H1 & H2)|(m & H1 & ->)].
    + left. exists (existT c r :: tr1), tr2, a. split; [done|]. split; [by constructor | done].
    + right. exists m. split; [by constructor | done].
Qed.

Lemma exec_ret_bind {A B} (a : A) (f : A -> Prog B) tr o :
  exec (mret a ≫= f) tr o -> exec (f a) tr o.
Proof. done. Qed.

Lemma exec_lift_bind {A B} (x : outcome A) (f : A -> Prog B) tr o :
  exec (lift_outcome x ≫= f) tr o ->
  match x with Val a => exec (f a) tr o | Panicked m => tr = [] /\ o = Panicked m end.
Proof. intros He. destruct x; [exact He | exact (exec_inv _ _ _ He)]. Qed.

Lemma exec_recover {A} (z : A) (p : Prog A) tr o :
  exec (recover z p) tr o ->
  exists o', exec p tr o' /\ o = Val (match o' with Val a => a | Panicked _ => z end).
Proof.
  revert tr. induction p as [a|m|c k IH]; intros tr He; cbn [recover] in He.
  - apply exec_inv in He as [-> ->]. eexists. split; [constructor | done].
  - apply exec_inv in He as [-> ->]. eexists. split; [constructor | done].
  - apply exec_inv in He as (r & tr' & -> & He). destruct (IH r tr' He) as (o' & He' & ->).
    exists o'. split; [by constructor | done].
Qed.

(** The response of an event, by the kind of its call. *)
Definition addon_response (e : event) : option (result Addon) :=
  match e with existT (CGetAddon _) r => Some r | _ => None end.

Definition workflows_response (e : event) : option (result (list Workflow)) :=
  match e with existT (CListWorkflows _ _) r => Some r | _ => None end.

Definition clock_response (e : event) : option Z :=
  match e with existT CNow r => Some r | _ => None end.

Lemma exec_get_inv {B} nn (f : result Addon -> Prog B) tr o ev :
  exec (call (CGetAddon nn) ≫= f) (ev :: tr) o ->
  exists r, addon_response ev = Some r /\ exec (f r) tr o.
Proof. intros (r & tr' & [= -> ->] & He)%exec_call_bind. by exists r. Qed.

(** Closes a goal from a call of an execution that made none. *)
Ltac no_calls :=
  match goal with
  | H : exec _ ?tr _, Hin : _ ∈ ?tr |- _ => exfalso; exact (exec_ret_nil _ _ _ _ H Hin)
  end.

(** ** A program logic

    [wp pre upd s p post]: from the ghost state [s], which [upd] advances at
    each call and response, every call of [p] satisfies [pre] and every
    outcome satisfies [post], whatever the responses are. *)
Section wp.
Context {S : Type} (pre : S -> Call -> Prop) (upd : S -> forall c : Call, Resp c -> S).

Fixpoint wp {A : Type} (s : S) (p : Prog A) (post : S -> outcome A -> Prop) : Prop :=
  match p with
  | Ret a => post s (Val a)
  | Panic m => post s (Panicked m)
  | Vis c k => pre s c /\ forall r, wp (upd s c r) (k r) post
  end.

Lemma wp_ret {A} s (a : A) (post : S -> outcome A -> Prop) :
  post s (Val a) -> wp s (mret a) post.
Proof. done. Qed.

Lemma wp_mono {A} s (p : Prog A) (post post' : S -> outcome A -> Prop) :
  wp s p post -> (forall s o, post s o -> post' s o) -> wp s p post'.
Proof.
  revert s. induction p as [a|m|c k IH]; intros s Hp Hpost; simpl in *; [by auto..|].
  destruct Hp as [Hc Hk]. split; [done|]. intros r. by apply IH.
Qed.

Lemma wp_bind {A B} s (p : Prog A) (f : A -> Prog B) (post : S -> outcome B -> Prop) :
  wp s p (fun s o => match o with Val a => wp s (f a) post | Panicked m => post s (Panicked m) end) ->
  wp s (p ≫= f) post.
Proof.
  revert s. induction p as [a|m|c k IH]; intros s Hp; simpl in *; [done..|].
  destruct Hp as [Hc Hk]. split; [done|]. intros r. by apply IH.
Qed.

Lemma wp_call s (c : Call) (post : S -> outcome (Resp c) -> Prop) :
  pre s c -> (forall r, post (upd s c r) (Val r)) -> wp s (call c) post.
Proof. done. Qed.

Lemma wp_call_bind {B} s (c : Call) (f : Resp c -> Prog B) (post : S -> outcome B -> Prop) :
  pre s c -> (forall r, wp (upd s c r) (f r) post) -> wp s (call c ≫= f) post.
Proof. intros Hc Hf. apply wp_bind. simpl. done. Qed.

Lemma wp_lift {A} s (o : outcome A) (post : S -> outcome A -> Prop) :
  post s o -> wp s (lift_outcome o) post.
Proof. by destruct o. Qed.

Lemma wp_recover {A} s (zero : A) (p : Prog A) (post : S -> outcome A -> Prop) :
  wp s p (fun s o => post s (Val (match o with Val a => a | Panicked _ => zero end))) ->
  wp s (recover zero p) post.
Proof.
  revert s. induction p as [a|m|c k IH]; intros s Hp; simpl in *; [done..|].
  destruct Hp as [Hc Hk]. split; [done|]. intros r. by apply IH.
Qed.

Lemma wp_defer {A} s (d : Prog unit) (p : Prog A) (post : S -> outcome A -> Prop) :
  wp s p (fun s o => wp s d (fun s' o' =>
    match o' with Val _ => post s' o | Panicked m => post s' (Panicked m) end)) ->
  wp s (defer d p) post.
Proof.
  revert s. induction p as [a|m|c k IH]; intros s Hp; simpl in *.
  - apply wp_bind. eapply wp_mono; [exact Hp|]. by intros s' [].
  - apply wp_bind. eapply wp_mono; [exact Hp|]. by intros s' [].
  - destruct Hp as [Hc Hk]. split; [done|]. intros r. by apply IH.
Qed.

(** Ghost state at the end of a trace, and the check of its calls. *)
Fixpoint trace_ok (s : S) (tr : list event) : Prop :=
  match tr with
  | [] => True
  | existT c r :: tr' => pre s c /\ trace_ok (upd s c r) tr'
  end.

Fixpoint trace_end (s : S) (tr : list event) : S :=
  match tr with
  | [] => s
  | existT c r :: tr' => trace_end (upd s c r) tr'
  end.

Lemma trace_ok_split s tr1 c r tr2 :
  trace_ok s (tr1 ++ existT c r :: tr2) -> pre (trace_end s tr1) c.
Proof.
  revert s. induction tr1 as [|[c1 r1] tr1 IH]; intros s; simpl; [by intros [] | ].
  intros [_ Ht]. by apply IH.
Qed.

(** The logic speaks about every execution. *)
Lemma wp_exec {A} s (p : Prog A) (post : S -> outcome A -> Prop) tr o :
  wp s p post -> exec p tr o -> trace_ok s tr /\ post (trace_end s tr) o.
Proof.
  intros Hp He. revert s Hp. induction He as [a|m|c k r tr o He IH]; intros s Hp; simpl in *;
    [done..|].
  destruct Hp as [Hc Hk]. destruct (IH _ (Hk r)) as [Ht Ho]. done.
Qed.
End wp.

(** ** Calls of a program, whatever the responses *)

Definition calls_all {A : Type} (P : Call -> Prop) (p : Prog A) : Prop :=
  wp (S:=unit) (fun _ c => P c) (fun _ _ _ => tt) tt p (fun _ _ => True).

Lemma calls_all_exec {A} P (p : Prog A) tr o c r :
  calls_all P p -> exec p tr o -> existT c r ∈ tr -> P c.
Proof.
  intros Hp He. revert Hp. induction He as [a|m|c' k r' tr o He IH]; intros Hp Hin;
    [by apply elem_of_nil in Hin..|].
  destruct Hp as [Hc Hk]. apply elem_of_cons in Hin as [Heq|Hin]; [|exact (IH (Hk r') Hin)].
  apply (f_equal (@projT1 _ _)) in Heq. simpl in Heq. by subst.
Qed.

Lemma calls_all_bind {A B} P (p : Prog A) (f : A -> Prog B) :
  calls_all P p -> (forall a, calls_all P (f a)) -> calls_all P (p ≫= f).
Proof.
  intros Hp Hf. apply wp_bind. eapply wp_mono; [exact Hp|]. intros [] [a|m] _; [apply Hf | done].
Qed.

Lemma calls_all_call P c : P c -> calls_all P (call c).
Proof. intros Hc. by apply wp_call. Qed.

Lemma calls_all_defer {A} P (d : Prog unit) (p : Prog A) :
  calls_all P p -> calls_all P d -> calls_all P (defer d p).
Proof.
  intros Hp Hd. apply wp_defer. eapply wp_mono; [exact Hp|]. intros [] o _.
  eapply wp_mono; [exact Hd|]. by intros [] [].
Qed.

Lemma calls_all_mono {A} (P Q : Call -> Prop) (p : Prog A) :
  (forall c, P c -> Q c) -> calls_all P p -> calls_all Q p.
Proof.
  intros HPQ. unfold calls_all. induction p as [a|m|c k IH]; simpl; [done..|].
  intros [Hc Hk]. split; [by apply HPQ|]. intros r. by apply IH.
Qed.

(** A program whose calls are allowed in a ghost state they do not change. *)
Lemma wp_stable {S A} pre upd (s : S) P (p : Prog A) :
  (forall c, P c -> pre s c /\ forall r, upd s c r = s) ->
  calls_all P p -> wp pre upd s p (fun s' _ => s' = s).
Proof.
  intros HP. unfold calls_all. induction p as [a|m|c k IH]; simpl; [done..|].
  intros [Hc Hk]. destruct (HP c Hc) as [Hpre Hupd]. split; [done|].
  intros r. rewrite Hupd. apply IH, Hk.
Qed.

(** A program whose calls are allowed in every ghost state. *)
Lemma wp_allowed {S A} pre upd (s : S) P (p : Prog A) :
  (forall s c, P c -> pre s c) -> calls_all P p -> wp pre upd s p (fun _ _ => True).
Proof.
  intros HP. unfold calls_all. revert s. induction p as [a|m|c k IH]; intros s; simpl; [done..|].
  intros [Hc Hk]. split; [by apply HP|]. intros r. apply IH, Hk.
Qed.

(** What every execution returns. *)
Definition returns {A : Type} (p : Prog A) (Q : outcome A -> Prop) : Prop :=
  wp (S:=unit) (fun _ _ => True) (fun _ _ _ => tt) tt p (fun _ o => Q o).

Lemma returns_exec {A} (p : Prog A) Q tr o : returns p Q -> exec p tr o -> Q o.
Proof. intros Hp He. by destruct (wp_exec _ _ _ _ _ _ _ Hp He). Qed.

Lemma returns_ret {A} (a : A) (Q : outcome A -> Prop) : Q (Val a) -> returns (mret a) Q.
Proof. done. Qed.

Lemma returns_bind {A B} (p : Prog A) (f : A -> Prog B) (Q : outcome B -> Prop) :
  (forall a, returns (f a) Q) -> (forall m, Q (Panicked m)) -> returns (p ≫= f) Q.
Proof.
  intros Hf Hm. apply wp_bind. induction p as [a|m|c k IH]; simpl; [apply Hf | apply Hm |].
  split; [done|]. intros r. apply IH.
Qed.

(** ** The version cache as a handler

    The cache calls answered by the cache itself; every other call is
    answered by [other].  The counter makes each loop execution distinct. *)
Definition cache_handler `{GoRange} (other : forall c : Call, Resp c)
    (w : nat * Cached.cached) (c : Call) : (nat * Cached.cached) * Resp c :=
  match c as c return (nat * Cached.cached) * Resp c with
  | CReadCache => (w, w.2)
  | CAddVersion v => ((w.1, Cached.AddVersion v w.2), tt)
  | CRemoveVersion p x => ((w.1, Cached.RemoveVersion p x w.2), tt)
  | CHasVersionName n => ((S w.1, w.2), Cached.HasVersionName [w.1] w.2 n)
  | c => (w, other c)
  end.

(** Services that are down: every request fails. *)
Definition unavailable : error := Errorf "the server is currently unable to handle the request".

Definition no_services (c : Call) : Resp c :=
  match c as c return Resp c with
  | CGetAddon _ => Err unavailable
  | CStatusUpdate _ => Some unavailable
  | CUpdate _ => Err unavailable
  | CClientGetWorkflow _ | CGetWorkflow _ _ => Err unavailable
  | CListWorkflows _ _ => Err unavailable
  | CDeleteWorkflow _ _ | CCreateWorkflow _ _ _ | CDynDeleteWorkflow _ _ => Some unavailable
  | CListSecrets _ => Err unavailable
  | CList _ _ _ => Err unavailable
  | CEvent _ _ _ => tt
  | CNow => 0%Z
  | CReadCache => Cached.NewAddonVersionCacheClient
  | CAddVersion _ | CRemoveVersion _ _ => tt
  | CHasVersionName _ => (false, None)
  | CLockStatus _ | CUnlockStatus _ | CDropStatusMutex _ => tt
  end.

(** The execution a handler produces. *)
Fixpoint trace {W A : Type} (h : W -> forall c : Call, W * Resp c) (w : W) (p : Prog A)
    : list event * outcome A :=
  match p with
  | Ret a => ([], Val a)
  | Panic m => ([], Panicked m)
  | Vis c k =>
      let '(w, r) := h w c in
      let '(tr, o) := trace h w (k r) in
      (existT c r :: tr, o)
  end.

Lemma exec_trace {W A} (h : W -> forall c : Call, W * Resp c) (w : W) (p : Prog A) :
  exec p (trace h w p).1 (trace h w p).2.
Proof.
  revert w. induction p as [a|m|c k IH]; intros w; simpl; [constructor..|].
  destruct (h w c) as [w' r]. specialize (IH r w'). destruct (trace h w' (k r)).
  by constructor.
Qed.

(** Services that hold one addon and accept every write to it. *)
Definition one_addon (a : Addon) (u : unit) (c : Call) : unit * Resp c :=
  (u, match c as c return Resp c with
      | CGetAddon _ => Ok a
      | CStatusUpdate _ => None
      | c => no_services c
      end).
