(* ===== verification/Updater.v ===== *)
(** The status updater, [pkg/addon/addon_update.go]: the one place where the
    addon controller and the workflow controller write an addon's status. *)
From S2P Require Import Prelude GoStrings GoFmt AddonTypes Common VersionCache Unstructured.
From S2P Require Import Effects.

(** The variables the retried closure of [UpdateStatus] assigns. *)
Record guard := mkGuard {
  guardFired : bool;
  guardAPIInstalled : ApplicationAssemblyPhase;
  guardAPIPrereqs : ApplicationAssemblyPhase
}.

Definition no_guard : guard := mkGuard false "" "".

(** Running a closure up to [n] times as long as it reports a conflict. *)
Fixpoint retry_unroll (n : nat) (f : guard -> Prog (guard * option error)) (g : guard)
    : Prog (guard * option error) :=
  match n with
  | O => f g
  | S n' => r ← f g; if IsConflict r.2 then retry_unroll n' f r.1 else mret r
  end.

(** [retry.RetryOnConflict(retry.DefaultRetry, fn)] of client-go, a
    parameter: it runs [fn] once and then again, a bounded number of times,
    as long as [fn] reports a conflict, and returns its last result. *)
Class RetryOnConflict := {
  retry : (guard -> Prog (guard * option error)) -> guard -> Prog (guard * option error);
  retry_unrolls : forall f g, exists n, retry f g = retry_unroll n f g
}.

(** The condition of the race guard. *)
Definition guard_blocks (cur inc : AddonStatus) : bool :=
  phase_Completed (Installed_Phase (Status_Lifecycle cur))
  && phase_Running (Installed_Phase (Status_Lifecycle inc))
  && (Checksum cur == Checksum inc).

(** The closure [UpdateStatus] retries. *)
Definition update_attempt (addon : Addon) (g : guard) : Prog (guard * option error) :=
  r ← call (CGetAddon (addon_key addon));
  match r with
  | Err err => mret (g, Some err)
  | Ok currentAddon =>
      if guard_blocks (Status currentAddon) (Status addon) then
        mret (mkGuard true (GetInstallStatus currentAddon) (GetPrereqStatus currentAddon), None)
      else
        err ← call (CStatusUpdate (set_Status (fun _ => Status addon) currentAddon));
        mret (g, err)
  end.

Definition addAddonToCache (addon : Addon) : Prog unit :=
  call (CAddVersion (mkVersion (addon_Name addon) (addon_Namespace addon)
    (GetPackageSpec addon) (GetInstallStatus addon))).

Definition race_guard_error (addon : Addon) (g : guard) : error :=
  Errorf ("race guard: stale " +:+ Quote (GetInstallStatus addon) +:+ " write over terminal " +:+
    Quote (guardAPIInstalled g) +:+ " API state blocked for addon " +:+ addon_Namespace addon +:+
    "/" +:+ addon_Name addon +:+ " (checksum: " +:+ Checksum (Status addon) +:+
    "); requeuing with fresh state").

Section updater.
Context `{RetryOnConflict}.

Definition UpdateStatus (addon : Addon) : Prog (option error) :=
  call (CLockStatus (addon_Name addon));;
  defer (call (CUnlockStatus (addon_Name addon)))
    (r ← retry (update_attempt addon) no_guard;
     let '(g, err) := r in
     match err with
     | Some e =>
         call (CEvent "Warning" "Failed" ("Addon " +:+ addon_Namespace addon +:+ "/" +:+
           addon_Name addon +:+ " status could not be updated. " +:+ Error e));;
         mret (Some e)
     | None =>
         if guardFired g then mret (Some (race_guard_error addon g))
         else addAddonToCache addon;; mret None
     end).

Definition getExistingAddon (namespace name : string) : Prog (result Addon) :=
  call (CGetAddon (mkNN namespace name)).

Definition UpdateAddonStatusLifecycleFromWorkflow (namespace addonName : string) (wf : Workflow)
    : Prog (option error) :=
  r ← getExistingAddon namespace addonName;
  match r with
  | Err err => mret (Some err)
  | Ok existingAddon =>
      if phase_Completed (GetInstallStatus existingAddon) then mret None else
      match ExtractChecksumAndLifecycleStep (wf_Name wf) with
      | Err err => mret (Some err)
      | Ok (checksum, lifecycle) =>
          if GetFormattedWorkflowName existingAddon lifecycle != wf_Name wf then mret None else
          if CalculateChecksum existingAddon != checksum then mret None else
          let phase := ConvertWorkflowPhaseToAddonPhase lifecycle (wf_Phase wf) in
          if phase == "" then mret None else
          let reason := if phase_Failed phase then wf_Message wf else "" in
          match SetStatusByLifecyleStep lifecycle phase [reason] existingAddon with
          | (_, Some err) =>
              mret (Some (Errorw ("failed to update prereqs status. " +:+ Error err) err))
          | (existingAddon, None) => UpdateStatus existingAddon
          end
      end
  end.

Definition RemoveFromCache (addonName : string) : Prog unit :=
  r ← call (CHasVersionName addonName);
  (match r with
   | (true, Some v) => call (CRemoveVersion (V_PkgName v) (V_PkgVersion v))
   | (true, None) => Panic "invalid memory address or nil pointer dereference"
   | (false, _) => mret tt
   end);;
  call (CDropStatusMutex addonName).
End updater.

(** ** Guarded writes

    The ghost state is the addon last read from the API.  A program is
    guarded when each status it writes goes to the object it read last, with
    that object's metadata (and so its resource version), and is not one the
    race guard forbids. *)
Definition last_read (last : option Addon) (c : Call) : Resp c -> option Addon :=
  match c as c return Resp c -> option Addon with
  | CGetAddon nn => fun r => match r with Ok a => Some a | Err _ => last end
  | _ => fun _ => last
  end.

Definition write_ok (last : option Addon) (c : Call) : Prop :=
  match c with
  | CStatusUpdate o =>
      exists a, last = Some a /\ Meta o = Meta a /\ Spec o = Spec a /\
        guard_blocks (Status a) (Status o) = false
  | _ => True
  end.

(** [guarded last p]: whatever is read, all of [p]'s writes are guarded. *)
Definition guarded {A : Type} (last : option Addon) (p : Prog A) : Prop :=
  wp write_ok last_read last p (fun _ _ => True).

Lemma guarded_bind {A B} last (p : Prog A) (f : A -> Prog B) :
  guarded last p -> (forall last' a, guarded last' (f a)) -> guarded last (p ≫= f).
Proof.
  intros Hp Hf. apply wp_bind. eapply wp_mono; [exact Hp|]. intros s [a|m] _; [apply Hf | done].
Qed.

Lemma guarded_ret {A} last (a : A) : guarded last (mret a).
Proof. done. Qed.

Lemma guarded_panic {A} last m : guarded last (@Panic A m).
Proof. done. Qed.

Lemma guarded_lift {A} last (o : outcome A) : guarded last (lift_outcome o).
Proof. by destruct o. Qed.

(** Calls other than a status write. *)
Definition not_status_write (c : Call) : bool :=
  match c with CStatusUpdate _ => false | _ => true end.

Lemma guarded_call last c : not_status_write c = true -> guarded last (call c).
Proof. intros Hc. apply wp_call; [by destruct c | done]. Qed.

(** Calls outside a status update: they write no status and leave the status
    mutexes as they are held. *)
Definition outside_update (c : Call) : bool :=
  match c with CStatusUpdate _ | CLockStatus _ | CUnlockStatus _ => false | _ => true end.

(** Programs that only make such calls. *)
Definition quiet {A : Type} (p : Prog A) : Prop := calls_all (fun c => outside_update c = true) p.

Lemma quiet_bind {A B} (p : Prog A) (f : A -> Prog B) :
  quiet p -> (forall a, quiet (f a)) -> quiet (p ≫= f).
Proof. apply calls_all_bind. Qed.

Lemma quiet_ret {A} (a : A) : quiet (mret a).
Proof. done. Qed.

Lemma quiet_panic {A} m : quiet (@Panic A m).
Proof. done. Qed.

Lemma quiet_lift {A} (o : outcome A) : quiet (lift_outcome o).
Proof. by destruct o. Qed.

Lemma quiet_call c : outside_update c = true -> quiet (call c).
Proof. apply (calls_all_call (fun c => outside_update c = true)). Qed.

Lemma quiet_guarded {A} last (p : Prog A) : quiet p -> guarded last p.
Proof. intros Hp. eapply wp_allowed; [|exact Hp]. by intros s []. Qed.

#[export] Hint Resolve quiet_ret quiet_panic quiet_lift quiet_guarded : addon.
#[export] Hint Extern 2 (quiet (call _)) => apply quiet_call; reflexivity : addon.

(** Goes through a program, down to calls and known subprograms. *)
Ltac solve_quiet :=
  cbv zeta;
  repeat match goal with
  | |- quiet (_ ≫= _) => apply quiet_bind; [|intros ?]
  | |- quiet (match ?x with _ => _ end) => destruct x
  | |- quiet _ => solve [auto with addon]
  end.

Lemma guarded_recover {A} last (z : A) (p : Prog A) : guarded last p -> guarded last (recover z p).
Proof. intros Hp. apply wp_recover. eapply wp_mono; [exact Hp | done]. Qed.

Lemma guarded_defer {A} last (d : Prog unit) (p : Prog A) :
  guarded last p -> (forall last', guarded last' d) -> guarded last (defer d p).
Proof.
  intros Hp Hd. apply wp_defer. eapply wp_mono; [exact Hp|]. intros s o _. simpl.
  eapply wp_mono; [apply Hd|]. by intros ? [].
Qed.

#[export] Hint Resolve guarded_bind guarded_ret guarded_panic guarded_lift guarded_recover
  guarded_defer : addon.
#[export] Hint Extern 2 (guarded _ (call _)) => apply guarded_call; reflexivity : addon.

(** The same for programs that write statuses. *)
Ltac solve_guarded :=
  cbv zeta;
  repeat match goal with
  | |- guarded _ (_ ≫= _) => apply guarded_bind; [|intros ? ?]
  | |- guarded _ (recover _ _) => apply guarded_recover
  | |- guarded _ (match ?x with _ => _ end) => destruct x
  | |- guarded _ _ => solve [auto with addon]
  end.

Lemma update_attempt_guarded last addon g : guarded last (update_attempt addon g).
Proof.
  apply wp_call_bind; [done|]. intros [a|e]; simpl; [|done].
  destruct (guard_blocks (Status a) (Status addon)) eqn:Hg; [done|].
  apply wp_call_bind; [|done]. simpl. by exists a.
Qed.

Lemma retry_unroll_guarded last n f g :
  (forall last' g', guarded last' (f g')) -> guarded last (retry_unroll n f g).
Proof.
  intros Hf. revert last g. induction n as [|n IH]; intros last g; simpl; [apply Hf|].
  apply guarded_bind; [apply Hf|]. intros last' [g' e]. case_match; [apply IH | done].
Qed.

Lemma UpdateStatus_guarded `{RetryOnConflict} last addon : guarded last (UpdateStatus addon).
Proof.
  apply guarded_bind; [auto with addon|]. intros l1 _.
  apply guarded_defer; [|auto with addon]. apply guarded_bind.
  - destruct (retry_unrolls (update_attempt addon) no_guard) as [n ->].
    apply retry_unroll_guarded. intros. apply update_attempt_guarded.
  - intros l2 [g [e|]]; [by auto with addon|]. case_match; by auto with addon.
Qed.

Lemma UpdateFromWorkflow_guarded `{RetryOnConflict} last ns n wf :
  guarded last (UpdateAddonStatusLifecycleFromWorkflow ns n wf).
Proof.
  unfold UpdateAddonStatusLifecycleFromWorkflow, getExistingAddon. solve_guarded.
  all: apply UpdateStatus_guarded.
Qed.

Lemma RemoveFromCache_quiet n : quiet (RemoveFromCache n).
Proof. unfold RemoveFromCache. solve_quiet. Qed.

#[export] Hint Resolve UpdateStatus_guarded UpdateFromWorkflow_guarded RemoveFromCache_quiet
  : addon.

(** ** The contract of [UpdateStatus] *)

(** Ghost state: the status mutex is held, the last status write succeeded,
    the version cache was updated. *)
Record update_ghost := mkUG { ug_locked : bool; ug_wrote : bool; ug_cached : bool }.

Definition ug_update (addon : Addon) (g : update_ghost) (c : Call) : Resp c -> update_ghost :=
  match c as c return Resp c -> update_ghost with
  | CLockStatus _ => fun _ => mkUG true (ug_wrote g) (ug_cached g)
  | CUnlockStatus _ => fun _ => mkUG false (ug_wrote g) (ug_cached g)
  | CStatusUpdate _ => fun r => mkUG (ug_locked g) (r == None) (ug_cached g)
  | CAddVersion _ => fun _ => mkUG (ug_locked g) (ug_wrote g) true
  | _ => fun _ => g
  end.

Definition ug_pre (addon : Addon) (g : update_ghost) (c : Call) : Prop :=
  match c with
  | CLockStatus n => n = addon_Name addon /\ ug_locked g = false
  | CUnlockStatus n => n = addon_Name addon /\ ug_locked g = true
  | CGetAddon nn => nn = addon_key addon /\ ug_locked g = true
  | CStatusUpdate o => Status o = Status addon /\ ug_locked g = true
  | CAddVersion v =>
      ug_locked g = true /\ ug_wrote g = true /\ V_Name v = addon_Name addon /\
      V_Package v = GetPackageSpec addon /\ PkgPhase v = GetInstallStatus addon
  | CEvent _ _ _ => True
  | _ => False
  end.

Definition ug_post (g : update_ghost) (o : outcome (option error)) : Prop :=
  ug_locked g = false /\
  match o with
  | Val None => ug_wrote g = true /\ ug_cached g = true
  | Val (Some _) => ug_cached g = false
  | Panicked _ => False
  end.

(** One attempt leaves the mutex held and the cache alone; when it ends
    without error and without the guard it has written. *)
Definition attempt_post (g0 : guard) (s : update_ghost) (o : outcome (guard * option error)) : Prop :=
  ug_locked s = true /\ ug_cached s = false /\
  match o with
  | Val (g, None) => guardFired g = true \/ ug_wrote s = true
  | Val (g, Some _) => g = g0
  | Panicked _ => False
  end.

Lemma update_attempt_wp addon g s :
  ug_locked s = true -> ug_cached s = false ->
  wp (ug_pre addon) (ug_update addon) s (update_attempt addon g) (attempt_post g).
Proof.
  intros Hl Hc. apply wp_call_bind; [done|]. intros [a|e]; simpl; [|done].
  case_match; [unfold attempt_post; simpl; auto|].
  apply wp_call_bind; [done|]. intros [e|]; simpl; [done|]. unfold attempt_post. simpl. auto.
Qed.

Lemma retry_unroll_wp addon n g s :
  ug_locked s = true -> ug_cached s = false ->
  wp (ug_pre addon) (ug_update addon) s (retry_unroll n (update_attempt addon) g) (attempt_post g).
Proof.
  revert g s. induction n as [|n IH]; intros g s Hl Hc; cbn [retry_unroll];
    [by apply update_attempt_wp|].
  apply wp_bind. eapply wp_mono; [by apply update_attempt_wp|].
  intros s' [[g' e]|m]; [|by intros (_ & _ & [])]. intros (Hl' & Hc' & Hpost). simpl.
  destruct (IsConflict e) eqn:He; [|done].
  destruct e as [e|]; [|done]. simpl in Hpost. subst. by apply IH.
Qed.

Lemma UpdateStatus_wp `{RetryOnConflict} addon :
  wp (ug_pre addon) (ug_update addon) (mkUG false false false) (UpdateStatus addon) ug_post.
Proof.
  apply wp_call_bind; [done|]. intros []. apply wp_defer. apply wp_bind.
  destruct (retry_unrolls (update_attempt addon) no_guard) as [n ->].
  eapply wp_mono; [by apply retry_unroll_wp|].
  intros s [[g [e|]]|m] (Hl & Hc & Hpost); [| |done].
  - apply wp_call_bind; [done|]. intros []. apply wp_ret. by apply wp_call.
  - destruct (guardFired g) eqn:Hg.
    + apply wp_ret. by apply wp_call.
    + destruct Hpost as [?|Hw]; [congruence|].
      apply wp_call_bind; [done|]. intros []. apply wp_ret. by apply wp_call.
Qed.

(** ** What the workflow controller writes *)

Lemma update_attempt_calls addon g (P : Call -> Prop) :
  P (CGetAddon (addon_key addon)) ->
  (forall o, Status o = Status addon -> P (CStatusUpdate o)) ->
  calls_all P (update_attempt addon g).
Proof.
  intros Hg Hs. apply calls_all_bind; [by apply calls_all_call|]. intros [a|e]; [|done].
  case_match; [done|]. apply calls_all_bind; [by apply calls_all_call, Hs | done].
Qed.

(** The calls of the updater other than the status write. *)
Definition updater_call (c : Call) : bool :=
  match c with
  | CGetAddon _ | CLockStatus _ | CUnlockStatus _ | CEvent _ _ _ | CAddVersion _ => true
  | _ => false
  end.

Lemma UpdateStatus_calls `{RetryOnConflict} addon (P : Call -> Prop) :
  (forall c, updater_call c = true -> P c) ->
  (forall o, Status o = Status addon -> P (CStatusUpdate o)) ->
  calls_all P (UpdateStatus addon).
Proof.
  intros Hother Hs. apply calls_all_bind; [by apply calls_all_call, Hother|]. intros _.
  apply calls_all_defer; [|by apply calls_all_call, Hother]. apply calls_all_bind.
  - destruct (retry_unrolls (update_attempt addon) no_guard) as [n ->].
    generalize no_guard. induction n as [|n IH]; intros g; cbn [retry_unroll].
    + apply update_attempt_calls; auto.
    + apply calls_all_bind; [apply update_attempt_calls; auto|]. intros [g' e].
      case_match; [apply IH | done].
  - intros [g [e|]].
    + apply calls_all_bind; [by apply calls_all_call, Hother | done].
    + case_match; [done|]. apply calls_all_bind; [by apply calls_all_call, Hother | done].
Qed.

Lemma Extract_is_step n c s : ExtractChecksumAndLifecycleStep n = Ok (c, s) -> is_step s.
Proof.
  unfold ExtractChecksumAndLifecycleStep, is_step. intros Hx.
  repeat (case_match; simplify_eq/=); by apply (bool_decide_unpack _).
Qed.

(** A status is written only for a workflow whose name is the one the
    addon's current spec gives for some lifecycle step, only while the addon
    is not completed, and it is that step's status for the workflow's phase. *)
Lemma update_from_workflow_writes `{RetryOnConflict} (ns n : string) (wf : Workflow)
    (tr : list event) (o : outcome (option error)) (w : Addon) (r : option error) :
  exec (UpdateAddonStatusLifecycleFromWorkflow ns n wf) tr o ->
  existT (CStatusUpdate w) r ∈ tr ->
  exists existing s rest reason,
    tr = existT (CGetAddon (mkNN ns n)) (Ok existing) :: rest /\
    phase_Completed (GetInstallStatus existing) = false /\
    is_step s /\ GetFormattedWorkflowName existing s = wf_Name wf /\
    ConvertWorkflowPhaseToAddonPhase s (wf_Phase wf) <> "" /\
    Status w = Status (SetStatusByLifecyleStep s
      (ConvertWorkflowPhaseToAddonPhase s (wf_Phase wf)) [reason] existing).1.
Proof.
  intros He Hin. unfold UpdateAddonStatusLifecycleFromWorkflow, getExistingAddon in He.
  apply exec_call_bind in He as (res & tr' & -> & He').
  apply elem_of_cons in Hin as [Hin|Hin]; [by apply (f_equal (@projT1 _ _)) in Hin|].
  destruct res as [a|e]; [|no_calls].
  destruct (phase_Completed (GetInstallStatus a)) eqn:Hc; [no_calls|].
  destruct (ExtractChecksumAndLifecycleStep (wf_Name wf)) as [[ck s]|e] eqn:Hx;
    [|no_calls].
  destruct (bool_decide_reflect (GetFormattedWorkflowName a s = wf_Name wf)) as [Hn|_];
    [|no_calls].
  destruct (bool_decide_reflect (CalculateChecksum a = ck)) as [Hck|_];
    [|no_calls].
  destruct (bool_decide_reflect (ConvertWorkflowPhaseToAddonPhase s (wf_Phase wf) = "")) as [_|Hph];
    [no_calls|].
  cbn -[SetStatusByLifecyleStep UpdateStatus] in He'.
  eexists a, s, tr', _. split_and!; [done..| | | |]; [by eapply Extract_is_step | done | done |].
  destruct (SetStatusByLifecyleStep s _ _ a) as [a' [e|]] eqn:Hset;
    [no_calls|].
  assert (Status w = Status a') as ->; [|by rewrite Hset].
  refine (calls_all_exec (fun c => match c with
    | CStatusUpdate x => Status x = Status a' | _ => True end) _ _ _ (CStatusUpdate w) r _ He' Hin).
  apply UpdateStatus_calls; [by intros [] | done].
Qed.

(** ** Properties *)

(** Five attempts, as [retry.DefaultRetry] makes. *)
Definition default_retry : RetryOnConflict := {|
  retry := retry_unroll 4;
  retry_unrolls := fun f g => ex_intro _ 4 eq_refl |}.

(** C13: in every execution of [UpdateStatus], whatever the API answers:
    the API is only accessed while the addon's status mutex is held and the
    mutex is released at the end; only the given status is written; the
    version cache is updated, with the addon's package and phase, exactly
    when [UpdateStatus] returns nil, and then a status write has succeeded
    before; it never panics. *)
Theorem UpdateStatus_contract `{RetryOnConflict} (addon : Addon) (tr : list event)
    (o : outcome (option error)) :
  exec (UpdateStatus addon) tr o ->
  trace_ok (ug_pre addon) (ug_update addon) (mkUG false false false) tr /\
  ug_post (trace_end (ug_update addon) (mkUG false false false) tr) o.
Proof. apply wp_exec, UpdateStatus_wp. Qed.

Lemma UpdateStatus_contract_witness :
  let a := SetInstallStatus Succeeded [] sample_addon in
  ug_post (trace_end (ug_update a) (mkUG false false false)
    (trace (one_addon sample_addon) tt (@UpdateStatus default_retry a)).1) (Val None).
Proof.
  refine (proj2 (@UpdateStatus_contract default_retry (SetInstallStatus Succeeded [] sample_addon)
    _ (Val None) _)).
  exact (exec_trace (one_addon sample_addon) tt
    (@UpdateStatus default_retry (SetInstallStatus Succeeded [] sample_addon))).
Defined.

(** [RemoveFromCache], run on any cache whose entries sit under their
    own package and version, forgets nothing when no entry carries the
    addon's name, and otherwise exactly one entry that does. *)
Theorem RemoveFromCache_spec `{GoRange} (i : nat) (c : Cached.cached) (n : string) :
  keys_ok (Cached.abs c) ->
  let r := run (cache_handler no_services) (i, c) (RemoveFromCache n) in
  r.2 = Val tt /\
  ((Cached.abs r.1.2 = Cached.abs c /\
    forall k v, Cached.abs c !! k = Some v -> V_Name v <> n) \/
   (exists k v, Cached.abs c !! k = Some v /\ V_Name v = n /\
      Cached.abs r.1.2 = delete k (Cached.abs c))).
Proof.
  intros Hok. cbn -[Cached.HasVersionName].
  destruct (Cached.HasVersionName [i] c n) as [[|] ov] eqn:Hn.
  - apply Cached.HasVersionName_Some in Hn as (x & p & w & -> & Hx & Hname). cbn.
    split; [done|]. right. exists (p, w), x. split_and!; [done..|].
    rewrite Cached.abs_RemoveVersion. by destruct (Hok _ _ _ Hx) as [-> ->].
  - apply Cached.HasVersionName_None in Hn as [-> Hn]. cbn. split; [done|]. left.
    split; [done|]. intros [p w] v. apply Hn.
Qed.

(** An addon whose package version was edited has an entry per version. *)
Definition upgraded_cache : Cached.cached :=
  foldl run_cache_op Cached.NewAddonVersionCacheClient
    [OpAddVersion (sample_version "a" "core/A" "v1" ∅ Succeeded);
     OpAddVersion (sample_version "a" "core/A" "v2" ∅ Succeeded)].

Lemma upgraded_keys_ok : keys_ok (Cached.abs upgraded_cache).
Proof.
  unfold upgraded_cache. simpl. rewrite !Cached.abs_AddVersion. intros p w v.
  rewrite !lookup_insert_Some. intros [[[= <- <-] <-]|[_ [[[= <- <-] <-]|[_ Hv]]]]; [done..|].
  by rewrite Cached.lookup_abs in Hv.
Qed.

(** Deleting an upgraded addon leaves one of its versions in the cache. *)
Lemma RemoveFromCache_spec_witness :
  exists k v,
    Cached.abs (run (@cache_handler range_fwd no_services) (0, upgraded_cache)
      (RemoveFromCache "a")).1.2 !! k = Some v /\ V_Name v = "a".
Proof.
  destruct (@RemoveFromCache_spec range_fwd 0 upgraded_cache "a" upgraded_keys_ok)
    as [_ [[-> _]|(k & v & Hk & Hv & ->)]].
  - exists ("core/A", "v1"), (sample_version "a" "core/A" "v1" ∅ Succeeded). by vm_compute.
  - destruct (decide (k = ("core/A", "v1"))) as [->|Hne].
    + exists ("core/A", "v2"), (sample_version "a" "core/A" "v2" ∅ Succeeded).
      split; [|done]. by rewrite lookup_delete_ne.
    + exists ("core/A", "v1"), (sample_version "a" "core/A" "v1" ∅ Succeeded).
      split; [|done]. by rewrite lookup_delete_ne.
Defined.
