(* ===== verification/Workflow.v ===== *)
(** The workflow lifecycle, [pkg/workflows/workflow.go]: how a workflow
    template becomes a workflow object owned by the addon and is submitted.

    [AddonLifecycle] is the interface the addon controller uses, with the
    laws the controller's theorems rely on. *)
From S2P Require Import Prelude GoStrings GoFmt AddonTypes Common VersionCache Unstructured.
From S2P Require Import TreeObject Effects.

Record WorkflowProxy := mkWorkflowProxy {
  wp_name : string;
  wp_template : WorkflowType;
  wp_lifecycle : LifecycleStep
}.

Definition NewWorkflowProxy (name : string) (wt : WorkflowType) (lifecycle : LifecycleStep)
    : WorkflowProxy := mkWorkflowProxy name wt lifecycle.

(** ** The interface

    The methods take the addon the lifecycle object was created for: it holds
    a pointer to the addon the controller works on. *)
Class AddonLifecycle := {
  wfl_Install : list nat -> Addon -> WorkflowProxy -> Prog (option error);
  wfl_Delete : Addon -> string -> Prog (option error)
}.

(** The calls an installation may make: create the proxy's workflow, in the
    addon's namespace and owned by the addon, and record events. *)
Definition install_call `{UnstructuredObject} (a : Addon) (wp : WorkflowProxy) (c : Call) : Prop :=
  match c with
  | CCreateWorkflow ns owner wf =>
      ns = addon_Namespace a /\ owner = addon_key a /\ un_GetName wf = wp_name wp
  | CEvent _ _ _ => True
  | _ => False
  end.

Class AddonLifecycleLaws `{UnstructuredObject, AddonLifecycle} := {
  wfl_Install_calls t a wp : calls_all (install_call a wp) (wfl_Install t a wp)
}.

(** ** The implementation

    Outside the repository: [encoding/json] and [Unstructured.UnmarshalJSON],
    and the conversion of an unstructured workflow to Argo's type with
    [controllerutil.SetControllerReference] on it. *)
Class Json := {
  json_Marshal : object -> result string;
  un_UnmarshalJSON : string -> result object
}.

(** The conversion rejects an object whose [metadata] is not a map. *)
Class ArgoTypes := {
  ArgoWorkflow : Type;
  argo_FromUnstructured : object -> result ArgoWorkflow;
  argo_json_Marshal : object -> result string;
  argo_json_Unmarshal : string -> result ArgoWorkflow;
  SetControllerReference : Addon -> ArgoWorkflow -> option error;
  argo_FromUnstructured_metadata o w : argo_FromUnstructured o = Ok w -> metadata_ok o;
  argo_json_metadata o d w :
    argo_json_Marshal o = Ok d -> argo_json_Unmarshal d = Ok w -> metadata_ok o
}.

Definition WfInstanceIdLabelKey : string := "workflows.argoproj.io/controller-instanceid".
Definition WfInstanceId : string := "addon-manager-workflow-controller".
Definition WfDefaultActiveDeadlineSeconds : Z := 300.

(** [int64(ttl.Seconds())] of ["72h"]. *)
Definition default_ttl_seconds : Z := 259200.

Section workflow.
Context `{GoRange, Yaml, Json, UnstructuredObject, ArgoTypes}.

(** An entry of [spec.arguments.parameters]. *)
Definition wf_param (nv : string * string) : value :=
  VMap [("name", VString nv.1); ("value", VString nv.2)].

(** The parameters the addon adds: the namespace, the string fields of the
    package spec and of the cluster context under their JSON names, and the
    two maps. *)
Definition global_params (t : list nat) (addon : Addon) : list (string * string) :=
  let ps := Params (Spec addon) in
  let pkg := Spec_Package (Spec addon) in
  [("namespace", Params_Namespace ps);
   ("pkgChannel", PkgChannel pkg); ("pkgName", PkgName pkg); ("pkgVersion", PkgVersion pkg);
   ("pkgType", PkgType pkg); ("pkgDescription", PkgDescription pkg);
   ("clusterName", ClusterName (Params_Context ps));
   ("clusterRegion", ClusterRegion (Params_Context ps))]
  ++ range (0 :: t) (AdditionalConfigs (Params_Context ps))
  ++ range (1 :: t) (Params_Data ps).

Definition not_map : string := "interface conversion: interface {} is not map[string]interface {}".
Definition not_slice : string := "interface conversion: interface {} is not []interface {}".
Definition not_string : string := "interface conversion: interface {} is not string".

Definition configureGlobalWFParameters (t : list nat) (addon : Addon) (wf : object)
    : outcome (object * bool) :=
  match obj_lookup wf "spec" with
  | Some (VMap spec) =>
      let spec := if is_nil (obj_lookup spec "arguments")
                  then obj_insert "arguments" (VMap []) spec else spec in
      match obj_lookup spec "arguments" with
      | Some (VMap arguments) =>
          let arguments := if is_nil (obj_lookup arguments "parameters")
                           then obj_insert "parameters" (VSlice []) arguments else arguments in
          match obj_lookup arguments "parameters" with
          | Some (VSlice wfParams) =>
              let wf := obj_insert "spec" (VMap (obj_insert "arguments" (VMap arguments) spec)) wf in
              let wfParams := wfParams ++ (wf_param <$> global_params t addon) in
              let? r := un_SetNestedSlice wf wfParams ["spec"; "arguments"; "parameters"] in
              Val (r.1, r.2 == None)
          | _ => Panicked not_slice
          end
      | _ => Panicked not_map
      end
  | _ => Panicked "assignment to entry in nil map"
  end.

Definition addDefaultLabelsToResource (a : Addon) (resource : object) : object :=
  let packageSpec := GetPackageSpec a in
  let labels := default ∅ (un_GetLabels resource) in
  let labels := <[ResourceDefaultOwnLabel := addon_Name a]> labels in
  let labels := <[ResourceDefaultVersionLabel := PkgVersion packageSpec]> labels in
  let labels := <[ResourceDefaultPartLabel := addon_Name a]> labels in
  let labels := <[ResourceDefaultManageByLabel := Group]> labels in
  un_SetLabels labels resource.

Definition processArtifact (a : Addon) (obj : string) : result string :=
  let obj := TrimSpace obj in
  if obj == "" then Ok obj else
  match yaml_Unmarshal obj [] with
  | (_, Some err) =>
      Err (Errorf ("unable to unmarshall artifact: " +:+ obj +:+ ". " +:+ Error err))
  | (data, None) =>
      let resource := addDefaultLabelsToResource a data in
      match yaml_Marshal resource with
      | Err _ => Err (Errorf ("unable to marshall resource: " +:+ un_fmt resource))
      | Ok appendData => Ok appendData
      end
  end.

(** The documents of a multi-document YAML text, each processed. *)
Definition documents_sep : string := "---" +:+ String "010" EmptyString.

Definition process_documents (a : Addon) (data : string) : outcome (result string) :=
  let! objs := try_map (fun obj => Val (processArtifact a obj)) (Split data documents_sep) in
  Val (Ok (Join objs documents_sep)).

Definition set_nested (m : object) (v : value) (p : list string) : outcome (result object) :=
  let? r := un_SetNestedField m v p in
  match r with
  | (_, Some err) => Val (Err err)
  | (m, None) => Val (Ok m)
  end.

Definition process_artifact_entry (a : Addon) (artifact : value) : outcome (result value) :=
  match artifact with
  | VMap artifact =>
      match un_NestedString artifact ["raw"; "data"] with
      | Err err => Val (Err err)
      | Ok data =>
          let! data := process_documents a (default "" data) in
          let! artifact := set_nested artifact (VString data) ["raw"; "data"] in
          Val (Ok (VMap artifact))
      end
  | _ => Panicked not_map
  end.

Definition processWorkflowResources (a : Addon) (workflowStepObject : value)
    : outcome (result value) :=
  match workflowStepObject with
  | VMap m =>
      match un_NestedFieldNoCopy m ["arguments"; "artifacts"] with
      | Err err => Val (Err err)
      | Ok (Some (VSlice artifacts)) =>
          let! artifacts := try_map (process_artifact_entry a) artifacts in
          Val (Ok (VMap (set_path ["arguments"; "artifacts"] (VSlice artifacts) m)))
      | Ok (Some _) => Panicked not_slice
      | Ok None =>
          match un_NestedFieldNoCopy m ["resource"; "manifest"] with
          | Err err => Val (Err err)
          | Ok (Some (VString manifests)) =>
              let! manifests := process_documents a manifests in
              let! m := set_nested m (VString manifests) ["resource"; "manifest"] in
              Val (Ok (VMap m))
          | Ok (Some _) => Panicked not_string
          | Ok None => Val (Ok (VMap m))
          end
      end
  | _ => Panicked not_map
  end.

(** The [steps] of a template: a list of lists of steps. *)
Definition process_steps (a : Addon) (steps : value) : outcome (result value) :=
  match steps with
  | VSlice steps =>
      let! steps := try_map (processWorkflowResources a) steps in
      Val (Ok (VSlice steps))
  | _ => Val (Err (Errorf "template.steps entry is not a list: got []interface {}"))
  end.

Definition process_template (a : Addon) (template : value) : outcome (result value) :=
  match template with
  | VMap _ =>
      let! template := processWorkflowResources a template in
      match template with
      | VMap templateMap =>
          match un_NestedFieldNoCopy templateMap ["steps"] with
          | Ok (Some (VSlice stepsList)) =>
              let! stepsList := try_map (process_steps a) stepsList in
              Val (Ok (VMap (set_path ["steps"] (VSlice stepsList) templateMap)))
          | Ok (Some allSteps) =>
              Val (Err (Errorf ("template.steps is not a list: got " +:+ go_type allSteps)))
          | Ok None => Val (Ok template)
          | Err err => Val (Err err)
          end
      | _ => Val (Ok template)
      end
  | _ =>
      Val (Err (Errorf ("spec.templates entry is not an object: got " +:+ go_type template)))
  end.

Definition configureWorkflowArtifacts (a : Addon) (wf : object) : outcome (result object) :=
  match un_NestedFieldNoCopy wf ["spec"] with
  | Err err => Val (Err err)
  | Ok spec =>
      let! spec := processWorkflowResources a (default VNil spec) in
      let wf := set_path ["spec"] spec wf in
      match un_NestedFieldNoCopy wf ["spec"; "templates"] with
      | Err err => Val (Err err)
      | Ok None | Ok (Some VNil) => Val (Ok wf)
      | Ok (Some (VSlice templateList)) =>
          let! templateList := try_map (process_template a) templateList in
          Val (Ok (set_path ["spec"; "templates"] (VSlice templateList) wf))
      | Ok (Some templates) =>
          Val (Err (Errorf ("spec.templates is not a list: got " +:+ go_type templates)))
      end
  end.

(** [injectTTLs] and [injectActiveDeadlineSeconds] give a field a default
    value when it is absent or zero. *)
Definition inject_default (wf : object) (z : Z) (p : list string) : outcome (result object) :=
  match un_NestedInt64 wf p with
  | Err err => Val (Err err)
  | Ok val =>
      if bool_decide (val = None) || bool_decide (val = Some 0%Z)
      then set_nested wf (VInt64 z) p
      else Val (Ok wf)
  end.

Definition ttl_path : list string := ["spec"; "ttlStrategy"; "secondsAfterCompletion"].
Definition deadline_path : list string := ["spec"; "activeDeadlineSeconds"].

Definition injectTTLs (wf : object) : outcome (result object) :=
  inject_default wf default_ttl_seconds ttl_path.

Definition injectActiveDeadlineSeconds (wf : object) : outcome (result object) :=
  inject_default wf WfDefaultActiveDeadlineSeconds deadline_path.

Definition injectInstanceId (wp : object) : object :=
  let labels := default ∅ (un_GetLabels wp) in
  un_SetLabels (<[WfInstanceIdLabelKey := WfInstanceId]> labels) wp.

Definition parse (a : Addon) (wt : WorkflowType) (name : string) : result object :=
  match yaml_Unmarshal (Template wt) [] with
  | (_, Some err) => Err (Errorf ("invalid workflow yaml spec passed. " +:+ Error err))
  | (data, None) =>
      match json_Marshal data with
      | Err _ => Err (Errorf "invalid workflow, unable to marshal data")
      | Ok raw =>
          match un_UnmarshalJSON raw with
          | Err _ => Err (Errorf "invalid workflow, unable to unmarshal to workflow")
          | Ok wf =>
              let wf := un_SetGroupVersionKind (mkGVK "argoproj.io" "v1alpha1" "Workflow") wf in
              let wf := un_SetNamespace (addon_Namespace a) wf in
              let wf := un_SetName name wf in
              match un_NestedFieldNoCopy wf ["spec"] with
              | Ok (Some _) => Ok wf
              | _ => Err (Errorf "invalid workflow, missing spec")
              end
          end
      end
  end.

Definition WorkFlowFromUnstructured (un : object) : result ArgoWorkflow :=
  FromUnstructuredObj argo_FromUnstructured argo_json_Marshal argo_json_Unmarshal un.

Definition submit (a : Addon) (wp : object) : Prog (option error) :=
  match WorkFlowFromUnstructured wp with
  | Err err => mret (Some err)
  | Ok wfv1 =>
      match SetControllerReference a wfv1 with
      | Some err => mret (Some err)
      | None =>
          err ← call (CCreateWorkflow (un_GetNamespace wp) (addon_key a) wp);
          match err with
          | Some err =>
              if IsAlreadyExists (Some err) then mret None
              else mret (Some (Errorf ("failed creating wf " +:+ un_GetName wp +:+ " err " +:+
                Error err)))
          | None =>
              call (CEvent "Normal" "Created" ("Created Workflow " +:+ un_GetNamespace wp +:+ "/"
                +:+ un_GetName wp));;
              mret None
          end
      end
  end.

(** Everything [Install] does to the object before it is submitted. *)
Definition build (t : list nat) (a : Addon) (wp : WorkflowProxy) : outcome (result object) :=
  match parse a (wp_template wp) (wp_name wp) with
  | Err err => Val (Err (Errorf ("invalid workflow. " +:+ Error err)))
  | Ok wf =>
      let? r := configureGlobalWFParameters t a wf in
      match r with
      | (_, false) => Val (Err (Errorf "invalid workflow parameter"))
      | (wf, true) =>
          let! wf := configureWorkflowArtifacts a wf in
          let! wf := injectTTLs wf in
          let! wf := injectActiveDeadlineSeconds wf in
          Val (Ok (addDefaultLabelsToResource a (injectInstanceId wf)))
      end
  end.

Definition workflow_Install (t : list nat) (a : Addon) (wp : WorkflowProxy)
    : Prog (option error) :=
  r ← lift_outcome (build t a wp);
  match r with
  | Err err => mret (Some err)
  | Ok wf => submit a wf
  end.

Definition workflow_Delete (a : Addon) (name : string) : Prog (option error) :=
  err ← call (CDynDeleteWorkflow (addon_Namespace a) name);
  match err with
  | Some err => mret (Some err)
  | None => mret None
  end.

#[global] Instance workflowLifecycle : AddonLifecycle := {|
  wfl_Install := workflow_Install;
  wfl_Delete := workflow_Delete |}.
End workflow.

(** ** What is submitted *)
Section submitted.
Context `{GoRange, Yaml, Json, !UnstructuredObject, !UnstructuredLaws, ArgoTypes}.
Implicit Types (o wf : object) (p q : list string).

Definition params_path : list string := ["spec"; "arguments"; "parameters"].

(** Two objects that agree on the path [q]. *)
Definition keeps (q : list string) o o' : Prop := obj_path o' q = obj_path o q.

Lemma set_nested_keeps o v p o' q : set_nested o v p = Val (Ok o') -> apart p q -> keeps q o o'.
Proof.
  unfold set_nested, keeps. intros Hs Hq.
  destruct (un_SetNestedField o v p) as [[o1 [e|]]|m] eqn:Hf; simplify_eq/=.
  by eapply SetNestedField_apart.
Qed.

Lemma processWorkflowResources_path a m v q :
  processWorkflowResources a (VMap m) = Val (Ok v) ->
  apart ["arguments"; "artifacts"] q -> apart ["resource"; "manifest"] q ->
  exists m', v = VMap m' /\ keeps q m m'.
Proof.
  intros Hp Hq1 Hq2. cbn [processWorkflowResources] in Hp.
  destruct (un_NestedFieldNoCopy m ["arguments"; "artifacts"]) as [[[]|]|] eqn:Hf; try done.
  - apply try_bind_Ok in Hp as (artifacts & _ & Hp). simplify_eq. eexists. split; [done|].
    by apply (obj_path_set_path_apart ["arguments"; "artifacts"]).
  - destruct (un_NestedFieldNoCopy m ["resource"; "manifest"]) as [[[]|]|]; simplify_eq;
      [|by exists m].
    apply try_bind_Ok in Hp as (d & _ & Hp). apply try_bind_Ok in Hp as (m' & Hs & Hp).
    simplify_eq. exists m'. split; [done|]. by eapply set_nested_keeps.
Qed.

(** The paths that processing the artifacts leaves alone. *)
Definition kept_path q : Prop := q = params_path \/ exists q', q = "metadata" :: q'.

Lemma set_spec_keeps wf m m' q :
  kept_path q -> obj_path wf ["spec"] = Some (VMap m) ->
  keeps ["arguments"; "parameters"] m m' -> keeps q wf (set_path ["spec"] (VMap m') wf).
Proof.
  unfold keeps. intros [->|[q' ->]] Hspec Hm.
  - cbn [set_path obj_path] in *. unfold params_path.
    by rewrite !obj_path_cons, obj_lookup_insert, Hspec by done.
  - apply obj_path_set_path_apart. by apply apart_head.
Qed.

Lemma configureWorkflowArtifacts_keeps a wf wf' q :
  configureWorkflowArtifacts a wf = Val (Ok wf') -> kept_path q -> keeps q wf wf'.
Proof.
  unfold configureWorkflowArtifacts. intros Hc Hq.
  destruct (un_NestedFieldNoCopy wf ["spec"]) as [spec|e] eqn:Hspec; [|done].
  apply try_bind_Ok in Hc as (v & Hv & Hc).
  destruct spec as [[]|]; try done. apply NestedFieldNoCopy_path in Hspec.
  apply (processWorkflowResources_path _ _ _ ["arguments"; "parameters"]) in Hv
    as (m' & -> & Hm); [|solve_apart..].
  assert (keeps q wf (set_path ["spec"] (VMap m') wf)) as Hk by (by eapply set_spec_keeps).
  destruct (un_NestedFieldNoCopy _ ["spec"; "templates"]) as [[[]|]|] eqn:Ht; simplify_eq;
    try done.
  apply try_bind_Ok in Hc as (l' & _ & [= <-]).
  unfold keeps. etrans; [apply (obj_path_set_path_apart ["spec"; "templates"]) | done].
  destruct Hq as [->|[q' ->]]; [solve_apart | by apply apart_head].
Qed.

(** The parameters a template brings itself. *)
Definition given_params wf : list value :=
  match obj_path wf params_path with Some (VSlice l) => l | _ => [] end.

(** A field read after it was set to a default because it was nil. *)
Lemma lookup_defaulted m k d v :
  obj_lookup (if is_nil (obj_lookup m k) then obj_insert k d m else m) k = Some v ->
  (is_nil (obj_lookup m k) = true /\ v = d) \/ obj_lookup m k = Some v.
Proof.
  destruct (is_nil (obj_lookup m k)) eqn:Hn; [|by right].
  rewrite obj_lookup_insert. intros [= <-]. by left.
Qed.

Lemma given_params_spec wf spec arguments l :
  obj_lookup wf "spec" = Some (VMap spec) ->
  obj_lookup (if is_nil (obj_lookup spec "arguments")
              then obj_insert "arguments" (VMap []) spec else spec) "arguments"
    = Some (VMap arguments) ->
  obj_lookup (if is_nil (obj_lookup arguments "parameters")
              then obj_insert "parameters" (VSlice []) arguments else arguments) "parameters"
    = Some (VSlice l) ->
  given_params wf = l.
Proof.
  intros Hs Ha Hp. unfold given_params, params_path. rewrite obj_path_cons, Hs by done.
  rewrite obj_path_cons by done.
  apply lookup_defaulted in Ha as [[Hn [= ->]]| ->].
  - apply lookup_defaulted in Hp as [[_ [= ->]]|Hp]; [|done].
    by destruct (obj_lookup spec "arguments") as [[]|].
  - cbn [obj_path]. apply lookup_defaulted in Hp as [[Hn' [= ->]]| ->]; [|done].
    by destruct (obj_lookup arguments "parameters") as [[]|].
Qed.

Lemma configureGlobalWFParameters_spec t a wf wf' :
  configureGlobalWFParameters t a wf = Val (wf', true) ->
  obj_path wf' params_path =
    Some (VSlice (given_params wf ++ (wf_param <$> global_params t a))) /\
  forall q, keeps ("metadata" :: q) wf wf'.
Proof.
  unfold configureGlobalWFParameters. intros Hc.
  destruct (obj_lookup wf "spec") as [[]|] eqn:Hspec; try done. cbv zeta in Hc.
  destruct (obj_lookup _ "arguments") as [[]|] eqn:Ha in Hc; try done.
  destruct (obj_lookup _ "parameters") as [[]|] eqn:Hp in Hc; try done.
  rewrite (given_params_spec _ _ _ _ Hspec Ha Hp).
  destruct (un_SetNestedSlice _ _ _) as [[wf2 [e|]]|msg] eqn:Hs; [done| |done].
  injection Hc as <-. split; [by apply SetNestedSlice_path in Hs|].
  intros q. unfold keeps. rewrite (SetNestedSlice_apart _ _ _ _ _ _ Hs) by (by apply apart_head).
  apply obj_path_ext. by apply obj_lookup_insert_ne.
Qed.

(** The field at [p] holds a number other than zero. *)
Definition nonzero_at p wf : Prop := exists v, un_NestedInt64 wf p = Ok (Some v) /\ v <> 0%Z.

Lemma inject_default_spec wf z p wf' :
  z <> 0%Z -> inject_default wf z p = Val (Ok wf') ->
  nonzero_at p wf' /\ forall q, apart p q -> keeps q wf wf'.
Proof.
  unfold inject_default. intros Hz Hi.
  destruct (un_NestedInt64 wf p) as [val|e] eqn:Hv; [|done].
  destruct (bool_decide (val = None) || bool_decide (val = Some 0%Z)) eqn:Hd.
  - split; [|by intros q; eapply set_nested_keeps]. exists z. split; [|done]. apply NestedInt64_path.
    unfold set_nested in Hi.
    destruct (un_SetNestedField wf (VInt64 z) p) as [[o [e|]]|m] eqn:Hs; simplify_eq/=.
    by eapply SetNestedField_path.
  - simplify_eq. split; [|done]. apply orb_false_iff in Hd as [Hn Hd].
    rewrite bool_decide_eq_false in Hn, Hd. destruct val as [v|]; [|done].
    exists v. split; [done|]. congruence.
Qed.

(** Labels are set on top of the ones the object has. *)
Lemma metadata_ok_keeps o o' : keeps ["metadata"] o o' -> metadata_ok o' -> metadata_ok o.
Proof. unfold keeps, metadata_ok. simpl. by intros ->. Qed.

Lemma SetLabels_metadata l o : metadata_ok (un_SetLabels l o) -> metadata_ok o.
Proof.
  intros Hm. destruct (decide (metadata_ok o)) as [|Hbad]; [done|].
  by rewrite SetLabels_bad in Hm.
Qed.

Lemma SetName_metadata n o : metadata_ok (un_SetName n o) -> metadata_ok o.
Proof.
  intros Hm. destruct (decide (metadata_ok o)) as [|Hbad]; [done|].
  by rewrite SetName_bad in Hm.
Qed.

Lemma SetNamespace_metadata n o : metadata_ok (un_SetNamespace n o) -> metadata_ok o.
Proof.
  intros Hm. destruct (decide (metadata_ok o)) as [|Hbad]; [done|].
  by rewrite SetNamespace_bad in Hm.
Qed.

Lemma parse_spec a wt name wf :
  parse a wt name = Ok wf -> metadata_ok wf ->
  un_GetName wf = name /\ un_GetNamespace wf = addon_Namespace a.
Proof.
  unfold parse. intros Hp Hm. repeat (case_match; try done). simplify_eq.
  pose proof (SetName_metadata _ _ Hm) as Hm1. pose proof (SetNamespace_metadata _ _ Hm1) as Hm2.
  split; [by apply SetName_get|]. etrans; [|by apply SetNamespace_get].
  apply GetNamespace_path, SetName_apart. solve_apart.
Qed.

(** The labels every submitted workflow carries. *)
Definition labelled (a : Addon) (labels : gmap string string) : Prop :=
  labels !! ResourceDefaultOwnLabel = Some (addon_Name a) /\
  labels !! ResourceDefaultPartLabel = Some (addon_Name a) /\
  labels !! ResourceDefaultVersionLabel = Some (PkgVersion (Spec_Package (Spec a))) /\
  labels !! ResourceDefaultManageByLabel = Some Group.

Lemma addDefaultLabels_spec a o :
  metadata_ok o ->
  exists labels, un_GetLabels (addDefaultLabelsToResource a o) = Some labels /\
    labelled a labels /\
    forall k, k ∉ [ResourceDefaultOwnLabel; ResourceDefaultPartLabel;
                   ResourceDefaultVersionLabel; ResourceDefaultManageByLabel] ->
      labels !! k = default ∅ (un_GetLabels o) !! k.
Proof.
  intros Hm. unfold addDefaultLabelsToResource. eexists. split.
  - apply SetLabels_get; [apply insert_non_empty | done].
  - split; [by repeat split; simplify_map_eq|]. intros k Hk.
    rewrite !not_elem_of_cons in Hk. destruct Hk as (? & ? & ? & ? & _).
    by rewrite !lookup_insert_ne by congruence.
Qed.

Lemma addDefaultLabels_keeps a o q :
  apart ["metadata"; "labels"] q -> keeps q o (addDefaultLabelsToResource a o).
Proof. apply SetLabels_apart. Qed.

Lemma injectInstanceId_keeps o q : apart ["metadata"; "labels"] q -> keeps q o (injectInstanceId o).
Proof. apply SetLabels_apart. Qed.

(** What holds of every object [Install] submits. *)
Record submission (t : list nat) (a : Addon) (wp : WorkflowProxy) (wf : object) : Prop := {
  sub_name : un_GetName wf = wp_name wp;
  sub_namespace : un_GetNamespace wf = addon_Namespace a;
  sub_labels : exists labels, un_GetLabels wf = Some labels /\ labelled a labels /\
    labels !! WfInstanceIdLabelKey = Some WfInstanceId;
  sub_ttl : nonzero_at ttl_path wf;
  sub_deadline : nonzero_at deadline_path wf;
  sub_params : exists parsed, parse a (wp_template wp) (wp_name wp) = Ok parsed /\
    obj_path wf params_path =
    Some (VSlice (given_params parsed ++ (wf_param <$> global_params t a)))
}.

Lemma build_steps t a wp wf :
  build t a wp = Val (Ok wf) ->
  exists w0 w1 w2 w3 w4, parse a (wp_template wp) (wp_name wp) = Ok w0 /\
    configureGlobalWFParameters t a w0 = Val (w1, true) /\
    configureWorkflowArtifacts a w1 = Val (Ok w2) /\
    injectTTLs w2 = Val (Ok w3) /\ injectActiveDeadlineSeconds w3 = Val (Ok w4) /\
    wf = addDefaultLabelsToResource a (injectInstanceId w4).
Proof.
  unfold build. destruct (parse a _ _) as [w0|e] eqn:H0p; [|done].
  destruct (configureGlobalWFParameters t a w0) as [[w1 [|]]|m] eqn:H1p; [|done..]. cbn.
  intros Hb. apply try_bind_Ok in Hb as (w2 & H2p & Hb).
  apply try_bind_Ok in Hb as (w3 & H3p & Hb). apply try_bind_Ok in Hb as (w4 & H4p & [= <-]).
  by exists w0, w1, w2, w3, w4.
Qed.

Lemma nonzero_keeps p o o' : keeps p o o' -> nonzero_at p o -> nonzero_at p o'.
Proof.
  intros Hk (v & Hv & Hne). exists v. split; [|done].
  apply NestedInt64_path. rewrite Hk. by apply NestedInt64_path.
Qed.

(** Everything but the two label steps leaves the metadata alone. *)
Lemma build_metadata t a w0 w1 w2 w3 w4 q :
  configureGlobalWFParameters t a w0 = Val (w1, true) ->
  configureWorkflowArtifacts a w1 = Val (Ok w2) ->
  injectTTLs w2 = Val (Ok w3) -> injectActiveDeadlineSeconds w3 = Val (Ok w4) ->
  keeps ("metadata" :: q) w0 w4.
Proof.
  intros H1p H2p H3p H4p. unfold keeps.
  apply configureGlobalWFParameters_spec in H1p as [_ H1p].
  apply inject_default_spec in H3p as [_ H3p], H4p as [_ H4p]; [|done..].
  rewrite H4p, H3p by (by apply apart_head). rewrite <-H1p.
  eapply configureWorkflowArtifacts_keeps; [done|]. right. by eexists.
Qed.

Lemma build_submission t a wp wf :
  build t a wp = Val (Ok wf) -> metadata_ok wf -> submission t a wp wf.
Proof.
  intros (w0 & w1 & w2 & w3 & w4 & H0p & H1p & H2p & H3p & H4p & ->)%build_steps Hm.
  assert (forall q, keeps ("metadata" :: q) w0 w4) as Hmeta
    by (intros; by eapply build_metadata).
  pose proof (SetLabels_metadata _ _ Hm) as Hmi. pose proof (SetLabels_metadata _ _ Hmi) as Hm4.
  destruct (parse_spec _ _ _ _ H0p (metadata_ok_keeps _ _ (Hmeta []) Hm4)) as [Hname Hns].
  assert (forall q, apart ["metadata"; "labels"] q ->
    keeps q w4 (addDefaultLabelsToResource a (injectInstanceId w4))) as Hlab.
  { intros q Hq. unfold keeps. by rewrite addDefaultLabels_keeps, injectInstanceId_keeps. }
  apply configureGlobalWFParameters_spec in H1p as [Hpar _].
  apply inject_default_spec in H3p as [Httl H3k], H4p as [Hdl H4k]; [|done..].
  constructor.
  - rewrite <-Hname. apply GetName_path. rewrite Hlab by solve_apart. apply Hmeta.
  - rewrite <-Hns. apply GetNamespace_path. rewrite Hlab by solve_apart. apply Hmeta.
  - destruct (addDefaultLabels_spec a (injectInstanceId w4) Hmi) as (labels & Hget & Hl & Hother).
    exists labels. split_and!; [done..|]. rewrite Hother by (by apply (bool_decide_unpack _)).
    unfold injectInstanceId. rewrite SetLabels_get; [|apply insert_non_empty|done].
    apply lookup_insert_eq.
  - eapply nonzero_keeps; [apply Hlab; solve_apart|].
    eapply nonzero_keeps; [apply H4k; solve_apart | done].
  - eapply nonzero_keeps; [apply Hlab; solve_apart | done].
  - exists w0. split; [done|]. rewrite Hlab, H4k, H3k by solve_apart. rewrite <-Hpar.
    eapply configureWorkflowArtifacts_keeps; [done | by left].
Qed.

Lemma conversion_metadata o w : WorkFlowFromUnstructured o = Ok w -> metadata_ok o.
Proof.
  unfold WorkFlowFromUnstructured, FromUnstructuredObj.
  destruct (argo_FromUnstructured o) as [v|e] eqn:Hc; intros Hw.
  - by eapply argo_FromUnstructured_metadata.
  - case_bool_decide; [|done]. destruct (argo_json_Marshal o) as [d|] eqn:Hd; [|done].
    by eapply argo_json_metadata.
Qed.

(** The calls of [Install]: only a creation of a well-formed submission. *)
Definition submission_call t a wp (c : Call) : Prop :=
  match c with
  | CCreateWorkflow ns owner wf =>
      ns = addon_Namespace a /\ owner = addon_key a /\ submission t a wp wf
  | CEvent _ _ _ => True
  | _ => False
  end.

Lemma workflow_Install_calls t a wp :
  calls_all (submission_call t a wp) (workflow_Install t a wp).
Proof.
  unfold workflow_Install. destruct (build t a wp) as [[wf|e]|m] eqn:Hb; [|done..].
  cbn [lift_outcome]. change (calls_all (submission_call t a wp) (submit a wf)). unfold submit.
  destruct (WorkFlowFromUnstructured wf) as [w|e] eqn:Hw; [|done].
  destruct (SetControllerReference a w); [done|].
  pose proof (build_submission _ _ _ _ Hb (conversion_metadata _ _ Hw)) as Hsub.
  apply calls_all_bind.
  - apply calls_all_call. split_and!; [|done..]. by apply (sub_namespace _ _ _ _ Hsub).
  - intros [e|]; [by case_match|]. apply calls_all_bind; [by apply calls_all_call | done].
Qed.

#[global] Instance workflowLifecycle_laws : AddonLifecycleLaws.
Proof.
  split. intros t a wp. eapply calls_all_mono; [|apply workflow_Install_calls].
  intros []; simpl; try done. intros (? & ? & Hs). split_and!; [done..|]. apply Hs.
Qed.
End submitted.

(** ** Properties *)

(** C17: every workflow [Install] creates goes to the addon's namespace, is
    owned by the addon, and has the requested name, the addon's labels and
    the label of the workflow controller instance, a time to live and a
    deadline other than zero, and the template's own parameters followed by
    the addon's. *)
Theorem Install_submits `{GoRange, Yaml, Json, !UnstructuredObject, !UnstructuredLaws, ArgoTypes}
    (t : list nat) (a : Addon) (wp : WorkflowProxy) (tr : list event)
    (o : outcome (option error)) (ns : string) (owner : NamespacedName) (wf : object)
    (r : option error) :
  exec (workflow_Install t a wp) tr o ->
  existT (CCreateWorkflow ns owner wf) r ∈ tr ->
  ns = addon_Namespace a /\ owner = addon_key a /\ submission t a wp wf.
Proof.
  intros He Hin.
  exact (calls_all_exec _ _ _ _ (CCreateWorkflow ns owner wf) r (workflow_Install_calls t a wp) He Hin).
Qed.

Definition sample_doc : object :=
  [("apiVersion", VString "argoproj.io/v1alpha1"); ("kind", VString "Workflow");
   ("spec", VMap [("arguments", VMap [("parameters", VSlice [wf_param ("image", "nginx")])])])].

Definition install_yaml : Yaml := {|
  yaml_Unmarshal := fun _ _ => (sample_doc, None);
  yaml_Marshal := fun _ => Ok "" |}.

Definition sample_json : Json := {|
  json_Marshal := fun _ => Ok "{}";
  un_UnmarshalJSON := fun _ => Ok sample_doc |}.

Program Definition sample_argo : ArgoTypes := {|
  ArgoWorkflow := unit;
  argo_FromUnstructured := fun o => if bool_decide (metadata_ok o) then Ok tt else Err not_a_map;
  argo_json_Marshal := fun _ => Err not_a_map;
  argo_json_Unmarshal := fun _ => Err not_a_map;
  SetControllerReference := fun _ _ => None |}.
Next Obligation. intros o w. simpl. by case_bool_decide. Qed.
Next Obligation. done. Qed.

Definition sample_proxy : WorkflowProxy :=
  NewWorkflowProxy "test-addon-install-9375dca7-wf" (LC_Install (Lifecycle (Spec sample_addon)))
    Install.

Definition sample_submitted : object :=
  match @build range_fwd install_yaml sample_json tree_object [] sample_addon sample_proxy with
  | Val (Ok wf) => wf | _ => []
  end.

Lemma Install_submits_witness :
  @submission range_fwd install_yaml sample_json tree_object [] sample_addon sample_proxy
    sample_submitted.
Proof.
  refine (proj2 (proj2 (@Install_submits range_fwd install_yaml sample_json tree_object
    tree_object_laws sample_argo [] sample_addon sample_proxy
    (trace (one_addon sample_addon) tt (@workflow_Install range_fwd install_yaml sample_json
      tree_object sample_argo [] sample_addon sample_proxy)).1 _
    (addon_Namespace sample_addon) (addon_key sample_addon) sample_submitted (Some unavailable)
    (exec_trace (one_addon sample_addon) tt _) _))).
  apply (list_elem_of_lookup_2 _ 0). vm_compute. reflexivity.
Defined.
