(* ===== verification/Manifests.v ===== *)
(** The manifests inside workflows: what [Install] does to the documents of
    raw artifacts and resource manifests ([processWorkflowResources] and
    [configureWorkflowArtifacts] of [pkg/workflows/workflow.go]). *)
From S2P Require Import Prelude GoStrings GoFmt AddonTypes Common VersionCache Unstructured.
From S2P Require Import TreeObject Effects Workflow.

Section manifests.
Context `{Yaml, !UnstructuredObject, !UnstructuredLaws}.
Implicit Types (a : Addon) (m : object) (q : list string).

Definition default_label_keys : list string :=
  [ResourceDefaultOwnLabel; ResourceDefaultPartLabel; ResourceDefaultVersionLabel;
   ResourceDefaultManageByLabel].

(** [out] is the document [doc] with the addon's labels added to its
    metadata, the other labels kept and everything else unchanged; a blank
    document becomes empty. *)
Definition labelled_document a (doc out : string) : Prop :=
  (TrimSpace doc = "" /\ out = "") \/
  (TrimSpace doc <> "" /\ exists data resource,
    yaml_Unmarshal (TrimSpace doc) [] = (data, None) /\ yaml_Marshal resource = Ok out /\
    (metadata_ok data -> exists labels, un_GetLabels resource = Some labels /\
      labelled a labels /\
      forall k, k ∉ default_label_keys -> labels !! k = default ∅ (un_GetLabels data) !! k) /\
    forall q, apart ["metadata"; "labels"] q -> obj_path resource q = obj_path data q).

(** Document by document. *)
Definition labelled_text a (text out : string) : Prop :=
  exists outs, out = Join outs documents_sep /\
    Forall2 (labelled_document a) (Split text documents_sep) outs.

Lemma try_map_Forall2 {A B} (f : A -> outcome (result B)) l l' :
  try_map f l = Val (Ok l') -> Forall2 (fun x y => f x = Val (Ok y)) l l'.
Proof.
  revert l'. induction l as [|x l IH]; intros l' Hm; cbn [try_map] in Hm; [by simplify_eq|].
  apply try_bind_Ok in Hm as (y & Hx & Hm). apply try_bind_Ok in Hm as (ys & Hl & Hm).
  simplify_eq. constructor; auto.
Qed.

Lemma processArtifact_labelled a doc out :
  processArtifact a doc = Ok out -> labelled_document a doc out.
Proof.
  unfold processArtifact, labelled_document. cbv zeta.
  case_bool_decide as Hd; [intros [= <-]; by left|].
  destruct (yaml_Unmarshal (TrimSpace doc) []) as [data [e|]] eqn:Hy; [done|].
  destruct (yaml_Marshal (addDefaultLabelsToResource a data)) as [s|e] eqn:Hmar; [|done].
  intros [= <-]. right. split; [done|].
  exists data, (addDefaultLabelsToResource a data). split_and!; [done | done | |].
  - intros Hm. destruct (addDefaultLabels_spec a data Hm) as (labels & ? & ? & Hk).
    exists labels. split_and!; [done | done|]. exact Hk.
  - apply addDefaultLabels_keeps.
Qed.

Lemma process_documents_labelled a text out :
  process_documents a text = Val (Ok out) -> labelled_text a text out.
Proof.
  unfold process_documents. intros Hp. apply try_bind_Ok in Hp as (outs & Hm & [= <-]).
  exists outs. split; [done|]. apply try_map_Forall2 in Hm.
  eapply Forall2_impl; [exact Hm|]. intros doc o Ho. apply processArtifact_labelled.
  by injection Ho.
Qed.

(** A raw artifact: its data is rewritten, the rest stays. *)
Definition labelled_artifact a (x y : value) : Prop :=
  exists m m' text out, x = VMap m /\ y = VMap m' /\
    un_NestedString m ["raw"; "data"] = Ok text /\
    obj_path m' ["raw"; "data"] = Some (VString out) /\
    labelled_text a (default "" text) out /\
    forall q, apart ["raw"; "data"] q -> obj_path m' q = obj_path m q.

Lemma set_nested_spec m v p m' :
  set_nested m v p = Val (Ok m') ->
  obj_path m' p = Some v /\ forall q, apart p q -> obj_path m' q = obj_path m q.
Proof.
  intros Hs. split; [|intros q Hq; by eapply set_nested_keeps].
  unfold set_nested in Hs. destruct (un_SetNestedField m v p) as [[m1 [e|]]|msg] eqn:Hf; simplify_eq/=.
  by eapply SetNestedField_path.
Qed.

Lemma process_artifact_labelled a x y :
  process_artifact_entry a x = Val (Ok y) -> labelled_artifact a x y.
Proof.
  destruct x as [| | | | | | |m]; try done. cbn [process_artifact_entry].
  destruct (un_NestedString m ["raw"; "data"]) as [text|e] eqn:Ht; [|done]. intros Hp.
  apply try_bind_Ok in Hp as (out & Hdocs & Hp). apply try_bind_Ok in Hp as (m' & Hs & [= <-]).
  apply set_nested_spec in Hs as [Hout Hrest]. apply process_documents_labelled in Hdocs.
  by exists m, m', text, out.
Qed.

(** A workflow spec, a template or a step: the artifacts it passes as
    arguments, or else the manifest of its resource, are rewritten. *)
Definition labelled_step a (x y : value) : Prop :=
  exists m m', x = VMap m /\ y = VMap m' /\
    match un_NestedFieldNoCopy m ["arguments"; "artifacts"] with
    | Ok (Some arts) => exists l l', arts = VSlice l /\ Forall2 (labelled_artifact a) l l' /\
        m' = set_path ["arguments"; "artifacts"] (VSlice l') m
    | _ =>
        match un_NestedFieldNoCopy m ["resource"; "manifest"] with
        | Ok (Some text) => exists s out, text = VString s /\ labelled_text a s out /\
            obj_path m' ["resource"; "manifest"] = Some (VString out) /\
            forall q, apart ["resource"; "manifest"] q -> obj_path m' q = obj_path m q
        | _ => m' = m
        end
    end.

Lemma processWorkflowResources_labelled a x y :
  processWorkflowResources a x = Val (Ok y) -> labelled_step a x y.
Proof.
  destruct x as [| | | | | | |m]; try done. cbn [processWorkflowResources].
  unfold labelled_step. intros Hp. exists m.
  destruct (un_NestedFieldNoCopy m ["arguments"; "artifacts"]) as [[[]|]|] eqn:Ha; try done.
  - apply try_bind_Ok in Hp as (l' & Hm & [= <-]). eexists. split_and!; [done..|].
    exists l, l'. split_and!; [done | | done]. apply try_map_Forall2 in Hm.
    eapply Forall2_impl; [exact Hm|]. intros; by apply process_artifact_labelled.
  - destruct (un_NestedFieldNoCopy m ["resource"; "manifest"]) as [[[]|]|] eqn:Hr; simplify_eq.
    + apply try_bind_Ok in Hp as (out & Hdocs & Hp). apply try_bind_Ok in Hp as (m' & Hs & [= <-]).
      exists m'. split_and!; [done..|]. exists s, out.
      apply set_nested_spec in Hs as [Hout Hrest]. apply process_documents_labelled in Hdocs.
      by split_and!.
    + by exists m.
Qed.

(** A template: itself, then each of its steps. *)
Definition labelled_template a (x y : value) : Prop :=
  exists m1, labelled_step a x (VMap m1) /\
    match un_NestedFieldNoCopy m1 ["steps"] with
    | Ok (Some steps) => exists groups groups', steps = VSlice groups /\
        Forall2 (fun g g' => exists l l', g = VSlice l /\ g' = VSlice l' /\
          Forall2 (labelled_step a) l l') groups groups' /\
        y = VMap (set_path ["steps"] (VSlice groups') m1)
    | _ => y = VMap m1
    end.

Lemma process_template_labelled a x y :
  process_template a x = Val (Ok y) -> labelled_template a x y.
Proof.
  destruct x as [| | | | | | |m]; try done. cbn [process_template]. intros Hp.
  apply try_bind_Ok in Hp as (v & Hv & Hp). apply processWorkflowResources_labelled in Hv.
  pose proof Hv as (m0 & m1 & _ & -> & _). exists m1. split; [done|].
  destruct (un_NestedFieldNoCopy m1 ["steps"]) as [[steps|]|e]; simplify_eq; [|done].
  destruct steps as [| | | | | |groups|]; try done.
  apply try_bind_Ok in Hp as (groups' & Hm & [= <-]). exists groups, groups'.
  split_and!; [done | | done]. apply try_map_Forall2 in Hm. eapply Forall2_impl; [exact Hm|].
  intros g g' Hg. unfold process_steps in Hg. destruct g as [| | | | | |l|]; try done.
  apply try_bind_Ok in Hg as (l' & Hl & [= <-]). exists l, l'. split_and!; [done | done|].
  apply try_map_Forall2 in Hl. eapply Forall2_impl; [exact Hl|].
  intros; by apply processWorkflowResources_labelled.
Qed.

(** C21: When a workflow's artifacts are configured, every document of every
    raw artifact and resource manifest that the spec, a template or a step
    passes on is given the addon's labels on top of its own, blank documents
    are emptied, the documents keep their order and number, and nothing else
    in the workflow changes. *)
Theorem configureWorkflowArtifacts_labels a wf wf' :
  configureWorkflowArtifacts a wf = Val (Ok wf') ->
  exists spec spec', obj_path wf ["spec"] = Some spec /\ labelled_step a spec spec' /\
    let wf1 := set_path ["spec"] spec' wf in
    match un_NestedFieldNoCopy wf1 ["spec"; "templates"] with
    | Ok (Some (VSlice templates)) => exists templates',
        Forall2 (labelled_template a) templates templates' /\
        wf' = set_path ["spec"; "templates"] (VSlice templates') wf1
    | _ => wf' = wf1
    end.
Proof.
  unfold configureWorkflowArtifacts. intros Hc.
  destruct (un_NestedFieldNoCopy wf ["spec"]) as [[spec|]|e] eqn:Hspec; try done.
  apply try_bind_Ok in Hc as (spec' & Hs & Hc). cbn [default from_option id] in Hs.
  apply NestedFieldNoCopy_path in Hspec. apply processWorkflowResources_labelled in Hs.
  exists spec, spec'. split_and!; [done | done|]. cbn zeta in *.
  destruct (un_NestedFieldNoCopy _ ["spec"; "templates"]) as [[ts|]|e]; try done.
  2: { by simplify_eq. }
  destruct ts as [| | | | | |l|]; simplify_eq; try done.
  apply try_bind_Ok in Hc as (l' & Hm & [= <-]). exists l'. split; [|done].
  apply try_map_Forall2 in Hm. eapply Forall2_impl; [exact Hm|].
  intros; by apply process_template_labelled.
Qed.
End manifests.

(** A workflow with one raw artifact of two documents. *)
Definition manifest_yaml : Yaml := {|
  yaml_Unmarshal doc _ := ([("data", VString doc)], None);
  yaml_Marshal o := match obj_lookup o "data" with
                    | Some (VString s) => Ok ("labelled " +:+ s) | _ => Ok "" end
|}.

Definition manifest_workflow : object :=
  [("spec", VMap [("arguments", VMap [("artifacts", VSlice [VMap [("name", VString "doc");
     ("raw", VMap [("data", VString ("a" +:+ documents_sep +:+ " " +:+ documents_sep +:+ "b"))])]])]);
     ("templates", VSlice [VMap [("name", VString "entry")]])])].

Definition manifest_addon : Addon :=
  mkAddon (mkObjectMeta "a" "ns" "" None [] ∅) zero_AddonSpec zero_AddonStatus.

Definition labelled_workflow : object :=
  match @configureWorkflowArtifacts manifest_yaml tree_object manifest_addon manifest_workflow with
  | Val (Ok wf) => wf | _ => []
  end.

Lemma configureWorkflowArtifacts_labels_witness :
  obj_path labelled_workflow ["spec"; "arguments"; "artifacts"] =
    Some (VSlice [VMap [("name", VString "doc");
      ("raw", VMap [("data",
        VString ("labelled a" +:+ documents_sep +:+ documents_sep +:+ "labelled b"))])]]) /\
  exists spec spec', obj_path manifest_workflow ["spec"] = Some spec /\
    @labelled_step manifest_yaml tree_object manifest_addon spec spec'.
Proof.
  split; [vm_compute; reflexivity|].
  destruct (@configureWorkflowArtifacts_labels manifest_yaml tree_object tree_object_laws
    manifest_addon manifest_workflow labelled_workflow) as (spec & spec' & H1 & H2 & _).
  - vm_compute. reflexivity.
  - exists spec, spec'. split; assumption.
Defined.
