(* ===== verification/Objects.v ===== *)
(** Observing the resources an addon has deployed, [controllers/objects.go].

    [client.List] is a call; a list without the [Namespace] option spans all
    namespaces. *)
From S2P Require Import Prelude GoStrings GoFmt AddonTypes Common VersionCache Unstructured.
From S2P Require Import Effects.

Definition object_status (kind group : string) (o : ListedObject) : ObjectStatus := {|
  Obj_Kind := kind;
  Obj_Group := group;
  Obj_Name := lo_Name o;
  Link := lo_SelfLink o;
  Obj_Status := "" |}.

(** The loop that appends a status per listed object. *)
Definition object_statuses (kind group : string) (items : list ListedObject)
    : list ObjectStatus := object_status kind group <$> items.

(** The conditions of the loops over services and namespaces. *)
Definition in_namespace (namespace : string) (items : list ListedObject) : list ListedObject :=
  filter (fun o => lo_Namespace o = namespace) items.

Definition with_name (name : string) (items : list ListedObject) : list ListedObject :=
  filter (fun o => lo_Name o = name) items.

(** [cli.List(ctx, list, &client.ListOptions{...})] *)
Definition cli_List (kind : ListKind) (ns : option string) (selector : LabelSelector)
    : Prog (result (list ListedObject)) := call (CList kind ns selector).

Definition ObserveService (namespace : string) (selector : LabelSelector)
    : Prog (result (list ObjectStatus)) :=
  r ← cli_List ServiceList (Some namespace) selector;
  match r with
  | Err err => mret (Err (Errorf ("failed to list services " +:+ Error err)))
  | Ok items =>
      mret (Ok (object_statuses "Service" "" (in_namespace namespace items)))
  end.

Definition ObserveJob (namespace : string) (selector : LabelSelector)
    : Prog (result (list ObjectStatus)) :=
  r ← cli_List JobList (Some namespace) selector;
  match r with
  | Err err => mret (Err (Errorf ("failed to list cronjobs " +:+ Error err)))
  | Ok items => mret (Ok (object_statuses "Job" "batch/v1" items))
  end.

Definition ObserveCronJob (namespace : string) (selector : LabelSelector)
    : Prog (result (list ObjectStatus)) :=
  r ← cli_List CronJobList (Some namespace) selector;
  match r with
  | Err err => mret (Err (Errorf ("failed to list cronjobs " +:+ Error err)))
  | Ok items => mret (Ok (object_statuses "CronJob" "batch/v1" items))
  end.

Definition ObserveDeployment (namespace : string) (selector : LabelSelector)
    : Prog (result (list ObjectStatus)) :=
  r ← cli_List DeploymentList None selector;
  match r with
  | Err err => mret (Err err)
  | Ok items => mret (Ok (object_statuses "Deployment" "apps/v1" items))
  end.

Definition ObserveDaemonSet (namespace : string) (selector : LabelSelector)
    : Prog (result (list ObjectStatus)) :=
  r ← cli_List DaemonSetList None selector;
  match r with
  | Err err => mret (Err err)
  | Ok items => mret (Ok (object_statuses "DaemonSet" "apps/v1" items))
  end.

Definition ObserveReplicaSet (namespace : string) (selector : LabelSelector)
    : Prog (result (list ObjectStatus)) :=
  r ← cli_List ReplicaSetList None selector;
  match r with
  | Err err => mret (Err err)
  | Ok items => mret (Ok (object_statuses "ReplicaSe" "apps/v1" items))
  end.

Definition ObserveStatefulSet (name : string) (selector : LabelSelector)
    : Prog (result (list ObjectStatus)) :=
  r ← cli_List StatefulSetList None selector;
  match r with
  | Err err => mret (Err err)
  | Ok items => mret (Ok (object_statuses "StatefulSet" "apps/v1" items))
  end.

Definition ObserveNamespace (name : string) (selector : LabelSelector)
    : Prog (result (list ObjectStatus)) :=
  r ← cli_List NamespaceList None selector;
  match r with
  | Err err => mret (Err err)
  | Ok items =>
      mret (Ok (object_statuses "Namespace" "" (with_name name items)))
  end.
