(* ===== verification/Controller.v ===== *)
(** The addon controller, [controllers/addon_controller.go].

    The [*Addon] a reconcile works on is threaded through the functions that
    change it.  [LabelSelectorAsSelector] of apimachinery and the finalizer
    helpers of controller-runtime are parameters. *)
From S2P Require Import Prelude GoStrings GoFmt AddonTypes Common VersionCache Unstructured.
From S2P Require Import Validator Effects Updater Workflow Objects.

(** The error [metav1.LabelSelectorAsSelector] reports, if any. *)
Class Selectors := {
  selector_error : LabelSelector -> option error
}.

(** [controllerutil.ContainsFinalizer], [AddFinalizer] and
    [RemoveFinalizer], on the finalizers of the object. *)
Class ControllerUtil := {
  ContainsFinalizer : list string -> string -> bool;
  AddFinalizer : list string -> string -> list string;
  RemoveFinalizer : list string -> string -> list string;
  ContainsFinalizer_spec l f : ContainsFinalizer l f = true <-> f ∈ l;
  AddFinalizer_spec l f x : x ∈ AddFinalizer l f <-> x ∈ l \/ x = f;
  RemoveFinalizer_spec l f x : x ∈ RemoveFinalizer l f <-> x ∈ l /\ x <> f
}.

(** [reconcile.Result]; a duration counts nanoseconds. *)
Record Result := mkResult { Requeue : bool; RequeueAfter : Z }.

#[global] Instance Result_eq_dec : EqDecision Result.
Proof. solve_decision. Defined.

Definition zero_Result : Result := mkResult false 0.
Definition Second : Z := 1000000000.

(** [%v] of an error that may be nil. *)
Definition fmt_error (e : option error) : string :=
  match e with Some e => Error e | None => "<nil>" end.

Definition set_Finalizers (f : list string -> list string) (m : ObjectMeta) : ObjectMeta :=
  mkObjectMeta (Name m) (Namespace m) (ResourceVersion m) (DeletionTimestamp m)
    (f (Finalizers m)) (Labels m).

Definition set_Selector (f : LabelSelector -> LabelSelector) (s : AddonSpec) : AddonSpec :=
  mkAddonSpec (Spec_Package s) (Params s) (f (Selector s)) (Overrides s) (Secrets s) (Lifecycle s).

(** [ns/name] as the messages print it. *)
Definition full_name (a : Addon) : string := addon_Namespace a +:+ "/" +:+ addon_Name a.

Definition ignoreNotFound (err : option error) : option error :=
  if IsNotFound err then None else err.

(** ** Small steps *)

(** Calculates new checksum and validates if there is a diff. *)
Definition validateChecksum (instance : Addon) : bool * string :=
  let newCheckSum := CalculateChecksum instance in
  if Checksum (Status instance) == newCheckSum then (false, newCheckSum) else (true, newCheckSum).

(** [foundSecret.UnstructuredContent()["metadata"].(map...)["name"].(string)] *)
Definition secret_name (o : object) : outcome string :=
  match obj_lookup o "metadata" with
  | Some (VMap m) =>
      match obj_lookup m "name" with
      | Some (VString s) => Val s
      | _ => Panicked "interface conversion: interface {} is not string"
      end
  | _ => Panicked "interface conversion: interface {} is not map[string]interface {}"
  end.

Fixpoint secret_names (l : list object) : outcome (gset string) :=
  match l with
  | [] => Val ∅
  | o :: l' =>
      let? n := secret_name o in
      let? ns := secret_names l' in
      Val ({[n]} ∪ ns)
  end.

Definition missing_secret (addon : Addon) (name : string) : error :=
  Errorf ("addon " +:+ addon_Name addon +:+ " needs secret " +:+
    String dquote name +:+ String dquote " that was not found in namespace " +:+ Params_Namespace (Params (Spec addon))).

Fixpoint check_secrets (addon : Addon) (found : gset string) (l : list SecretCmdSpec)
    : option error :=
  match l with
  | [] => None
  | secret :: l' =>
      if bool_decide (Secret_Name secret ∈ found) then check_secrets addon found l'
      else Some (missing_secret addon (Secret_Name secret))
  end.

Definition validateSecrets (addon : Addon) : Prog (option error) :=
  r ← call (CListSecrets (Params_Namespace (Params (Spec addon))));
  match r with
  | Err err => mret (Some err)
  | Ok items =>
      found ← lift_outcome (secret_names items);
      mret (check_secrets addon found (Secrets (Spec addon)))
  end.

(** ** The reconciler *)
Section reconciler.
Context `{GoRange, Semver, Yaml, UnstructuredReader, RetryOnConflict, AddonLifecycle}.
Context `{Selectors, ControllerUtil}.

Definition getAddonRequestsFromLabels (labels : gmap string string)
    : Prog (list NamespacedName) :=
  match labels !! ResourceDefaultOwnLabel with
  | Some name =>
      if TrimSpace name != "" then
        r ← call (CHasVersionName name);
        match r with
        | (true, Some v) => mret [mkNN (V_Namespace v) (V_Name v)]
        | (true, None) => Panic "invalid memory address or nil pointer dereference"
        | (false, _) => mret []
        end
      else mret []
  | None => mret []
  end.

(** The mapping functions of the watches, on the labels of the object. *)
Definition mapDeploymentToAddonRequests (labels : gmap string string) : Prog (list NamespacedName) :=
  getAddonRequestsFromLabels labels.
Definition mapServiceToAddonRequests (labels : gmap string string) : Prog (list NamespacedName) :=
  getAddonRequestsFromLabels labels.
Definition mapDaemonSetToAddonRequests (labels : gmap string string) : Prog (list NamespacedName) :=
  getAddonRequestsFromLabels labels.
Definition mapReplicaSetToAddonRequests (labels : gmap string string) : Prog (list NamespacedName) :=
  getAddonRequestsFromLabels labels.
Definition mapStatefulSetToAddonRequests (labels : gmap string string) : Prog (list NamespacedName) :=
  getAddonRequestsFromLabels labels.
Definition mapJobToAddonRequests (labels : gmap string string) : Prog (list NamespacedName) :=
  getAddonRequestsFromLabels labels.

Fixpoint delete_workflows (ns : string) (l : list Workflow) : Prog unit :=
  match l with
  | [] => mret tt
  | workflow :: l' => call (CDeleteWorkflow ns (wf_Name workflow));; delete_workflows ns l'
  end.

Definition deleteOldWorkflows (addon : Addon) : Prog (option error) :=
  let labelSelector : gmap string string := {[ResourceDefaultOwnLabel := addon_Name addon]} in
  match selector_error (mkLabelSelector labelSelector []) with
  | Some err => mret (Some err)
  | None =>
      r ← call (CListWorkflows (addon_Namespace addon) labelSelector);
      match r with
      | Err err => mret (Some err)
      | Ok items => delete_workflows (addon_Namespace addon) items;; mret None
      end
  end.

Definition SetFinalizer (addon : Addon) (finalizerName : string)
    : Prog (Addon * option error) :=
  match DeletionTimestamp (Meta addon) with
  | Some _ => mret (addon, None)
  | None =>
      if ContainsFinalizer (Finalizers (Meta addon)) finalizerName then mret (addon, None) else
      let addon := set_Meta (set_Finalizers (fun l => AddFinalizer l finalizerName)) addon in
      r ← call (CUpdate addon);
      match r with
      | Err err => mret (addon, Some err)
      | Ok addon => mret (addon, None)
      end
  end.

(** Whether the step's status makes [runWorkflow] return at once. *)
Definition step_completed (lifecycleStep : LifecycleStep) (addon : Addon) : bool :=
  if (lifecycleStep == Prereqs) && phase_Completed (GetPrereqStatus addon) then true
  else if (lifecycleStep == Install) && phase_Completed (GetInstallStatus addon) then true
  else (lifecycleStep == Delete) &&
    ((GetInstallStatus addon == DeleteFailed) || (GetInstallStatus addon == DeleteSucceeded)).

Definition runWorkflow (t : list nat) (lifecycleStep : LifecycleStep) (addon : Addon)
    : Prog (Addon * option error) :=
  let set phase := (SetStatusByLifecyleStep lifecycleStep phase [] addon).1 in
  if step_completed lifecycleStep addon then mret (addon, None) else
  match GetWorkflowType addon lifecycleStep with
  | Err err => mret (set Failed, Some err)
  | Ok wt =>
      if Template wt == "" then mret (set Succeeded, None) else
      let wfIdentifierName := GetFormattedWorkflowName addon lifecycleStep in
      if wfIdentifierName == "" then
        mret (set Failed, Some (Errorf "could not generate workflow template name")) else
      err ← wfl_Install t addon (NewWorkflowProxy wfIdentifierName wt lifecycleStep);
      match err with
      | Some err => mret (set Failed, Some err)
      | None =>
          call (CEvent "Normal" "Submitted" ("Submitted " +:+ Title lifecycleStep +:+
            " workflow " +:+ addon_Namespace addon +:+ "/" +:+ wfIdentifierName +:+ "."));;
          r ← call (CGetWorkflow (addon_Namespace addon) wfIdentifierName);
          match r with
          | Err _ => mret (addon, None)
          | Ok wf =>
              let phase := ConvertWorkflowPhaseToAddonPhase lifecycleStep (wf_Phase wf) in
              if phase != "" then mret (set phase, None) else mret (addon, None)
          end
      end
  end.

Definition executePrereqAndInstall (t : list nat) (instance : Addon) : Prog (Addon * option error) :=
  r ← runWorkflow (0 :: t) Prereqs instance;
  match r with
  | (instance, Some err) =>
      call (CEvent "Warning" "Failed" ("Addon " +:+ full_name instance +:+ " prereqs failed. "
        +:+ Error err));;
      mret (instance, Some err)
  | (instance, None) =>
      if phase_Succeeded (GetPrereqStatus instance) then
        err ← validateSecrets instance;
        match err with
        | Some err =>
            let reason := "Addon " +:+ full_name instance +:+ " could not validate secrets. "
              +:+ Error err in
            call (CEvent "Warning" "Failed" reason);;
            mret (SetInstallStatus Failed [reason] instance, Some err)
        | None =>
            r ← runWorkflow (1 :: t) Install instance;
            match r with
            | (instance, Some err) =>
                call (CEvent "Warning" "Failed" ("Addon " +:+ full_name instance +:+
                  " could not be installed due to error. " +:+ Error err));;
                mret (instance, Some err)
            | (instance, None) => mret (instance, None)
            end
        end
      else if phase_Failed (GetPrereqStatus instance) then
        mret (SetInstallStatus Failed [] instance, None)
      else mret (instance, None)
  end.

(** One [Observe] call of [observeResources]: the resources go to the end
    of [observed], an error to the end of [errs]. *)
Definition observe (a : Addon) (what : string) (p : Prog (result (list ObjectStatus)))
    (acc : list ObjectStatus * list error) : Prog (list ObjectStatus * list error) :=
  r ← p;
  match r with
  | Ok res => mret (acc.1 ++ res, acc.2)
  | Err err =>
      mret (acc.1, acc.2 ++ [Errorw ("failed to observe resource " +:+ what +:+ " for addon "
        +:+ full_name a +:+ ": " +:+ Error err) err])
  end.

(** The selector with the two default labels added. *)
Definition default_labels (a : Addon) (m : gmap string string) : gmap string string :=
  <["app.kubernetes.io/name" := addon_Name a]>
  (<["app.kubernetes.io/managed-by" := GVR_Group AddonGVR]> m).

(** [labelSelector] is a copy of the spec's selector that shares its
    [MatchLabels] map, unless that map is empty: then a new one is made.
    So the labels added to a non-empty map show in the addon too. *)
Definition observeResources (a : Addon)
    : Prog (Addon * list ObjectStatus * option error) :=
  let sel := Selector (Spec a) in
  let labelSelector := mkLabelSelector (default_labels a (MatchLabels sel)) (MatchExpressions sel) in
  let a := if bool_decide (MatchLabels sel = ∅) then a
           else set_Spec (set_Selector (fun _ => labelSelector)) a in
  match selector_error labelSelector with
  | Some err => mret (a, [], Some (Errorf ("label selector is invalid. " +:+ Error err)))
  | None =>
      let ns := addon_Namespace a in
      acc ← observe a "service" (ObserveService ns labelSelector) ([], []);
      acc ← observe a "job" (ObserveJob ns labelSelector) acc;
      acc ← observe a "cronjob" (ObserveCronJob ns labelSelector) acc;
      acc ← observe a "StatefulSet" (ObserveStatefulSet ns labelSelector) acc;
      acc ← observe a "Deployment" (ObserveDeployment ns labelSelector) acc;
      acc ← observe a "DaemonSet" (ObserveDaemonSet ns labelSelector) acc;
      acc ← observe a "ReplicaSet" (ObserveReplicaSet ns labelSelector) acc;
      if (0 <? length acc.2)%nat then
        mret (a, acc.1, Some (Errorf ("observed err " +:+ fmt_slice Error acc.2)))
      else mret (a, acc.1, None)
  end.

(** The branch of [processAddon] for an addon that is not valid. *)
Definition validation_failed (instance : Addon) (err : option error)
    : Prog (Addon * (Result * option error)) :=
  if (err != None) && HasPrefix (fmt_error err) ErrDepPending then
    let reason := "Addon " +:+ full_name instance +:+
      " is waiting on dependencies to be out of Pending state." in
    call (CEvent "Normal" "Pending" reason);;
    mret (SetInstallStatus Pending [reason] instance, (mkResult true (10 * Second), None))
  else if (err != None) && HasPrefix (fmt_error err) ErrDepNotInstalled then
    let reason := "Addon " +:+ full_name instance +:+
      " is waiting on dependencies to be installed. " +:+ fmt_error err in
    call (CEvent "Normal" "Failed" reason);;
    mret (SetInstallStatus ValidationFailed [reason] instance, (mkResult true (30 * Second), None))
  else
    let reason := "Addon " +:+ full_name instance +:+ " is not valid. " +:+ fmt_error err in
    call (CEvent "Warning" "Failed" reason);;
    mret (SetInstallStatus ValidationFailed [reason] instance, (zero_Result, err)).

(** The end of [processAddon]: observe the deployed resources. *)
Definition observe_and_return (instance : Addon) : Prog (Addon * (Result * option error)) :=
  r ← observeResources instance;
  match r with
  | (instance, _, Some err) =>
      let reason := "Addon " +:+ full_name instance +:+ " failed to find deployed resources. "
        +:+ Error err in
      call (CEvent "Warning" "Failed" reason);;
      mret (SetInstallStatus Failed [reason] instance, (zero_Result, Some err))
  | (instance, observed, None) =>
      let instance := if (0 <? length observed)%nat
                      then set_Status (set_Resources observed) instance else instance in
      if phase_Running (GetInstallStatus instance)
      then mret (instance, (mkResult false (30 * Second), None))
      else mret (instance, (zero_Result, None))
  end.

Definition processAddon (t : list nat) (instance : Addon)
    : Prog (Addon * (Result * option error)) :=
  let '(changedStatus, checksum) := validateChecksum instance in
  let instance := set_Status (set_Checksum checksum) instance in
  let instance := set_Status (set_Resources []) instance in
  if changedStatus then
    err ← deleteOldWorkflows instance;
    match err with
    | Some err => mret (instance, (zero_Result, Some err))
    | None =>
        now ← call CNow;
        let instance := set_Status (set_StartTime now) instance in
        let instance := ClearStatus instance in
        let instance := (SetPrereqAndInstallStatuses Pending [] instance).1 in
        mret (instance, (mkResult true 0, None))
    end
  else if phase_Completed (GetInstallStatus instance) then mret (instance, (zero_Result, None))
  else
    versionCache ← call CReadCache;
    v ← lift_outcome (Validate_addon (0 :: t) (NewAddonValidator instance versionCache));
    match v with
    | (false, err) => validation_failed instance err
    | (true, _) =>
        call (CEvent "Normal" "Completed" ("Addon " +:+ full_name instance +:+ " is valid."));;
        r ← SetFinalizer instance FinalizerName;
        match r with
        | (instance, Some err) =>
            call (CEvent "Warning" "Failed" ("Addon " +:+ full_name instance +:+
              " could not add finalizer. " +:+ Error err));;
            mret (instance, (mkResult true 0, Some err))
        | (instance, None) =>
            if phase_Completed (GetInstallStatus instance) then observe_and_return instance
            else
              now ← call CNow;
              if IsExpired now (StartTime (Status instance)) TTL_Milliseconds then
                let reason := "Addon " +:+ full_name instance +:+
                  " ttl expired, starttime exceeded " +:+ TTL_String in
                call (CEvent "Warning" "Failed" reason);;
                mret (SetInstallStatus Failed [reason] instance,
                  (zero_Result, Some (Errorf ("ttl expired for addon " +:+ full_name instance
                    +:+ ": " +:+ reason))))
              else
                r ← executePrereqAndInstall (1 :: t) instance;
                match r with
                | (instance, Some err) => mret (instance, (zero_Result, Some err))
                | (instance, None) => observe_and_return instance
                end
        end
    end.

Definition Finalize (t : list nat) (addon : Addon) (finalizerName : string)
    : Prog (Addon * option error) :=
  r ← (if Template (LC_Delete (Lifecycle (Spec addon))) != "" then
         r ← runWorkflow t Delete addon;
         match r with
         | (addon, Some err) => mret (addon, false, Some err)
         | (addon, None) => mret (addon, phase_Succeeded (GetInstallStatus addon), None)
         end
       else mret (addon, true, None));
  match r with
  | (addon, _, Some err) => mret (addon, Some err)
  | (addon, removeFinalizer, None) =>
      call (CRemoveVersion (PkgName (Spec_Package (Spec addon)))
        (PkgVersion (Spec_Package (Spec addon))));;
      if (removeFinalizer : bool) then
        let addon := set_Meta (set_Finalizers (fun l => RemoveFinalizer l finalizerName)) addon in
        r ← call (CUpdate addon);
        match r with
        | Err err =>
            let reason := "Addon " +:+ full_name addon +:+ " could not be deleted, " +:+
              Error err in
            mret (SetInstallStatus DeleteFailed [reason] addon, Some err)
        | Ok addon => mret (addon, None)
        end
      else mret (addon, None)
  end.

Definition execAddon (t : list nat) (instance : Addon) : Prog (Result * option error) :=
  recover (zero_Result, None)
    (match DeletionTimestamp (Meta instance) with
     | Some _ =>
         if negb (phase_Deleting (GetInstallStatus instance)) then
           err ← UpdateStatus (SetInstallStatus Deleting [] instance);
           mret (zero_Result, err)
         else
           r ← Finalize t instance FinalizerName;
           match r with
           | (instance, Some err) =>
               call (CEvent "Warning" "Failed" ("Addon " +:+ full_name instance +:+
                 " could not be finalized. " +:+ Error err));;
               mret (zero_Result, Some err)
           | (_, None) => mret (zero_Result, None)
           end
     | None =>
         r ← processAddon t instance;
         let '(instance, (ret, procErr)) := r in
         err ← UpdateStatus instance;
         match err with
         | Some err => mret (mkResult false Second, Some err)
         | None => mret (ret, procErr)
         end
     end).

Definition Reconcile (t : list nat) (req : NamespacedName) : Prog (Result * option error) :=
  r ← call (CGetAddon req);
  match r with
  | Err err =>
      RemoveFromCache (NN_Name req);;
      mret (zero_Result, ignoreNotFound (Some err))
  | Ok instance => execAddon t instance
  end.
End reconciler.

(** ** Status writes

    The controller writes statuses only through [UpdateStatus]. *)
Section guarded_controller.
Context `{GoRange, Semver, Yaml, UnstructuredReader, RetryOnConflict}.
Context `{AddonLifecycleLaws, Selectors, ControllerUtil}.

Lemma wfl_Install_quiet t a wp : quiet (wfl_Install t a wp).
Proof.
  eapply calls_all_mono; [|apply wfl_Install_calls]. by intros [].
Qed.

Lemma delete_workflows_quiet ns l : quiet (delete_workflows ns l).
Proof.
  induction l as [|w l IH]; cbn [delete_workflows];
    solve_quiet.
Qed.

Lemma observe_quiet a what p acc :
  quiet p -> quiet (observe a what p acc).
Proof. intros Hp. unfold observe. solve_quiet. Qed.

#[local] Hint Resolve wfl_Install_quiet delete_workflows_quiet : addon.

Lemma runWorkflow_quiet t step a : quiet (runWorkflow t step a).
Proof. unfold runWorkflow. solve_quiet. Qed.

#[local] Hint Resolve runWorkflow_quiet : addon.

Ltac unfold_observers :=
  unfold ObserveService, ObserveJob, ObserveCronJob, ObserveStatefulSet, ObserveDeployment,
    ObserveDaemonSet, ObserveReplicaSet, cli_List.

Lemma observeResources_quiet a : quiet (observeResources a).
Proof.
  unfold observeResources. cbv zeta. case_match; [by auto with addon|].
  repeat (apply quiet_bind; [apply observe_quiet; unfold_observers; solve_quiet
                              |intros ?]).
  solve_quiet.
Qed.

#[local] Hint Resolve observeResources_quiet : addon.

Lemma processAddon_quiet t a : quiet (processAddon t a).
Proof.
  unfold processAddon, deleteOldWorkflows, SetFinalizer, validation_failed,
    executePrereqAndInstall, validateSecrets, observe_and_return. solve_quiet.
Qed.

Lemma Finalize_quiet t a f : quiet (Finalize t a f).
Proof. unfold Finalize. solve_quiet. Qed.

#[local] Hint Resolve processAddon_quiet Finalize_quiet : addon.

Lemma execAddon_guarded last t a : guarded last (execAddon t a).
Proof. unfold execAddon. solve_guarded. Qed.

#[local] Hint Resolve execAddon_guarded : addon.

Lemma Reconcile_guarded last t req : guarded last (Reconcile t req).
Proof. unfold Reconcile. solve_guarded. Qed.
End guarded_controller.

#[export] Hint Resolve Reconcile_guarded : addon.

(** ** Properties *)

(** An event on a deployed resource is mapped to reconcile requests of
    exactly the addon its label names: every request is for a cached addon of
    that name, and when the cache knows the addon there is one; the cache
    stays as it is. *)
Lemma label_requests_spec `{GoRange} (i : nat) (c : Cached.cached) (labels : gmap string string) :
  let r := run (cache_handler no_services) (i, c) (getAddonRequestsFromLabels labels) in
  exists reqs, r.2 = Val reqs /\ r.1.2 = c /\
    (forall q, q ∈ reqs -> exists k v, Cached.abs c !! k = Some v /\
      labels !! ResourceDefaultOwnLabel = Some (V_Name v) /\ q = mkNN (V_Namespace v) (V_Name v)) /\
    (forall k v, Cached.abs c !! k = Some v -> labels !! ResourceDefaultOwnLabel = Some (V_Name v) ->
      TrimSpace (V_Name v) <> "" -> exists q, q ∈ reqs /\ NN_Name q = V_Name v).
Proof.
  unfold getAddonRequestsFromLabels. cbv zeta.
  destruct (labels !! ResourceDefaultOwnLabel) as [n|] eqn:Hl.
  2: { exists []. split_and!; [done..|set_solver|naive_solver]. }
  case_bool_decide as Hn; cbn [negb].
  { exists []. split_and!; [done..|set_solver|naive_solver]. }
  cbn -[Cached.HasVersionName].
  destruct (Cached.HasVersionName [i] c n) as [[|] ov] eqn:Hv.
  - apply Cached.HasVersionName_Some in Hv as (x & p & w & -> & Hx & <-). cbn.
    eexists. split_and!; [done..| |].
    + intros q ->%list_elem_of_singleton. by exists (p, w), x.
    + intros k v Hk Hname _. eexists. split; [by apply list_elem_of_singleton|]. cbn. congruence.
  - apply Cached.HasVersionName_None in Hv as [-> Hv]. exists []. split_and!; [done..|set_solver|].
    intros [p w] v Hk Hname _. exfalso. apply (Hv _ _ _ Hk). congruence.
Qed.
