(* ===== verification/WorkflowController.v ===== *)
(** The workflow controller, [controllers/workflow_controller.go]: it copies
    the phase of a finished or running workflow to the addon that owns it. *)
From S2P Require Import Prelude GoStrings GoFmt AddonTypes Common VersionCache Unstructured.
From S2P Require Import Effects Updater Controller.

(** [len(string(wfobj.Status.Phase)) == 0] *)
Definition phase_empty (p : WorkflowPhase) : bool :=
  match p with
  | WorkflowUnknown => true
  | WorkflowOther s => s == ""
  | _ => false
  end.

Definition no_owner (wfobj : Workflow) : error :=
  Errorf ("workflow " +:+ wf_Namespace wfobj +:+ "/" +:+ wf_Name wfobj +:+ " has no owner").

Section wf_reconciler.
Context `{RetryOnConflict}.
(** [%#v] of an error. *)
Context (go_syntax : error -> string).

Definition WorkflowReconcile (req : NamespacedName) : Prog (Result * option error) :=
  recover (zero_Result, None)
    (r ← call (CClientGetWorkflow req);
     match r with
     | Err err =>
         if IsNotFound (Some err) then mret (zero_Result, None)
         else mret (zero_Result, Some (Errorf ("failed to get workflow " +:+
           NN_Namespace req +:+ "/" +:+ NN_Name req +:+ ": " +:+ go_syntax err)))
     | Ok wfobj =>
         if bool_decide (is_Some (wf_DeletionTimestamp wfobj)) then mret (zero_Result, None)
         else if phase_empty (wf_Phase wfobj) then mret (zero_Result, None)
         else
           match wf_Controller wfobj with
           | None => mret (zero_Result, Some (no_owner wfobj))
           | Some (kind, name) =>
               if kind != "Addon" then mret (zero_Result, None) else
               err ← UpdateAddonStatusLifecycleFromWorkflow (wf_Namespace wfobj) name wfobj;
               match err with
               | Some err => mret (zero_Result, Some err)
               | None => mret (zero_Result, None)
               end
           end
     end).

Lemma WorkflowReconcile_guarded last req : guarded last (WorkflowReconcile req).
Proof. unfold WorkflowReconcile. solve_guarded. Qed.
End wf_reconciler.

#[export] Hint Resolve WorkflowReconcile_guarded : addon.
