(* ===== verification/Manager.v ===== *)
(** How the program is put together: [main.go],
    [controllers/controller_manager_setup.go], the constructors of the two
    controllers, the scheme ([pkg/common/scheme.go],
    [api/addon/v1alpha1/register.go]), and the utilities of
    [pkg/common/k8sutil.go] and [pkg/version].

    Setting up is a straight line of calls to controller-runtime and
    client-go, each of which may fail.  Objects made on the way are shared by
    reference: an object is known by the position of the call that made it. *)
From S2P Require Import Prelude GoStrings GoFmt AddonTypes Common VersionCache GoHeap Unstructured.
From S2P Require Import Validator Effects Updater Workflow Objects Controller WorkflowController.

Definition AddonResyncPeriod : Z := 20 * 60 * Second.
Definition CacheSyncTimeout : Z := 5 * 60 * Second.
Definition controllerName : string := "addon-manager-controller".
Definition wfcontroller : string := "addon-manager-wf-controller".

(** ** Calls *)

(** The kinds a controller watches. *)
Inductive WatchKind :=
  | KAddon | KDeployment | KService | KDaemonSet | KReplicaSet | KStatefulSet | KJob | KWorkflow.

#[global] Instance WatchKind_eq_dec : EqDecision WatchKind.
Proof. solve_decision. Defined.

(** What controller-runtime does with an event: enqueue the object itself,
    or what a function makes of its labels. *)
Inductive EventHandler :=
  | EnqueueRequestForObject
  | EnqueueRequestsFromMapFunc (f : gmap string string -> Prog (list NamespacedName)).

(** [AddonReconciler], [WorkflowReconciler] and [AddonUpdater]: the shared
    objects they hold.  The manager's client, scheme and recorder are the
    manager's. *)
Record AddonUpdater := mkUpdater { u_versionCache : loc }.

Record AddonReconciler := mkReconciler {
  r_dynClient : loc;
  r_wfcli : loc;
  r_wfinformer : loc;
  r_versionCache : loc;
  r_addonUpdater : loc
}.

Record WorkflowReconciler := mkWfReconciler { w_dynClient : loc; w_addonUpdater : loc }.

(** What the runnable does with an informer factory, in order. *)
Inductive RunStep := RunStart (factory : loc) | RunWaitForCacheSync (factory : loc).

Record ManagerOptions := mkManagerOptions {
  MetricsBindAddress : string;
  LeaderElection : bool;
  LeaderElectionID : string;
  DefaultNamespaces : list string
}.

Inductive SetupCall :=
  | SGetConfigOrDie
  | SNewManager (o : ManagerOptions)
  | SNewVersionCache
  | SNewDynamicClientOrDie
  | SNewInformerFactory (dyn : loc) (resync : Z) (ns : string)
  | SInformer (factory : loc) (gvr : GroupVersionResource)
  | SNewUpdater (u : AddonUpdater)
  | SMgrAdd (run : list RunStep)
  | SNewWFClient
  | SNewController (name : string) (r : AddonReconciler) (cacheSyncTimeout : Z)
  | SWatch (c : loc) (k : WatchKind) (h : EventHandler)
  | SManagedController (k : WatchKind) (r : WorkflowReconciler) (cacheSyncTimeout : Z)
  | SMgrStart.

(** A piece of setup code: from the calls made so far to those made after
    it, and a value, an error, or a panic. *)
Definition Setup (A : Type) : Type := list SetupCall -> list SetupCall * outcome (result A).

#[global] Instance Setup_ret : MRet Setup := fun A a h => (h, Val (Ok a)).

(** [if err != nil { return err }] after each step. *)
#[global] Instance Setup_bind : MBind Setup := fun A B k m h =>
  match m h with
  | (h, Val (Ok a)) => k a h
  | (h, Val (Err e)) => (h, Val (Err e))
  | (h, Panicked msg) => (h, Panicked msg)
  end.

Section setup.
Context `{GoRange, Semver, Yaml, UnstructuredReader, RetryOnConflict, AddonLifecycle}.
Context `{Selectors, ControllerUtil}.

(** Whether the last of these calls fails, and how. *)
Context (fails : list SetupCall -> option error).

(** A call; the object it makes, if any, is known by its position. *)
Definition setup_call (c : SetupCall) : Setup loc := fun h =>
  (h ++ [c], match fails (h ++ [c]) with
             | Some e => Val (Err e)
             | None => Val (Ok (length h))
             end).

(** A constructor that cannot fail. *)
Definition setup_new (c : SetupCall) : Setup loc := fun h => (h ++ [c], Val (Ok (length h))).

(** A call that panics instead of giving an error, with this message. *)
Definition or_panic {A : Type} (message : error -> string) (m : Setup A) : Setup A := fun h =>
  match m h with
  | (h, Val (Err e)) => (h, Panicked (message e))
  | r => r
  end.

(** [fmt.Errorf("...: %w", err)] *)
Definition wrapped {A : Type} (message : string) (m : Setup A) : Setup A := fun h =>
  match m h with
  | (h, Val (Err e)) => (h, Val (Err (Errorw (message +:+ ": " +:+ Error e) e)))
  | r => r
  end.

(** ** The addon controller, [addon_controller.go] *)

(** [common.NewWFClient] gives nil for an error. *)
Definition NewWFClient : Setup (option loc) := fun h =>
  match setup_call SNewWFClient h with
  | (h, Val (Ok cli)) => (h, Val (Ok (Some cli)))
  | (h, Val (Err _)) => (h, Val (Ok None))
  | (h, Panicked msg) => (h, Panicked msg)
  end.

Definition setup_panic {A : Type} (msg : string) : Setup A := fun h => (h, Panicked msg).

Definition NewAddonReconciler (dynClient wfInf versionCache addonUpdater : loc)
    : Setup AddonReconciler :=
  wfcli ← NewWFClient;
  match wfcli with
  | None => setup_panic "workflow client could not be nil"
  | Some wfcli => mret (mkReconciler dynClient wfcli wfInf versionCache addonUpdater)
  end.

Definition NewAddonController (dynClient wfInf versionCache addonUpdater : loc) : Setup loc :=
  r ← NewAddonReconciler dynClient wfInf versionCache addonUpdater;
  c ← setup_call (SNewController controllerName r CacheSyncTimeout);
  setup_call (SWatch c KAddon EnqueueRequestForObject);;
  setup_call (SWatch c KDeployment (EnqueueRequestsFromMapFunc mapDeploymentToAddonRequests));;
  setup_call (SWatch c KService (EnqueueRequestsFromMapFunc mapServiceToAddonRequests));;
  setup_call (SWatch c KDaemonSet (EnqueueRequestsFromMapFunc mapDaemonSetToAddonRequests));;
  setup_call (SWatch c KReplicaSet (EnqueueRequestsFromMapFunc mapReplicaSetToAddonRequests));;
  setup_call (SWatch c KStatefulSet (EnqueueRequestsFromMapFunc mapStatefulSetToAddonRequests));;
  setup_call (SWatch c KJob (EnqueueRequestsFromMapFunc mapJobToAddonRequests));;
  mret c.

(** ** The workflow controller, [workflow_controller.go] *)
Definition NewWFController (dynClient addonUpdater : loc) : Setup () :=
  let r := mkWfReconciler dynClient addonUpdater in
  setup_call (SManagedController KWorkflow r CacheSyncTimeout);;
  mret ().

(** [addon.NewAddonUpdater], [pkg/addon/addon_update.go]. *)
Definition NewAddonUpdater (versionCache : loc) : Setup loc :=
  setup_new (SNewUpdater (mkUpdater versionCache)).

(** [common.NewWorkflowInformer], [pkg/common/k8sutil.go]. *)
Definition NewWorkflowInformer (dclient : loc) (ns : string) (resyncPeriod : Z) : Setup loc :=
  nsInformers ← setup_new (SNewInformerFactory dclient resyncPeriod ns);
  setup_new (SInformer nsInformers WorkflowGVR).

(** ** [controller_manager_setup.go] *)
Definition controllers_New : Setup () :=
  versionCache ← setup_new SNewVersionCache;
  dynClient ← or_panic Error (setup_call SNewDynamicClientOrDie);
  nsInformers ← setup_new (SNewInformerFactory dynClient AddonResyncPeriod ManagedNameSpace);
  wfInf ← setup_new (SInformer nsInformers WorkflowGVR);
  addonUpdater ← NewAddonUpdater versionCache;
  wrapped "failed to run informer sync"
    (setup_call (SMgrAdd [RunStart nsInformers; RunWaitForCacheSync nsInformers]));;
  wrapped "failed to create addon controller"
    (NewAddonController dynClient wfInf versionCache addonUpdater);;
  wrapped "failed to create addon wf controller" (NewWFController dynClient addonUpdater).

(** ** [main.go] *)

(** The flags, and their defaults. *)
Record flags := mkFlags { metricsAddr : string; enableLeaderElection : bool; debug : bool }.
Definition default_flags : flags := mkFlags ":8080" false false.

(** How the process ends: with a status, or with a panic. *)
Inductive process_end := Exit (status : Z) | Crash (msg : string).

Definition manager_options (f : flags) : ManagerOptions :=
  mkManagerOptions (metricsAddr f) (enableLeaderElection f) "addonmgr.keikoproj.io" [ManagedNameSpace].

(** Each step ends the process with status 1 when it fails. *)
Definition main (f : flags) (h : list SetupCall) : list SetupCall * process_end :=
  let steps : Setup () :=
    setup_call SGetConfigOrDie;;
    setup_call (SNewManager (manager_options f));;
    controllers_New;;
    setup_call SMgrStart;;
    mret () in
  match steps h with
  | (h, Val (Ok _)) => (h, Exit 0)
  | (h, Val (Err _)) => (h, Exit 1)
  | (h, Panicked msg) => (h, Crash msg)
  end.
End setup.

(** ** Events

    The requests that the watches of a setup make of an event on an object:
    its kind, its key and its labels.  A managed controller ([For]) enqueues
    the object itself. *)
Definition watch_requests (k : WatchKind) (key : NamespacedName) (labels : gmap string string)
    (c : SetupCall) : list (Prog (list NamespacedName)) :=
  match c with
  | SWatch _ k' EnqueueRequestForObject => if k' == k then [mret [key]] else []
  | SWatch _ k' (EnqueueRequestsFromMapFunc f) => if k' == k then [f labels] else []
  | SManagedController k' _ _ => if k' == k then [mret [key]] else []
  | _ => []
  end.

Definition event_requests (h : list SetupCall) (k : WatchKind) (key : NamespacedName)
    (labels : gmap string string) : list (Prog (list NamespacedName)) :=
  List.flat_map (watch_requests k key labels) h.
