(* ===== verification/Samples.v ===== *)
(** A concrete environment for the controllers: an API server that holds one
    addon and its workflows.  The witnesses of the controller theorems run
    the controllers in it. *)
From S2P Require Import Prelude GoStrings GoFmt AddonTypes Common VersionCache Unstructured.
From S2P Require Import TreeObject Validator Effects Updater Workflow Objects Controller.
From S2P Require Import WorkflowController.

Definition sample_selectors : Selectors := {| selector_error := fun _ => None |}.

Program Definition sample_util : ControllerUtil := {|
  ContainsFinalizer := ContainsString;
  AddFinalizer := fun l f => if ContainsString l f then l else l ++ [f];
  RemoveFinalizer := RemoveString |}.
Next Obligation. apply ContainsString_spec. Qed.
Next Obligation.
  intros l f x. cbn beta. destruct (ContainsString l f) eqn:Hc.
  - apply ContainsString_spec in Hc. split; [intros; by left | by intros [?| ->]].
  - rewrite elem_of_app, list_elem_of_singleton. done.
Qed.
Next Obligation.
  intros l f x. cbn beta. rewrite RemoveString_filter, list_elem_of_filter. by rewrite (comm and).
Qed.

(** [w_phase] is the phase every workflow is in. *)
Record world := mkWorld {
  w_addon : option Addon;
  w_ticks : nat;
  w_cache : Cached.cached;
  w_wfs : list string;
  w_now : Z;
  w_phase : WorkflowPhase
}.

Definition not_found : error := mkError "not found" ReasonNotFound.

Section world_handler.
Definition w_set_addon (a : option Addon) (w : world) : world :=
  mkWorld a (w_ticks w) (w_cache w) (w_wfs w) (w_now w) (w_phase w).
Definition w_set_cache (c : Cached.cached) (w : world) : world :=
  mkWorld (w_addon w) (S (w_ticks w)) c (w_wfs w) (w_now w) (w_phase w).
Definition w_set_wfs (l : list string) (w : world) : world :=
  mkWorld (w_addon w) (w_ticks w) (w_cache w) l (w_now w) (w_phase w).

Definition w_workflow (w : world) (n : string) : Workflow :=
  mkWorkflow n "addon-manager-system" None
    ((fun a => ("Addon", addon_Name a)) <$> w_addon w) (w_phase w) "".

(** A stored object that is being deleted goes away with its last
    finalizer; the status is not changed by an update. *)
Definition w_update (o a : Addon) (w : world) : world :=
  if bool_decide (is_Some (DeletionTimestamp (Meta o))) && bool_decide (Finalizers (Meta o) = [])
  then w_set_addon None w
  else w_set_addon (Some (mkAddon (Meta o) (Spec o) (Status a))) w.

Definition world_handler (w : world) (c : Call) : world * Resp c :=
  match c as c return world * Resp c with
  | CGetAddon nn =>
      match w_addon w with
      | Some a => if addon_key a == nn then (w, Ok a) else (w, Err not_found)
      | None => (w, Err not_found)
      end
  | CStatusUpdate o =>
      match w_addon w with
      | Some a => (w_set_addon (Some (mkAddon (Meta a) (Spec a) (Status o))) w, None)
      | None => (w, Some not_found)
      end
  | CUpdate o =>
      match w_addon w with
      | Some a => (w_update o a w, Ok (mkAddon (Meta o) (Spec o) (Status a)))
      | None => (w, Err not_found)
      end
  | CClientGetWorkflow nn =>
      if bool_decide (NN_Name nn ∈ w_wfs w) then (w, Ok (w_workflow w (NN_Name nn)))
      else (w, Err not_found)
  | CGetWorkflow _ n =>
      if bool_decide (n ∈ w_wfs w) then (w, Ok (w_workflow w n)) else (w, Err not_found)
  | CListWorkflows _ _ => (w, Ok (w_workflow w <$> w_wfs w))
  | CDeleteWorkflow _ n => (w_set_wfs (RemoveString (w_wfs w) n) w, None)
  | CCreateWorkflow _ _ wf => (w_set_wfs (un_GetName wf :: w_wfs w) w, None)
  | CDynDeleteWorkflow _ n => (w_set_wfs (RemoveString (w_wfs w) n) w, None)
  | CListSecrets _ => (w, Ok [])
  | CList _ _ _ => (w, Ok [])
  | CEvent _ _ _ => (w, tt)
  | CNow => (w, w_now w)
  | CReadCache => (w, w_cache w)
  | CAddVersion v => (w_set_cache (Cached.AddVersion v (w_cache w)) w, tt)
  | CRemoveVersion p x => (w_set_cache (Cached.RemoveVersion p x (w_cache w)) w, tt)
  | CHasVersionName n =>
      (w_set_cache (w_cache w) w, @Cached.HasVersionName range_fwd [w_ticks w] (w_cache w) n)
  | CLockStatus _ | CUnlockStatus _ | CDropStatusMutex _ => (w, tt)
  end.
End world_handler.

(** The controllers with the concrete parameters. *)
Definition sample_lifecycle : AddonLifecycle :=
  @workflowLifecycle range_fwd install_yaml sample_json tree_object sample_argo.

Definition sample_lifecycle_laws : @AddonLifecycleLaws tree_object sample_lifecycle :=
  @workflowLifecycle_laws range_fwd install_yaml sample_json tree_object tree_object_laws sample_argo.

Definition sample_Reconcile (t : list nat) (req : NamespacedName) : Prog (Result * option error) :=
  @Reconcile range_fwd star_semver sample_yaml sample_reader default_retry sample_lifecycle
    sample_selectors sample_util t req.

Definition fresh_addon : Addon := sample_dependent ∅.

Definition fresh_world (ph : WorkflowPhase) : world :=
  mkWorld (Some fresh_addon) 0 Cached.NewAddonVersionCacheClient [] 1000 ph.

(** [n] reconciles of the addon. *)
Fixpoint reconciles (n : nat) (w : world) : world :=
  match n with
  | O => w
  | S n' => reconciles n' (run world_handler w (sample_Reconcile [n] (addon_key fresh_addon))).1
  end.

Definition world_phases (w : world) : option (string * string) :=
  (fun a => (GetPrereqStatus a, GetInstallStatus a)) <$> w_addon w.

Example install_succeeds :
  world_phases (reconciles 1 (fresh_world WorkflowSucceeded)) = Some (Pending, Pending) /\
  world_phases (reconciles 2 (fresh_world WorkflowSucceeded)) = Some (Succeeded, Succeeded) /\
  world_phases (reconciles 2 (fresh_world WorkflowFailed)) = Some (Succeeded, Failed) /\
  world_phases (reconciles 2 (fresh_world WorkflowRunning)) = Some (Succeeded, Pending).
Proof. vm_compute. done. Qed.

(** The execution of one reconcile, cut at its [i]-th call. *)
Definition sample_trace (w : world) (t : list nat) : list event :=
  (trace world_handler w (sample_Reconcile t (addon_key fresh_addon))).1.

Definition sample_outcome (w : world) (t : list nat) : outcome (Result * option error) :=
  (trace world_handler w (sample_Reconcile t (addon_key fresh_addon))).2.

Lemma sample_run w t :
  exec (sample_Reconcile t (addon_key fresh_addon)) (sample_trace w t) (sample_outcome w t).
Proof. apply exec_trace. Qed.

Lemma sample_exec w t i ev :
  sample_trace w t !! i = Some ev ->
  exec (sample_Reconcile t (addon_key fresh_addon))
    (take i (sample_trace w t) ++ ev :: drop (S i) (sample_trace w t)) (sample_outcome w t).
Proof. intros Hi. rewrite take_drop_middle by done. apply sample_run. Qed.

(** The installing world, and one with a workflow of an older spec. *)
Definition installing_world : world := reconciles 1 (fresh_world WorkflowSucceeded).
Definition stale_world : world := w_set_wfs ["c-install-0-wf"] (fresh_world WorkflowSucceeded).

(** The object and the addon that the reconcile of [installing_world] sends. *)
Definition created_workflow : object :=
  match sample_trace installing_world [] !! 6 with
  | Some (existT (CCreateWorkflow _ _ wf) _) => wf | _ => []
  end.

Definition updated_addon : Addon :=
  match sample_trace installing_world [] !! 3 with
  | Some (existT (CUpdate a) _) => a | _ => fresh_addon
  end.
