(* ===== verification/Protocol.v ===== *)
(** What the addon controller is allowed to do during a reconcile, and that
    it keeps to it: the order of validation, finalizer, prerequisites,
    secrets and installation, and the conditions of deletion. *)
From S2P Require Import Prelude GoStrings GoFmt AddonTypes Common VersionCache Unstructured.
From S2P Require Import TreeObject Validator Effects Updater Workflow Objects Controller.
From S2P Require Import WorkflowController Samples.

(** ** What a reconcile has learnt so far *)

(** The answer to a list of workflows, and what was asked for. *)
Record listing := mkListing {
  l_namespace : string;
  l_labels : gmap string string;
  l_items : list Workflow
}.

Record knowledge := mkKnowledge {
  k_read : option Addon;               (* the addon [Reconcile] read *)
  k_inst : option Addon;               (* the addon as last received from the API *)
  k_finalizer : bool;                  (* the finalizer is known to be set *)
  k_cache : option Cached.cached;      (* the version cache validation used *)
  k_now : option Z;                    (* the clock *)
  k_secrets : option (string * list object); (* the listed secrets, with the namespace *)
  k_listed : option listing;           (* the workflows last listed *)
  k_wf : option (NamespacedName * Workflow)  (* the workflow last fetched, by its key *)
}.

Definition k_init : knowledge := mkKnowledge None None false None None None None None.

Definition has_finalizer (a : Addon) : bool := bool_decide (FinalizerName ∈ Finalizers (Meta a)).

Section setters.
Context (k : knowledge).

Definition k_set_read (a : Addon) : knowledge :=
  mkKnowledge (Some a) (Some a) (has_finalizer a) (k_cache k) (k_now k) (k_secrets k)
    (k_listed k) (k_wf k).

(** After an update with [o] that the API answered with [a]. *)
Definition k_set_updated (o a : Addon) : knowledge :=
  mkKnowledge (k_read k) (Some a) (has_finalizer o) (k_cache k) (k_now k) (k_secrets k)
    (k_listed k) (k_wf k).

Definition k_set_cache (c : Cached.cached) : knowledge :=
  mkKnowledge (k_read k) (k_inst k) (k_finalizer k) (Some c) (k_now k) (k_secrets k)
    (k_listed k) (k_wf k).

Definition k_set_now (now : Z) : knowledge :=
  mkKnowledge (k_read k) (k_inst k) (k_finalizer k) (k_cache k) (Some now) (k_secrets k)
    (k_listed k) (k_wf k).

Definition k_set_secrets (l : string * list object) : knowledge :=
  mkKnowledge (k_read k) (k_inst k) (k_finalizer k) (k_cache k) (k_now k) (Some l)
    (k_listed k) (k_wf k).

Definition k_set_listed (ns : string) (labels : gmap string string) (l : list Workflow)
    : knowledge :=
  mkKnowledge (k_read k) (k_inst k) (k_finalizer k) (k_cache k) (k_now k) (k_secrets k)
    (Some (mkListing ns labels l)) (k_wf k).

Definition k_set_wf (w : NamespacedName * Workflow) : knowledge :=
  mkKnowledge (k_read k) (k_inst k) (k_finalizer k) (k_cache k) (k_now k) (k_secrets k)
    (k_listed k) (Some w).
End setters.

Definition ok_or {A B : Type} (r : result A) (f : A -> B) (d : B) : B :=
  match r with Ok a => f a | Err _ => d end.

Definition learn (k : knowledge) (c : Call) : Resp c -> knowledge :=
  match c as c return Resp c -> knowledge with
  | CGetAddon _ => fun r =>
      match k_read k with None => ok_or r (k_set_read k) k | Some _ => k end
  | CUpdate o => fun r => ok_or r (k_set_updated k o) k
  | CReadCache => k_set_cache k
  | CNow => k_set_now k
  | CListSecrets ns => fun r => ok_or r (fun l => k_set_secrets k (ns, l)) k
  | CListWorkflows ns labels => fun r => ok_or r (k_set_listed k ns labels) k
  | CGetWorkflow ns n => fun r => ok_or r (fun w => k_set_wf k (mkNN ns n, w)) k
  | _ => fun _ => k
  end.

(** ** The conditions *)
Section conditions.
Context `{GoRange, Semver, Yaml, UnstructuredReader, UnstructuredObject}.
Context (t : list nat).

(** The addon that validation sees: read, with an up-to-date checksum and
    no resources. *)
Definition processed (a : Addon) : Addon :=
  set_Status (set_Resources []) (set_Status (set_Checksum (CalculateChecksum a)) a).

Definition validated (k : knowledge) (a : Addon) : Prop :=
  exists c e, k_cache k = Some c /\
    Validate_addon (0 :: t) (NewAddonValidator (processed a) c) = Val (true, e).

(** Workflows that install may run: the spec is the one recorded, nothing
    is completed, the addon is valid, has its finalizer and has time left. *)
Definition install_ready (k : knowledge) (read a : Addon) : Prop :=
  DeletionTimestamp (Meta read) = None /\
  Checksum (Status read) = CalculateChecksum read /\
  phase_Completed (GetInstallStatus read) = false /\
  phase_Completed (GetInstallStatus a) = false /\
  validated k read /\ k_finalizer k = true /\
  exists now, k_now k = Some now /\
    IsExpired now (StartTime (Status a)) TTL_Milliseconds = false.

(** The addon's workflow of the step. *)
Definition workflow_key (a : Addon) (step : LifecycleStep) : NamespacedName :=
  mkNN (addon_Namespace a) (GetFormattedWorkflowName a step).

(** It was fetched and has succeeded. *)
Definition step_succeeded (k : knowledge) (a : Addon) (step : LifecycleStep) : Prop :=
  exists wf, k_wf k = Some (workflow_key a step, wf) /\
    wf_Phase wf = WorkflowSucceeded.

Definition prereqs_done (k : knowledge) (a : Addon) : Prop :=
  phase_Succeeded (GetPrereqStatus a) = true \/
  Template (LC_Prereqs (Lifecycle (Spec a))) = "" \/
  step_succeeded k a Prereqs.

Definition secrets_found (k : knowledge) (a : Addon) : Prop :=
  exists items names, k_secrets k = Some (Params_Namespace (Params (Spec a)), items) /\ secret_names items = Val names /\
    Forall (fun s => Secret_Name s ∈ names) (Secrets (Spec a)).

Definition delete_done (k : knowledge) (a : Addon) : Prop :=
  Template (LC_Delete (Lifecycle (Spec a))) = "" \/
  GetInstallStatus a = DeleteSucceeded \/
  step_succeeded k a Delete.

Definition being_deleted (a : Addon) : Prop :=
  is_Some (DeletionTimestamp (Meta a)) /\ phase_Deleting (GetInstallStatus a) = true.

Definition may_run (k : knowledge) (read a : Addon) (step : LifecycleStep) : Prop :=
  (step = Delete /\ being_deleted read) \/
  (install_ready k read a /\
    ((step = Prereqs /\ phase_Completed (GetPrereqStatus a) = false) \/
     (step = Install /\ prereqs_done k a /\ secrets_found k a))).

(** The workflow is one of those listed for the addon: in its namespace, by
    the label that names the addon. *)
Definition listed_for (k : knowledge) (a : Addon) (n : string) : Prop :=
  exists items, n ∈ wf_Name <$> items /\
    k_listed k = Some (mkListing (addon_Namespace a) {["app.kubernetes.io/name" := addon_Name a]}
      items).

Definition allowed (k : knowledge) (c : Call) : Prop :=
  match c with
  | CCreateWorkflow ns owner wf =>
      exists read a step, k_read k = Some read /\ k_inst k = Some a /\
        ns = addon_Namespace a /\ owner = addon_key a /\
        un_GetName wf = GetFormattedWorkflowName a step /\ may_run k read a step
  | CUpdate o =>
      exists read, k_read k = Some read /\ addon_key o = addon_key read /\ Spec o = Spec read /\
        ((DeletionTimestamp (Meta read) = None /\ validated k read /\
           forall f, f ∈ Finalizers (Meta o) <-> f ∈ Finalizers (Meta read) \/ f = FinalizerName) \/
         (being_deleted read /\ delete_done k read /\
           forall f, f ∈ Finalizers (Meta o) <-> f ∈ Finalizers (Meta read) /\ f <> FinalizerName))
  | CDeleteWorkflow ns n =>
      exists read, k_read k = Some read /\ DeletionTimestamp (Meta read) = None /\
        Checksum (Status read) <> CalculateChecksum read /\
        ns = addon_Namespace read /\ listed_for k read n
  | CRemoveVersion p w =>
      match k_read k with
      | None => True
      | Some read => being_deleted read /\
          p = PkgName (Spec_Package (Spec read)) /\ w = PkgVersion (Spec_Package (Spec read))
      end
  | CClientGetWorkflow _ | CDynDeleteWorkflow _ _ => False
  | _ => True
  end.
End conditions.

(** ** Lemmas *)

Section protocol.
Context `{GoRange, Semver, Yaml, UnstructuredReader, RetryOnConflict}.
Context `{AddonLifecycleLaws, Selectors, ControllerUtil}.
Context (t : list nat).
Implicit Types (k : knowledge) (a read : Addon) (step : LifecycleStep).

Abbreviation kwp := (wp (allowed t) learn).
Abbreviation set_step step phase a := (SetStatusByLifecyleStep step phase [] a).1.

Lemma UpdateStatus_kwp k a : kwp k (UpdateStatus a) (fun _ _ => True).
Proof.
  eapply (wp_allowed _ _ _ (fun c => updater_call c = true \/ not_status_write c = false)).
  - by intros s [] [?|?].
  - apply UpdateStatus_calls; auto.
Qed.

(** Events and other calls that are always allowed and teach nothing. *)
Lemma kwp_event k ty re msg {A} (p : Prog A) post :
  kwp k p post -> kwp k (call (CEvent ty re msg);; p) post.
Proof. intros Hp. by apply wp_call_bind. Qed.

(** How [runWorkflow] may end. *)
Inductive run_result (step : LifecycleStep) k a : knowledge -> Addon -> Prop :=
  | run_same : run_result step k a k a
  | run_empty wt :
      GetWorkflowType a step = Ok wt -> Template wt = "" ->
      run_result step k a k (set_step step Succeeded a)
  | run_fetched wf :
      run_result step k a (k_set_wf k (workflow_key a step, wf)) a
  | run_phase wf :
      ConvertWorkflowPhaseToAddonPhase step (wf_Phase wf) <> "" ->
      run_result step k a (k_set_wf k (workflow_key a step, wf))
        (set_step step (ConvertWorkflowPhaseToAddonPhase step (wf_Phase wf)) a).

Lemma runWorkflow_kwp k t' step a (post : knowledge -> outcome (Addon * option error) -> Prop) :
  (step_completed step a = false -> forall wf,
    un_GetName wf = GetFormattedWorkflowName a step ->
    allowed t k (CCreateWorkflow (addon_Namespace a) (addon_key a) wf)) ->
  (forall k' a', run_result step k a k' a' -> post k' (Val (a', None))) ->
  (forall e, post k (Val (set_step step Failed a, Some e))) ->
  (forall m, post k (Panicked m)) ->
  kwp k (runWorkflow t' step a) post.
Proof.
  intros Hcreate Hok Herr Hpanic. unfold runWorkflow.
  destruct (step_completed step a) eqn:Hc; [by apply wp_ret, Hok, run_same|].
  destruct (GetWorkflowType a step) as [wt|e] eqn:Hwt; [|by apply wp_ret, Herr].
  case_bool_decide as Htpl; [by eapply wp_ret, Hok, run_empty|].
  cbv zeta. case_bool_decide as Hname; [by apply wp_ret, Herr|].
  apply wp_bind. eapply wp_mono.
  - eapply (wp_stable _ _ _ _ _ _ (wfl_Install_calls _ _ _)). Unshelve.
    intros []; cbn; try done. intros (-> & -> & Hn). split; [|done]. by apply Hcreate.
  - intros s [[e|]|m] ->; [by apply wp_ret, Herr | | by apply Hpanic].
    apply kwp_event, wp_call_bind; [done|]. intros [wf|e]; [|by apply wp_ret, Hok, run_same].
    cbn. case_bool_decide as Hph; apply wp_ret, Hok; [apply run_fetched | by apply run_phase].
Qed.

(** Knowledge that differs only in secrets and workflows. *)
Definition k_same k k' : Prop :=
  k_read k' = k_read k /\ k_inst k' = k_inst k /\ k_finalizer k' = k_finalizer k /\
  k_cache k' = k_cache k /\ k_now k' = k_now k.

Lemma install_ready_same k k' read a :
  k_same k k' -> install_ready t k read a -> install_ready t k' read a.
Proof.
  intros (Hr & Hi & Hf & Hc & Hn). unfold install_ready, validated. by rewrite Hf, Hc, Hn.
Qed.

(** The instance in memory against the addon last received. *)
Definition agrees a0 a : Prop :=
  Meta a = Meta a0 /\ Spec a = Spec a0 /\ Status_Lifecycle (Status a) = Status_Lifecycle (Status a0).

Lemma run_result_same step k a k' a' :
  run_result step k a k' a' -> k_same k k' /\ same_but_phases a a'.
Proof.
  intros []; split; try done; try apply SetStatusByLifecyleStep_same; apply same_but_phases_refl.
Qed.

Lemma agrees_name a0 a step : agrees a0 a ->
  GetFormattedWorkflowName a step = GetFormattedWorkflowName a0 step.
Proof. intros (Hm & Hs & _). apply GetFormattedWorkflowName_same; congruence. Qed.

Lemma agrees_key a0 a step : agrees a0 a -> workflow_key a step = workflow_key a0 step.
Proof. intros Ha. unfold workflow_key. rewrite (agrees_name a0 a) by done. by destruct Ha as [-> _]. Qed.

Lemma prereqs_run_done k a0 a k' a' :
  agrees a0 a -> run_result Prereqs k a k' a' ->
  phase_Succeeded (GetPrereqStatus a') = true -> prereqs_done k' a0.
Proof.
  intros Ha Hrun Hs. pose proof (agrees_key a0 a Prereqs Ha) as Hname.
  destruct Ha as (Hm & Hsp & Hst). unfold GetPrereqStatus in Hs.
  destruct Hrun as [|wt Hwt Ht| |wf Hph].
  - left. unfold GetPrereqStatus. by rewrite <-Hst.
  - right; left. rewrite <-Hsp.
    change (Ok (LC_Prereqs (Lifecycle (Spec a))) = Ok wt) in Hwt. by simplify_eq.
  - left. unfold GetPrereqStatus. by rewrite <-Hst.
  - right; right. exists wf. cbn [k_wf k_set_wf]. rewrite Hname. split; [done|].
    revert Hs. by destruct (wf_Phase wf).
Qed.

Lemma prereqs_done_same k k' a : k_wf k' = k_wf k -> prereqs_done k a -> prereqs_done k' a.
Proof. unfold prereqs_done, step_succeeded. by intros ->. Qed.

Lemma check_secrets_found a names l :
  check_secrets a names l = None -> Forall (fun s => Secret_Name s ∈ names) l.
Proof.
  induction l as [|s l IH]; simpl; intros Hc; [constructor|].
  case_bool_decide; simplify_eq/=. constructor; [done | by apply IH].
Qed.

Lemma validateSecrets_kwp k a :
  kwp k (validateSecrets a) (fun k' o => k_same k k' /\ k_wf k' = k_wf k /\
    (o = Val None -> secrets_found k' a)).
Proof.
  apply wp_call_bind; [done|]. intros [items|e]; [|by apply wp_ret].
  apply wp_bind, wp_lift. destruct (secret_names items) as [names|m] eqn:Hn; [|done].
  apply wp_ret. split_and!; [done..|]. intros [= Hc].
  exists items, names. split_and!; [done..|]. by eapply check_secrets_found.
Qed.

Lemma create_allowed k read a0 a step wf :
  k_read k = Some read -> k_inst k = Some a0 -> Meta a = Meta a0 -> Spec a = Spec a0 ->
  un_GetName wf = GetFormattedWorkflowName a step -> may_run t k read a0 step ->
  allowed t k (CCreateWorkflow (addon_Namespace a) (addon_key a) wf).
Proof.
  intros Hr Hi Hm Hs Hn Hrun. exists read, a0, step.
  rewrite Hn, (GetFormattedWorkflowName_same a a0) by congruence.
  unfold addon_key. by rewrite Hm.
Qed.

Lemma executePrereqAndInstall_kwp k read a0 a :
  k_read k = Some read -> k_inst k = Some a0 -> install_ready t k read a0 -> agrees a0 a ->
  kwp k (executePrereqAndInstall (1 :: t) a) (fun _ _ => True).
Proof.
  intros Hr Hi Hready Ha. unfold executePrereqAndInstall. apply wp_bind.
  apply runWorkflow_kwp; [| |intros e; by apply kwp_event, wp_ret|done].
  - intros Hc wf Hn. destruct Ha as (Hm & Hsp & Hst).
    eapply create_allowed; [done..|]. right. split; [done|]. left. split; [done|].
    unfold step_completed, GetPrereqStatus in *. rewrite Hst in Hc. by repeat case_match.
  - intros k' a' Hrun. destruct (run_result_same _ _ _ _ _ Hrun) as [Hk Hsame].
    destruct (phase_Succeeded (GetPrereqStatus a')) eqn:Hs; [|case_match; by apply wp_ret].
    pose proof (prereqs_run_done _ _ _ _ _ Ha Hrun Hs) as Hdone.
    apply wp_bind. eapply wp_mono; [apply validateSecrets_kwp|].
    intros k2 [[e|]|m] (Hk2 & Hwf2 & Hsec); [by apply kwp_event, wp_ret | | done].
    apply wp_bind, runWorkflow_kwp;
      [|by intros; apply wp_ret|by intros e; apply kwp_event, wp_ret|done].
    intros _ wf Hn. pose proof Hk as (Hr' & Hi' & _). destruct Ha as (Hm & Hsp & Hst).
    pose proof Hk2 as (Hr2 & Hi2 & _). destruct Hsame as (Hm' & Hs' & _).
    apply (create_allowed k2 read a0 a' Install); [congruence.. | exact Hn |]. right.
    split; [by eapply install_ready_same, install_ready_same|]. right. split; [done|].
    split; [by eapply prereqs_done_same | ].
    destruct (Hsec eq_refl) as (items & names & ? & ? & ?). exists items, names.
    assert (Spec a0 = Spec a') as -> by congruence. by split_and!.
Qed.

(** Programs that may run at any point of a reconcile. *)
Definition anytime {A : Type} (p : Prog A) : Prop := forall k, kwp k p (fun _ _ => True).

Lemma anytime_bind {A B} (p : Prog A) (f : A -> Prog B) :
  anytime p -> (forall x, anytime (f x)) -> anytime (p ≫= f).
Proof.
  intros Hp Hf k. apply wp_bind. eapply wp_mono; [apply Hp|]. intros k' [a|m] _; [apply Hf|done].
Qed.

Lemma anytime_ret {A} (x : A) : anytime (mret x).
Proof. done. Qed.

Lemma anytime_call c : (forall k, allowed t k c) -> anytime (call c).
Proof. intros Hc k. by apply wp_call. Qed.

Ltac solve_anytime :=
  cbv zeta;
  repeat match goal with
  | |- anytime (_ ≫= _) => apply anytime_bind; [|intros ?]
  | |- anytime (match ?x with _ => _ end) => destruct x
  | |- anytime (mret _) => apply anytime_ret
  | |- anytime (call _) => apply anytime_call; intros ?; exact I
  end.

Lemma observe_and_return_anytime a : anytime (observe_and_return a).
Proof.
  unfold observe_and_return, observeResources, observe, ObserveService, ObserveJob,
    ObserveCronJob, ObserveStatefulSet, ObserveDeployment, ObserveDaemonSet,
    ObserveReplicaSet, cli_List. solve_anytime.
Qed.

Lemma validation_failed_anytime a e : anytime (validation_failed a e).
Proof. unfold validation_failed. solve_anytime. Qed.

Lemma delete_workflows_kwp k read ns l :
  k_read k = Some read -> DeletionTimestamp (Meta read) = None ->
  Checksum (Status read) <> CalculateChecksum read -> ns = addon_Namespace read ->
  (forall w, w ∈ l -> listed_for k read (wf_Name w)) ->
  kwp k (delete_workflows ns l) (fun _ _ => True).
Proof.
  intros Hr Hd Hc -> Hl. induction l as [|w l IH]; [done|].
  apply wp_call_bind; [|intros r; apply IH; intros w' Hw'; apply Hl; by right].
  exists read. split_and!; [done..|]. apply Hl. by left.
Qed.

Lemma deleteOldWorkflows_kwp k read a :
  k_read k = Some read -> DeletionTimestamp (Meta read) = None ->
  Checksum (Status read) <> CalculateChecksum read -> Meta a = Meta read ->
  kwp k (deleteOldWorkflows a) (fun _ _ => True).
Proof.
  intros Hr Hd Hc Hm. unfold deleteOldWorkflows. case_match; [done|].
  apply wp_call_bind; [done|]. intros [l|e]; [|done]. apply wp_bind.
  eapply wp_mono; [|by intros ? [] _]. eapply delete_workflows_kwp; [done..|by rewrite Hm|].
  intros w Hw. exists l. split; [by apply list_elem_of_fmap; exists w|]. cbn. by rewrite Hm.
Qed.

(** The instance after [SetFinalizer]: as received, with the finalizer. *)
Lemma SetFinalizer_kwp k read a (post : knowledge -> outcome (Addon * option error) -> Prop) :
  k_read k = Some read -> k_inst k = Some read -> k_finalizer k = has_finalizer read ->
  DeletionTimestamp (Meta read) = None -> validated t k read -> agrees read a ->
  StartTime (Status a) = StartTime (Status read) ->
  (forall a' e, post k (Val (a', Some e))) ->
  (forall k' a0 a', k_read k' = Some read -> k_inst k' = Some a0 -> k_finalizer k' = true ->
    k_cache k' = k_cache k -> agrees a0 a' -> StartTime (Status a') = StartTime (Status a0) ->
    post k' (Val (a', None))) ->
  kwp k (SetFinalizer a FinalizerName) post.
Proof.
  intros Hr Hi Hf Hd Hv (Hm & Hs & Hst) Htime Herr Hok. unfold SetFinalizer.
  rewrite Hm, Hd.
  destruct (ContainsFinalizer _ FinalizerName) eqn:Hc.
  - apply wp_ret, (Hok k read); try done. rewrite Hf. unfold has_finalizer.
    apply bool_decide_eq_true, ContainsFinalizer_spec, Hc.
  - apply wp_call_bind.
    + exists read. split_and!; [done| |done|].
      { unfold addon_key, addon_Namespace, addon_Name. cbn. by rewrite Hm. }
      left. split_and!; [done..|]. intros f. cbn. rewrite Hm. apply AddFinalizer_spec.
    + intros [b|e]; [|by apply wp_ret]. apply wp_ret, (Hok _ b); try done. cbn.
      apply bool_decide_eq_true. cbn. apply AddFinalizer_spec. by right.
Qed.

Lemma Installed_processed a : GetInstallStatus (processed a) = GetInstallStatus a.
Proof. done. Qed.

Lemma processAddon_kwp k read :
  k_read k = Some read -> k_inst k = Some read -> k_finalizer k = has_finalizer read ->
  DeletionTimestamp (Meta read) = None ->
  kwp k (processAddon t read) (fun _ _ => True).
Proof.
  intros Hr Hi Hf Hd. unfold processAddon, validateChecksum.
  destruct (bool_decide_reflect (Checksum (Status read) = CalculateChecksum read)) as [Hck|Hck].
  - fold (processed read). rewrite Installed_processed.
    destruct (phase_Completed (GetInstallStatus read)) eqn:Hc; [done|].
    apply wp_call_bind; [done|]. intros cache. apply wp_bind, wp_lift.
    destruct (Validate_addon (0 :: t) _) as [[[|] e]|m] eqn:Hv; [|apply validation_failed_anytime|done].
    assert (validated t (k_set_cache k cache) read) as Hval by (by exists cache, e).
    apply kwp_event, wp_bind.
    apply (SetFinalizer_kwp _ read); try done.
    intros k' a0 a' Hr' Hi' Hf' Hc' Ha Htime.
    destruct (phase_Completed (GetInstallStatus a')) eqn:Hca;
      [apply observe_and_return_anytime|].
    apply wp_call_bind; [done|]. intros now.
    destruct (IsExpired now _ _) eqn:Hexp; [by apply kwp_event, wp_ret|].
    apply wp_bind. eapply wp_mono; [eapply (executePrereqAndInstall_kwp _ read a0)|]; try done.
    + unfold install_ready, validated. cbn. rewrite Hc', <-Htime.
      pose proof Ha as (_ & _ & Hst). unfold GetInstallStatus. rewrite <-Hst.
      split_and!; try done. by exists now.
    + intros k2 [[a2 [e2|]]|m] _; [done | apply observe_and_return_anytime | done].
  - apply wp_bind. eapply wp_mono; [by eapply (deleteOldWorkflows_kwp _ read)|].
    intros k' [[e|]|m] _; [done | | done]. by apply wp_call_bind.
Qed.

Lemma delete_run_done k a k' a' :
  being_deleted a -> run_result Delete k a k' a' ->
  phase_Succeeded (GetInstallStatus a') = true -> delete_done k' a.
Proof.
  intros [_ Hdel] Hrun Hs.
  destruct Hrun as [|wt Hwt Ht| |wf Hne].
  - right; left. by apply Deleting_Succeeded.
  - left. change (Ok (LC_Delete (Lifecycle (Spec a))) = Ok wt) in Hwt. by simplify_eq.
  - right; left. by apply Deleting_Succeeded.
  - right; right. exists wf. split; [done|]. revert Hs Hne. by destruct (wf_Phase wf).
Qed.

Lemma Finalize_kwp k read :
  k_read k = Some read -> k_inst k = Some read -> being_deleted read ->
  kwp k (Finalize t read FinalizerName) (fun _ _ => True).
Proof.
  intros Hr Hi Hdel. unfold Finalize. apply wp_bind.
  apply (wp_mono _ _ _ _ (fun k' o => match o with
    | Val (a, rm, None) => k_read k' = Some read /\ Meta a = Meta read /\ Spec a = Spec read /\
        (rm = true -> delete_done k' read)
    | _ => True end)).
  - case_bool_decide as Htpl; cbn [negb]; [apply wp_ret; split_and!; [done..|by left]|]. apply wp_bind.
    apply runWorkflow_kwp; [| |done..].
    + intros _ wf Hn. eapply create_allowed; [done..|]. by left.
    + intros k' a' Hrun. apply wp_ret.
      destruct (run_result_same _ _ _ _ _ Hrun) as [(Hr' & _) (Hm & Hs & _)].
      split_and!; [congruence..|]. by apply (delete_run_done k _ _ a').
  - intros k' [[[a rm] [e|]]|m]; [done| |done]. intros (Hr' & Hm & Hs & Hrm).
    apply wp_call_bind; [cbn; by rewrite Hr', Hs|]. intros [].
    destruct rm; [|done]. apply wp_call_bind; [|by intros []].
    exists read. split_and!; [done| |done|].
    { unfold addon_key, addon_Namespace, addon_Name. cbn. by rewrite Hm. }
    right. split_and!; [done| |].
    + by apply Hrm.
    + intros f. cbn. rewrite Hm. apply RemoveFinalizer_spec.
Qed.

Lemma Reconcile_kwp req : kwp k_init (Reconcile t req) (fun _ _ => True).
Proof.
  apply wp_call_bind; [done|]. intros [a|e].
  - cbn [learn k_read k_init ok_or]. unfold execAddon. apply wp_recover.
    destruct (DeletionTimestamp (Meta a)) as [d|] eqn:Hd.
    + destruct (phase_Deleting (GetInstallStatus a)) eqn:Hdel; cbn [negb].
      * apply wp_bind. eapply wp_mono; [apply (Finalize_kwp _ a)|]; try done.
        intros k' [[a' [e|]]|m] _; [by apply kwp_event, wp_ret|done..].
      * apply wp_bind. eapply wp_mono; [apply UpdateStatus_kwp | by intros ? [] _].
    + apply wp_bind. eapply wp_mono; [by apply processAddon_kwp|].
      intros k' [[a' [ret e]]|m] _; [|done].
      apply wp_bind. eapply wp_mono; [apply UpdateStatus_kwp | by intros ? [[]|] _].
  - cbn. split; [done|]. intros [[|] [v|]]; done.
Qed.
End protocol.

(** ** Properties *)

(** Whatever [Reconcile] does next is allowed by what it has learnt. *)
Lemma Reconcile_allowed `{GoRange, Semver, Yaml, UnstructuredReader, RetryOnConflict,
    AddonLifecycleLaws, Selectors, ControllerUtil} t req tr1 c r tr2 o :
  exec (Reconcile t req) (tr1 ++ existT c r :: tr2) o ->
  allowed t (trace_end learn k_init tr1) c.
Proof.
  intros He. destruct (wp_exec _ _ _ _ _ _ _ (Reconcile_kwp t req) He) as [Hok _].
  by apply trace_ok_split in Hok.
Qed.

Section protocol_properties.
Context `{GoRange, Semver, Yaml, UnstructuredReader, RetryOnConflict}.
Context `{AddonLifecycleLaws, Selectors, ControllerUtil}.

(** C6: a reconcile submits a workflow only for the addon it last received
    and only one of that addon's own workflows: the delete workflow of an
    addon that is being deleted, or else, for an addon whose recorded
    checksum is that of its spec and whose installation is not completed,
    after validation succeeded, with the finalizer set and within the time
    limit, the prereqs workflow while prereqs are not completed, or the
    install workflow once prereqs succeeded and all secrets were found. *)
Theorem workflow_submission_safe (t : list nat) (req : NamespacedName) (tr1 tr2 : list event)
    (ns : string) (owner : NamespacedName) (wf : object) (r : option error)
    (o : outcome (Result * option error)) :
  exec (Reconcile t req) (tr1 ++ existT (CCreateWorkflow ns owner wf) r :: tr2) o ->
  let k := trace_end learn k_init tr1 in
  exists read a step, k_read k = Some read /\ k_inst k = Some a /\
    ns = addon_Namespace a /\ owner = addon_key a /\
    un_GetName wf = GetFormattedWorkflowName a step /\ may_run t k read a step.
Proof. intros He. exact (Reconcile_allowed _ _ _ _ _ _ _ He). Qed.

(** C7: a reconcile changes an addon object only to add the finalizer
    after a successful validation, or to remove exactly the finalizer from
    an addon that is being deleted and has no delete workflow or whose
    delete workflow has succeeded; it never changes the spec. *)
Theorem finalizer_update_safe (t : list nat) (req : NamespacedName) (tr1 tr2 : list event)
    (a : Addon) (r : result Addon) (o : outcome (Result * option error)) :
  exec (Reconcile t req) (tr1 ++ existT (CUpdate a) r :: tr2) o ->
  let k := trace_end learn k_init tr1 in
  exists read, k_read k = Some read /\ addon_key a = addon_key read /\ Spec a = Spec read /\
    ((DeletionTimestamp (Meta read) = None /\ validated t k read /\
       forall f, f ∈ Finalizers (Meta a) <-> f ∈ Finalizers (Meta read) \/ f = FinalizerName) \/
     (being_deleted read /\ delete_done k read /\
       forall f, f ∈ Finalizers (Meta a) <-> f ∈ Finalizers (Meta read) /\ f <> FinalizerName)).
Proof. intros He. exact (Reconcile_allowed _ _ _ _ _ _ _ He). Qed.

(** C39: a reconcile deletes workflows only when the checksum of the spec
    differs from the recorded one, on an addon that is not being deleted,
    and only workflows that the API listed in the addon's namespace for the
    label [app.kubernetes.io/name] with the addon's name. *)
Theorem workflow_deletion_safe (t : list nat) (req : NamespacedName) (tr1 tr2 : list event)
    (ns n : string) (r : option error) (o : outcome (Result * option error)) :
  exec (Reconcile t req) (tr1 ++ existT (CDeleteWorkflow ns n) r :: tr2) o ->
  let k := trace_end learn k_init tr1 in
  exists read, k_read k = Some read /\ DeletionTimestamp (Meta read) = None /\
    Checksum (Status read) <> CalculateChecksum read /\
    ns = addon_Namespace read /\
    exists items, n ∈ wf_Name <$> items /\
      k_listed k = Some (mkListing (addon_Namespace read)
        {["app.kubernetes.io/name" := addon_Name read]} items).
Proof. intros He. exact (Reconcile_allowed _ _ _ _ _ _ _ He). Qed.
End protocol_properties.

Lemma workflow_submission_safe_witness :
  let k := trace_end learn k_init (take 6 (sample_trace installing_world [])) in
  exists read a step, k_read k = Some read /\ k_inst k = Some a /\
    "addon-manager-system" = addon_Namespace a /\ addon_key fresh_addon = addon_key a /\
    un_GetName created_workflow = GetFormattedWorkflowName a step /\
    @may_run range_fwd star_semver sample_yaml sample_reader [] k read a step.
Proof.
  apply (@workflow_submission_safe range_fwd star_semver sample_yaml sample_reader default_retry
    tree_object sample_lifecycle sample_lifecycle_laws sample_selectors sample_util []
    (addon_key fresh_addon) _ (drop 7 (sample_trace installing_world []))
    "addon-manager-system" (addon_key fresh_addon) created_workflow None
    (sample_outcome installing_world [])).
  apply (sample_exec installing_world [] 6). vm_compute. reflexivity.
Defined.

Lemma finalizer_update_safe_witness :
  let k := trace_end learn k_init (take 3 (sample_trace installing_world [])) in
  exists read, k_read k = Some read /\ addon_key updated_addon = addon_key read /\ Spec updated_addon = Spec read /\
    ((DeletionTimestamp (Meta read) = None /\
       @validated range_fwd star_semver sample_yaml sample_reader [] k read /\
       forall f, f ∈ Finalizers (Meta updated_addon) <->
         f ∈ Finalizers (Meta read) \/ f = FinalizerName) \/
     (being_deleted read /\ delete_done k read /\
       forall f, f ∈ Finalizers (Meta updated_addon) <->
         f ∈ Finalizers (Meta read) /\ f <> FinalizerName)).
Proof.
  apply (@finalizer_update_safe range_fwd star_semver sample_yaml sample_reader default_retry
    tree_object sample_lifecycle sample_lifecycle_laws sample_selectors sample_util []
    (addon_key fresh_addon) _ (drop 4 (sample_trace installing_world []))
    updated_addon (Ok updated_addon) (sample_outcome installing_world [])).
  apply (sample_exec installing_world [] 3). vm_compute. reflexivity.
Defined.

Lemma workflow_deletion_safe_witness :
  let k := trace_end learn k_init (take 2 (sample_trace stale_world [])) in
  exists read, k_read k = Some read /\ DeletionTimestamp (Meta read) = None /\
    Checksum (Status read) <> CalculateChecksum read /\
    "addon-manager-system" = addon_Namespace read /\
    exists items, "c-install-0-wf" ∈ wf_Name <$> items /\
      k_listed k = Some (mkListing (addon_Namespace read)
        {["app.kubernetes.io/name" := addon_Name read]} items).
Proof.
  apply (@workflow_deletion_safe range_fwd star_semver sample_yaml sample_reader default_retry
    tree_object sample_lifecycle sample_lifecycle_laws sample_selectors sample_util []
    (addon_key fresh_addon) _ (drop 3 (sample_trace stale_world []))
    "addon-manager-system" "c-install-0-wf" None (sample_outcome stale_world [])).
  apply (sample_exec stale_world [] 2). vm_compute. reflexivity.
Defined.
