(* ===== verification/Outcome.v ===== *)
(** What a reconcile writes to the addon's status and what it returns. *)
From S2P Require Import Prelude GoStrings GoFmt AddonTypes Common VersionCache Unstructured.
From S2P Require Import TreeObject Validator Effects Updater Workflow Objects Controller.
From S2P Require Import WorkflowController Samples Protocol.

(** The work queue will see the request again. *)
Definition retried (ret : Result) (err : option error) : Prop :=
  err <> None \/ Requeue ret = true \/ (0 < RequeueAfter ret)%Z.

Definition requeue_post (o : outcome (Addon * (Result * option error))) : Prop :=
  match o with
  | Val (a, (ret, err)) => phase_Running (GetInstallStatus a) = true -> retried ret err
  | Panicked _ => True
  end.

Section outcome.
Context `{GoRange, Semver, Yaml, UnstructuredReader, RetryOnConflict}.
Context `{AddonLifecycleLaws, Selectors, ControllerUtil}.

(** Goes through the binds and cases of a program. *)
Ltac solve_returns :=
  cbv zeta;
  repeat match goal with
  | |- returns (_ ≫= _) _ => apply returns_bind; [intros ?|by intros]
  | |- returns (match ?x with _ => _ end) _ => destruct x eqn:?
  | |- returns (mret _) _ => apply returns_ret
  end.

Lemma validation_failed_requeue a e :
  e <> None -> returns (validation_failed a e) requeue_post.
Proof.
  intros He. unfold validation_failed. solve_returns; intros _; unfold retried; simpl;
    [right; left | right; left | left]; done.
Qed.

Lemma observe_and_return_requeue a : returns (observe_and_return a) requeue_post.
Proof.
  unfold observe_and_return. solve_returns; intros Hrun; unfold retried; simpl; try by left.
  - by right; right.
  - congruence.
Qed.

(** The part of [processAddon] after the finalizer is set. *)
Lemma processAddon_requeue t a : returns (processAddon t a) requeue_post.
Proof.
  unfold processAddon. destruct (validateChecksum a) as [[|] ck]; cbv zeta.
  - solve_returns; intros _; unfold retried; simpl; [by left | by right; left].
  - destruct (phase_Completed _) eqn:Hc.
    { apply returns_ret. intros Hr. by apply Completed_not_Running in Hc; congruence. }
    apply returns_bind; [intros cache|done]. apply wp_bind, wp_lift.
    destruct (Validate_addon _ _) as [[[|] e]|m] eqn:Hv; [| |done].
    + apply returns_bind; [intros _|done]. apply returns_bind; [intros [a1 [e1|]]|done].
      { solve_returns. by intros _; left. }
      destruct (phase_Completed (GetInstallStatus a1)); [apply observe_and_return_requeue|].
      apply returns_bind; [intros now|done]. destruct (IsExpired _ _ _).
      { solve_returns. by intros _; left. }
      apply returns_bind; [intros [a2 [e2|]]|done]; [by apply returns_ret; left|].
      apply observe_and_return_requeue.
    + apply validation_failed_requeue.
      destruct (Validate_addon_shape _ _ _ _ Hv) as [[? _]|[_ [e' ->]]]; done.
Qed.

Lemma quiet_no_write {A} (p : Prog A) tr o w r :
  quiet p -> exec p tr o -> existT (CStatusUpdate w) r ∈ tr -> False.
Proof.
  intros Hq He Hin. by pose proof (calls_all_exec _ _ _ _ (CStatusUpdate w) r Hq He Hin).
Qed.

Lemma processAddon_no_write t a tr o w r :
  exec (processAddon t a) tr o -> existT (CStatusUpdate w) r ∉ tr.
Proof. intros He Hin. by eapply quiet_no_write; [apply processAddon_quiet | exact He |]. Qed.

(** The writes of [UpdateStatus], and that it does not panic. *)
Lemma UpdateStatus_writes a tr o w r :
  exec (UpdateStatus a) tr o -> existT (CStatusUpdate w) r ∈ tr -> Status w = Status a.
Proof.
  intros He Hin.
  refine (calls_all_exec (fun c => match c with
    | CStatusUpdate x => Status x = Status a | _ => True end) _ _ _ (CStatusUpdate w) r _ He Hin).
  apply UpdateStatus_calls; [by intros [] | done].
Qed.

Lemma UpdateStatus_no_clock a tr o now : exec (UpdateStatus a) tr o -> existT CNow now ∉ tr.
Proof.
  intros He Hin.
  refine (calls_all_exec (fun c => c <> CNow) _ _ _ CNow now _ He Hin eq_refl).
  apply UpdateStatus_calls; [by intros [] | done].
Qed.

Lemma UpdateStatus_returns a tr o : exec (UpdateStatus a) tr o -> exists e, o = Val e.
Proof.
  intros He. destruct (wp_exec _ _ _ _ _ _ _ (UpdateStatus_wp a) He) as [_ [_ Ho]].
  destruct o as [e|m]; [by exists e | done].
Qed.

(** The executions of [execAddon] for an addon that is not being deleted. *)
Lemma execAddon_live t a tr o :
  DeletionTimestamp (Meta a) = None -> exec (execAddon t a) tr o ->
  (exists tr1 tr2 a' ret procErr e, tr = tr1 ++ tr2 /\
    exec (processAddon t a) tr1 (Val (a', (ret, procErr))) /\
    exec (UpdateStatus a') tr2 (Val e) /\
    o = Val (match e with Some err => (mkResult false Second, Some err) | None => (ret, procErr) end))
  \/ (exists m, exec (processAddon t a) tr (Panicked m) /\ o = Val (zero_Result, None)).
Proof.
  intros Hd He. unfold execAddon in He. rewrite Hd in He.
  apply exec_recover in He as (o' & He & ->).
  apply exec_bind in He as [(tr1 & tr2 & [a' [ret procErr]] & -> & H1p & He)|(m & H1p & ->)];
    [|right; by exists m].
  left. apply exec_bind in He as [(tr2' & tr3 & e & -> & H2p & He)|(m & H2p & ->)].
  - exists tr1, tr2', a', ret, procErr, e.
    assert (tr3 = [] /\ o' = Val (match e with Some err => (mkResult false Second, Some err)
      | None => (ret, procErr) end)) as [-> ->] by (by destruct e; apply exec_inv in He).
    by rewrite app_nil_r.
  - by apply UpdateStatus_returns in H2p as [].
Qed.

(** The executions of [execAddon] for an addon that is being deleted. *)
Lemma execAddon_deleting t a d tr o w r :
  DeletionTimestamp (Meta a) = Some d -> exec (execAddon t a) tr o ->
  existT (CStatusUpdate w) r ∈ tr -> GetInstallStatus w = Deleting.
Proof.
  intros Hd He Hin. unfold execAddon in He. rewrite Hd in He.
  apply exec_recover in He as (o' & He & _). destruct (negb _).
  - apply exec_bind in He as [(tr1 & tr2 & e & -> & H1p & He)|(m & H1p & ->)].
    + apply exec_inv in He as [-> _]. rewrite app_nil_r in Hin.
      apply (UpdateStatus_writes _ _ _ _ _ H1p) in Hin. unfold GetInstallStatus. by rewrite Hin.
    + by apply UpdateStatus_returns in H1p as [].
  - exfalso. eapply (quiet_no_write _ _ _ _ _ _ He Hin). Unshelve.
    apply quiet_bind; [apply Finalize_quiet|]. intros [a' [e|]]; solve_quiet.
Qed.

Lemma Reconcile_after_get t req a tr o :
  exec (Reconcile t req) (existT (CGetAddon req) (Ok a) :: tr) o -> exec (execAddon t a) tr o.
Proof. intros (r & [= <-] & He)%exec_get_inv. exact He. Qed.

(** An addon with an up-to-date checksum and a completed installation. *)
Lemma processAddon_completed t a :
  Checksum (Status a) = CalculateChecksum a -> phase_Completed (GetInstallStatus a) = true ->
  processAddon t a = mret (processed a, (zero_Result, None)).
Proof.
  intros Hck Hc. unfold processAddon, validateChecksum. rewrite bool_decide_eq_true_2 by done.
  fold (processed a). by rewrite Installed_processed, Hc.
Qed.

Lemma processed_current a :
  Checksum (Status a) = CalculateChecksum a -> Status (processed a) = set_Resources [] (Status a).
Proof. intros Hck. unfold processed. rewrite <-Hck. by destruct a as [? ? []]. Qed.

Lemma completed_calls t a tr o c r :
  DeletionTimestamp (Meta a) = None -> Checksum (Status a) = CalculateChecksum a ->
  phase_Completed (GetInstallStatus a) = true -> exec (execAddon t a) tr o ->
  existT c r ∈ tr ->
  updater_call c = true \/ exists w, c = CStatusUpdate w /\ Status w = set_Resources [] (Status a).
Proof.
  intros Hd Hck Hc He Hin.
  apply execAddon_live in He as [(tr1 & tr2 & a' & ret & pe & e & -> & H1p & H2p & _)|(m & H1p & _)];
    [|rewrite processAddon_completed in H1p by done; by apply exec_inv in H1p as [_ ?]|done].
  rewrite processAddon_completed in H1p by done. apply exec_inv in H1p as [-> [= -> -> ->]].
  refine (calls_all_exec (fun c => updater_call c = true \/
    exists w, c = CStatusUpdate w /\ Status w = set_Resources [] (Status a)) _ _ _ c r _ H2p Hin).
  apply UpdateStatus_calls; [by left|]. intros w Hw. right. exists w.
  by rewrite <-processed_current.
Qed.

(** The reconcile after a change of the spec: the old workflows are
    deleted and the status is reset, or the listing failed and the addon
    keeps its phases under the new checksum. *)
Definition reset_status (a : Addon) (now : Z) : AddonStatus :=
  mkAddonStatus (CalculateChecksum a) (mkAddonStatusLifecycle Pending Pending) [] "" now.

Lemma deleteOldWorkflows_ok a tr :
  exec (deleteOldWorkflows a) tr (Val None) ->
  exists ns sel items tr', tr = existT (CListWorkflows ns sel) (Ok items) :: tr'.
Proof.
  unfold deleteOldWorkflows. destruct (selector_error _); [by intros [_ ?]%exec_inv|].
  intros ([items|e] & tr' & -> & He)%exec_call_bind; [by eexists _, _, items, tr'|].
  by apply exec_inv in He as [_ ?].
Qed.

Lemma delete_workflows_None ns (l : list Workflow) tr o :
  exec (delete_workflows ns l;; mret (None : option error)) tr o -> o = Val None.
Proof.
  intros He. refine (returns_exec _ (fun o => o = Val None) _ _ _ He). clear He.
  induction l as [|w l IH]; [done|]. split; [done|]. intros r. apply IH.
Qed.

(** A call list that begins with the list of old workflows. *)
Definition list_failed (tr : list event) : Prop :=
  tr = [] \/ exists ns sel e, tr = [existT (CListWorkflows ns sel) (Err e)].

Lemma deleteOldWorkflows_error a tr e :
  exec (deleteOldWorkflows a) tr (Val (Some e)) -> list_failed tr.
Proof.
  unfold deleteOldWorkflows. destruct (selector_error _); [intros [-> _]%exec_inv; by left|].
  intros ([items|e'] & tr' & -> & He)%exec_call_bind; [by apply delete_workflows_None in He|].
  apply exec_inv in He as [-> _]. right. by eexists _, _, e'.
Qed.

Lemma processAddon_changed t a tr a' ret err :
  Checksum (Status a) <> CalculateChecksum a ->
  exec (processAddon t a) tr (Val (a', (ret, err))) ->
  (a' = processed a /\ list_failed tr) \/
  (exists ns sel items tr' now, tr = existT (CListWorkflows ns sel) (Ok items) :: tr' /\
    existT CNow now ∈ tr' /\ Status a' = reset_status a now /\
    ret = mkResult true 0 /\ err = None).
Proof.
  intros Hck He. unfold processAddon, validateChecksum in He.
  rewrite bool_decide_eq_false_2 in He by done. fold (processed a) in He.
  apply exec_bind in He as [(tr1 & tr2 & e & -> & H1p & He)|(m & _ & ?)]; [|done].
  destruct e as [e|].
  { apply exec_inv in He as [-> [= -> -> ->]]. left. split; [done|]. rewrite app_nil_r.
    by eapply deleteOldWorkflows_error. }
  right.
  apply deleteOldWorkflows_ok in H1p as (ns & sel & items & tr' & ->).
  apply exec_call_bind in He as (now & tr3 & -> & He). apply exec_inv in He as [-> [= -> -> ->]].
  exists ns, sel, items, (tr' ++ [existT CNow now]), now.
  split_and!; [done | set_solver | | done..]. done.
Qed.

Definition ttl_reason (a : Addon) : string :=
  "Addon " +:+ full_name a +:+ " ttl expired, starttime exceeded " +:+ TTL_String.

Lemma SetFinalizer_present a f :
  f ∈ Finalizers (Meta a) -> SetFinalizer a f = mret (a, None).
Proof.
  intros Hf. unfold SetFinalizer. destruct (DeletionTimestamp (Meta a)); [done|].
  by rewrite (proj2 (ContainsFinalizer_spec _ _)).
Qed.

Lemma validation_failed_length a e tr o : exec (validation_failed a e) tr o -> length tr = 1.
Proof.
  assert (forall c (x : Addon * (Result * option error)),
    exec (call c;; mret x) tr o -> length tr = 1) as Hone.
  { intros c x (u & tr' & -> & He)%exec_call_bind. by apply exec_inv in He as [-> _]. }
  unfold validation_failed. cbv zeta. intros He.
  destruct ((e != None) && HasPrefix (fmt_error e) ErrDepPending); [by eapply Hone|].
  destruct ((e != None) && HasPrefix (fmt_error e) ErrDepNotInstalled); by eapply Hone.
Qed.

(** The calls of [processAddon] on an addon that has its finalizer, up to
    the reading of the clock, and what follows when the time is over. *)
Lemma processAddon_clock t a tr o :
  DeletionTimestamp (Meta a) = None -> FinalizerName ∈ Finalizers (Meta a) ->
  Checksum (Status a) = CalculateChecksum a -> phase_Completed (GetInstallStatus a) = false ->
  exec (processAddon t a) tr o ->
  length tr <= 2 \/
  exists ev1 ev2 now tr', tr = ev1 :: ev2 :: existT CNow now :: tr' /\
    (IsExpired now (StartTime (Status a)) TTL_Milliseconds = true ->
     exists ev e, tr' = [ev] /\ updater_call (projT1 ev) = true /\
       o = Val (SetInstallStatus Failed [ttl_reason a] (processed a), (zero_Result, Some e))).
Proof.
  intros Hd Hf Hck Hc He. unfold processAddon, validateChecksum in He.
  rewrite bool_decide_eq_true_2 in He by done. fold (processed a) in He.
  rewrite Installed_processed, Hc in He.
  apply exec_call_bind in He as (cache & tr1 & -> & He).
  apply exec_lift_bind in He.
  destruct (Validate_addon _ _) as [[[|] e]|m]; [| |destruct He as [-> _]; left; simpl; lia].
  - apply exec_call_bind in He as (u & tr2 & -> & He).
    rewrite SetFinalizer_present in He by done. apply exec_ret_bind in He.
    rewrite Installed_processed, Hc in He.
    apply exec_call_bind in He as (now & tr3 & -> & He). right.
    eexists _, _, now, tr3. split; [done|]. intros Hexp.
    change (StartTime (Status (processed a))) with (StartTime (Status a)) in He.
    rewrite Hexp in He. apply exec_call_bind in He as (u' & tr4 & -> & He).
    apply exec_inv in He as [-> ->]. by eexists _, _.
  - left. apply validation_failed_length in He. cbn [length]. lia.
Qed.
End outcome.

(** ** Properties *)

Section outcome_properties.
Context `{GoRange, Semver, Yaml, UnstructuredReader, RetryOnConflict}.
Context `{AddonLifecycleLaws, Selectors, ControllerUtil}.

(** C11: no addon is left waiting: when a reconcile writes a status that is
    still pending or failed in validation, it returns an error or asks for
    another reconcile. *)
Theorem running_addon_is_requeued (t : list nat) (req : NamespacedName) (tr : list event)
    (ret : Result) (err : option error) (w : Addon) (r : option error) :
  exec (Reconcile t req) tr (Val (ret, err)) ->
  existT (CStatusUpdate w) r ∈ tr ->
  phase_Running (GetInstallStatus w) = true ->
  retried ret err.
Proof.
  intros He Hin Hrun. apply exec_call_bind in He as ([a|e] & tr' & -> & He).
  - apply elem_of_cons in Hin as [Hin|Hin]; [by apply (f_equal (@projT1 _ _)) in Hin|].
    destruct (DeletionTimestamp (Meta a)) as [d|] eqn:Hd.
    { rewrite (execAddon_deleting _ _ _ _ _ _ _ Hd He Hin) in Hrun. done. }
    apply execAddon_live in He as
      [(tr1 & tr2 & a' & ret' & pe & e & -> & H1p & H2p & [= Ho])|(m & H1p & _)]; [| |done].
    + apply elem_of_app in Hin as [Hin|Hin].
      { by apply (processAddon_no_write _ _ _ _ _ _ H1p) in Hin. }
      apply (UpdateStatus_writes _ _ _ _ _ H2p) in Hin.
      destruct e as [e|]; simplify_eq; [by left|].
      apply (returns_exec _ _ _ _ (processAddon_requeue t a)) in H1p. apply H1p.
      unfold GetInstallStatus in *. by rewrite <-Hin.
    + by apply (processAddon_no_write _ _ _ _ _ _ H1p) in Hin.
  - exfalso. apply elem_of_cons in Hin as [Hin|Hin]; [by apply (f_equal (@projT1 _ _)) in Hin|].
    eapply (quiet_no_write (RemoveFromCache (NN_Name req);; mret _)); [|exact He|exact Hin].
    apply quiet_bind; [apply RemoveFromCache_quiet | done].
Qed.

(** C31: the first reconcile after a change of the spec (the recorded
    checksum differs) that gets past listing the old workflows only resets
    the status: the written status has the new checksum, both phases
    pending, no resources and no reason, and the current time as start. *)
Theorem spec_change_resets_status (t : list nat) (req : NamespacedName) (a : Addon)
    (ns : string) (sel : gmap string string) (items : list Workflow) (tr : list event)
    (o : outcome (Result * option error)) (w : Addon) (r : option error) :
  DeletionTimestamp (Meta a) = None ->
  Checksum (Status a) <> CalculateChecksum a ->
  exec (Reconcile t req)
    (existT (CGetAddon req) (Ok a) :: existT (CListWorkflows ns sel) (Ok items) :: tr) o ->
  existT (CStatusUpdate w) r ∈ tr ->
  exists now, existT CNow now ∈ tr /\ Status w = reset_status a now.
Proof.
  intros Hd Hck He%Reconcile_after_get Hin.
  apply execAddon_live in He as
    [(tr1 & tr2 & a' & ret' & pe & e & Heq & H1p & H2p & _)|(m & H1p & _)]; [| |done].
  - destruct (processAddon_changed _ _ _ _ _ _ Hck H1p)
      as [[-> Herr]|(ns' & sel' & items' & tr' & now & -> & Hnow & Hst & _)].
    + exfalso. destruct Herr as [->|(ns' & sel' & e' & ->)].
      * simpl in Heq. subst tr2. by apply exec_call_bind in H2p as (? & ? & ? & _).
      * apply (f_equal (fun l => head l ≫= workflows_response)) in Heq. done.
    + injection Heq as _ _ ->. exists now. split; [set_solver|].
      apply elem_of_app in Hin as [Hin|Hin].
      * by apply (list_elem_of_further _ (existT (CListWorkflows ns' sel') (Ok items'))),
          (processAddon_no_write _ _ _ _ _ _ H1p) in Hin.
      * rewrite <-Hst. by eapply UpdateStatus_writes.
  - by apply (list_elem_of_further _ (existT (CListWorkflows ns sel) (Ok items))),
      (processAddon_no_write _ _ _ _ _ _ H1p) in Hin.
Qed.

(** Reconciling a completed addon with an unchanged spec submits and
    deletes nothing and touches no other service: it only writes the status
    it has read, with the list of observed resources emptied. *)
Theorem completed_addon_drops_resources (t : list nat) (req : NamespacedName) (a : Addon)
    (tr : list event) (o : outcome (Result * option error)) (c : Call) (r : Resp c) :
  DeletionTimestamp (Meta a) = None ->
  Checksum (Status a) = CalculateChecksum a ->
  phase_Completed (GetInstallStatus a) = true ->
  exec (Reconcile t req) (existT (CGetAddon req) (Ok a) :: tr) o ->
  existT c r ∈ tr ->
  updater_call c = true \/
  exists w, c = CStatusUpdate w /\ Status w = set_Resources [] (Status a).
Proof. intros Hd Hck Hc He%Reconcile_after_get Hin. by eapply completed_calls. Qed.


End outcome_properties.

(** C16: the workflow controller writes an addon's status only for a workflow
    that exists, is not being deleted, has a phase and is controlled by an
    addon; it reads that addon in the workflow's namespace, the workflow's
    name is the one the addon's current spec gives for a lifecycle step, and
    the status written is that step's for the workflow's phase. *)
Theorem workflow_reconcile_writes `{RetryOnConflict} (go_syntax : error -> string)
    (req : NamespacedName) (tr : list event) (o : outcome (Result * option error)) (w : Addon)
    (r : option error) :
  exec (WorkflowReconcile go_syntax req) tr o ->
  existT (CStatusUpdate w) r ∈ tr ->
  exists wf n existing s rest reason,
    tr = existT (CClientGetWorkflow req) (Ok wf) ::
         existT (CGetAddon (mkNN (wf_Namespace wf) n)) (Ok existing) :: rest /\
    wf_DeletionTimestamp wf = None /\ phase_empty (wf_Phase wf) = false /\
    wf_Controller wf = Some ("Addon", n) /\
    phase_Completed (GetInstallStatus existing) = false /\
    is_step s /\ GetFormattedWorkflowName existing s = wf_Name wf /\
    Status w = Status (SetStatusByLifecyleStep s
      (ConvertWorkflowPhaseToAddonPhase s (wf_Phase wf)) [reason] existing).1.
Proof.
  intros (o' & He & _)%exec_recover Hin.
  apply exec_call_bind in He as (res & tr' & -> & He).
  apply elem_of_cons in Hin as [Hin|Hin]; [by apply (f_equal (@projT1 _ _)) in Hin|].
  destruct res as [wf|e]; [|destruct (IsNotFound (Some e)); no_calls].
  destruct (bool_decide_reflect (is_Some (wf_DeletionTimestamp wf))) as [|Hdel]; [no_calls|].
  destruct (phase_empty (wf_Phase wf)) eqn:Hph; [no_calls|].
  destruct (wf_Controller wf) as [[kind n]|] eqn:Hown; [|no_calls].
  destruct (bool_decide_reflect (kind = "Addon")) as [->|]; [|no_calls]. cbn [negb] in He.
  apply exec_bind in He as [(tr1 & tr2 & e & -> & H1p & He)|(m & H1p & _)].
  - assert (tr2 = []) as -> by (by destruct e; apply exec_inv in He as [-> _]).
    rewrite app_nil_r in *.
    destruct (update_from_workflow_writes _ _ _ _ _ _ _ H1p Hin)
      as (existing & s & rest & reason & -> & ? & ? & ? & _ & ?).
    exists wf, n, existing, s, rest, reason. split_and!; try done. by apply eq_None_not_Some.
  - destruct (update_from_workflow_writes _ _ _ _ _ _ _ H1p Hin)
      as (existing & s & rest & reason & -> & ? & ? & ? & _ & ?).
    exists wf, n, existing, s, rest, reason. split_and!; try done. by apply eq_None_not_Some.
Qed.

(** ** Witnesses *)

Abbreviation sample_theorem thm :=
  (thm range_fwd star_semver sample_yaml sample_reader default_retry
     tree_object sample_lifecycle sample_lifecycle_laws sample_selectors sample_util) (only parsing).

Definition waiting_world : world := reconciles 1 (fresh_world WorkflowRunning).

(** The addon of the [i]-th call, a status write. *)
Definition written (w : world) (i : nat) : Addon :=
  match sample_trace w [] !! i with
  | Some (existT (CStatusUpdate a) _) => a | _ => fresh_addon
  end.

Lemma running_addon_is_requeued_witness : retried (mkResult false (30 * Second)) None.
Proof.
  apply (sample_theorem (@running_addon_is_requeued) [] (addon_key fresh_addon)
    (sample_trace waiting_world []) (mkResult false (30 * Second)) None
    (written waiting_world 19) None).
  - replace (Val (mkResult false (30 * Second), None)) with (sample_outcome waiting_world [])
      by (vm_compute; reflexivity). exact (sample_run waiting_world []).
  - apply (list_elem_of_lookup_2 _ 19). vm_compute. reflexivity.
  - vm_compute. reflexivity.
Defined.

Definition stale_tail : list event := drop 2 (sample_trace stale_world []).

Lemma spec_change_resets_status_witness :
  exists now, existT CNow now ∈ stale_tail /\
    Status (written stale_world 6) = reset_status fresh_addon now.
Proof.
  apply (sample_theorem (@spec_change_resets_status) [] (addon_key fresh_addon) fresh_addon
    "addon-manager-system" {[ResourceDefaultOwnLabel := "c"]}
    [w_workflow stale_world "c-install-0-wf"] stale_tail (sample_outcome stale_world [])
    (written stale_world 6) None).
  - reflexivity.
  - vm_compute. discriminate.
  - match goal with |- exec _ ?l _ =>
      replace l with (sample_trace stale_world []) by (vm_compute; reflexivity) end.
    exact (sample_run stale_world []).
  - apply (list_elem_of_lookup_2 _ 4). vm_compute. reflexivity.
Defined.

(** An addon that was installed, and the same after an edit of its spec. *)
Definition installed_world : world := reconciles 2 (fresh_world WorkflowSucceeded).
Definition installed_addon : Addon := default fresh_addon (w_addon installed_world).

Lemma completed_addon_drops_resources_witness :
  updater_call (CStatusUpdate (written installed_world 3)) = true \/
  exists w, CStatusUpdate (written installed_world 3) = CStatusUpdate w /\
    Status w = set_Resources [] (Status installed_addon).
Proof.
  apply (@completed_addon_drops_resources range_fwd star_semver sample_yaml sample_reader
    default_retry sample_lifecycle sample_selectors sample_util [] (addon_key fresh_addon)
    installed_addon (drop 1 (sample_trace installed_world [])) (sample_outcome installed_world [])
    (CStatusUpdate (written installed_world 3)) None).
  - vm_compute. reflexivity.
  - vm_compute. reflexivity.
  - vm_compute. reflexivity.
  - match goal with |- exec _ ?l _ =>
      replace l with (sample_trace installed_world []) by (vm_compute; reflexivity) end.
    exact (sample_run installed_world []).
  - apply (list_elem_of_lookup_2 _ 2). vm_compute. reflexivity.
Defined.

(** Services that cannot list workflows. *)
Definition flaky_handler (w : world) (c : Call) : world * Resp c :=
  match c as c return world * Resp c with
  | CListWorkflows _ _ => (w, Err unavailable)
  | c => world_handler w c
  end.

Definition edited_addon : Addon := set_PkgVersion "v2" installed_addon.
Definition edited_world : world := w_set_addon (Some edited_addon) installed_world.

Definition flaky_run : list event * outcome (Result * option error) :=
  trace flaky_handler edited_world (sample_Reconcile [] (addon_key fresh_addon)).

Lemma flaky_exec :
  exec (sample_Reconcile [] (addon_key fresh_addon)) flaky_run.1 flaky_run.2.
Proof. exact (exec_trace flaky_handler edited_world _). Qed.

Definition lost_addon : Addon :=
  mkAddon (Meta edited_addon) (Spec edited_addon) (Status (processed edited_addon)).
Definition lost_world : world := w_set_addon (Some lost_addon) installed_world.


(** The workflow controller in a world whose install workflow has finished. *)
Definition finished_world : world :=
  let w := reconciles 2 (fresh_world WorkflowRunning) in
  mkWorld (w_addon w) (w_ticks w) (w_cache w) (w_wfs w) (w_now w) WorkflowSucceeded.

Definition wf_request : NamespacedName :=
  mkNN "addon-manager-system" (default "" (head (w_wfs finished_world))).

Definition wf_run : list event * outcome (Result * option error) :=
  trace world_handler finished_world
    (@WorkflowReconcile default_retry (fun e => Error e) wf_request).

Definition wf_written : Addon :=
  match wf_run.1 !! 4 with Some (existT (CStatusUpdate a) _) => a | _ => fresh_addon end.

Lemma workflow_reconcile_writes_witness :
  exists wf n existing s rest reason,
    wf_run.1 = existT (CClientGetWorkflow wf_request) (Ok wf) ::
         existT (CGetAddon (mkNN (wf_Namespace wf) n)) (Ok existing) :: rest /\
    wf_DeletionTimestamp wf = None /\ phase_empty (wf_Phase wf) = false /\
    wf_Controller wf = Some ("Addon", n) /\
    phase_Completed (GetInstallStatus existing) = false /\
    is_step s /\ GetFormattedWorkflowName existing s = wf_Name wf /\
    Status wf_written = Status (SetStatusByLifecyleStep s
      (ConvertWorkflowPhaseToAddonPhase s (wf_Phase wf)) [reason] existing).1.
Proof.
  apply (@workflow_reconcile_writes default_retry (fun e => Error e) wf_request wf_run.1 wf_run.2
    wf_written None).
  - exact (exec_trace world_handler finished_world _).
  - apply (list_elem_of_lookup_2 _ 4). vm_compute. reflexivity.
Defined.

(** A world in which the installation has been pending for an hour. *)
Definition expired_world : world :=
  let w := reconciles 2 (fresh_world WorkflowRunning) in
  mkWorld (w_addon w) (w_ticks w) (w_cache w) (w_wfs w) (w_now w + TTL_Milliseconds) WorkflowRunning.

Definition pending_addon : Addon := default fresh_addon (w_addon expired_world).

