(* ===== verification/Progress.v ===== *)
(** Installation makes progress: in a cluster that answers, an addon waits
    until it is valid, and ends up installed when its workflows succeed.

    The cluster here is quiet: one reconcile at a time, no errors and no
    conflicts.  What it holds besides the addon varies from reconcile to
    reconcile: the phase of the workflows, the clock, what is observed, and
    what other addons have put into the version cache. *)
From S2P Require Import Prelude GoStrings GoFmt AddonTypes Common VersionCache Unstructured.
From S2P Require Import TreeObject Validator Effects Updater Workflow Objects Controller.
From S2P Require Import WorkflowController Samples Protocol Outcome.

(** ** Running programs *)
Section run.
Context {W : Type} (h : W -> forall c : Call, W * Resp c).

Lemma run_bind {A B} w (p : Prog A) (f : A -> Prog B) :
  run h w (p ≫= f) =
  match run h w p with
  | (w', Val a) => run h w' (f a)
  | (w', Panicked m) => (w', Panicked m)
  end.
Proof.
  revert w. induction p as [a|m|c k IH]; intros w; [done..|].
  cbn. destruct (h w c) as [w' r]. apply IH.
Qed.

Lemma run_bind_Val {A B} w w' a (p : Prog A) (f : A -> Prog B) :
  run h w p = (w', Val a) -> run h w (p ≫= f) = run h w' (f a).
Proof. intros Hp. by rewrite run_bind, Hp. Qed.

Lemma run_call_bind {B} w c (f : Resp c -> Prog B) :
  run h w (call c ≫= f) = let '(w', r) := h w c in run h w' (f r).
Proof. done. Qed.

Lemma run_recover {A} w w' a (z : A) (p : Prog A) :
  run h w p = (w', Val a) -> run h w (recover z p) = (w', Val a).
Proof.
  revert w. induction p as [b|m|c k IH]; intros w; [done..|].
  cbn. destruct (h w c) as [w1 r]. apply IH.
Qed.

Lemma run_defer {A} w w' w'' a (d : Prog unit) (p : Prog A) :
  run h w p = (w', Val a) -> run h w' d = (w'', Val tt) -> run h w (defer d p) = (w'', Val a).
Proof.
  intros Hp Hd. revert w Hp. induction p as [b|m|c k IH]; intros w Hp; [|done|].
  - injection Hp as <- <-. cbn [defer]. by rewrite (run_bind_Val _ _ _ _ _ Hd).
  - cbn in *. destruct (h w c) as [w1 r]. by apply IH.
Qed.

(** Calls that leave the state alone. *)
Lemma run_stable {A} P w (p : Prog A) :
  calls_all P p -> (forall c, P c -> (h w c).1 = w) -> (run h w p).1 = w.
Proof.
  intros Hp HP. unfold calls_all in Hp. induction p as [a|m|c k IH]; [done..|].
  destruct Hp as [Hc Hk]. cbn. specialize (HP c Hc). destruct (h w c) as [w1 r].
  cbn in HP. subst. apply IH, Hk.
Qed.
End run.

(** The cache entry of an addon. *)
Definition own_version (a : Addon) : Version :=
  mkVersion (addon_Name a) (addon_Namespace a) (GetPackageSpec a) (GetInstallStatus a).

(** A status update, where the API has the addon, the guard lets the write
    through and the API accepts it. *)
Lemma UpdateStatus_accepted `{RetryOnConflict} {W} (h : W -> forall c : Call, W * Resp c)
    (w w1 w2 : W) (a cur : Addon) :
  h w (CLockStatus (addon_Name a)) = (w, tt) ->
  h w (CGetAddon (addon_key a)) = (w, Ok cur) ->
  guard_blocks (Status cur) (Status a) = false ->
  h w (CStatusUpdate (set_Status (fun _ => Status a) cur)) = (w1, None) ->
  h w1 (CAddVersion (own_version a)) = (w2, tt) ->
  h w2 (CUnlockStatus (addon_Name a)) = (w2, tt) ->
  run h w (UpdateStatus a) = (w2, Val None).
Proof.
  intros Hl Hget Hg Hup Hadd Hul. unfold UpdateStatus.
  etrans; [apply run_call_bind|]. rewrite Hl.
  assert (forall g, run h w (update_attempt a g) = (w1, Val (g, None))) as Hatt.
  { intros g. unfold update_attempt. etrans; [apply run_call_bind|]. rewrite Hget, Hg.
    etrans; [apply run_call_bind|]. by rewrite Hup. }
  assert (run h w1 (addAddonToCache a) = (w2, Val tt)) as Hcache.
  { change (addAddonToCache a) with (call (CAddVersion (own_version a))). unfold call. cbn [run].
    by rewrite Hadd. }
  apply run_defer with (w' := w2); [|unfold call; cbn [run]; by rewrite Hul].
  rewrite (run_bind_Val _ w w1 (no_guard, None)).
  - cbv beta iota zeta delta [guardFired no_guard].
    by rewrite (run_bind_Val _ _ _ _ _ _ Hcache).
  - destruct (retry_unrolls (update_attempt a) no_guard) as [n ->].
    destruct n as [|n]; cbn [retry_unroll]; [apply Hatt|].
    by rewrite (run_bind_Val _ _ _ _ _ _ (Hatt no_guard)).
Qed.

(** ** The cluster *)

Record store := mkStore {
  st_addon : Addon;
  st_cache : Cached.cached
}.

(** What else the cluster answers with. *)
Record surroundings := mkSurroundings {
  s_phase : WorkflowPhase;
  s_now : Z;
  s_old : list Workflow;
  s_secrets : list object;
  s_observed : ListKind -> list ListedObject
}.

Definition cluster (s : surroundings) (w : store) (c : Call) : store * Resp c :=
  match c as c return store * Resp c with
  | CGetAddon nn => (w, if addon_key (st_addon w) == nn then Ok (st_addon w) else Err not_found)
  | CStatusUpdate o =>
      (mkStore (set_Status (fun _ => Status o) (st_addon w)) (st_cache w), None)
  | CUpdate o =>
      let a := mkAddon (Meta o) (Spec o) (Status (st_addon w)) in (mkStore a (st_cache w), Ok a)
  | CClientGetWorkflow nn =>
      (w, Ok (mkWorkflow (NN_Name nn) (NN_Namespace nn) None None (s_phase s) ""))
  | CGetWorkflow ns n => (w, Ok (mkWorkflow n ns None None (s_phase s) ""))
  | CListWorkflows _ _ => (w, Ok (s_old s))
  | CDeleteWorkflow _ _ => (w, None)
  | CCreateWorkflow _ _ _ => (w, None)
  | CDynDeleteWorkflow _ _ => (w, None)
  | CListSecrets _ => (w, Ok (s_secrets s))
  | CList kind _ _ => (w, Ok (s_observed s kind))
  | CEvent _ _ _ => (w, tt)
  | CNow => (w, s_now s)
  | CReadCache => (w, st_cache w)
  | CAddVersion v => (mkStore (st_addon w) (Cached.AddVersion v (st_cache w)), tt)
  | CRemoveVersion p v => (mkStore (st_addon w) (Cached.RemoveVersion p v (st_cache w)), tt)
  | CHasVersionName n => (w, @Cached.HasVersionName range_fwd [] (st_cache w) n)
  | CLockStatus _ | CUnlockStatus _ | CDropStatusMutex _ => (w, tt)
  end.

Lemma AddVersion_twice v c : Cached.AddVersion v (Cached.AddVersion v c) = Cached.AddVersion v c.
Proof.
  unfold Cached.AddVersion. cbn. rewrite !lookup_insert_eq. cbn. by rewrite !insert_insert_eq.
Qed.

(** One call. *)
Ltac run_call := etrans; [apply run_call_bind | cbn [cluster]].

Section cluster.
Context `{GoRange, Semver, Yaml, UnstructuredReader, RetryOnConflict}.
Context `{AddonLifecycleLaws, Selectors, ControllerUtil}.
Implicit Types (s : surroundings) (w : store) (a b : Addon).

(** A status update that the race guard lets through. *)
Lemma UpdateStatus_run s w a :
  addon_key (st_addon w) = addon_key a ->
  guard_blocks (Status (st_addon w)) (Status a) = false ->
  run (cluster s) w (UpdateStatus a) =
  (mkStore (set_Status (fun _ => Status a) (st_addon w))
     (Cached.AddVersion (own_version a) (st_cache w)), Val None).
Proof.
  intros Hkey Hg.
  apply (UpdateStatus_accepted (cluster s) w
    (mkStore (set_Status (fun _ => Status a) (st_addon w)) (st_cache w)) _ a (st_addon w));
    [done | | done | done..].
  cbn. by rewrite bool_decide_eq_true_2.
Qed.

(** ** The steps of a reconcile *)

Context (sp : AddonSpec) (ns nm : string).

(** The addon that is installed: alive, with this name and spec. *)
Definition this_addon a : Prop :=
  Spec a = sp /\ addon_key a = mkNN ns nm /\ DeletionTimestamp (Meta a) = None.

(** What the installation needs from the cluster: workflows that can be
    submitted, selectors that can be converted, and the secrets. *)
Record installable : Prop := {
  templates_submit s w t a step wt :
    this_addon a -> step = Prereqs \/ step = Install -> GetWorkflowType a step = Ok wt ->
    Template wt <> "" ->
    (run (cluster s) w (wfl_Install t a
       (NewWorkflowProxy (GetFormattedWorkflowName a step) wt step))).2 = Val None;
  own_selector : selector_error (mkLabelSelector {[ResourceDefaultOwnLabel := nm]} []) = None;
  observe_selector a : this_addon a ->
    selector_error (mkLabelSelector (default_labels a (MatchLabels (Selector sp)))
      (MatchExpressions (Selector sp))) = None
}.

Definition secrets_present s : Prop :=
  exists names, secret_names (s_secrets s) = Val names /\
    Forall (fun x => Secret_Name x ∈ names) (Secrets sp).

(** Workflows that have not failed. *)
Definition unfailed (ph : WorkflowPhase) : Prop :=
  ph ∈ [WorkflowUnknown; WorkflowPending; WorkflowRunning; WorkflowSucceeded].

(** Not completed: waiting for its dependencies, or with running workflows. *)
Definition underway a : Prop :=
  phase_Running (GetInstallStatus a) = true /\
  (GetPrereqStatus a = Pending \/ GetPrereqStatus a = Succeeded).

Definition installed a : Prop := GetInstallStatus a = Succeeded /\ GetPrereqStatus a = Succeeded.

Lemma underway_open a : underway a -> phase_Completed (GetInstallStatus a) = false.
Proof.
  intros [Hr _]. destruct (phase_Completed _) eqn:Hc; [|done].
  by rewrite (Completed_not_Running _ Hc) in Hr.
Qed.

Lemma underway_not_installed a : underway a -> ~ installed a.
Proof. intros [Hr _] [Hin _]. by rewrite Hin in Hr. Qed.

Lemma check_secrets_ok a names l :
  Forall (fun x => Secret_Name x ∈ names) l -> check_secrets a names l = None.
Proof.
  induction 1 as [|x l Hx _ IH]; [done|]. cbn. by rewrite bool_decide_eq_true_2.
Qed.

Lemma validateSecrets_run s w a :
  Spec a = sp -> secrets_present s ->
  run (cluster s) w (validateSecrets a) = (w, Val None).
Proof.
  intros Hsp (names & Hn & Hall). unfold validateSecrets. run_call. rewrite Hn. cbn.
  rewrite Hsp. by rewrite (check_secrets_ok a names).
Qed.

(** The addon after a workflow step in these surroundings. *)
Definition after_step s (step : LifecycleStep) a : Addon :=
  match GetWorkflowType a step with
  | Ok wt =>
      let ph := if Template wt == "" then Succeeded
                else ConvertWorkflowPhaseToAddonPhase step (s_phase s) in
      if ph == "" then a else (SetStatusByLifecyleStep step ph [] a).1
  | Err _ => a
  end.

Lemma wfl_Install_run s w t a step wt :
  installable -> this_addon a -> step = Prereqs \/ step = Install ->
  GetWorkflowType a step = Ok wt -> Template wt <> "" ->
  run (cluster s) w (wfl_Install t a (NewWorkflowProxy (GetFormattedWorkflowName a step) wt step)) =
  (w, Val None).
Proof.
  intros Hi Ha Hstep Hwt Htpl.
  pose proof (templates_submit Hi s w t a step wt Ha Hstep Hwt Htpl) as Hr.
  pose proof (run_stable (cluster s) _ w _ (wfl_Install_calls t a
    (NewWorkflowProxy (GetFormattedWorkflowName a step) wt step))) as Hw.
  destruct (run (cluster s) w _) as [w1 r]. cbn in *. rewrite Hr, Hw; [done|]. by intros [].
Qed.

Lemma runWorkflow_run s w t step a :
  installable -> this_addon a -> step = Prereqs \/ step = Install ->
  step_completed step a = false ->
  run (cluster s) w (runWorkflow t step a) = (w, Val (after_step s step a, None)).
Proof.
  intros Hi Ha Hstep Hc. unfold runWorkflow, after_step. rewrite Hc.
  assert (is_step step) as Hs by (unfold is_step; set_solver).
  destruct (GetFormattedWorkflowName_step a step Hs) as (wt & prefix & Hwt & _ & Hname).
  rewrite Hwt. case_bool_decide as Htpl; [done|]. cbv zeta.
  rewrite bool_decide_eq_false_2.
  2: { rewrite Hname. destruct prefix; done. }
  rewrite (run_bind_Val _ _ _ _ _ _ (wfl_Install_run s w t a step wt Hi Ha Hstep Hwt Htpl)).
  run_call. run_call. cbn [wf_Phase]. by case_bool_decide.
Qed.

(** The step is as it was, pending, or has succeeded; it has succeeded when
    its workflow has. *)
Lemma after_step_cases s step a :
  step = Prereqs \/ step = Install -> unfailed (s_phase s) ->
  after_step s step a = (SetStatusByLifecyleStep step Succeeded [] a).1 \/
  (s_phase s <> WorkflowSucceeded /\
    (after_step s step a = a \/ after_step s step a = (SetStatusByLifecyleStep step Pending [] a).1)).
Proof.
  intros Hstep Hph. unfold after_step.
  assert (exists wt, GetWorkflowType a step = Ok wt) as [wt ->]
    by (apply GetWorkflowType_step; unfold is_step; set_solver).
  assert ((step == Delete) = false) as Hd by (destruct Hstep as [->| ->]; done).
  unfold unfailed in Hph. rewrite !elem_of_cons, elem_of_nil in Hph.
  cbv zeta. destruct (Template wt == ""); [by left|].
  destruct Hph as [->|[->|[->|[->|[]]]]]; cbn [ConvertWorkflowPhaseToAddonPhase];
    rewrite ?Hd; first [by left | right; split; [done|]; first [by left | by right]].
Qed.

Lemma after_prereqs s a :
  underway a -> unfailed (s_phase s) ->
  underway (after_step s Prereqs a) /\
  (s_phase s = WorkflowSucceeded -> GetPrereqStatus (after_step s Prereqs a) = Succeeded).
Proof.
  intros Hp Hph.
  destruct (after_step_cases s Prereqs a ltac:(by left) Hph) as [->|[Hs [->| ->]]]; [|done|].
  - split; [|done]. by split; [|right].
  - split; [|done]. by split; [|left].
Qed.

Lemma after_install s a :
  phase_Running (GetInstallStatus a) = true -> GetPrereqStatus a = Succeeded ->
  unfailed (s_phase s) ->
  (underway (after_step s Install a) \/ installed (after_step s Install a)) /\
  (s_phase s = WorkflowSucceeded -> installed (after_step s Install a)).
Proof.
  intros Hi Hpre Hph.
  destruct (after_step_cases s Install a ltac:(by right) Hph) as [->|[Hs [->| ->]]].
  - assert (installed (SetStatusByLifecyleStep Install Succeeded [] a).1) as Hin by by split.
    split; [by right | done].
  - split; [left; split; [done | by right] | done].
  - split; [left; split; [done | by right] | done].
Qed.

Lemma after_step_same s step a : same_but_phases a (after_step s step a).
Proof. unfold after_step. repeat case_match; auto with addon. Qed.

Lemma this_addon_same a b : same_but_phases a b -> this_addon a -> this_addon b.
Proof.
  intros (Hm & Hs & _) (Hsp & Hk & Hd). unfold this_addon, addon_key, addon_Name, addon_Namespace in *.
  by rewrite Hs, Hm.
Qed.

(** What [executePrereqAndInstall] and the rest of a reconcile leave. *)
Definition advanced s a a' : Prop :=
  same_but_phases a a' /\ (underway a' \/ installed a') /\
  (s_phase s = WorkflowSucceeded -> installed a').

Lemma runPrereqs_run s w t a :
  installable -> this_addon a -> underway a -> unfailed (s_phase s) ->
  exists a', run (cluster s) w (runWorkflow t Prereqs a) = (w, Val (a', None)) /\
    same_but_phases a a' /\ underway a' /\
    (s_phase s = WorkflowSucceeded -> GetPrereqStatus a' = Succeeded).
Proof.
  intros Hi Ha Hp Hph. destruct (step_completed Prereqs a) eqn:Hc.
  - exists a. unfold runWorkflow. rewrite Hc. split_and!; [done..|]. intros _.
    destruct Hp as [_ [Hpre|]]; [|done]. unfold step_completed in Hc. by rewrite Hpre in Hc.
  - exists (after_step s Prereqs a). destruct (after_prereqs s a Hp Hph) as [Hp' Hs'].
    split_and!; [apply runWorkflow_run; auto | apply after_step_same | done | done].
Qed.

Lemma executePrereqAndInstall_run s w t a :
  installable -> this_addon a -> underway a -> unfailed (s_phase s) -> secrets_present s ->
  exists a', run (cluster s) w (executePrereqAndInstall t a) = (w, Val (a', None)) /\ advanced s a a'.
Proof.
  intros Hi Ha Hp Hph Hsec.
  destruct (runPrereqs_run s w (0 :: t) a Hi Ha Hp Hph) as (a1 & Hrun1 & Hsame1 & Hp1 & Hs1).
  pose proof (this_addon_same a a1 Hsame1 Ha) as Ha1. unfold executePrereqAndInstall.
  rewrite (run_bind_Val _ _ _ _ _ _ Hrun1). destruct Hp1 as [Hinst1 [Hpre1|Hpre1]]; rewrite Hpre1.
  - exists a1. split; [done|]. split_and!; [done | left; split; auto |].
    intros Hs%Hs1. by rewrite Hs in Hpre1.
  - change (phase_Succeeded Succeeded) with true. cbn iota.
    rewrite (run_bind_Val _ _ _ _ _ _ (validateSecrets_run s w a1 (proj1 Ha1) Hsec)).
    assert (step_completed Install a1 = false) as Hc
      by (unfold step_completed; by rewrite (underway_open a1 (conj Hinst1 (or_intror Hpre1)))).
    rewrite (run_bind_Val _ _ _ _ _ _
      (runWorkflow_run s w (1 :: t) Install a1 Hi Ha1 (or_intror eq_refl) Hc)).
    exists (after_step s Install a1). split; [done|].
    destruct (after_install s a1 Hinst1 Hpre1 Hph) as [? ?]. split_and!; [|done|done].
    etrans; [exact Hsame1 | apply after_step_same].
Qed.

(** Observation adds labels to the selector in memory, nothing else. *)
Definition same_but_selector a b : Prop :=
  Meta b = Meta a /\ Status b = Status a /\ Spec_Package (Spec b) = Spec_Package (Spec a).

Lemma observeResources_run s w a :
  installable -> this_addon a ->
  exists a' l, run (cluster s) w (observeResources a) = (w, Val (a', l, None)) /\
    same_but_selector a a'.
Proof.
  intros Hi Ha. unfold observeResources. cbv zeta.
  pose proof (observe_selector Hi a Ha) as Hsel. destruct Ha as [<- _]. rewrite Hsel.
  eexists _, _. split.
  - repeat (etrans; [apply run_bind_Val; reflexivity|]). reflexivity.
  - by case_bool_decide.
Qed.

(** The rest of the status. *)
Definition same_progress (st st' : AddonStatus) : Prop :=
  Checksum st' = Checksum st /\ Status_Lifecycle st' = Status_Lifecycle st /\
  StartTime st' = StartTime st.

Lemma observe_and_return_run s w a :
  installable -> this_addon a ->
  exists a' ret, run (cluster s) w (observe_and_return a) = (w, Val (a', (ret, None))) /\
    Meta a' = Meta a /\ Spec_Package (Spec a') = Spec_Package (Spec a) /\
    same_progress (Status a) (Status a').
Proof.
  intros Hi Ha. destruct (observeResources_run s w a Hi Ha) as (a1 & l & Hrun & Hm & Hs & Hp).
  unfold observe_and_return. rewrite (run_bind_Val _ _ _ _ _ _ Hrun).
  cbv beta iota zeta. rewrite <-Hs. destruct (0 <? length l)%nat, (phase_Running _);
    eexists _, _; (split; [reflexivity|]); by split_and!.
Qed.

Lemma SetFinalizer_run s w a f :
  this_addon a -> this_addon (st_addon w) -> same_progress (Status (st_addon w)) (Status a) ->
  exists w' a', run (cluster s) w (SetFinalizer a f) = (w', Val (a', None)) /\
    st_cache w' = st_cache w /\ Status (st_addon w') = Status (st_addon w) /\
    this_addon (st_addon w') /\ this_addon a' /\ same_progress (Status (st_addon w)) (Status a').
Proof.
  intros Ha Hw Hst. unfold SetFinalizer. rewrite (proj2 (proj2 Ha)).
  destruct (ContainsFinalizer _ _); [by exists w, a|].
  eexists _, _. split; [reflexivity|]. by split_and!.
Qed.

Lemma installed_keeps a b :
  Status_Lifecycle (Status b) = Status_Lifecycle (Status a) -> installed a -> installed b.
Proof. unfold installed, GetInstallStatus, GetPrereqStatus. by intros ->. Qed.

Lemma underway_keeps a b :
  Status_Lifecycle (Status b) = Status_Lifecycle (Status a) -> underway a -> underway b.
Proof. unfold underway, GetInstallStatus, GetPrereqStatus. by intros ->. Qed.

Definition validates (c : Cached.cached) : Prop :=
  forall t a, this_addon a -> exists e, Validate_addon t (NewAddonValidator a c) = Val (true, e).

(** The addon is not valid next to what the cache holds: it has to wait. *)
Definition blocked (c : Cached.cached) : Prop :=
  forall t a, this_addon a -> exists e, Validate_addon t (NewAddonValidator a c) = Val (false, e).

(** The surroundings of a reconcile in which the installation can go on. *)
Definition favourable (start : Z) s : Prop :=
  unfailed (s_phase s) /\ secrets_present s /\ IsExpired (s_now s) start TTL_Milliseconds = false.

Lemma processAddon_underway s w t :
  let b := st_addon w in
  installable -> this_addon b -> underway b -> Checksum (Status b) = CalculateChecksum b ->
  validates (st_cache w) -> favourable (StartTime (Status b)) s ->
  exists w' a' ret, run (cluster s) w (processAddon t b) = (w', Val (a', (ret, None))) /\
    st_cache w' = st_cache w /\ Status (st_addon w') = Status b /\ this_addon (st_addon w') /\
    addon_key a' = mkNN ns nm /\ Spec_Package (Spec a') = Spec_Package sp /\
    Checksum (Status a') = Checksum (Status b) /\ StartTime (Status a') = StartTime (Status b) /\
    (underway a' \/ installed a') /\ (s_phase s = WorkflowSucceeded -> installed a').
Proof.
  intros b Hi Hb Hp Hck Hv (Hph & Hsec & Hexp).
  assert (this_addon (processed b)) as Hb1 by exact Hb.
  assert (same_progress (Status b) (Status (processed b))) as Hst1 by by split_and!.
  destruct (Hv (0 :: t) (processed b) Hb1) as [e He].
  destruct (SetFinalizer_run s w (processed b) FinalizerName Hb1 Hb Hst1)
    as (w1 & b2 & Hfin & Hcache & Hw1 & Hthis & Hb2 & Hck2 & Hph2 & Hstart2).
  pose proof (underway_keeps _ _ Hph2 Hp) as Hp2.
  destruct (executePrereqAndInstall_run s w1 (1 :: t) b2 Hi Hb2 Hp2 Hph Hsec)
    as (b3 & Hex & Hsame3 & Hor3 & Hdone3).
  pose proof (this_addon_same b2 b3 Hsame3 Hb2) as Hb3.
  destruct (observe_and_return_run s w1 b3 Hi Hb3) as (b4 & ret & Hobs & Hm4 & Hpk4 & Hck4 & Hph4 & Hstart4).
  destruct Hsame3 as (_ & _ & Hck3 & _ & Hstart3).
  assert (run (cluster s) w (lift_outcome (Validate_addon (0 :: t)
    (NewAddonValidator (processed b) (st_cache w)))) = (w, Val (true, e))) as Hval by (by rewrite He).
  exists w1, b4, ret. split.
  - unfold processAddon, validateChecksum. rewrite bool_decide_eq_true_2 by done.
    fold (processed b). rewrite Installed_processed, (underway_open b Hp).
    run_call. etrans; [apply (run_bind_Val _ _ _ _ _ _ Hval)|]. cbv beta iota.
    run_call. etrans; [apply (run_bind_Val _ _ _ _ _ _ Hfin)|]. cbv beta iota.
    rewrite (underway_open b2 Hp2). run_call. rewrite Hstart2. fold b. rewrite Hexp.
    etrans; [apply (run_bind_Val _ _ _ _ _ _ Hex)|]. exact Hobs.
  - assert (addon_key b4 = addon_key b3) as Hkey4 by (unfold addon_key, addon_Name, addon_Namespace; by rewrite Hm4).
    unfold b. split_and!; [done | done | done | | | congruence | congruence | |].
    + rewrite Hkey4. apply Hb3.
    + rewrite Hpk4. by rewrite (proj1 Hb3).
    + destruct Hor3 as [?|?]; [left; by eapply underway_keeps | right; by eapply installed_keeps].
    + intros Hs. by eapply installed_keeps, Hdone3.
Qed.

(** ** Reconciles *)

Definition round (t : list nat) s w : store :=
  (run (cluster s) w (Reconcile t (mkNN ns nm))).1.

(** The reconcile of an addon that is alive writes the processed status. *)
Lemma round_run s w t w' a' ret e :
  this_addon (st_addon w) ->
  run (cluster s) w (processAddon t (st_addon w)) = (w', Val (a', (ret, e))) ->
  addon_key (st_addon w') = mkNN ns nm -> addon_key a' = mkNN ns nm ->
  guard_blocks (Status (st_addon w')) (Status a') = false ->
  round t s w = mkStore (set_Status (fun _ => Status a') (st_addon w'))
                  (Cached.AddVersion (own_version a') (st_cache w')).
Proof.
  intros (_ & Hkey & Hd) Hrun Hk1 Hk2 Hg.
  assert (run (cluster s) w (Reconcile t (mkNN ns nm)) =
    (mkStore (set_Status (fun _ => Status a') (st_addon w'))
       (Cached.AddVersion (own_version a') (st_cache w')), Val (ret, e))) as Hrec.
  { unfold Reconcile. run_call. rewrite bool_decide_eq_true_2 by done. unfold execAddon.
    apply run_recover. rewrite Hd. rewrite (run_bind_Val _ _ _ _ _ _ Hrun).
    rewrite (run_bind_Val _ _ _ _ _ _ (UpdateStatus_run s w' a' ltac:(congruence) Hg)). done. }
  unfold round. by rewrite Hrec.
Qed.

(** The state of an installation that started at [start]: it goes on, or it
    is finished. *)
Definition tracking (start : Z) w : Prop :=
  let b := st_addon w in
  this_addon b /\ Checksum (Status b) = CalculateChecksum b /\ StartTime (Status b) = start /\
  (underway b \/ installed b).

Lemma CalculateChecksum_spec a b : Spec a = Spec b -> CalculateChecksum a = CalculateChecksum b.
Proof. unfold CalculateChecksum. by intros ->. Qed.

Lemma this_addon_status f a : this_addon a -> this_addon (set_Status f a).
Proof. done. Qed.

Lemma this_checksum a b : this_addon a -> this_addon b -> CalculateChecksum a = CalculateChecksum b.
Proof. intros [Ha _] [Hb _]. apply CalculateChecksum_spec. congruence. Qed.

Lemma round_installed s w t start :
  tracking start w -> installed (st_addon w) ->
  tracking start (round t s w) /\ installed (st_addon (round t s w)).
Proof.
  intros (Hb & Hck & Hstart & _) Hin.
  assert (phase_Completed (GetInstallStatus (st_addon w)) = true) as Hc by (by rewrite (proj1 Hin)).
  pose proof (f_equal (run (cluster s) w) (processAddon_completed t (st_addon w) Hck Hc)) as Hrun.
  rewrite (round_run s w t w (processed (st_addon w)) zero_Result None Hb Hrun);
    [| apply Hb | apply Hb |].
  - unfold tracking. cbn [st_addon]. rewrite (processed_current _ Hck).
    assert (installed (set_Status (fun _ => set_Resources [] (Status (st_addon w))) (st_addon w)))
      as Hin' by exact Hin.
    split_and!; [by apply this_addon_status | exact Hck | exact Hstart | by right | exact Hin' .. ].
  - rewrite (processed_current _ Hck). unfold guard_blocks. cbn.
    change (Installed_Phase (Status_Lifecycle (Status (st_addon w)))) with (GetInstallStatus (st_addon w)).
    by rewrite (proj1 Hin).
Qed.

(** No status is guarded against while the installation is not completed. *)
Lemma underway_unguarded a st : underway a -> guard_blocks (Status a) st = false.
Proof.
  intros Hu. unfold guard_blocks.
  change (Installed_Phase (Status_Lifecycle (Status a))) with (GetInstallStatus a).
  by rewrite (underway_open a Hu).
Qed.

(** What the processed addon says is what is stored. *)
Lemma round_tracks s w t w' a' ret e start :
  tracking start w -> underway (st_addon w) ->
  run (cluster s) w (processAddon t (st_addon w)) = (w', Val (a', (ret, e))) ->
  this_addon (st_addon w') -> Status (st_addon w') = Status (st_addon w) ->
  addon_key a' = mkNN ns nm -> Checksum (Status a') = Checksum (Status (st_addon w)) ->
  StartTime (Status a') = StartTime (Status (st_addon w)) -> underway a' \/ installed a' ->
  tracking start (round t s w) /\ Status (st_addon (round t s w)) = Status a'.
Proof.
  intros (Hb & Hck & Hstart & _) Hu Hrun Hw' Hst Hkey Hck' Hstart' Hor.
  rewrite (round_run s w t w' a' ret e Hb Hrun); [| apply Hw' | done |].
  2: { rewrite Hst. by apply underway_unguarded. }
  unfold tracking. cbn [st_addon]. split; [split_and!|done].
  - by apply this_addon_status.
  - change (Checksum (Status a') = CalculateChecksum (st_addon w')). rewrite Hck', Hck.
    by apply this_checksum.
  - change (StartTime (Status a') = start). congruence.
  - exact Hor.
Qed.

Lemma round_underway s w t start :
  installable -> validates (st_cache w) -> tracking start w -> underway (st_addon w) ->
  favourable start s ->
  tracking start (round t s w) /\
  (s_phase s = WorkflowSucceeded -> installed (st_addon (round t s w))).
Proof.
  intros Hi Hv Hw Hu Hf. pose proof Hw as (Hb & Hck & Hstart & _). rewrite <-Hstart in Hf.
  destruct (processAddon_underway s w t Hi Hb Hu Hck Hv Hf)
    as (w' & a' & ret & Hrun & _ & Hst & Hthis & Hkey & _ & Hck' & Hstart' & Hor & Hdone).
  destruct (round_tracks s w t w' a' ret None start Hw Hu Hrun) as [Hw1 Heq]; [done..|].
  split; [done|]. intros Hs. apply (installed_keeps a'); [by rewrite Heq | by apply Hdone].
Qed.

Lemma GetPrereqStatus_SetInstallStatus p rs a :
  GetPrereqStatus (SetInstallStatus p rs a) = GetPrereqStatus a.
Proof. unfold SetInstallStatus. by case_match. Qed.

(** A reconcile in which the addon is not valid leaves it waiting. *)
Lemma validation_failed_run s w a e :
  exists p rs ret err,
    run (cluster s) w (validation_failed a e) = (w, Val (SetInstallStatus p rs a, (ret, err))) /\
    phase_Running p = true.
Proof.
  unfold validation_failed. cbv zeta.
  repeat match goal with |- context [if ?c then _ else _] => destruct c end;
    eexists _, _, _, _; (split; [etrans; [apply run_call_bind|]; reflexivity | reflexivity]).
Qed.

Lemma round_blocked s w t start :
  blocked (st_cache w) -> tracking start w -> underway (st_addon w) ->
  tracking start (round t s w) /\ underway (st_addon (round t s w)).
Proof.
  intros Hv Hw Hu. pose proof Hw as (Hb & Hck & Hstart & _). set (b := st_addon w) in *.
  destruct (Hv (0 :: t) (processed b) Hb) as [e He].
  destruct (validation_failed_run s w (processed b) e) as (p & rs & ret & err & Hvf & Hp).
  set (a' := SetInstallStatus p rs (processed b)) in *.
  assert (run (cluster s) w (lift_outcome (Validate_addon (0 :: t)
    (NewAddonValidator (processed b) (st_cache w)))) = (w, Val (false, e))) as Hval by (by rewrite He).
  assert (run (cluster s) w (processAddon t b) = (w, Val (a', (ret, err)))) as Hrun.
  { unfold processAddon, validateChecksum. rewrite bool_decide_eq_true_2 by done.
    fold (processed b). rewrite Installed_processed, (underway_open b Hu). run_call.
    etrans; [apply (run_bind_Val _ _ _ _ _ _ Hval) | exact Hvf]. }
  assert (same_but_phases (processed b) a') as Hsame by apply SetInstallStatus_same.
  assert (underway a') as Hu'.
  { unfold underway, a'. rewrite GetInstallStatus_SetInstallStatus, GetPrereqStatus_SetInstallStatus.
    split; [done | apply Hu]. }
  clearbody a'. pose proof Hsame as (_ & _ & Hck' & _ & Hstart').
  destruct (round_tracks s w t w a' ret err start Hw Hu Hrun) as [Hw1 Heq]; try done.
  - exact (proj1 (proj2 (this_addon_same _ _ Hsame Hb))).
  - exact (eq_trans Hck' (eq_sym Hck)).
  - by left.
  - split; [done|]. apply (underway_keeps a'); [by rewrite Heq | done].
Qed.

Lemma delete_workflows_run s w n (l : list Workflow) :
  run (cluster s) w (delete_workflows n l) = (w, Val tt).
Proof. induction l as [|x l IH]; [done|]. cbn [delete_workflows]. by run_call. Qed.

Lemma round_reset s w t :
  installable -> this_addon (st_addon w) ->
  Checksum (Status (st_addon w)) <> CalculateChecksum (st_addon w) ->
  tracking (s_now s) (round t s w).
Proof.
  intros Hi Hb Hck.
  set (a' := (SetPrereqAndInstallStatuses Pending [] (ClearStatus (set_Status
    (set_StartTime (s_now s)) (processed (st_addon w))))).1).
  assert (run (cluster s) w (processAddon t (st_addon w)) =
    (w, Val (a', (mkResult true 0, None)))) as Hrun.
  { unfold processAddon, validateChecksum. rewrite bool_decide_eq_false_2 by done.
    fold (processed (st_addon w)).
    assert (run (cluster s) w (deleteOldWorkflows (processed (st_addon w))) = (w, Val None)) as Hdel.
    { unfold deleteOldWorkflows. pose proof (own_selector Hi) as Hsel.
      assert (addon_Name (processed (st_addon w)) = nm) as -> by
        (destruct Hb as (_ & Hk & _); by injection Hk as _ <-).
      rewrite Hsel. run_call. by rewrite (run_bind_Val _ _ _ _ _ _ (delete_workflows_run s w _ _)). }
    rewrite (run_bind_Val _ _ _ _ _ _ Hdel). cbv beta iota zeta. by run_call. }
  assert (Status a' = reset_status (st_addon w) (s_now s)) as Hst by reflexivity.
  rewrite (round_run s w t w a' _ None Hb Hrun); [| apply Hb | apply Hb |].
  - unfold tracking. cbn [st_addon]. rewrite Hst. split_and!; [exact Hb | done | done |].
    left. split; [done | by left].
  - unfold guard_blocks. rewrite Hst. change (Checksum (reset_status (st_addon w) (s_now s)))
      with (CalculateChecksum (st_addon w)).
    by rewrite (bool_decide_eq_false_2 (Checksum _ = _)), !andb_false_r.
Qed.

(** A reconcile of the addon, with what the reconciles of other addons have
    made of the version cache by then. *)
Record visit := mkVisit { v_path : list nat; v_s : surroundings; v_cache : Cached.cached }.

Definition visited (w : store) (v : visit) : store :=
  round (v_path v) (v_s v) (mkStore (st_addon w) (v_cache v)).

(** The addon has to wait, or the installation can go on. *)
Definition passable (start : Z) (v : visit) : Prop :=
  blocked (v_cache v) \/ (validates (v_cache v) /\ favourable start (v_s v)).

(** The installation can go on and finds its workflows succeeded. *)
Definition decisive (v : visit) : Prop :=
  validates (v_cache v) /\ s_phase (v_s v) = WorkflowSucceeded.

Lemma blocked_not_valid c a : this_addon a -> blocked c -> ~ validates c.
Proof. intros Ha Hb Hv. destruct (Hb [] a Ha) as [e He], (Hv [] a Ha) as [e' He']. congruence. Qed.

(** One visit keeps the installation going; a decisive one ends it. *)
Lemma visit_tracks w v start :
  installable -> tracking start w -> passable start v ->
  tracking start (visited w v) /\
  (installed (st_addon w) \/ decisive v -> installed (st_addon (visited w v))).
Proof.
  intros Hi Hw Hv. set (w1 := mkStore (st_addon w) (v_cache v)).
  assert (tracking start w1) as Hw1 by exact Hw. pose proof Hw as (Hb & _ & _ & [Hu|Hin]).
  - destruct Hv as [Hblock|[Hval Hfav]].
    + destruct (round_blocked (v_s v) w1 (v_path v) start Hblock Hw1 Hu) as [Hw' _].
      split; [done|]. intros [Hin|[Hval _]]; exfalso;
        [by apply (underway_not_installed (st_addon w)) | by apply (blocked_not_valid _ _ Hb Hblock)].
    + destruct (round_underway (v_s v) w1 (v_path v) start Hi Hval Hw1 Hu Hfav) as [Hw' Hdone].
      split; [done|]. intros [Hin|[_ Hs]]; [|by apply Hdone].
      exfalso. by apply (underway_not_installed (st_addon w)).
  - destruct (round_installed (v_s v) w1 (v_path v) start Hw1 Hin) as [Hw' Hin']. done.
Qed.

Lemma visits_track (visits : list visit) w start :
  installable -> tracking start w -> Forall (passable start) visits ->
  let w' := foldl visited w visits in
  tracking start w' /\ (installed (st_addon w) \/ Exists decisive visits -> installed (st_addon w')).
Proof.
  intros Hi Hw Hall. revert w Hw. induction Hall as [|v visits Hv Hall IH]; intros w Hw.
  { split; [done|]. intros [?|Hex]; [done|]. by apply Exists_nil in Hex. }
  cbn [foldl]. destruct (visit_tracks w v start Hi Hw Hv) as [Hw' Hdone].
  destruct (IH _ Hw') as [Hend Hfin]. split; [done|]. intros Hor. apply Hfin.
  destruct Hor as [Hin|[Hd|Hex]%Exists_cons]; [left; apply Hdone; by left | |by right].
  left. apply Hdone. by right.
Qed.

(** C3: An addon that was just created or whose spec was just changed gets
    installed, as soon as its dependencies are: after the reconcile that
    notices the change, and whatever other addons put into the version cache
    between any two reconciles, however many reconciles find the addon not
    valid, because a dependency is missing or pending, or find it valid and
    its workflows still waiting or running: a reconcile that finds it valid and the
    workflows succeeded makes prerequisites and installation succeeded for
    the current spec, and later reconciles leave it so.  Provided that the
    workflows can be submitted, and that the reconciles that find the addon
    valid find no failed workflow, all the secrets, and the time limit since
    the change not reached: an addon that waits for longer is failed. *)
Theorem installation_completes (w : store) (t0 : list nat) (s0 : surroundings)
    (visits : list visit) :
  installable -> this_addon (st_addon w) ->
  Checksum (Status (st_addon w)) <> CalculateChecksum (st_addon w) ->
  Forall (passable (s_now s0)) visits -> Exists decisive visits ->
  let b := st_addon (foldl visited (round t0 s0 w) visits) in
  this_addon b /\ Checksum (Status b) = CalculateChecksum b /\
  GetPrereqStatus b = Succeeded /\ GetInstallStatus b = Succeeded.
Proof.
  intros Hi Hb Hck Hall Hex b.
  destruct (visits_track visits _ _ Hi (round_reset s0 w t0 Hi Hb Hck) Hall)
    as [(Hthis & Hck' & _) Hfin].
  destruct (Hfin (or_intror Hex)) as [Hinst Hpre]. by split_and!.
Qed.
End cluster.

(** ** A concrete cluster *)

(** The sample addon with given dependencies. *)
Section sample.
Context (deps : gmap string string).

Abbreviation sample_spec := (Spec (sample_dependent deps)).

(** Everything but the finalizers, the resource version and the status is
    known of such an addon. *)
Lemma sample_this_inv a :
  this_addon sample_spec "addon-manager-system" "c" a ->
  a = mkAddon (mkObjectMeta "c" "addon-manager-system"
    (ResourceVersion (Meta a)) None (Finalizers (Meta a)) (Labels (Meta a))) sample_spec (Status a).
Proof.
  destruct a as [[n m rv d fin lb] sp st]. intros (Hs & Hk & Hd). cbn in Hs, Hk, Hd.
  unfold addon_key in Hk. cbn in Hk. by simplify_eq.
Qed.

Lemma sample_installable :
  @installable sample_lifecycle sample_selectors sample_spec "addon-manager-system" "c".
Proof.
  split; [|reflexivity|reflexivity].
  intros s w t a step wt Ha Hstep Hwt Htpl. rewrite (sample_this_inv a Ha) in Hwt |- *.
  destruct Hstep as [->| ->]; [by vm_compute in Hwt; simplify_eq|].
  injection Hwt as <-. vm_compute. reflexivity.
Qed.
End sample.

Definition in_phase (ph : WorkflowPhase) (now : Z) : surroundings :=
  mkSurroundings ph now [] [] (fun _ => []).

(** It depends on [core/A], which is unknown, then pending, then installed. *)
Definition waiting_addon : Addon := sample_dependent {["core/A" := "v1"]}.

Definition sample_start : store := mkStore waiting_addon Cached.NewAddonVersionCacheClient.

Definition cache_with (ph : ApplicationAssemblyPhase) : Cached.cached :=
  Cached.AddVersion (sample_version "a" "core/A" "v1" ∅ ph) Cached.NewAddonVersionCacheClient.

Abbreviation sample_blocked := (@blocked range_fwd star_semver sample_yaml sample_reader
  (Spec waiting_addon) "addon-manager-system" "c").

Lemma sample_unknown_blocked : sample_blocked Cached.NewAddonVersionCacheClient.
Proof. intros t a Ha. rewrite (sample_this_inv _ a Ha). eexists. vm_compute. reflexivity. Qed.

Lemma sample_pending_blocked : sample_blocked (cache_with Pending).
Proof. intros t a Ha. rewrite (sample_this_inv _ a Ha). eexists. vm_compute. reflexivity. Qed.

Lemma sample_validates :
  @validates range_fwd star_semver sample_yaml sample_reader (Spec waiting_addon)
    "addon-manager-system" "c" (cache_with Succeeded).
Proof. intros t a Ha. rewrite (sample_this_inv _ a Ha). exists None. vm_compute. reflexivity. Qed.

(** The addon waits for its dependency; then its workflows run, then have
    succeeded; then one more reconcile, after a restart. *)
Definition sample_visits : list visit :=
  [mkVisit [1] (in_phase WorkflowUnknown 1100) Cached.NewAddonVersionCacheClient;
   mkVisit [2] (in_phase WorkflowUnknown 1200) (cache_with Pending);
   mkVisit [3] (in_phase WorkflowRunning 1500) (cache_with Succeeded);
   mkVisit [4] (in_phase WorkflowSucceeded 60000) (cache_with Succeeded);
   mkVisit [5] (in_phase WorkflowSucceeded 70000) Cached.NewAddonVersionCacheClient].

Abbreviation sample_round := (@round range_fwd star_semver sample_yaml sample_reader default_retry
  sample_lifecycle sample_selectors sample_util "addon-manager-system" "c").
Abbreviation sample_visited := (@visited range_fwd star_semver sample_yaml sample_reader
  default_retry sample_lifecycle sample_selectors sample_util "addon-manager-system" "c").

Definition sample_reset : store := sample_round [] (in_phase WorkflowUnknown 1000) sample_start.

Definition sample_phases (n : nat) : string * string :=
  let a := st_addon (foldl sample_visited sample_reset (take n sample_visits)) in
  (GetPrereqStatus a, GetInstallStatus a).

Lemma sample_in_time ph now :
  unfailed ph -> IsExpired now 1000 TTL_Milliseconds = false ->
  favourable (Spec waiting_addon) 1000 (in_phase ph now).
Proof.
  intros Hph Hnow. split_and!; [done| |done]. exists ∅. split; [done | by apply Forall_nil].
Qed.

Lemma installation_completes_witness :
  sample_phases <$> [0; 1; 2; 3; 4; 5] =
    [(Pending, Pending); (Pending, ValidationFailed); (Pending, Pending); (Succeeded, Pending);
     (Succeeded, Succeeded); (Succeeded, Succeeded)] /\
  let b := st_addon (foldl sample_visited sample_reset sample_visits) in
  GetPrereqStatus b = Succeeded /\ GetInstallStatus b = Succeeded.
Proof.
  split; [vm_compute; reflexivity|].
  refine (proj2 (proj2 (@installation_completes range_fwd star_semver sample_yaml sample_reader
    default_retry tree_object sample_lifecycle sample_lifecycle_laws sample_selectors sample_util
    (Spec waiting_addon) "addon-manager-system" "c" sample_start [] (in_phase WorkflowUnknown 1000)
    sample_visits (sample_installable _) _ _ _ _))).
  - split; [reflexivity | split; reflexivity].
  - vm_compute. discriminate.
  - apply Forall_cons; split; [left; exact sample_unknown_blocked|].
    apply Forall_cons; split; [left; exact sample_pending_blocked|].
    do 2 (apply Forall_cons; split; [right; split; [exact sample_validates|]; apply sample_in_time;
      [apply (bool_decide_unpack _); vm_compute; exact I | vm_compute; reflexivity]|]).
    apply Forall_cons; split; [left; exact sample_unknown_blocked | apply Forall_nil; exact I].
  - do 3 right. left. split; [exact sample_validates | reflexivity].
Defined.
