(* ===== verification/Deletion.v ===== *)
(** Deletion makes progress: in a cluster that answers, an addon that is
    being deleted loses its finalizer once its delete workflow has succeeded,
    and with it the API server drops the object.  And it makes none when the
    delete workflow has failed.

    As in [Progress] the cluster is quiet and one reconcile runs at a time,
    but here the reconciles of both controllers take turns, in any order. *)
From S2P Require Import Prelude GoStrings GoFmt AddonTypes Common VersionCache Unstructured.
From S2P Require Import TreeObject Validator Effects Updater Workflow Objects Controller.
From S2P Require Import WorkflowController Samples Protocol Outcome Progress.

(** ** The cluster *)

Record dstore := mkDStore {
  d_addon : option Addon;
  d_cache : Cached.cached
}.

(** A stored object that is being deleted goes away with its last
    finalizer. *)
Definition stored (a : Addon) : option Addon :=
  if bool_decide (is_Some (DeletionTimestamp (Meta a))) && bool_decide (Finalizers (Meta a) = [])
  then None else Some a.

Definition find_addon (w : dstore) (nn : NamespacedName) : result Addon :=
  match d_addon w with
  | Some a => if addon_key a == nn then Ok a else Err not_found
  | None => Err not_found
  end.

(** Every workflow belongs to the addon [nm] and is in the phase of the
    surroundings. *)
Definition deleting_cluster (nm : string) (s : surroundings) (w : dstore) (c : Call)
    : dstore * Resp c :=
  match c as c return dstore * Resp c with
  | CGetAddon nn => (w, find_addon w nn)
  | CStatusUpdate o =>
      match d_addon w with
      | Some a => (mkDStore (Some (set_Status (fun _ => Status o) a)) (d_cache w), None)
      | None => (w, Some not_found)
      end
  | CUpdate o =>
      match d_addon w with
      | Some a =>
          let a := mkAddon (Meta o) (Spec o) (Status a) in
          (mkDStore (stored a) (d_cache w), Ok a)
      | None => (w, Err not_found)
      end
  | CClientGetWorkflow nn =>
      (w, Ok (mkWorkflow (NN_Name nn) (NN_Namespace nn) None (Some ("Addon", nm)) (s_phase s) ""))
  | CGetWorkflow ns n => (w, Ok (mkWorkflow n ns None (Some ("Addon", nm)) (s_phase s) ""))
  | CListWorkflows _ _ => (w, Ok (s_old s))
  | CDeleteWorkflow _ _ => (w, None)
  | CCreateWorkflow _ _ _ => (w, None)
  | CDynDeleteWorkflow _ _ => (w, None)
  | CListSecrets _ => (w, Ok (s_secrets s))
  | CList kind _ _ => (w, Ok (s_observed s kind))
  | CEvent _ _ _ => (w, tt)
  | CNow => (w, s_now s)
  | CReadCache => (w, d_cache w)
  | CAddVersion v => (mkDStore (d_addon w) (Cached.AddVersion v (d_cache w)), tt)
  | CRemoveVersion p v => (mkDStore (d_addon w) (Cached.RemoveVersion p v (d_cache w)), tt)
  | CHasVersionName n => (w, @Cached.HasVersionName range_fwd [] (d_cache w) n)
  | CLockStatus _ | CUnlockStatus _ | CDropStatusMutex _ => (w, tt)
  end.

Ltac run_step := etrans; [apply run_call_bind | cbn [deleting_cluster]].

(** A reconcile of the addon, or of its delete workflow by the workflow
    controller. *)
Inductive dround :=
  | AddonRound (t : list nat) (s : surroundings)
  | WorkflowRound (s : surroundings).

Definition dround_surroundings (r : dround) : surroundings :=
  match r with AddonRound _ s | WorkflowRound s => s end.

Section deletion.
Context `{GoRange, Semver, Yaml, UnstructuredReader, RetryOnConflict}.
Context `{AddonLifecycleLaws, Selectors, ControllerUtil}.
Context (go_syntax : error -> string) (sp : AddonSpec) (ns nm : string).
Implicit Types (s : surroundings) (w : dstore) (a b : Addon) (r : dround).

(** The addon that is being deleted; no other finalizer holds it. *)
Definition doomed a : Prop :=
  Spec a = sp /\ addon_key a = mkNN ns nm /\ is_Some (DeletionTimestamp (Meta a)) /\
  Forall (eq FinalizerName) (Finalizers (Meta a)) /\ GetInstallStatus a <> DeleteFailed.

(** Its delete workflow, if it has one, can be submitted. *)
Definition delete_submits : Prop := forall s w t a,
  doomed a -> Template (LC_Delete (Lifecycle sp)) <> "" ->
  (run (deleting_cluster nm s) w (wfl_Install t a
     (NewWorkflowProxy (GetFormattedWorkflowName a Delete) (LC_Delete (Lifecycle sp)) Delete))).2
  = Val None.

Definition delete_workflow : string :=
  GetFormattedWorkflowName
    (mkAddon (mkObjectMeta nm ns "" None [] ∅) sp
       (mkAddonStatus "" (mkAddonStatusLifecycle "" "") [] "" 0)) Delete.

Definition dround_run w r : dstore :=
  match r with
  | AddonRound t s => (run (deleting_cluster nm s) w (Reconcile t (mkNN ns nm))).1
  | WorkflowRound s =>
      (run (deleting_cluster nm s) w (WorkflowReconcile go_syntax (mkNN ns delete_workflow))).1
  end.

(** ** The cache *)

Definition own_key : string * string := (PkgName (Spec_Package sp), PkgVersion (Spec_Package sp)).

(** Only the addon's own entry may differ. *)
Definition others_kept w w' : Prop :=
  forall k, k <> own_key -> Cached.abs (d_cache w') !! k = Cached.abs (d_cache w) !! k.

Definition gone w : Prop := d_addon w = None /\ Cached.abs (d_cache w) !! own_key = None.

(** No other package was installed under the addon's name. *)
Definition name_is_own w : Prop :=
  forall k x, k <> own_key -> Cached.abs (d_cache w) !! k = Some x -> V_Name x <> nm.

#[local] Instance others_kept_preorder : PreOrder others_kept.
Proof.
  split.
  - intros w k Hk. reflexivity.
  - intros w1 w2 w3 H12 H23 k Hk. by rewrite H23, H12.
Qed.

Lemma name_is_own_kept w w' : others_kept w w' -> name_is_own w -> name_is_own w'.
Proof. intros Hk Hn k x Hne. rewrite (Hk k Hne). by apply Hn. Qed.

Lemma others_kept_add w o o' v :
  (V_PkgName v, V_PkgVersion v) = own_key ->
  others_kept (mkDStore o (d_cache w)) (mkDStore o' (Cached.AddVersion v (d_cache w))).
Proof.
  intros Hv k Hk. cbn. rewrite Cached.abs_AddVersion, Hv. by rewrite lookup_insert_ne.
Qed.

Lemma own_version_key a :
  Spec a = sp -> (V_PkgName (own_version a), V_PkgVersion (own_version a)) = own_key.
Proof. intros Hs. unfold own_key. by rewrite <-Hs. Qed.

(** ** The addon controller *)

Lemma wfl_delete_run s w t a :
  delete_submits -> doomed a -> Template (LC_Delete (Lifecycle sp)) <> "" ->
  run (deleting_cluster nm s) w (wfl_Install t a
    (NewWorkflowProxy (GetFormattedWorkflowName a Delete) (LC_Delete (Lifecycle sp)) Delete))
  = (w, Val None).
Proof.
  intros Hd Ha Htpl. pose proof (Hd s w t a Ha Htpl) as Hr.
  pose proof (run_stable (deleting_cluster nm s) _ w _ (wfl_Install_calls t a
    (NewWorkflowProxy (GetFormattedWorkflowName a Delete) (LC_Delete (Lifecycle sp)) Delete))) as Hw.
  destruct (run (deleting_cluster nm s) w _) as [w1 r]. cbn in *. rewrite Hr, Hw; [done|].
  by intros [].
Qed.

Lemma delete_name_nonempty a : GetFormattedWorkflowName a Delete <> "".
Proof.
  destruct (GetFormattedWorkflowName_step a Delete) as (wt & prefix & _ & _ & ->);
    [unfold is_step; set_solver | by destruct prefix].
Qed.

Lemma GetWorkflowType_delete a : GetWorkflowType a Delete = Ok (LC_Delete (Lifecycle (Spec a))).
Proof. done. Qed.

Lemma step_completed_delete a :
  step_completed Delete a =
  (GetInstallStatus a == DeleteFailed) || (GetInstallStatus a == DeleteSucceeded).
Proof. done. Qed.

(** The delete workflow's phase in the addon's status. *)
Lemma delete_phase ph rs a :
  unfailed ph -> let phase := ConvertWorkflowPhaseToAddonPhase Delete ph in
  phase = "" \/
  (GetInstallStatus (SetStatusByLifecyleStep Delete phase rs a).1 = phase /\
   ((phase = Deleting /\ ph <> WorkflowSucceeded) \/ phase = DeleteSucceeded)).
Proof.
  intros Hph. unfold unfailed in Hph. rewrite !elem_of_cons, elem_of_nil in Hph.
  destruct Hph as [->|[->|[->|[->|[]]]]]; cbn zeta; [by left|right..];
    (split; [apply GetInstallStatus_SetInstallStatus|]); [by left | by left | by right].
Qed.

Lemma runWorkflow_delete_run s w t a :
  delete_submits -> doomed a -> Template (LC_Delete (Lifecycle sp)) <> "" -> unfailed (s_phase s) ->
  exists a', run (deleting_cluster nm s) w (runWorkflow t Delete a) = (w, Val (a', None)) /\
    same_but_phases a a' /\
    (s_phase s = WorkflowSucceeded -> phase_Succeeded (GetInstallStatus a') = true).
Proof.
  intros Hd Ha Htpl Hph. unfold runWorkflow. destruct (step_completed Delete a) eqn:Hc.
  - exists a. split_and!; [done..|]. intros _. destruct Ha as (_ & _ & _ & _ & Hnf).
    rewrite step_completed_delete, (bool_decide_eq_false_2 _ Hnf) in Hc.
    by apply bool_decide_eq_true in Hc as ->.
  - rewrite GetWorkflowType_delete. rewrite (proj1 Ha).
    rewrite (bool_decide_eq_false_2 _ Htpl). cbv zeta.
    rewrite (bool_decide_eq_false_2 _ (delete_name_nonempty a)).
    pose proof (delete_phase (s_phase s) [] a Hph) as Hcase. cbv zeta in Hcase.
    exists (if ConvertWorkflowPhaseToAddonPhase Delete (s_phase s) == "" then a else
      (SetStatusByLifecyleStep Delete (ConvertWorkflowPhaseToAddonPhase Delete (s_phase s)) [] a).1).
    split; [|split].
    + rewrite (run_bind_Val _ _ _ _ _ _ (wfl_delete_run s w t a Hd Ha Htpl)).
      run_step. run_step. cbn [wf_Phase]. by case_bool_decide.
    + case_bool_decide; auto with addon.
    + intros Hs. rewrite Hs in Hcase |- *.
      destruct Hcase as [Hcase|[Hcase _]]; [done|].
      rewrite bool_decide_eq_false_2 by done. by rewrite Hcase.
Qed.

Lemma doomed_same a b :
  same_but_phases a b -> GetInstallStatus b <> DeleteFailed -> doomed a -> doomed b.
Proof.
  intros (Hm & Hs & _) Hnf (Hsp & Hk & Hd & Hf & _).
  unfold doomed, addon_key, addon_Name, addon_Namespace in *. by rewrite Hs, Hm.
Qed.

(** Without its finalizer the addon is dropped. *)
Lemma stored_finalized a b x st :
  doomed a -> Meta b = Meta a ->
  stored (mkAddon (Meta (set_Meta (set_Finalizers (fun l => RemoveFinalizer l FinalizerName)) b))
    x st) = None.
Proof.
  intros (_ & _ & Hd & Hf & _) Hm. unfold stored. cbn. rewrite Hm.
  rewrite bool_decide_eq_true_2 by done. rewrite bool_decide_eq_true_2; [done|].
  apply elem_of_nil_inv. intros f [Hx Hne]%RemoveFinalizer_spec.
  rewrite Forall_forall in Hf. by apply Hne, eq_sym, Hf.
Qed.

Lemma Finalize_run s w t a :
  delete_submits -> d_addon w = Some a -> doomed a -> unfailed (s_phase s) ->
  exists w' a', run (deleting_cluster nm s) w (Finalize t a FinalizerName) = (w', Val (a', None)) /\
    d_cache w' = Cached.RemoveVersion own_key.1 own_key.2 (d_cache w) /\
    (d_addon w' = Some a \/ d_addon w' = None) /\
    (s_phase s = WorkflowSucceeded -> d_addon w' = None).
Proof.
  intros Hd Hw Ha Hph. unfold Finalize.
  match goal with
  | |- context [run _ w (?p ≫= _)] =>
      assert (exists a' fin, run (deleting_cluster nm s) w p = (w, Val (a', fin, None)) /\
        same_but_phases a a' /\ (s_phase s = WorkflowSucceeded -> fin = true))
        as (a' & fin & Hrun & Hsame & Hfin)
  end.
  { rewrite (proj1 Ha). case_bool_decide as Htpl; [by exists a, true|].
    destruct (runWorkflow_delete_run s w t a Hd Ha Htpl Hph) as (a' & Hrun & Hsame & Hs).
    exists a', (phase_Succeeded (GetInstallStatus a')).
    split; [|done]. cbn [negb]. by rewrite (run_bind_Val _ _ _ _ _ _ Hrun). }
  destruct Hsame as (Hm & Hs & _).
  rewrite (run_bind_Val _ _ _ _ _ _ Hrun). cbv beta iota. rewrite Hs, (proj1 Ha).
  destruct fin; cbv iota zeta.
  - eexists _, _. split.
    + run_step. run_step. cbn [d_addon]. rewrite Hw. cbv iota zeta.
      rewrite (stored_finalized a a' _ (Status a) Ha Hm). reflexivity.
    + cbn. by split_and!; [|right|].
  - eexists _, _. split; [by run_step|]. cbn. split_and!; [done | by left | by intros ?%Hfin].
Qed.

(** ** Reconciles *)

Lemma find_alive w a : d_addon w = Some a -> doomed a -> find_addon w (mkNN ns nm) = Ok a.
Proof.
  intros Hw (_ & Hk & _). unfold find_addon. rewrite Hw. by rewrite bool_decide_eq_true_2.
Qed.

(** A status that is written to the addon. *)
Lemma write_run s w a b :
  d_addon w = Some a -> doomed a -> same_but_phases a b ->
  GetInstallStatus b = Deleting \/ GetInstallStatus b = DeleteSucceeded ->
  exists w' a', run (deleting_cluster nm s) w (UpdateStatus b) = (w', Val None) /\
    others_kept w w' /\ d_addon w' = Some a' /\ doomed a' /\
    phase_Deleting (GetInstallStatus a') = true.
Proof.
  intros Hw Ha Hsame Hb.
  assert (addon_key b = mkNN ns nm) as Hk.
  { destruct Ha as (_ & Hk & _). destruct Hsame as (Hm & _).
    unfold addon_key, addon_Name, addon_Namespace in *. by rewrite Hm. }
  assert (Spec b = sp) as Hsp by (destruct Ha as [<- _]; apply Hsame).
  exists (mkDStore (Some (set_Status (fun _ => Status b) a))
    (Cached.AddVersion (own_version b) (d_cache w))), (set_Status (fun _ => Status b) a).
  split_and!.
  - apply UpdateStatus_accepted with
      (w1 := mkDStore (Some (set_Status (fun _ => Status b) a)) (d_cache w)) (cur := a);
      [done | | | | done..].
    + cbn. by rewrite Hk, (find_alive w a).
    + unfold guard_blocks.
      change (Installed_Phase (Status_Lifecycle (Status b))) with (GetInstallStatus b).
      by destruct Hb as [-> | ->]; rewrite andb_false_r.
    + cbn. by rewrite Hw.
  - destruct w as [o c]. apply (others_kept_add (mkDStore o c)). by apply own_version_key.
  - done.
  - destruct Ha as (? & ? & ? & ? & _). split_and!; [done..|].
    by destruct Hb as [Hb|Hb]; unfold GetInstallStatus in *; cbn; rewrite Hb.
  - by destruct Hb as [Hb|Hb]; unfold GetInstallStatus in *; cbn; rewrite Hb.
Qed.

Lemma recover_run {A} s w w' (z v : A) (p : Prog A) :
  run (deleting_cluster nm s) w p = (w', Val v) ->
  (run (deleting_cluster nm s) w (recover z p)).1 = w'.
Proof. intros Hp. by rewrite (run_recover _ _ _ _ _ _ Hp). Qed.

Lemma addon_round_alive s t w a :
  delete_submits -> d_addon w = Some a -> doomed a -> unfailed (s_phase s) ->
  let w' := dround_run w (AddonRound t s) in
  others_kept w w' /\
  (gone w' \/ exists a', d_addon w' = Some a' /\ doomed a' /\
     phase_Deleting (GetInstallStatus a') = true) /\
  (phase_Deleting (GetInstallStatus a) = true -> s_phase s = WorkflowSucceeded -> gone w').
Proof.
  intros Hd Hw Ha Hph. cbn [dround_run].
  assert (run (deleting_cluster nm s) w (Reconcile t (mkNN ns nm)) =
    run (deleting_cluster nm s) w (execAddon t a)) as ->.
  { unfold Reconcile. run_step. by rewrite (find_alive w a). }
  unfold execAddon. destruct (proj1 (proj2 (proj2 Ha))) as [d Hdel]. rewrite Hdel.
  destruct (phase_Deleting (GetInstallStatus a)) eqn:Hph_a; cbn [negb].
  - destruct (Finalize_run s w t a Hd Hw Ha Hph) as (w' & a' & Hrun & Hcache & Hor & Hgone).
    rewrite (recover_run s w w' _ (zero_Result, None)); [|by rewrite (run_bind_Val _ _ _ _ _ _ Hrun)].
    assert (Cached.abs (d_cache w') = delete own_key (Cached.abs (d_cache w))) as Habs.
    { rewrite Hcache, Cached.abs_RemoveVersion. by destruct own_key. }
    assert (d_addon w' = None -> gone w') as Hg.
    { intros Hn. split; [done|]. rewrite Habs. by rewrite lookup_delete_eq. }
    split_and!.
    + intros k Hk. rewrite Habs. by rewrite lookup_delete_ne.
    + destruct Hor as [Hsome|Hnone]; [right | by left; apply Hg]. by exists a.
    + intros _ Hs. by apply Hg, Hgone.
  - destruct (write_run s w a (SetInstallStatus Deleting [] a)) as (w' & a' & Hrun & Hk & Hw' & Ha' & Hp);
      [done | done | auto with addon | by left; apply GetInstallStatus_SetInstallStatus |].
    rewrite (recover_run s w w' _ (zero_Result, None)); [|by rewrite (run_bind_Val _ _ _ _ _ _ Hrun)].
    split_and!; [done | right; by exists a' | done].
Qed.

Definition marked w w' : Prop :=
  others_kept w w' /\ exists a', d_addon w' = Some a' /\ doomed a' /\
    phase_Deleting (GetInstallStatus a') = true.

Lemma delete_workflow_of a : doomed a -> GetFormattedWorkflowName a Delete = delete_workflow.
Proof.
  intros (Hs & Hk & _). apply GetFormattedWorkflowName_same; [done|].
  unfold addon_key in Hk. by injection Hk.
Qed.

Lemma delete_workflow_read a :
  doomed a -> ExtractChecksumAndLifecycleStep delete_workflow = Ok (CalculateChecksum a, Delete).
Proof.
  intros Ha. rewrite <-(delete_workflow_of a Ha).
  assert (is_step Delete) as Hs by (unfold is_step; set_solver).
  destruct (GetFormattedWorkflowName_step a Delete Hs) as (wt & p & _ & _ & ->).
  apply Extract_workflow_name;
    [done | apply CalculateChecksum_no_dash | apply CalculateChecksum_trim].
Qed.

Lemma workflow_update_run s w a wf :
  d_addon w = Some a -> doomed a -> unfailed (s_phase s) ->
  wf_Name wf = delete_workflow -> wf_Phase wf = s_phase s ->
  exists w', run (deleting_cluster nm s) w (UpdateAddonStatusLifecycleFromWorkflow ns nm wf) =
    (w', Val None) /\ (w' = w \/ marked w w').
Proof.
  intros Hw Ha Hph Hn Hp. unfold UpdateAddonStatusLifecycleFromWorkflow, getExistingAddon.
  assert (forall A (f : result Addon -> Prog A), run (deleting_cluster nm s) w
    (call (CGetAddon (mkNN ns nm)) ≫= f) = run (deleting_cluster nm s) w (f (Ok a))) as Hget.
  { intros A f. run_step. by rewrite (find_alive w a). }
  rewrite Hget. destruct (phase_Completed _); [by exists w; split; [|left]|].
  rewrite Hn, (delete_workflow_read a Ha), (delete_workflow_of a Ha), Hp.
  rewrite !bool_decide_eq_true_2 by done. cbn [negb]. cbv zeta.
  set (rs := [_]). destruct (delete_phase (s_phase s) rs a Hph) as [->|[Hst Hcase]].
  { exists w. split; [done | by left]. }
  rewrite bool_decide_eq_false_2 by (destruct Hcase as [[-> _]| ->]; done).
  destruct (SetStatusByLifecyleStep Delete _ rs a) as [b e] eqn:Hset. cbn [fst] in Hst.
  assert (e = None) as -> by (unfold SetStatusByLifecyleStep in Hset; cbn in Hset; by repeat case_match; simplify_eq).
  destruct (write_run s w a b Hw Ha) as (w' & a' & Hrun & Hk & Hw' & Ha' & Hp').
  - pose proof (SetStatusByLifecyleStep_same Delete (ConvertWorkflowPhaseToAddonPhase Delete (s_phase s)) rs a) as Hsame.
    by rewrite Hset in Hsame.
  - rewrite Hst. destruct Hcase as [[-> _]| ->]; [by left | by right].
  - exists w'. split; [done|]. right. split; [done | by exists a'].
Qed.

Lemma workflow_round_alive s w a :
  d_addon w = Some a -> doomed a -> unfailed (s_phase s) ->
  let w' := dround_run w (WorkflowRound s) in w' = w \/ marked w w'.
Proof.
  intros Hw Ha Hph. cbn [dround_run].
  destruct (workflow_update_run s w a (mkWorkflow delete_workflow ns None (Some ("Addon", nm))
    (s_phase s) "") Hw Ha Hph eq_refl eq_refl) as (w' & Hrun & Hor).
  assert (forall w1, (w1 = w \/ w1 = w') -> w1 = w \/ marked w w1) as Hdone by naive_solver.
  apply Hdone. unfold WorkflowReconcile.
  destruct (phase_empty (s_phase s)) eqn:He.
  - left. apply recover_run with (v := (zero_Result, None)). run_step. cbn. by rewrite He.
  - right. apply recover_run with (v := (zero_Result, None)). run_step.
    cbv beta iota zeta delta [wf_DeletionTimestamp wf_Phase wf_Controller wf_Namespace NN_Name NN_Namespace].
    rewrite bool_decide_eq_false_2 by (by intros []). rewrite He.
    rewrite (bool_decide_eq_true_2 ("Addon" = "Addon")) by done. cbn [negb].
    by rewrite (run_bind_Val _ _ _ _ _ _ Hrun).
Qed.

(** Once the addon is gone, reconciles change nothing. *)
Lemma round_gone w r : gone w -> name_is_own w -> dround_run w r = w.
Proof.
  intros [Hw Hown] Hname.
  assert (forall s A nn (f : result Addon -> Prog A), run (deleting_cluster nm s) w
    (call (CGetAddon nn) ≫= f) = run (deleting_cluster nm s) w (f (Err not_found))) as Hget.
  { intros s A nn f. run_step. unfold find_addon. by rewrite Hw. }
  destruct r as [t s|s]; cbn [dround_run].
  - unfold Reconcile. rewrite Hget. unfold RemoveFromCache. cbn.
    destruct (@Cached.HasVersionName range_fwd [] (d_cache w) nm) as [[] v] eqn:Hv; [|done].
    apply Cached.HasVersionName_Some in Hv as (x & p & u & _ & Hx & Hn). exfalso.
    destruct (decide ((p, u) = own_key)) as [Heq|Hne]; [by rewrite Heq, Hown in Hx|].
    by apply (Hname _ _ Hne Hx).
  - unfold WorkflowReconcile. destruct (phase_empty (s_phase s)) eqn:He.
    + apply recover_run with (v := (zero_Result, None)). run_step. cbn. by rewrite He.
    + apply recover_run with (v := (zero_Result, Some not_found)). run_step.
      cbv beta iota zeta delta [wf_DeletionTimestamp wf_Phase wf_Controller wf_Namespace NN_Name NN_Namespace].
      rewrite bool_decide_eq_false_2 by (by intros []). rewrite He.
      rewrite (bool_decide_eq_true_2 ("Addon" = "Addon")) by done. cbn [negb].
      unfold UpdateAddonStatusLifecycleFromWorkflow, getExistingAddon.
      cbn. unfold find_addon. by rewrite Hw.
Qed.

(** ** Sequences of reconciles *)

(** The addon is on its way out: it exists or it is gone for good. *)
Definition leaving w : Prop :=
  name_is_own w /\ (gone w \/ exists a, d_addon w = Some a /\ doomed a).

(** ... and its deletion was noticed. *)
Definition noticed w : Prop :=
  name_is_own w /\ (gone w \/ exists a, d_addon w = Some a /\ doomed a /\
    phase_Deleting (GetInstallStatus a) = true).

Definition unfailed_round r : Prop := unfailed (s_phase (dround_surroundings r)).

Lemma round_leaving w r :
  delete_submits -> unfailed_round r -> leaving w ->
  let w' := dround_run w r in
  leaving w' /\ others_kept w w' /\ (noticed w -> noticed w') /\
  (forall t s, r = AddonRound t s -> noticed w' /\
    (noticed w -> s_phase s = WorkflowSucceeded -> gone w')).
Proof.
  intros Hd Hr [Hname [Hg|(a & Hw & Ha)]].
  { cbv zeta. rewrite (round_gone w r Hg Hname).
    split_and!; [by split; [|left] | done | done |].
    intros t s _. by split; [split; [|left]|]. }
  assert (forall w', others_kept w w' -> name_is_own w') as Hn
    by (intros w' Hk; by apply (name_is_own_kept w)).
  destruct r as [t s|s]; cbv zeta.
  - destruct (addon_round_alive s t w a Hd Hw Ha Hr) as (Hk & Hor & Hgone).
    assert (noticed (dround_run w (AddonRound t s))) as Hno by (split; [by apply Hn | done]).
    split_and!; [split; [by apply Hn|] | done | done |]; [naive_solver|].
    intros ? ? [= <- <-]. split; [done|]. intros [_ [[Hw0 _]|(a0 & Hw0 & _ & Hp)]] Hs; [congruence|].
    apply Hgone; [congruence | done].
  - destruct (workflow_round_alive s w a Hw Ha Hr) as [->|(Hk & a' & Hw' & Ha' & Hp')].
    + split_and!; [by split; [|right; exists a] | done | done | done].
    + split_and!; [split; [by apply Hn|] | done | | done]; [right; by exists a'|].
      intros _. split; [by apply Hn|]. right. by exists a'.
Qed.

Lemma rounds_leaving rounds w :
  delete_submits -> Forall unfailed_round rounds -> leaving w ->
  let w' := foldl dround_run w rounds in
  leaving w' /\ others_kept w w' /\ (noticed w -> noticed w').
Proof.
  intros Hd Hall. revert w. induction Hall as [|r rounds Hr _ IH]; intros w Hw; [by split_and!|].
  cbn [foldl]. destruct (round_leaving w r Hd Hr Hw) as (Hl & Hk & Hn & _).
  destruct (IH _ Hl) as (Hl' & Hk' & Hn'). split_and!; [done | by etrans; [exact Hk|] | auto].
Qed.

Lemma rounds_gone rounds w :
  gone w -> name_is_own w -> foldl dround_run w rounds = w.
Proof.
  intros Hg Hn. induction rounds as [|r rounds IH]; [done|]. cbn [foldl]. by rewrite round_gone.
Qed.

(** An addon that is being deleted goes away: two reconciles of the
    addon, the second of which finds the delete workflow succeeded, make the
    API server drop the object and clear its entry in the version cache,
    whatever other reconciles of the addon and of its delete workflow happen
    before, between and after; no other cache entry changes.  This holds as
    long as the delete workflow, if there is one, can be submitted and does
    not fail, and no other finalizer holds the object. *)
Theorem deletion_completes (w : dstore) (a : Addon) (r1 r2 r3 : list dround)
    (t1 t2 : list nat) (s1 s2 : surroundings) :
  d_addon w = Some a -> doomed a -> name_is_own w -> delete_submits ->
  let rounds := r1 ++ AddonRound t1 s1 :: r2 ++ AddonRound t2 s2 :: r3 in
  Forall unfailed_round rounds -> s_phase s2 = WorkflowSucceeded ->
  let w' := foldl dround_run w rounds in
  d_addon w' = None /\
  (forall k x, Cached.abs (d_cache w') !! k = Some x -> V_Name x <> nm) /\
  (forall k, k <> own_key -> Cached.abs (d_cache w') !! k = Cached.abs (d_cache w) !! k).
Proof.
  intros Hw Ha Hname Hd rounds Hall Hs. unfold rounds in *. cbv zeta.
  apply Forall_app in Hall as [Hall1 [Hu1 [Hall2 [Hu2 Hall3]%Forall_cons]%Forall_app]%Forall_cons].
  rewrite foldl_app. cbn [foldl]. rewrite foldl_app. cbn [foldl].
  assert (leaving w) as Hl by (split; [done | right; by exists a]).
  destruct (rounds_leaving r1 w Hd Hall1 Hl) as (Hl1 & Hk1 & _).
  set (w1 := foldl dround_run w r1) in *.
  destruct (round_leaving w1 (AddonRound t1 s1) Hd Hu1 Hl1) as (Hl2 & Hk2 & _ & Hnote).
  destruct (Hnote t1 s1 eq_refl) as [Hno2 _].
  destruct (rounds_leaving r2 _ Hd Hall2 Hl2) as (Hl3 & Hk3 & Hno3).
  set (w3 := foldl dround_run (dround_run w1 (AddonRound t1 s1)) r2) in *.
  destruct (round_leaving w3 (AddonRound t2 s2) Hd Hu2 Hl3) as ([Hn4 _] & Hk4 & _ & Hg).
  destruct (Hg t2 s2 eq_refl) as [_ Hg4]. specialize (Hg4 (Hno3 Hno2) Hs).
  rewrite (rounds_gone r3 _ Hg4 Hn4). destruct Hg4 as [Hnone Hkey]. split_and!; [done | |].
  - intros k x Hx. destruct (decide (k = own_key)) as [->|Hne]; [congruence | by apply (Hn4 k)].
  - change (others_kept w (dround_run w3 (AddonRound t2 s2))). by rewrite Hk1, Hk2, Hk3.
Qed.
End deletion.

(** ** Failed deletions *)
Section failed_deletion.
Context `{GoRange, Semver, Yaml, UnstructuredReader, RetryOnConflict}.
Context `{AddonLifecycleLaws, Selectors, ControllerUtil}.

Lemma execAddon_deleting_exec t a tr o :
  is_Some (DeletionTimestamp (Meta a)) -> phase_Deleting (GetInstallStatus a) = true ->
  exec (execAddon t a) tr o ->
  (forall b r, existT (CStatusUpdate b) r ∉ tr) /\
  (GetInstallStatus a = DeleteFailed -> Template (LC_Delete (Lifecycle (Spec a))) <> "" ->
   tr = [existT (CRemoveVersion (PkgName (Spec_Package (Spec a))) (PkgVersion (Spec_Package (Spec a)))) tt] /\
   o = Val (zero_Result, None)).
Proof.
  intros [d Hd] Hp He. apply exec_recover in He as (o' & He & ->). rewrite Hd, Hp in He.
  cbn [negb] in He. split.
  - intros b r Hin. eapply quiet_no_write; [|exact He|exact Hin].
    apply quiet_bind; [apply Finalize_quiet|]. intros [a' [e|]]; solve_quiet.
  - intros Hf Htpl.
    assert (runWorkflow t Delete a = mret (a, None)) as Hr
      by (unfold runWorkflow; by rewrite step_completed_delete, Hf).
    assert (phase_Succeeded (GetInstallStatus a) = false) as Hs by (by rewrite Hf).
    unfold Finalize in He. rewrite (bool_decide_eq_false_2 _ Htpl), Hr in He.
    cbv beta iota delta [mbind Prog_bind mret Prog_ret negb] in He. rewrite Hs in He.
    apply exec_inv in He as ([] & tr' & -> & He). by apply exec_inv in He as [-> ->].
Qed.

(** C28: Once a deletion has been noticed, reconciles of the addon write no
    status any more, so the [DeleteFailed] that the addon controller sets,
    with its reason, is lost; and when the workflow controller has recorded
    that the delete workflow failed, every reconcile of the addon drops its
    cache entry, reports success and neither removes the finalizer nor
    requeues: the deletion is never retried. *)
Theorem failed_deletion_is_final (t : list nat) (req : NamespacedName) (a : Addon)
    (ev : event) (tr : list event) (o : outcome (Result * option error)) :
  exec (Reconcile t req) (ev :: tr) o -> addon_response ev = Some (Ok a) ->
  is_Some (DeletionTimestamp (Meta a)) -> phase_Deleting (GetInstallStatus a) = true ->
  (forall b r, existT (CStatusUpdate b) r ∉ tr) /\
  (GetInstallStatus a = DeleteFailed -> Template (LC_Delete (Lifecycle (Spec a))) <> "" ->
   tr = [existT (CRemoveVersion (PkgName (Spec_Package (Spec a))) (PkgVersion (Spec_Package (Spec a)))) tt] /\
   o = Val (zero_Result, None)).
Proof.
  intros (r & Hr & He)%exec_get_inv Ha Hd Hp. rewrite Hr in Ha. injection Ha as ->.
  by apply (execAddon_deleting_exec t).
Qed.
End failed_deletion.

(** ** A concrete deletion *)

(** An addon with a delete workflow, that a user has deleted. *)
Definition doomed_spec : AddonSpec :=
  let sp := Spec fresh_addon in
  mkAddonSpec (Spec_Package sp) (Params sp) (Selector sp) (Overrides sp) (Secrets sp)
    (mkLifecycleWorkflowSpec zero_WorkflowType (LC_Install (Lifecycle sp))
       (mkWorkflowType "" "" "" "kind: Workflow") zero_WorkflowType).

Definition doomed_addon (ph : ApplicationAssemblyPhase) : Addon :=
  SetInstallStatus ph [] (mkAddon
    (mkObjectMeta "c" "addon-manager-system" "7" (Some 5%Z) [FinalizerName] ∅) doomed_spec
    zero_AddonStatus).

Abbreviation sample_doomed := (doomed doomed_spec "addon-manager-system" "c").

Lemma sample_doomed_inv a :
  sample_doomed a -> a = mkAddon (mkObjectMeta "c" "addon-manager-system"
    (ResourceVersion (Meta a)) (DeletionTimestamp (Meta a)) (Finalizers (Meta a)) (Labels (Meta a)))
    doomed_spec (Status a).
Proof.
  destruct a as [[n m rv d fin lb] sp st]. intros (Hs & Hk & _). cbn in Hs, Hk.
  unfold addon_key in Hk. cbn in Hk. by simplify_eq.
Qed.

Lemma sample_delete_submits :
  @delete_submits sample_lifecycle doomed_spec "addon-manager-system" "c".
Proof. intros s w t a Ha _. rewrite (sample_doomed_inv a Ha). vm_compute. reflexivity. Qed.

Definition doomed_start : dstore :=
  mkDStore (Some (doomed_addon Succeeded))
    (Cached.AddVersion (own_version (doomed_addon Succeeded)) mixed_cache).

Abbreviation sample_dround := (@dround_run range_fwd star_semver sample_yaml sample_reader
  default_retry sample_lifecycle sample_selectors sample_util Error doomed_spec
  "addon-manager-system" "c").

(** The workflow controller sees the delete workflow run, and then succeed
    before the addon controller notices. *)
Definition before_success : list dround := [WorkflowRound (in_phase WorkflowUnknown 1000)].
Definition between : list dround :=
  [AddonRound [2] (in_phase WorkflowPending 1100); WorkflowRound (in_phase WorkflowRunning 1200);
   WorkflowRound (in_phase WorkflowSucceeded 1300)].
Definition after_success : list dround :=
  [WorkflowRound (in_phase WorkflowSucceeded 1500); AddonRound [4] (in_phase WorkflowUnknown 1600)].

Definition deleting_rounds : list dround :=
  before_success ++ AddonRound [1] (in_phase WorkflowUnknown 1050) :: between ++
  AddonRound [3] (in_phase WorkflowSucceeded 1400) :: after_success.

Definition doomed_phase (n : nat) : option string :=
  GetInstallStatus <$> d_addon (foldl sample_dround doomed_start (take n deleting_rounds)).

Lemma mixed_cache_names : name_is_own doomed_spec "c" doomed_start.
Proof.
  intros [p v] x Hk. unfold own_key in Hk. cbn in Hk. unfold doomed_start. cbn [d_cache].
  rewrite Cached.abs_AddVersion, lookup_insert_ne by done. unfold mixed_cache. cbn [foldl run_cache_op].
  rewrite !Cached.abs_AddVersion, !lookup_insert_Some, Cached.lookup_abs.
  by intros [[_ <-]|[_ [[_ <-]|[_ Hv]]]].
Qed.

Lemma deletion_completes_witness :
  doomed_phase <$> [0; 1; 2; 4; 5; 6; 8] =
    [Some Succeeded; Some Succeeded; Some Deleting; Some Deleting; Some DeleteSucceeded; None; None] /\
  d_addon (foldl sample_dround doomed_start deleting_rounds) = None.
Proof.
  split; [vm_compute; reflexivity|].
  apply (@deletion_completes range_fwd star_semver sample_yaml sample_reader default_retry
    tree_object sample_lifecycle sample_lifecycle_laws sample_selectors sample_util Error
    doomed_spec "addon-manager-system" "c" doomed_start (doomed_addon Succeeded)
    before_success between after_success [1] [3] (in_phase WorkflowUnknown 1050)
    (in_phase WorkflowSucceeded 1400)).
  - reflexivity.
  - split_and!; [reflexivity | reflexivity | eexists; reflexivity | repeat constructor |].
    vm_compute. discriminate.
  - exact mixed_cache_names.
  - exact sample_delete_submits.
  - apply (bool_decide_unpack _). vm_compute. exact I.
  - reflexivity.
Defined.

Definition failed_world : world :=
  w_set_addon (Some (doomed_addon DeleteFailed)) (fresh_world WorkflowFailed).

Lemma failed_deletion_is_final_witness :
  sample_outcome failed_world [] = Val (zero_Result, None) /\
  drop 1 (sample_trace failed_world []) = [existT (CRemoveVersion "core/C" "v1") tt].
Proof.
  destruct (@failed_deletion_is_final range_fwd star_semver sample_yaml sample_reader
    default_retry tree_object sample_lifecycle sample_lifecycle_laws sample_selectors sample_util []
    (addon_key fresh_addon) (doomed_addon DeleteFailed)
    (existT (CGetAddon (addon_key fresh_addon)) (Ok (doomed_addon DeleteFailed)))
    (drop 1 (sample_trace failed_world [])) (sample_outcome failed_world [])) as [_ Hf].
  - match goal with |- exec _ ?l _ =>
      replace l with (sample_trace failed_world []) by (vm_compute; reflexivity) end.
    exact (sample_run failed_world []).
  - reflexivity.
  - eexists. reflexivity.
  - vm_compute. reflexivity.
  - destruct Hf as [Htr Ho]; [reflexivity | vm_compute; discriminate |]. exact (conj Ho Htr).
Defined.
