(* ===== verification/FaultModel.v ===== *)
(** Requests that fail, and a logic for programs whose requests may.

    A service answers a call as a given handler does, or, where failures are
    allowed, with an error; a failed write may have taken effect or not.
    [rwp] speaks about all the behaviours that this leaves a program. *)
From S2P Require Import Prelude GoStrings GoFmt AddonTypes Common VersionCache Unstructured.
From S2P Require Import Validator Effects Updater Workflow Objects Controller Samples Progress.

(** ** Programs against a service that may answer in several ways

    [rwp R w p post]: from the state [w], every outcome of [p] satisfies
    [post] when [R] says which states and responses a call may lead to. *)
Section rwp.
Context {W : Type} (R : W -> forall c : Call, W -> Resp c -> Prop).

Fixpoint rwp {A : Type} (w : W) (p : Prog A) (post : W -> outcome A -> Prop) : Prop :=
  match p with
  | Ret a => post w (Val a)
  | Panic m => post w (Panicked m)
  | Vis c k => forall w' r, R w c w' r -> rwp w' (k r) post
  end.

Inductive behaves {A : Type} : W -> Prog A -> W -> outcome A -> Prop :=
  | behaves_ret w a : behaves w (Ret a) w (Val a)
  | behaves_panic w m : behaves w (Panic m) w (Panicked m)
  | behaves_vis w c k w1 r w' o :
      R w c w1 r -> behaves w1 (k r) w' o -> behaves w (Vis c k) w' o.

Lemma rwp_behaves {A} w (p : Prog A) post w' o : rwp w p post -> behaves w p w' o -> post w' o.
Proof. intros Hp Hb. revert Hp. induction Hb as [| |w c k w1 r w' o HR _ IH]; [done..|]. auto. Qed.

(** A program has a behaviour where every call has a response. *)
Lemma behaves_total {A} (h : W -> forall c : Call, W * Resp c) w (p : Prog A) :
  (forall w c, R w c (h w c).1 (h w c).2) -> behaves w p (run h w p).1 (run h w p).2.
Proof.
  intros Hh. revert w. induction p as [a|m|c k IH]; intros w; [constructor..|].
  cbn [run]. specialize (Hh w c). destruct (h w c) as [w1 r]. by econstructor.
Qed.

Lemma rwp_mono {A} w (p : Prog A) (post post' : W -> outcome A -> Prop) :
  rwp w p post -> (forall w o, post w o -> post' w o) -> rwp w p post'.
Proof.
  revert w. induction p as [a|m|c k IH]; intros w Hp Hpost; cbn in *; [by auto..|].
  intros w' r HR. by eapply IH; [apply Hp|].
Qed.

Lemma rwp_bind {A B} w (p : Prog A) (f : A -> Prog B) (post : W -> outcome B -> Prop) :
  rwp w p (fun w o => match o with Val a => rwp w (f a) post | Panicked m => post w (Panicked m) end) ->
  rwp w (p ≫= f) post.
Proof.
  revert w. induction p as [a|m|c k IH]; intros w Hp; cbn in *; [done..|].
  intros w' r HR. by apply IH, Hp.
Qed.

Lemma rwp_call_bind {B} w c (f : Resp c -> Prog B) (post : W -> outcome B -> Prop) :
  (forall w' r, R w c w' r -> rwp w' (f r) post) -> rwp w (call c ≫= f) post.
Proof. done. Qed.

Lemma rwp_lift {A} w (x o : outcome A) (post : W -> outcome A -> Prop) :
  x = o -> post w o -> rwp w (lift_outcome x) post.
Proof. intros ->. by destruct o. Qed.

Lemma rwp_recover {A} w (z : A) (p : Prog A) (post : W -> outcome A -> Prop) :
  rwp w p (fun w o => post w (Val (match o with Val a => a | Panicked _ => z end))) ->
  rwp w (recover z p) post.
Proof.
  revert w. induction p as [a|m|c k IH]; intros w Hp; cbn in *; [done..|].
  intros w' r HR. by apply IH, Hp.
Qed.

Lemma rwp_defer {A} w (d : Prog unit) (p : Prog A) (post : W -> outcome A -> Prop) :
  rwp w p (fun w o => rwp w d (fun w' o' =>
    match o' with Val _ => post w' o | Panicked m => post w' (Panicked m) end)) ->
  rwp w (defer d p) post.
Proof.
  revert w. induction p as [a|m|c k IH]; intros w Hp; cbn [defer rwp] in *.
  - apply rwp_bind. eapply rwp_mono; [exact Hp|]. by intros w' [].
  - apply rwp_bind. eapply rwp_mono; [exact Hp|]. by intros w' [].
  - intros w' r HR. by apply IH, Hp.
Qed.

(** Calls to which the service has one response, that of [h]. *)
Lemma rwp_run {A} (h : W -> forall c : Call, W * Resp c) P w (p : Prog A) w' o
    (post : W -> outcome A -> Prop) :
  (forall w c w' r, P c -> R w c w' r -> h w c = (w', r)) ->
  calls_all P p -> run h w p = (w', o) -> post w' o -> rwp w p post.
Proof.
  intros HP Hp Hrun Hpost. revert w Hp Hrun.
  induction p as [a|m|c k IH]; intros w Hp Hrun; [by injection Hrun as -> <-..|].
  destruct Hp as [Hc Hk]. cbn in *. intros w1 r HR. apply (IH r w1 (Hk r)).
  by rewrite (HP _ _ _ _ Hc HR) in Hrun.
Qed.
End rwp.

(** ** Requests that fail *)

Definition is_err {A : Type} (r : result A) : Prop := exists e, r = Err e.

Section faults.
Context {W : Type} (h : W -> forall c : Call, W * Resp c).

(** A failed request: a read leaves the state alone, a write may have taken
    effect. *)
Definition fault (w : W) (c : Call) (w' : W) : Resp c -> Prop :=
  match c as c return Resp c -> Prop with
  | CGetAddon _ => fun r => is_err r /\ w' = w
  | CStatusUpdate o => fun r => is_Some r /\ (w' = w \/ w' = (h w (CStatusUpdate o)).1)
  | CUpdate o => fun r => is_err r /\ (w' = w \/ w' = (h w (CUpdate o)).1)
  | CClientGetWorkflow _ => fun r => is_err r /\ w' = w
  | CGetWorkflow _ _ => fun r => is_err r /\ w' = w
  | CDeleteWorkflow _ _ => fun r => is_Some r /\ w' = w
  | _ => fun _ => False
  end.

(** The calls that never fail here. *)
Definition sure (c : Call) : bool :=
  match c with
  | CGetAddon _ | CStatusUpdate _ | CUpdate _ | CClientGetWorkflow _ | CGetWorkflow _ _
  | CDeleteWorkflow _ _ => false
  | _ => true
  end.

Definition responds (faulty : bool) (w : W) (c : Call) (w' : W) (r : Resp c) : Prop :=
  h w c = (w', r) \/ (faulty = true /\ fault w c w' r).

Lemma responds_sure f w c w' r : sure c = true -> responds f w c w' r -> h w c = (w', r).
Proof. intros Hc [Hr|[_ Hf]]; [done|]. by destruct c. Qed.

Lemma responds_handler f w c : responds f w c (h w c).1 (h w c).2.
Proof. left. by destruct (h w c). Qed.

(** Programs that only make such calls. *)
Definition reliable {A : Type} (p : Prog A) : Prop := calls_all (fun c => sure c = true) p.

Lemma rwp_reliable {A} f w (p : Prog A) w' o (post : W -> outcome A -> Prop) :
  reliable p -> run h w p = (w', o) -> post w' o -> rwp (responds f) w p post.
Proof. apply rwp_run. intros *. apply responds_sure. Qed.

Lemma rwp_sure {B} f w c (k : Resp c -> Prog B) post :
  sure c = true -> rwp (responds f) (h w c).1 (k (h w c).2) post ->
  rwp (responds f) w (call c ≫= k) post.
Proof. intros Hc Hk w' r HR. apply responds_sure in HR; [|done]. by rewrite HR in Hk. Qed.

Lemma rwp_sure_eq {B} f w w1 c r (k : Resp c -> Prog B) post :
  h w c = (w1, r) -> sure c = true -> rwp (responds f) w1 (k r) post ->
  rwp (responds f) w (call c ≫= k) post.
Proof. intros Hr Hc Hk. apply rwp_sure; [done|]. by rewrite Hr. Qed.

Lemma rwp_sure_last f w w1 c r (post : W -> outcome (Resp c) -> Prop) :
  h w c = (w1, r) -> sure c = true -> post w1 (Val r) -> rwp (responds f) w (call c) post.
Proof.
  intros Hr Hc Hp w' r' HR. apply responds_sure in HR; [|done].
  rewrite Hr in HR. by injection HR as <- <-.
Qed.

Lemma reliable_bind {A B} (p : Prog A) (g : A -> Prog B) :
  reliable p -> (forall x, reliable (g x)) -> reliable (p ≫= g).
Proof. apply calls_all_bind. Qed.
End faults.

Arguments reliable {A} p.

(** Goes through a program that only makes such calls. *)
Ltac solve_reliable :=
  cbv zeta;
  repeat match goal with
  | |- reliable (_ ≫= _) => apply reliable_bind; [|intros ?]
  | |- reliable (match ?x with _ => _ end) => destruct x
  | |- reliable (mret _) => done
  | |- reliable (call _) => by apply calls_all_call
  | |- reliable (lift_outcome ?x) => by destruct x
  | |- reliable _ => by auto with addon
  end.

Lemma wfl_Install_reliable `{AddonLifecycleLaws} t a wp : reliable (wfl_Install t a wp).
Proof. eapply calls_all_mono; [|apply wfl_Install_calls]. by intros []. Qed.

#[export] Hint Resolve wfl_Install_reliable : addon.

Lemma guard_blocks_self st : guard_blocks st st = false.
Proof.
  unfold guard_blocks. destruct (phase_Completed _) eqn:Hc; [|done].
  by rewrite (Completed_not_Running _ Hc).
Qed.

(** ** A status update

    The store is seen through an invariant and through the status it holds of
    the addon: a read gives an addon with that status, a write replaces it,
    and an entry of the cache may be added. *)
Section update.
Context `{RetryOnConflict} {W : Type} (h : W -> forall c : Call, W * Resp c).
Context (I : W -> Prop) (status : W -> AddonStatus) (a : Addon) (old : AddonStatus) (f : bool).

Hypothesis Hlock : forall w, h w (CLockStatus (addon_Name a)) = (w, tt).
Hypothesis Hunlock : forall w, h w (CUnlockStatus (addon_Name a)) = (w, tt).
Hypothesis Hevent : forall w ty re msg, h w (CEvent ty re msg) = (w, tt).
Hypothesis Hget : forall w, I w ->
  exists cur, h w (CGetAddon (addon_key a)) = (w, Ok cur) /\ Status cur = status w.
Hypothesis Hput : forall w o, I w -> Status o = Status a ->
  exists w', h w (CStatusUpdate o) = (w', None) /\ I w' /\ status w' = Status a.
Hypothesis Hadd : forall w, I w ->
  exists w', h w (CAddVersion (own_version a)) = (w', tt) /\ I w' /\ status w' = status w.
Hypothesis Hguard : guard_blocks old (Status a) = false.

(** The stored status is the old one or the new one. *)
Definition old_or_new w : Prop := status w = old \/ status w = Status a.

Definition attempted (g : guard) w' (o : outcome (guard * option error)) : Prop :=
  exists e, o = Val (g, e) /\ I w' /\ old_or_new w' /\ (e = None -> status w' = Status a) /\
    (f = false -> e = None).

Lemma update_attempt_rwp w g :
  I w -> old_or_new w -> rwp (responds h f) w (update_attempt a g) (attempted g).
Proof.
  intros Hw Hst. unfold update_attempt. destruct (Hget w Hw) as (cur & Hcur & Hs).
  apply rwp_call_bind; intros w1 r [HR|[Hf [[e ->] ->]]].
  2: { exists (Some e). by split_and!; [..|rewrite Hf]. }
  rewrite Hcur in HR. injection HR as <- <-.
  assert (guard_blocks (Status cur) (Status a) = false) as Hg
    by (rewrite Hs; destruct Hst as [->| ->]; [done | apply guard_blocks_self]).
  rewrite Hg. destruct (Hput w (set_Status (fun _ => Status a) cur) Hw eq_refl) as (w2 & Hw2 & HI & Hs2).
  apply rwp_call_bind; intros w3 r2 [HR|[Hf [[e ->] Hw3]]]; cbn.
  - rewrite Hw2 in HR. injection HR as <- <-. exists None. by split_and!; [..|right| |].
  - exists (Some e). rewrite Hw2 in Hw3. cbn in Hw3.
    destruct Hw3 as [->| ->]; by split_and!; [..|try by right| |rewrite Hf].
Qed.

Lemma retry_rwp n w g :
  I w -> old_or_new w ->
  rwp (responds h f) w (retry_unroll n (update_attempt a) g) (attempted g).
Proof.
  revert w. induction n as [|n IH]; intros w Hw Hst; cbn [retry_unroll]; [by apply update_attempt_rwp|].
  apply rwp_bind. eapply rwp_mono; [by apply update_attempt_rwp|].
  intros w1 o (e & -> & Hw1 & Hst1 & Hnone & Hf). cbn [fst snd].
  destruct (IsConflict e); [by apply IH | by exists e].
Qed.

(** The status is written or not; without failures it is. *)
Lemma UpdateStatus_rwp w :
  I w -> status w = old ->
  rwp (responds h f) w (UpdateStatus a) (fun w' o => exists e, o = Val e /\ I w' /\
    old_or_new w' /\ (f = false -> status w' = Status a)).
Proof.
  intros Hw Hst. unfold UpdateStatus. eapply rwp_sure_eq; [apply Hlock | done|]. apply rwp_defer.
  apply rwp_bind. destruct (retry_unrolls (update_attempt a) no_guard) as [n ->].
  eapply rwp_mono; [apply (retry_rwp n w no_guard Hw); by left|].
  intros w1 o (e & -> & Hw1 & Hst1 & Hnone & Hf). cbv beta iota zeta.
  destruct e as [e|]; cbv beta iota zeta delta [guardFired no_guard].
  - eapply rwp_sure_eq; [apply Hevent | done|]. eapply rwp_sure_last; [apply Hunlock | done|].
    exists (Some e). split_and!; [done..|]. intros Hff. by specialize (Hf Hff).
  - destruct (Hadd w1 Hw1) as (w2 & Hw2 & HI2 & Hs2). unfold addAddonToCache.
    eapply rwp_sure_eq; [exact Hw2 | done|]. eapply rwp_sure_last; [apply Hunlock | done|].
    exists None. split_and!; [done|done| |intros _; rewrite Hs2; by apply Hnone].
    unfold old_or_new. rewrite Hs2. exact Hst1.
Qed.
End update.
