(* ===== verification/Faults.v ===== *)
(** Installation in a cluster that does not always answer: which failed
    requests it survives, and which it does not.

    [Progress] shows that an addon gets installed when every request is
    answered.  Here a reconcile may see failures: a read of the addon or of a
    workflow, a status write, an update of the addon or the deletion of an old
    workflow can fail, and a failed write may have taken effect or not. *)
From S2P Require Import Prelude GoStrings GoFmt AddonTypes Common VersionCache Unstructured.
From S2P Require Import TreeObject Validator Effects Updater Workflow Objects Controller.
From S2P Require Import WorkflowController Samples Protocol Outcome Progress Deletion FaultModel.

(** One call that never fails. *)
Ltac sure_call := apply rwp_sure; [done|]; cbn [cluster fst snd].

Section faults.
Context `{GoRange, Semver, Yaml, UnstructuredReader, RetryOnConflict}.
Context `{AddonLifecycleLaws, Selectors, ControllerUtil}.
Context (sp : AddonSpec) (ns nm : string).
Implicit Types (s : surroundings) (w : store) (a b : Addon) (st : AddonStatus) (f : bool).

#[local] Abbreviation this := (this_addon sp ns nm).
#[local] Abbreviation can_install := (installable sp ns nm).
#[local] Abbreviation rspec s f := (rwp (responds (cluster s) f)).

(** ** What never fails *)

Lemma validateSecrets_reliable a : reliable (validateSecrets a).
Proof. unfold validateSecrets. solve_reliable. Qed.

Lemma observe_and_return_reliable a : reliable (observe_and_return a).
Proof.
  unfold observe_and_return, observeResources, observe, ObserveService, ObserveJob, ObserveCronJob,
    ObserveStatefulSet, ObserveDeployment, ObserveDaemonSet, ObserveReplicaSet, cli_List.
  solve_reliable.
Qed.

(** ** The cache *)

Context (c0 : Cached.cached).

(** The entries of other packages are as in [c0]; an entry of the addon's
    own package is its own. *)
Definition cache_ok (c : Cached.cached) : Prop :=
  keys_ok (Cached.abs c) /\
  (forall k, k <> own_key sp -> Cached.abs c !! k = Cached.abs c0 !! k) /\
  (forall v, Cached.abs c !! own_key sp = Some v ->
    V_Name v = nm /\ V_Namespace v = ns /\ V_Package v = Spec_Package sp).

(** No other package was installed under the addon's name. *)
Definition name_unique : Prop :=
  forall k x, k <> own_key sp -> Cached.abs c0 !! k = Some x -> V_Name x <> nm.

Definition alive w : Prop := this (st_addon w) /\ cache_ok (st_cache w).

(** An addon whose status this reconcile may write. *)
Definition writable a : Prop := addon_key a = mkNN ns nm /\ Spec_Package (Spec a) = Spec_Package sp.

Lemma this_writable a : this a -> writable a.
Proof. intros (Hs & Hk & _). split; [done | by rewrite Hs]. Qed.

Lemma cache_ok_add a c : writable a -> cache_ok c -> cache_ok (Cached.AddVersion (own_version a) c).
Proof.
  intros [Hk Hp] (Hok & Hother & Hown).
  assert (V_Package (own_version a) = Spec_Package sp) as Hpkg.
  { cbn. unfold GetPackageSpec. rewrite Hp. by destruct (Spec_Package sp). }
  unfold cache_ok. rewrite Cached.abs_AddVersion, Hpkg. fold (own_key sp). split_and!.
  - intros p x v. rewrite lookup_insert_Some. intros [[[= <- <-] <-]|[_ Hv]].
    + by rewrite Hpkg.
    + by apply Hok.
  - intros k Hne. by rewrite lookup_insert_ne by done; apply Hother.
  - intros v. rewrite lookup_insert_eq. intros [= <-].
    unfold addon_key in Hk. injection Hk as Hns Hnm. by rewrite Hpkg.
Qed.

Lemma cache_ok_remove c : cache_ok c -> cache_ok (Cached.RemoveVersion (own_key sp).1 (own_key sp).2 c).
Proof.
  intros (Hok & Hother & Hown). unfold cache_ok.
  rewrite Cached.abs_RemoveVersion, <-surjective_pairing. split_and!.
  - intros p x v [_ Hv]%lookup_delete_Some. by apply Hok.
  - intros k Hne. by rewrite lookup_delete_ne by done; apply Hother.
  - intros v. by rewrite lookup_delete_eq.
Qed.

(** What [RemoveFromCache] forgets of a living addon is its own entry. *)
Lemma RemoveFromCache_alive s f w :
  name_unique -> alive w ->
  rspec s f w (RemoveFromCache nm) (fun w' o =>
    o = Val tt /\ alive w' /\ st_addon w' = st_addon w).
Proof.
  intros Hname [Ha Hc]. unfold RemoveFromCache. sure_call.
  destruct (@Cached.HasVersionName range_fwd [] (st_cache w) nm) as [[] ov] eqn:Hv.
  - apply Cached.HasVersionName_Some in Hv as (x & p & u & -> & Hx & Hn).
    pose proof Hc as (Hok & Hother & _). destruct (Hok _ _ _ Hx) as [<- <-].
    assert ((V_PkgName x, V_PkgVersion x) = own_key sp) as Hk.
    { apply dec_stable. intros Hne. rewrite Hother in Hx by done. by apply (Hname _ _ Hne Hx). }
    injection Hk as Hp Hu. sure_call. cbn [rwp]. intros w' r HR.
    apply responds_sure in HR as [= <- <-]; [|done]. split_and!; [done| |done].
    split; [exact Ha|]. cbn [st_cache]. rewrite Hp, Hu. by apply cache_ok_remove.
  - apply Cached.HasVersionName_None in Hv as [-> _]. cbn. intros w' r HR.
    by apply responds_sure in HR as [= <- <-].
Qed.

(** ** The status update *)

Lemma UpdateStatus_alive s f w a old :
  alive w -> writable a -> guard_blocks old (Status a) = false -> Status (st_addon w) = old ->
  rspec s f w (UpdateStatus a) (fun w' o => exists e, o = Val e /\ alive w' /\
    old_or_new (fun w => Status (st_addon w)) a old w' /\ (f = false -> Status (st_addon w') = Status a)).
Proof.
  intros Hw Ha Hg Hst. apply (UpdateStatus_rwp (cluster s) alive); [done..| | | |done|done|done].
  - intros w1 [Hthis _]. exists (st_addon w1). split; [|done]. cbn.
    by rewrite bool_decide_eq_true_2 by (rewrite (proj1 Ha); apply Hthis).
  - intros w1 o Hw1 Ho. eexists. split; [reflexivity|]. split; [exact Hw1 | exact Ho].
  - intros w1 [Hthis Hc]. eexists. split; [reflexivity|]. split; [|done].
    split; [exact Hthis | by apply cache_ok_add].
Qed.

(** ** The workflow steps *)

(** A workflow is submitted in any case; when it cannot be read, the step's
    status stays. *)
Lemma runWorkflow_rwp s f w t step a :
  can_install -> this a -> step = Prereqs \/ step = Install -> step_completed step a = false ->
  rspec s f w (runWorkflow t step a) (fun w' o => w' = w /\
    (o = Val (after_step s step a, None) \/ (f = true /\ o = Val (a, None)))).
Proof.
  intros Hi Ha Hstep Hc. unfold runWorkflow, after_step. rewrite Hc.
  assert (is_step step) as Hs by (unfold is_step; set_solver).
  destruct (GetFormattedWorkflowName_step a step Hs) as (wt & prefix & Hwt & _ & Hname).
  rewrite Hwt. case_bool_decide as Htpl; [by split; [|left]|]. cbv zeta.
  rewrite bool_decide_eq_false_2.
  2: { rewrite Hname. destruct prefix; done. }
  apply rwp_bind. eapply rwp_reliable; [apply wfl_Install_reliable|
    exact (wfl_Install_run sp ns nm s w t a step wt Hi Ha Hstep Hwt Htpl)|].
  cbv beta iota. sure_call. intros w' r [[= <- <-]|[Hf [[e ->] ->]]]; cbn -[SetStatusByLifecyleStep].
  - by case_bool_decide; split; [| left| |left].
  - by split; [|right].
Qed.

(** A step either fails to be read or does what it does in a cluster that
    answers. *)
Definition step_done s f a (P : Addon -> Prop) w w' (o : outcome (Addon * option error)) : Prop :=
  w' = w /\ exists a', o = Val (a', None) /\ same_but_phases a a' /\ P a'.

Lemma runPrereqs_rwp s f w t a :
  can_install -> this a -> underway a -> unfailed (s_phase s) ->
  rspec s f w (runWorkflow t Prereqs a) (step_done s f a (fun a' => underway a' /\
    (f = false -> s_phase s = WorkflowSucceeded -> GetPrereqStatus a' = Succeeded)) w).
Proof.
  intros Hi Ha Hp Hph. destruct (step_completed Prereqs a) eqn:Hc.
  - unfold runWorkflow. rewrite Hc. split; [done|]. exists a. split_and!; [done..|].
    intros _ _. destruct Hp as [_ [Hpre|]]; [|done]. unfold step_completed in Hc. by rewrite Hpre in Hc.
  - eapply rwp_mono; [by apply runWorkflow_rwp; auto|]. intros w' o [-> Hor]. split; [done|].
    destruct Hor as [->|[-> ->]].
    + exists (after_step s Prereqs a). destruct (after_prereqs s a Hp Hph) as [Hp' Hs'].
      split_and!; [done | apply after_step_same | done | auto].
    + exists a. by split_and!.
Qed.

Lemma runInstall_rwp s f w t a :
  can_install -> this a -> phase_Running (GetInstallStatus a) = true ->
  GetPrereqStatus a = Succeeded -> unfailed (s_phase s) ->
  rspec s f w (runWorkflow t Install a) (step_done s f a (fun a' => (underway a' \/ installed a') /\
    (f = false -> s_phase s = WorkflowSucceeded -> installed a')) w).
Proof.
  intros Hi Ha Hinst Hpre Hph.
  assert (step_completed Install a = false) as Hc
    by (unfold step_completed; by rewrite (underway_open a (conj Hinst (or_intror Hpre)))).
  eapply rwp_mono; [by apply runWorkflow_rwp; auto|]. intros w' o [-> Hor]. split; [done|].
  destruct Hor as [->|[-> ->]].
  - exists (after_step s Install a). destruct (after_install s a Hinst Hpre Hph) as [Hp' Hs'].
    split_and!; [done | apply after_step_same | done | auto].
  - exists a. split_and!; [done..| |done]. left. split; [done | by right].
Qed.

Lemma executePrereqAndInstall_rwp s f w t a :
  can_install -> this a -> underway a -> unfailed (s_phase s) -> secrets_present sp s ->
  rspec s f w (executePrereqAndInstall t a) (step_done s f a (fun a' => (underway a' \/ installed a') /\
    (f = false -> s_phase s = WorkflowSucceeded -> installed a')) w).
Proof.
  intros Hi Ha Hp Hph Hsec. unfold executePrereqAndInstall. apply rwp_bind.
  eapply rwp_mono; [by apply runPrereqs_rwp|].
  intros w1 o [-> (a1 & -> & Hsame1 & Hp1 & Hs1)]. cbv beta iota.
  pose proof (this_addon_same _ _ _ a a1 Hsame1 Ha) as Ha1.
  destruct Hp1 as [Hinst1 [Hpre1|Hpre1]]; rewrite Hpre1.
  - split; [done|]. exists a1. split_and!; [done..|left; split; auto|].
    intros Hf Hs. rewrite (Hs1 Hf Hs) in Hpre1. done.
  - change (phase_Succeeded Succeeded) with true. cbn iota. apply rwp_bind.
    eapply rwp_reliable; [apply validateSecrets_reliable|
      exact (validateSecrets_run sp s w a1 (proj1 Ha1) Hsec)|]. cbv beta iota.
    apply rwp_bind. eapply rwp_mono; [by apply runInstall_rwp|].
    intros w2 o [-> (a2 & -> & Hsame2 & Hp2)]. split; [done|]. exists a2.
    split_and!; [done | by etrans | apply Hp2..].
Qed.

(** ** The other steps *)

(** The finalizer is set or not, here and in the store. *)
Lemma SetFinalizer_rwp s f w a fin :
  this a -> alive w -> same_progress (Status (st_addon w)) (Status a) ->
  rspec s f w (SetFinalizer a fin) (fun w' o => alive w' /\ st_cache w' = st_cache w /\
    Status (st_addon w') = Status (st_addon w) /\
    exists a' e, o = Val (a', e) /\ this a' /\ same_progress (Status (st_addon w)) (Status a') /\
      (f = false -> e = None)).
Proof.
  intros Ha [Hw Hc] Hst. unfold SetFinalizer. rewrite (proj2 (proj2 Ha)).
  destruct (ContainsFinalizer _ _); [by split_and!; [..|exists a, None]|].
  set (b := set_Meta _ a). assert (this b) as Hb by exact Ha.
  assert (alive (mkStore (mkAddon (Meta b) (Spec b) (Status (st_addon w))) (st_cache w))) as Halive
    by (split; [exact Hb | exact Hc]).
  intros w' r [[= <- <-]|[Hf [[e ->] Hw']]]; cbn.
  - split_and!; [done..|]. eexists _, None. by split_and!.
  - assert (alive w' /\ st_cache w' = st_cache w /\ Status (st_addon w') = Status (st_addon w)) as Hor
      by (by destruct Hw' as [->| ->]).
    destruct Hor as (? & ? & ?). split_and!; [done..|]. exists b, (Some e).
    split_and!; [done..|]. by rewrite Hf.
Qed.

Lemma delete_workflows_rwp s f w n (l : list Workflow) :
  rspec s f w (delete_workflows n l) (fun w' o => w' = w /\ o = Val tt).
Proof.
  induction l as [|x l IH]; [done|]. cbn [delete_workflows].
  intros w' r [[= <- <-]|[_ [_ ->]]]; apply IH.
Qed.

Lemma deleteOldWorkflows_rwp s f w a :
  can_install -> this a -> rspec s f w (deleteOldWorkflows a) (fun w' o => w' = w /\ o = Val None).
Proof.
  intros Hi Ha. unfold deleteOldWorkflows.
  assert (addon_Name a = nm) as -> by (destruct Ha as (_ & Hk & _); by injection Hk as _ <-).
  rewrite (own_selector _ _ _ Hi). sure_call. apply rwp_bind.
  eapply rwp_mono; [apply delete_workflows_rwp|]. by intros w' o [-> ->].
Qed.

(** ** Reconciles *)

(** What [processAddon] leaves: the stored status as it was, and a status to
    write for which [Q] holds. *)
Definition proceeds w (Q : AddonStatus -> Prop) w' (o : outcome (Addon * (Result * option error)))
    : Prop :=
  alive w' /\ Status (st_addon w') = Status (st_addon w) /\
  exists a' ret e, o = Val (a', (ret, e)) /\ writable a' /\ Q (Status a').

Lemma Reconcile_rwp s f w t (Q : AddonStatus -> Prop) :
  name_unique -> alive w ->
  rspec s f w (processAddon t (st_addon w)) (proceeds w Q) ->
  (forall st, Q st -> guard_blocks (Status (st_addon w)) st = false) ->
  rspec s f w (Reconcile t (mkNN ns nm)) (fun w' _ => alive w' /\
    (Q (Status (st_addon w')) \/ (f = true /\ Status (st_addon w') = Status (st_addon w)))).
Proof.
  intros Hname Hw Hproc Hguard. pose proof Hw as [(_ & Hkey & Hd) _].
  apply rwp_call_bind; intros w1 r [[= <- <-]|[Hf [[e ->] ->]]].
  - rewrite bool_decide_eq_true_2 by done. unfold execAddon. rewrite Hd. apply rwp_recover, rwp_bind. eapply rwp_mono; [exact Hproc|].
    intros w2 o (Hw2 & Hst2 & a' & ret & e & -> & Ha' & HQ). cbv beta iota.
    apply rwp_bind. eapply rwp_mono.
    { exact (UpdateStatus_alive s f w2 a' _ Hw2 Ha' (Hguard _ HQ) Hst2). }
    intros w3 o (e' & -> & Hw3 & Hor & Hf). cbv beta iota.
    assert (Q (Status (st_addon w3)) \/ (f = true /\ Status (st_addon w3) = Status (st_addon w)))
      as Hend.
    { destruct f; [|left; by rewrite Hf]. destruct Hor as [->| ->]; [by right | by left]. }
    by destruct e'.
  - apply rwp_bind. eapply rwp_mono; [by apply RemoveFromCache_alive|].
    intros w2 o (-> & Hw2 & Heq). split; [done|]. right. by rewrite Heq.
Qed.

(** An addon of this spec with a given status. *)
Definition carrying st : Addon := mkAddon (mkObjectMeta nm ns "" None [] ∅) sp st.

(** The status records the current spec and the installation has started,
    at one of [times], or is finished. *)
Definition on_course (times : list Z) st : Prop :=
  Checksum st = CalculateChecksum (carrying st) /\
  ((underway (carrying st) /\ StartTime st ∈ times) \/ installed (carrying st)).

Definition stale st : Prop := Checksum st <> CalculateChecksum (carrying st).

Lemma carrying_checksum w st :
  alive w -> CalculateChecksum (st_addon w) = CalculateChecksum (carrying st).
Proof. intros [[Hs _] _]. by apply CalculateChecksum_spec. Qed.

(** In a reconcile that notices the spec. *)
Lemma stale_rwp s f w t times :
  can_install -> name_unique -> alive w -> stale (Status (st_addon w)) -> s_now s ∈ times ->
  rspec s f w (Reconcile t (mkNN ns nm)) (fun w' _ => alive w' /\
    ((on_course times (Status (st_addon w')) /\ underway (st_addon w')) \/
     (f = true /\ Status (st_addon w') = Status (st_addon w)))).
Proof.
  intros Hi Hname Hw Hst Hnow.
  assert (Checksum (Status (st_addon w)) <> CalculateChecksum (st_addon w)) as Hck
    by (by rewrite (carrying_checksum w (Status (st_addon w)) Hw)).
  apply (Reconcile_rwp s f w t (fun st => on_course times st /\ underway (carrying st))); [done..| |].
  - unfold processAddon, validateChecksum. rewrite bool_decide_eq_false_2 by done.
    fold (processed (st_addon w)). apply rwp_bind. eapply rwp_mono.
    { apply (deleteOldWorkflows_rwp s f w (processed (st_addon w)) Hi). apply Hw. }
    intros w1 o [-> ->]. cbv beta iota. sure_call. split; [exact Hw|]. split; [done|].
    eexists _, _, None. split; [reflexivity|].
    assert (underway (carrying (reset_status (st_addon w) (s_now s)))) as Hp by (split; [done | by left]).
    split; [exact (this_writable _ (proj1 Hw))|]. split; [|exact Hp]. split.
    + exact (carrying_checksum w (Status (st_addon w)) Hw).
    + by left.
  - intros st [[Hck' _] _]. unfold guard_blocks. rewrite Hck'.
    rewrite (bool_decide_eq_false_2 (Checksum (Status (st_addon w)) = _)); [|done].
    by rewrite andb_false_r.
Qed.

(** In a reconcile of an installation that is finished. *)
Lemma installed_rwp s f w t times :
  name_unique -> alive w -> on_course times (Status (st_addon w)) -> installed (st_addon w) ->
  rspec s f w (Reconcile t (mkNN ns nm)) (fun w' _ => alive w' /\
    on_course times (Status (st_addon w')) /\ installed (st_addon w')).
Proof.
  intros Hname Hw [Hck Hc] Hin.
  rewrite <-(carrying_checksum w (Status (st_addon w)) Hw) in Hck.
  assert (phase_Completed (GetInstallStatus (st_addon w)) = true) as Hdone by (by rewrite (proj1 Hin)).
  eapply rwp_mono.
  - apply (Reconcile_rwp s f w t (fun st => st = set_Resources [] (Status (st_addon w)))); [done..| |].
    + rewrite processAddon_completed by done. split; [done|]. split; [done|].
      eexists _, _, None. split; [reflexivity|]. split; [exact (this_writable _ (proj1 Hw))|].
      by apply processed_current.
    + intros st ->. unfold guard_blocks. cbn.
      change (Installed_Phase (Status_Lifecycle (Status (st_addon w)))) with
        (GetInstallStatus (st_addon w)). by rewrite (proj1 Hin).
  - intros w' o [Hw' Hor]. split; [done|].
    assert (Status_Lifecycle (Status (st_addon w')) = Status_Lifecycle (Status (st_addon w)) /\
      Checksum (Status (st_addon w')) = Checksum (Status (st_addon w))) as [Hl Hck']
      by (by destruct Hor as [->|[_ ->]]).
    assert (installed (st_addon w')) as Hin' by (by apply (installed_keeps (st_addon w))).
    split; [|done]. split; [|by right].
    rewrite Hck', Hck. rewrite (carrying_checksum w (Status (st_addon w')) Hw). done.
Qed.

(** What the installation needs from the surroundings of a reconcile. *)
Definition bearable (times : list Z) s : Prop :=
  unfailed (s_phase s) /\ secrets_present sp s /\
  Forall (fun start => IsExpired (s_now s) start TTL_Milliseconds = false) times.

(** Where an installation that is going on can get in one reconcile. *)
Definition moves s f (old st : AddonStatus) : Prop :=
  Checksum st = Checksum old /\ StartTime st = StartTime old /\
  (underway (carrying st) \/ installed (carrying st)) /\
  (f = false -> s_phase s = WorkflowSucceeded -> installed (carrying st)).

(** What is observed at the end leaves the progress alone. *)
Lemma observe_and_return_rwp s f w a :
  can_install -> this a ->
  rspec s f w (observe_and_return a) (fun w' o => w' = w /\ exists a' ret,
    o = Val (a', (ret, None)) /\ writable a' /\ same_progress (Status a) (Status a')).
Proof.
  intros Hi Ha. destruct (observe_and_return_run sp ns nm s w a Hi Ha)
    as (a' & ret & Hrun & Hm & Hp & Hst).
  eapply rwp_reliable; [apply observe_and_return_reliable | exact Hrun |].
  split; [done|]. exists a', ret. split_and!; [done| |done]. split.
  - unfold addon_key, addon_Name, addon_Namespace. rewrite Hm. apply Ha.
  - rewrite Hp. by rewrite (proj1 Ha).
Qed.

Lemma same_progress_keeps a b :
  same_progress (Status a) (Status b) ->
  (underway a -> underway b) /\ (installed a -> installed b).
Proof. intros (_ & Hl & _). split; [by apply underway_keeps | by apply installed_keeps]. Qed.

Lemma processAddon_rwp s f w t times :
  can_install -> alive w -> validates sp ns nm (st_cache w) -> underway (st_addon w) ->
  on_course times (Status (st_addon w)) -> bearable times s ->
  rspec s f w (processAddon t (st_addon w)) (proceeds w (moves s f (Status (st_addon w)))).
Proof.
  intros Hi Hw Hv Hp [Hck Hstart] (Hph & Hsec & Htime). set (b := st_addon w) in *.
  rewrite <-(carrying_checksum w (Status b) Hw) in Hck. fold b in Hck.
  assert (IsExpired (s_now s) (StartTime (Status b)) TTL_Milliseconds = false) as Hexp.
  { destruct Hstart as [[_ Hin]|Hin].
    - rewrite Forall_forall in Htime. by apply Htime.
    - exfalso. exact (underway_not_installed b Hp Hin). }
  assert (this (processed b)) as Hb1 by exact (proj1 Hw).
  assert (same_progress (Status b) (Status (processed b))) as Hst1 by by split_and!.
  destruct (Hv (0 :: t) (processed b) Hb1) as [e He].
  unfold processAddon, validateChecksum. rewrite bool_decide_eq_true_2 by done.
  fold (processed b). rewrite Installed_processed, (underway_open b Hp). sure_call.
  apply rwp_bind. eapply rwp_lift; [exact He|]. cbv beta iota. sure_call. apply rwp_bind.
  eapply rwp_mono; [exact (SetFinalizer_rwp s f w (processed b) FinalizerName Hb1 Hw Hst1)|].
  intros w1 o (Hw1 & Hc1 & Hs1 & b2 & e2 & -> & Hb2 & Hst2 & Hf2). cbv beta iota.
  destruct (same_progress_keeps b b2 Hst2) as [Hp2 _]. specialize (Hp2 Hp).
  destruct Hst2 as (Hck2 & Hl2 & Hstart2).
  assert (st_addon w = b) as Hfold by done. destruct e2 as [e2|].
  { sure_call. split; [done|]. split; [done|]. eexists _, _, _. split; [reflexivity|].
    split; [by apply this_writable|]. split_and!; [done..| |].
    - by left.
    - intros Hf. by specialize (Hf2 Hf). }
  rewrite (underway_open b2 Hp2). sure_call. rewrite Hstart2. rewrite Hfold, Hexp.
  apply rwp_bind. eapply rwp_mono; [by apply executePrereqAndInstall_rwp|].
  intros w2 o [-> (b3 & -> & Hsame3 & Hor3 & Hdone3)]. cbv beta iota.
  pose proof (this_addon_same _ _ _ b2 b3 Hsame3 Hb2) as Hb3.
  destruct Hsame3 as (_ & _ & Hck3 & _ & Hstart3).
  eapply rwp_mono; [exact (observe_and_return_rwp s f w1 b3 Hi Hb3)|].
  intros w3 o [-> (b4 & ret & -> & Hb4 & Hst4)]. split; [done|]. split; [done|].
  exists b4, ret, None. split; [done|]. split; [done|].
  destruct (same_progress_keeps b3 b4 Hst4) as [Hpk Hik], Hst4 as (Hck4 & _ & Hstart4).
  split_and!; [congruence..| |].
  - destruct Hor3; [left; by apply Hpk | right; by apply Hik].
  - intros Hf Hs. by apply Hik, Hdone3.
Qed.

(** In a reconcile of an installation that goes on. *)
Lemma underway_rwp s f w t times :
  can_install -> name_unique -> alive w -> validates sp ns nm (st_cache w) ->
  underway (st_addon w) -> on_course times (Status (st_addon w)) -> bearable times s ->
  rspec s f w (Reconcile t (mkNN ns nm)) (fun w' _ => alive w' /\
    on_course times (Status (st_addon w')) /\
    (f = false -> s_phase s = WorkflowSucceeded -> installed (st_addon w'))).
Proof.
  intros Hi Hname Hw Hv Hp Hcourse Hs. eapply rwp_mono.
  - apply (Reconcile_rwp s f w t (moves s f (Status (st_addon w)))); [done..| |].
    + by apply (processAddon_rwp s f w t times).
    + intros st _. by apply underway_unguarded.
  - intros w' o [Hw' Hor]. split; [done|]. destruct Hor as [(Hck & Hst & Hph & Hdone)|[-> Heq]].
    + destruct Hcourse as [Hck0 Hcase]. split; [|exact Hdone].
      split; [by rewrite Hck, Hck0|]. destruct Hph as [Hph|Hph]; [left | by right].
      split; [done|]. rewrite Hst. destruct Hcase as [[_ ?]|Hin]; [done|].
      exfalso. exact (underway_not_installed (st_addon w) Hp Hin).
    + by rewrite Heq.
Qed.

(** ** Sequences of reconciles *)

Record fround := mkFRound { fr_path : list nat; fr_s : surroundings; fr_faulty : bool }.

Inductive frounds : list fround -> store -> store -> Prop :=
  | frounds_nil w : frounds [] w w
  | frounds_cons r l w w1 o w2 :
      behaves (responds (cluster (fr_s r)) (fr_faulty r)) w (Reconcile (fr_path r) (mkNN ns nm)) w1 o ->
      frounds l w1 w2 -> frounds (r :: l) w w2.

Lemma frounds_total l w : exists w', frounds l w w'.
Proof.
  revert w. induction l as [|r l IH]; intros w; [by eexists; constructor|].
  destruct (IH (run (cluster (fr_s r)) w (Reconcile (fr_path r) (mkNN ns nm))).1) as [w2 Hw2].
  exists w2. econstructor; [|exact Hw2]. apply behaves_total. apply responds_handler.
Qed.

Lemma frounds_app_inv l1 l2 w w' :
  frounds (l1 ++ l2) w w' -> exists w1, frounds l1 w w1 /\ frounds l2 w1 w'.
Proof.
  revert w. induction l1 as [|r l1 IH]; intros w Hl; [by exists w; split; [constructor|]|].
  inversion Hl as [|? ? ? w1 o ? Hb Hl']. subst. destruct (IH w1 Hl') as (w2 & H12 & H2').
  exists w2. split; [by econstructor | done].
Qed.

(** All the reconciles of the sequence lie within the time limit of each
    other. *)
Definition in_time (rounds : list fround) : Prop :=
  forall r r', r ∈ rounds -> r' ∈ rounds ->
    IsExpired (s_now (fr_s r)) (s_now (fr_s r')) TTL_Milliseconds = false.

Definition times_of (rounds : list fround) : list Z := (fun r => s_now (fr_s r)) <$> rounds.

(** The states of an installation that no failure has spoilt. *)
Definition unspoilt (times : list Z) w : Prop :=
  alive w /\ (stale (Status (st_addon w)) \/ on_course times (Status (st_addon w))).

Section rounds.
Hypothesis Hinstallable : can_install.
Hypothesis Hname : name_unique.
Hypothesis Hvalid : forall c, cache_ok c -> validates sp ns nm c.

(** One reconcile: what was reached is kept, and a reconcile without
    failures advances. *)
Lemma fround_step r times w w' o :
  s_now (fr_s r) ∈ times -> bearable times (fr_s r) -> unspoilt times w ->
  behaves (responds (cluster (fr_s r)) (fr_faulty r)) w (Reconcile (fr_path r) (mkNN ns nm)) w' o ->
  unspoilt times w' /\
  (on_course times (Status (st_addon w)) -> on_course times (Status (st_addon w'))) /\
  (fr_faulty r = false -> on_course times (Status (st_addon w'))) /\
  (on_course times (Status (st_addon w)) -> installed (st_addon w) -> installed (st_addon w')) /\
  (on_course times (Status (st_addon w)) -> fr_faulty r = false ->
    s_phase (fr_s r) = WorkflowSucceeded -> installed (st_addon w')).
Proof.
  intros Hnow Hs [Hw Hst] Hb. destruct r as [t s f]; cbn in *.
  destruct Hst as [Hst|Hst].
  - pose proof (rwp_behaves _ _ _ _ _ _ (stale_rwp s f w t times Hinstallable Hname Hw Hst Hnow) Hb)
      as [Hw' Hor].
    assert (~ on_course times (Status (st_addon w))) as Hno by (by intros [? _]).
    destruct Hor as [[Hc _]|[Hf Heq]]; [by split_and!; [split; auto|..]|].
    rewrite Heq, Hf. split_and!; [split; [done|] | done..]. rewrite Heq. by left.
  - destruct (Hst) as [_ [[Hp _]|Hin]].
    + destruct (rwp_behaves _ _ _ _ _ _ (underway_rwp s f w t times Hinstallable Hname Hw
        (Hvalid _ (proj2 Hw)) Hp Hst Hs) Hb) as (Hw' & Hc & Hdone).
      split_and!; [by split; [|right] | done | done | | by auto].
      intros _ Hin. exfalso. exact (underway_not_installed (st_addon w) Hp Hin).
    + destruct (rwp_behaves _ _ _ _ _ _ (installed_rwp s f w t times Hname Hw Hst Hin) Hb)
        as (Hw' & Hc & Hin'). by split_and!; [split; [|right]|..].
Qed.

Lemma frounds_keep l times w w' :
  Forall (fun r => s_now (fr_s r) ∈ times /\ bearable times (fr_s r)) l ->
  unspoilt times w -> frounds l w w' ->
  unspoilt times w' /\
  (on_course times (Status (st_addon w)) -> on_course times (Status (st_addon w')) /\
    (installed (st_addon w) -> installed (st_addon w'))).
Proof.
  intros Hall Hw Hl. induction Hl as [w|r l w w1 o w2 Hb Hl IH]; [done|].
  apply Forall_cons in Hall as [[Hnow Hs] Hall].
  destruct (fround_step r times w w1 o Hnow Hs Hw Hb) as (Hw1 & Hc & _ & Hin & _).
  destruct (IH Hall Hw1) as [Hw2 Hkeep]. split; [done|]. intros Hcw.
  destruct (Hkeep (Hc Hcw)) as [Hc2 Hin2]. auto.
Qed.

Lemma in_time_bearable rounds r :
  in_time rounds -> r ∈ rounds -> unfailed (s_phase (fr_s r)) -> secrets_present sp (fr_s r) ->
  s_now (fr_s r) ∈ times_of rounds /\ bearable (times_of rounds) (fr_s r).
Proof.
  intros Ht Hr Hph Hsec. split; [apply list_elem_of_fmap; by exists r|]. split_and!; [done..|].
  apply Forall_forall. intros start (r' & -> & Hr')%list_elem_of_fmap. by apply Ht.
Qed.
End rounds.

(** C4: an installation survives failed requests.  Whatever reads of the
    addon and of workflows, status writes, updates of the addon and deletions
    of old workflows fail, with or without having taken effect, in whatever
    reconciles: if one reconcile without failures notices the new spec and a
    later one without failures finds the workflows succeeded, every behaviour
    of the reconciles (and there is one) ends with prerequisites and
    installation succeeded for the current spec.  Provided that the addon is
    valid next to every cache that differs only in its own entry, that no
    other cached package carries its name, that the workflows can be submitted
    and have not failed in any of the reconciles, that the secrets exist in
    each of them, and that they all lie within the time limit of each other. *)
Theorem installation_survives_failures (w : store) (before between after : list fround)
    (g1 g2 : fround) :
  let rounds := before ++ g1 :: between ++ g2 :: after in
  can_install -> name_unique -> (forall c, cache_ok c -> validates sp ns nm c) ->
  alive w -> Checksum (Status (st_addon w)) <> CalculateChecksum (st_addon w) ->
  Forall (fun r => unfailed (s_phase (fr_s r)) /\ secrets_present sp (fr_s r)) rounds ->
  in_time rounds ->
  fr_faulty g1 = false -> fr_faulty g2 = false -> s_phase (fr_s g2) = WorkflowSucceeded ->
  (exists w', frounds rounds w w') /\
  forall w', frounds rounds w w' ->
    let b := st_addon w' in
    this b /\ Checksum (Status b) = CalculateChecksum b /\
    GetPrereqStatus b = Succeeded /\ GetInstallStatus b = Succeeded.
Proof.
  intros rounds Hi Hname Hv Hw Hck Hall Htime Hg1 Hg2 Hs2.
  split; [apply frounds_total|]. intros w' Hrounds b.
  assert (Forall (fun r => s_now (fr_s r) ∈ times_of rounds /\ bearable (times_of rounds) (fr_s r))
    rounds) as Hfav.
  { rewrite Forall_forall in Hall |- *. intros r Hr. destruct (Hall r Hr). by apply in_time_bearable. }
  set (times := times_of rounds) in *. clearbody times. unfold rounds in *.
  rewrite !Forall_app, !Forall_cons, !Forall_app, !Forall_cons in Hfav.
  destruct Hfav as (Hbefore & Hf1 & Hbetween & Hf2 & Hafter).
  apply frounds_app_inv in Hrounds as (w1 & Hb & Hrounds).
  inversion Hrounds as [|? ? ? w2 o2 ? Hg Hrounds2]; subst.
  apply frounds_app_inv in Hrounds2 as (w3 & Hm & Hrounds3).
  inversion Hrounds3 as [|? ? ? w4 o4 ? Hg' Ha]; subst.
  assert (unspoilt times w) as H1u.
  { split; [done|]. left. by rewrite (carrying_checksum w (Status (st_addon w)) Hw) in Hck. }
  destruct (frounds_keep Hi Hname Hv before times w w1 Hbefore H1u Hb) as [H2u _].
  destruct (fround_step Hi Hname Hv g1 times w1 w2 o2 (proj1 Hf1) (proj2 Hf1) H2u Hg)
    as (H3u & _ & Hc3 & _). specialize (Hc3 Hg1).
  destruct (frounds_keep Hi Hname Hv between times w2 w3 Hbetween H3u Hm) as [H4u Hk4].
  destruct (Hk4 Hc3) as [Hc4 _].
  destruct (fround_step Hi Hname Hv g2 times w3 w4 o4 (proj1 Hf2) (proj2 Hf2) H4u Hg')
    as (H5u & Hc5 & _ & _ & Hd5).
  destruct (frounds_keep Hi Hname Hv after times w4 w' Hafter H5u Ha) as [[Hw' _] Hk6].
  destruct (Hk6 (Hc5 Hc4)) as [[Hckf _] Hin]. destruct (Hin (Hd5 Hc4 Hg2 Hs2)) as [Hinst Hpre].
  split_and!; [apply Hw' | | done..].
  unfold b. by rewrite (carrying_checksum w' (Status (st_addon w')) Hw').
Qed.
End faults.

(** ** A concrete installation with failures *)

Definition fresh_start : store := mkStore fresh_addon Cached.NewAddonVersionCacheClient.

Abbreviation sample_cache_ok c :=
  (cache_ok (Spec fresh_addon) "addon-manager-system" "c" (st_cache fresh_start) c).

(** The sample addon is valid next to any entry of its own. *)
Lemma sample_validates_any c :
  sample_cache_ok c ->
  @validates range_fwd star_semver sample_yaml sample_reader (Spec fresh_addon)
    "addon-manager-system" "c" c.
Proof.
  intros (Hok & Hother & Hown) t a Ha. rewrite (sample_this_inv ∅ a Ha). exists None.
  set (b := mkAddon _ _ _).
  assert (@validateDuplicate Cached.cached (@Cached.cached_client range_fwd star_semver) (0 :: t)
    (NewAddonValidator b c) (addon_version b) = None) as Hdup.
  { unfold validateDuplicate. destruct (vc_GetVersion _ _ _ _) as [v|] eqn:Hv; [|done].
    apply Cached.GetVersion_Some in Hv as (w' & Hv & _).
    destruct (decide (("core/C", w') = own_key (Spec fresh_addon))) as [Heq|Hne].
    - destruct (Hown v) as (-> & _); [by rewrite <-Heq | done].
    - pose proof (eq_trans (eq_sym Hv) (Hother _ Hne)) as Hno. by rewrite Cached.lookup_abs in Hno. }
  unfold Validate_addon. change (av_addon (NewAddonValidator b c)) with b. rewrite Hdup.
  vm_compute. reflexivity.
Qed.

Definition a_round (n : nat) (ph : WorkflowPhase) (now : Z) (f : bool) : fround :=
  mkFRound [n] (in_phase ph now) f.

Definition failing_before : list fround := [a_round 1 WorkflowUnknown 1000 true].
Definition failing_between : list fround :=
  [a_round 3 WorkflowRunning 2000 true; a_round 4 WorkflowSucceeded 3000 true].
Definition failing_after : list fround := [a_round 6 WorkflowSucceeded 5000 true].
Definition noticing : fround := a_round 2 WorkflowUnknown 1500 false.
Definition finishing : fround := a_round 5 WorkflowSucceeded 4000 false.

Definition failing_rounds : list fround :=
  failing_before ++ noticing :: failing_between ++ finishing :: failing_after.

Abbreviation sample_frounds := (@frounds range_fwd star_semver sample_yaml sample_reader default_retry
  sample_lifecycle sample_selectors sample_util "addon-manager-system" "c").

Lemma failing_in_time : in_time failing_rounds.
Proof.
  assert (Forall (fun r => Forall (fun r' =>
    IsExpired (s_now (fr_s r)) (s_now (fr_s r')) TTL_Milliseconds = false) failing_rounds)
    failing_rounds) as Hall.
  { apply (bool_decide_unpack _). vm_compute. exact I. }
  intros r r' Hr Hr'. rewrite Forall_forall in Hall. specialize (Hall r Hr).
  rewrite Forall_forall in Hall. by apply Hall.
Qed.

Lemma installation_survives_failures_witness :
  (exists w', sample_frounds failing_rounds fresh_start w') /\
  forall w', sample_frounds failing_rounds fresh_start w' ->
    GetPrereqStatus (st_addon w') = Succeeded /\ GetInstallStatus (st_addon w') = Succeeded.
Proof.
  destruct (@installation_survives_failures range_fwd star_semver sample_yaml sample_reader
    default_retry tree_object sample_lifecycle sample_lifecycle_laws sample_selectors sample_util
    (Spec fresh_addon) "addon-manager-system" "c" (st_cache fresh_start) fresh_start
    failing_before failing_between failing_after noticing finishing (sample_installable ∅))
    as [Hex Hall].
  - intros [p u] x _ Hx. rewrite Cached.lookup_abs in Hx. discriminate.
  - exact sample_validates_any.
  - split; [split; [reflexivity | split; reflexivity]|].
    split; [|split; [reflexivity|]].
    + intros p x v Hv. rewrite Cached.lookup_abs in Hv. discriminate.
    + intros v Hv. vm_compute in Hv. discriminate.
  - vm_compute. discriminate.
  - repeat (apply Forall_cons; split); [..|apply Forall_nil; exact I];
      (split; [apply (bool_decide_unpack _); vm_compute; exact I|]);
      exists ∅; (split; [reflexivity | apply Forall_nil; exact I]).
  - exact failing_in_time.
  - reflexivity.
  - reflexivity.
  - reflexivity.
  - split; [exact Hex|]. intros w' Hw'. exact (proj2 (proj2 (Hall w' Hw'))).
Defined.
