(* ===== verification/FaultyDeletion.v ===== *)
(** Deletion in a cluster that does not always answer.  As in [Deletion] the
    reconciles of both controllers take turns, but in any of them reads,
    status writes and the update that removes the finalizer can fail. *)
From S2P Require Import Prelude GoStrings GoFmt AddonTypes Common VersionCache Unstructured.
From S2P Require Import TreeObject Validator Effects Updater Workflow Objects Controller.
From S2P Require Import WorkflowController Samples Protocol Outcome Progress Deletion FaultModel.

(** One call that never fails. *)
Ltac sure_step := apply rwp_sure; [done|]; cbn [deleting_cluster fst snd].

Section faulty_deletion.
Context `{GoRange, Semver, Yaml, UnstructuredReader, RetryOnConflict}.
Context `{AddonLifecycleLaws, Selectors, ControllerUtil}.
Context (go_syntax : error -> string) (sp : AddonSpec) (ns nm : string) (w0 : dstore).
Implicit Types (s : surroundings) (w : dstore) (a b : Addon) (f : bool).

#[local] Abbreviation rspec s f := (rwp (responds (deleting_cluster nm s) f)).
#[local] Abbreviation dying := (doomed sp ns nm).
#[local] Abbreviation own := (own_key sp).

(** ** The cache *)

(** Every entry sits under its own key, and those of other packages are as
    they were in [w0]. *)
Definition tidy w : Prop := keys_ok (Cached.abs (d_cache w)) /\ others_kept sp w0 w.

Lemma tidy_same w o : tidy w -> tidy (mkDStore o (d_cache w)).
Proof. done. Qed.

Lemma tidy_add w o b : Spec b = sp -> tidy w -> tidy (mkDStore o (Cached.AddVersion (own_version b) (d_cache w))).
Proof.
  intros Hs [Hok Hk]. pose proof (own_version_key sp b Hs) as Hkey. split; cbn.
  - rewrite Cached.abs_AddVersion. intros p x v.
    rewrite lookup_insert_Some. intros [[[= <- <-] <-]|[_ Hv]]; [done | by apply Hok].
  - intros k Hne. cbn. rewrite Cached.abs_AddVersion, Hkey.
    rewrite lookup_insert_ne by done. by apply Hk.
Qed.

Lemma abs_remove_own c :
  Cached.abs (Cached.RemoveVersion own.1 own.2 c) = delete own (Cached.abs c).
Proof. by rewrite Cached.abs_RemoveVersion. Qed.

Lemma tidy_remove w o : tidy w -> tidy (mkDStore o (Cached.RemoveVersion own.1 own.2 (d_cache w))).
Proof.
  intros [Hok Hk]. split; cbn.
  - rewrite abs_remove_own. intros p x v [_ Hv]%lookup_delete_Some. by apply Hok.
  - intros k Hne. cbn. rewrite abs_remove_own, lookup_delete_ne by done. by apply Hk.
Qed.

(** What [RemoveFromCache] can forget is the addon's own entry. *)
Lemma RemoveFromCache_rwp s f w :
  name_is_own sp nm w0 -> tidy w ->
  rspec s f w (RemoveFromCache nm) (fun w' o => o = Val tt /\ tidy w' /\ d_addon w' = d_addon w /\
    (Cached.abs (d_cache w) !! own = None -> Cached.abs (d_cache w') !! own = None)).
Proof.
  intros Hname Ht. pose proof Ht as [Hok Hother]. unfold RemoveFromCache. sure_step.
  destruct (@Cached.HasVersionName range_fwd [] (d_cache w) nm) as [[] ov] eqn:Hv.
  - apply Cached.HasVersionName_Some in Hv as (x & p & u & -> & Hx & Hn).
    destruct (Hok _ _ _ Hx) as [<- <-].
    assert ((V_PkgName x, V_PkgVersion x) = own) as Hk.
    { apply dec_stable. intros Hne. rewrite (Hother _ Hne) in Hx. by apply (Hname _ _ Hne Hx). }
    injection Hk as Hp Hu. sure_step. eapply rwp_sure_last; [reflexivity | done |].
    rewrite Hp, Hu. split; [done|]. split; [exact (tidy_remove w (d_addon w) Ht)|]. split; [done|].
    intros _. change (Cached.abs (Cached.RemoveVersion own.1 own.2 (d_cache w)) !! own = None).
    by rewrite abs_remove_own, lookup_delete_eq.
  - apply Cached.HasVersionName_None in Hv as [-> _]. apply rwp_bind.
    cbn [rwp mret Prog_ret]. eapply rwp_sure_last; [reflexivity | done |]. by split_and!.
Qed.

(** ** The status update *)

Lemma doomed_like a a' :
  Meta a' = Meta a -> Spec a' = Spec a -> GetInstallStatus a' <> DeleteFailed -> dying a -> dying a'.
Proof.
  intros Hm Hs Hnf (Hsp & Hk & Hd & Hf & _). unfold doomed, addon_key, addon_Name, addon_Namespace in *.
  by rewrite Hs, Hm.
Qed.

(** A deletion phase is written or not; without failures it is. *)
Lemma write_rwp s f w a b :
  tidy w -> d_addon w = Some a -> dying a -> same_but_phases a b ->
  GetInstallStatus b = Deleting \/ GetInstallStatus b = DeleteSucceeded ->
  rspec s f w (UpdateStatus b) (fun w' o => exists e a', o = Val e /\ tidy w' /\
    d_addon w' = Some a' /\ dying a' /\
    (phase_Deleting (GetInstallStatus a) = true -> phase_Deleting (GetInstallStatus a') = true) /\
    (f = false -> phase_Deleting (GetInstallStatus a') = true)).
Proof.
  intros Ht Hw Ha (Hm & Hs & _) Hb.
  set (I w := tidy w /\ exists a', d_addon w = Some a' /\ Meta a' = Meta a /\ Spec a' = Spec a).
  set (status w := match d_addon w with Some a' => Status a' | None => Status b end).
  assert (phase_Deleting (GetInstallStatus b) = true /\ GetInstallStatus b <> DeleteFailed) as [Hpb Hnb]
    by (by destruct Hb as [->| ->]).
  assert (Spec b = sp) as Hsp by (rewrite Hs; apply Ha).
  eapply rwp_mono.
  - apply (UpdateStatus_rwp (deleting_cluster nm s) I status b (Status a) f); try done.
    + intros w1 [_ (a1 & Hw1 & Hm1 & _)]. exists a1. unfold status. rewrite Hw1. split; [|done].
      cbn. unfold find_addon. rewrite Hw1. rewrite bool_decide_eq_true_2; [done|].
      unfold addon_key, addon_Name, addon_Namespace. by rewrite Hm1, Hm.
    + intros w1 o [Ht1 (a1 & Hw1 & Hm1 & Hs1)] Ho. cbn. rewrite Hw1. eexists. split; [reflexivity|].
      split; [|exact Ho]. split; [exact Ht1|]. by eexists.
    + intros w1 [Ht1 Hex]. eexists. split; [reflexivity|]. split; [|done].
      split; [by apply tidy_add | exact Hex].
    + unfold guard_blocks. change (Installed_Phase (Status_Lifecycle (Status b))) with (GetInstallStatus b).
      by destruct Hb as [-> | ->]; rewrite andb_false_r.
    + split; [done|]. by exists a.
    + unfold status. by rewrite Hw.
  - intros w' o (e & -> & [Ht' (a' & Hw' & Hm' & Hs')] & Hor & Hf). exists e, a'.
    unfold old_or_new, status in Hor, Hf. rewrite Hw' in Hor, Hf.
    assert (GetInstallStatus a' = GetInstallStatus a \/ GetInstallStatus a' = GetInstallStatus b) as Hph
      by (unfold GetInstallStatus; destruct Hor as [->| ->]; [by left | by right]).
    split_and!; [done..| | |].
    + apply (doomed_like a); [done..| |done]. destruct Hph as [->| ->]; [apply Ha | done].
    + intros Hp. by destruct Hph as [->| ->].
    + intros Hff. specialize (Hf Hff). unfold GetInstallStatus. rewrite Hf. exact Hpb.
Qed.

(** ** The addon controller *)

Lemma runWorkflow_delete_rwp s f w t a :
  delete_submits sp ns nm -> dying a -> Template (LC_Delete (Lifecycle sp)) <> "" ->
  unfailed (s_phase s) ->
  rspec s f w (runWorkflow t Delete a) (fun w' o => w' = w /\ exists a', o = Val (a', None) /\
    same_but_phases a a' /\
    (f = false -> s_phase s = WorkflowSucceeded -> phase_Succeeded (GetInstallStatus a') = true)).
Proof.
  intros Hd Ha Htpl Hph. unfold runWorkflow. destruct (step_completed Delete a) eqn:Hc.
  - split; [done|]. exists a. split_and!; [done..|]. intros _ _. destruct Ha as (_ & _ & _ & _ & Hnf).
    rewrite step_completed_delete, (bool_decide_eq_false_2 _ Hnf) in Hc.
    by apply bool_decide_eq_true in Hc as ->.
  - rewrite GetWorkflowType_delete, (proj1 Ha), (bool_decide_eq_false_2 _ Htpl). cbv zeta.
    rewrite (bool_decide_eq_false_2 _ (delete_name_nonempty a)).
    pose proof (delete_phase (s_phase s) [] a Hph) as Hcase. cbv zeta in Hcase.
    apply rwp_bind. eapply rwp_reliable; [apply wfl_Install_reliable|
      exact (wfl_delete_run sp ns nm s w t a Hd Ha Htpl)|]. cbv beta iota. sure_step.
    apply rwp_call_bind; intros w' r [[= <- <-]|[Hf [[e ->] ->]]].
    + cbn [wf_Phase]. case_bool_decide as He; cbn [negb];
        (split; [done|]; eexists; split; [reflexivity|]; split; [by auto with addon|]).
      * intros _ Hs. by rewrite Hs in He.
      * intros _ Hs. rewrite Hs in Hcase |- *. destruct Hcase as [?|[-> _]]; done.
    + split; [done|]. exists a. split_and!; [done..|]. by rewrite Hf.
Qed.

Lemma Finalize_rwp s f w t a :
  delete_submits sp ns nm -> tidy w -> d_addon w = Some a -> dying a -> unfailed (s_phase s) ->
  rspec s f w (Finalize t a FinalizerName) (fun w' o => exists a' e, o = Val (a', e) /\ tidy w' /\
    (d_addon w' = Some a \/ gone sp w') /\
    (f = false -> s_phase s = WorkflowSucceeded -> gone sp w')).
Proof.
  intros Hd Ht Hw Ha Hph. unfold Finalize. apply rwp_bind.
  apply rwp_mono with (post := fun w' o => w' = w /\ exists a' fin, o = Val (a', fin, None) /\
    same_but_phases a a' /\ (f = false -> s_phase s = WorkflowSucceeded -> fin = true)).
  { rewrite (proj1 Ha). case_bool_decide as Htpl; cbn [negb].
    - split; [done|]. by exists a, true.
    - apply rwp_bind. eapply rwp_mono; [by apply runWorkflow_delete_rwp|].
      intros w' o [-> (a' & -> & Hsame & Hs)]. split; [done|]. by eexists _, _. }
  intros w' o [-> (a' & fin & -> & (Hm & Hs & _) & Hfin)]. cbv beta iota. rewrite Hs, (proj1 Ha).
  change (PkgName (Spec_Package sp)) with own.1. change (PkgVersion (Spec_Package sp)) with own.2.
  sure_step. set (c' := Cached.RemoveVersion own.1 own.2 (d_cache w)).
  assert (forall o, o = None -> gone sp (mkDStore o c')) as Hgone.
  { intros o ->. split; [done|]. unfold c'. cbn [d_cache]. by rewrite abs_remove_own, lookup_delete_eq. }
  assert (forall o, tidy (mkDStore o c')) as Ht' by (intros o; by apply tidy_remove).
  destruct fin; cbv iota zeta.
  - apply rwp_call_bind; intros w1 r [HR|[Hf [[e ->] HR]]]; cbn in HR; rewrite Hw in HR; cbn in HR;
      match type of HR with context [stored ?x] =>
        assert (stored x = None) as Hst by exact (stored_finalized sp ns nm a a' (Spec a') (Status a) Ha Hm)
      end; rewrite Hst in HR.
    + injection HR as <- <-.
      eexists _, None. split_and!; [reflexivity | done | right; by apply Hgone | by intros; apply Hgone].
    + eexists _, (Some e). split; [reflexivity|].
      destruct HR as [->| ->]; (split_and!; [done| |by rewrite Hf]); [by left | right; by apply Hgone].
  - eexists _, None. split_and!; [reflexivity | done | by left |]. intros Hf Hsucc.
    by specialize (Hfin Hf Hsucc).
Qed.

(** ** Reconciles *)

Definition alive_as w a : Prop := d_addon w = Some a /\ dying a.

(** The addon is on its way out: it exists or it is gone for good. *)
Definition on_way_out w : Prop := tidy w /\ (gone sp w \/ exists a, alive_as w a).

(** ... and its deletion was noticed. *)
Definition deletion_noticed w : Prop :=
  tidy w /\ (gone sp w \/ exists a, alive_as w a /\ phase_Deleting (GetInstallStatus a) = true).

Lemma noticed_on_way_out w : deletion_noticed w -> on_way_out w.
Proof. intros [Ht [Hg|(a & Ha & _)]]; (split; [done|]); [by left | right; by exists a]. Qed.

(** What one reconcile keeps, and what it achieves without failures. *)
Definition kept w w' : Prop := on_way_out w' /\ (deletion_noticed w -> deletion_noticed w').

Lemma noticed_kept w w' : deletion_noticed w' -> kept w w'.
Proof. intros Hn. split; [by apply noticed_on_way_out | done]. Qed.

Lemma alive_kept w w' a :
  tidy w' -> alive_as w a -> alive_as w' a -> kept w w'.
Proof.
  intros Ht [Hw _] Ha. split; [split; [done|]; right; by exists a|].
  intros [_ [[Hn _]|(a1 & [Hw1 _] & Hp)]]; [congruence|].
  split; [done|]. right. exists a. split; [done|]. congruence.
Qed.

Lemma find_dying w a : alive_as w a -> find_addon w (mkNN ns nm) = Ok a.
Proof. intros [Hw Ha]. by apply (find_alive sp ns nm). Qed.

Lemma find_gone w : d_addon w = None -> find_addon w (mkNN ns nm) = Err not_found.
Proof. intros Hw. unfold find_addon. by rewrite Hw. Qed.

(** A read of the addon: the addon, or an error. *)
Lemma get_rwp {B} s f w (k : result Addon -> Prog B) post :
  (forall a, find_addon w (mkNN ns nm) = Ok a -> rspec s f w (k (Ok a)) post) ->
  (forall e, f = true \/ is_err (find_addon w (mkNN ns nm)) -> rspec s f w (k (Err e)) post) ->
  rspec s f w (call (CGetAddon (mkNN ns nm)) ≫= k) post.
Proof.
  intros Hok Herr. apply rwp_call_bind; intros w1 r [HR|[Hf [[e ->] ->]]]; [|by apply Herr; left].
  cbn in HR. injection HR as <- <-. destruct (find_addon w (mkNN ns nm)) as [a|e] eqn:Hfind;
    [by apply Hok|]. apply Herr. right. by exists e.
Qed.

Lemma addon_round_rwp s f w t :
  delete_submits sp ns nm -> name_is_own sp nm w0 -> unfailed (s_phase s) -> on_way_out w ->
  rspec s f w (Reconcile t (mkNN ns nm)) (fun w' _ => kept w w' /\ (f = false -> deletion_noticed w') /\
    (deletion_noticed w -> f = false -> s_phase s = WorkflowSucceeded -> gone sp w')).
Proof.
  intros Hd Hname Hph [Ht Hcase]. unfold Reconcile. apply get_rwp.
  - intros a Hfind. destruct Hcase as [[Hn _]|(a1 & Hw1)];
      [by rewrite (find_gone w Hn) in Hfind|].
    rewrite (find_dying w a1 Hw1) in Hfind. injection Hfind as ->. pose proof Hw1 as [Hw Ha].
    assert (forall w', deletion_noticed w -> phase_Deleting (GetInstallStatus a) = false -> gone sp w')
      as Hno by (intros w' [_ [[? _]|(a2 & [? _] & ?)]] ?; congruence).
    unfold execAddon. destruct (proj1 (proj2 (proj2 Ha))) as [d Hdel]. rewrite Hdel.
    apply rwp_recover. destruct (phase_Deleting (GetInstallStatus a)) eqn:Hp; cbn [negb]; apply rwp_bind.
    + eapply rwp_mono; [by apply Finalize_rwp|].
      intros w' o (a' & e & -> & Ht' & Hor & Hg). cbv beta iota.
      assert (deletion_noticed w') as Hn.
      { split; [done|]. destruct Hor as [Hw'|Hg']; [right | by left]. by exists a. }
      assert (kept w w' /\ (f = false -> deletion_noticed w') /\
        (deletion_noticed w -> f = false -> s_phase s = WorkflowSucceeded -> gone sp w')) as Hpost
        by (split_and!; [by apply noticed_kept | done | by intros _]).
      destruct e; [by sure_step | exact Hpost].
    + eapply rwp_mono.
      { apply (write_rwp s f w a (SetInstallStatus Deleting [] a)); [done..| |].
        - auto with addon.
        - left. apply GetInstallStatus_SetInstallStatus. }
      intros w' o (e & a' & -> & Ht' & Hw' & Ha' & _ & Hf). cbv beta iota. split_and!.
      * split; [split; [done|]; right; by exists a'|]. intros Hn. split; [done|]. left. by apply Hno.
      * intros Hff. split; [done|]. right. exists a'. split; [done | by apply Hf].
      * intros Hn _ _. by apply Hno.
  - intros e Hor. apply rwp_bind. eapply rwp_mono; [by apply RemoveFromCache_rwp|].
    intros w' o (-> & Ht' & Hw' & Hown). cbv beta iota.
    destruct Hcase as [[Hn Hkey]|(a & Hw & Ha)].
    + assert (gone sp w') as Hg by (split; [congruence | by apply Hown]).
      assert (deletion_noticed w') as Hno by (by split; [|left]).
      split_and!; [by apply noticed_kept | done | done].
    + assert (f = true) as Hf.
      { destruct Hor as [?|[e' He']]; [done|]. by rewrite (find_dying w a (conj Hw Ha)) in He'. }
      split_and!; [|by rewrite Hf..]. apply (alive_kept w w' a); [done|done|]. split; [congruence | done].
Qed.

Lemma workflow_update_rwp s f w wf :
  unfailed (s_phase s) -> on_way_out w ->
  wf_Name wf = delete_workflow sp ns nm -> wf_Phase wf = s_phase s ->
  rspec s f w (UpdateAddonStatusLifecycleFromWorkflow ns nm wf)
    (fun w' o => (exists e, o = Val e) /\ kept w w').
Proof.
  intros Hph Hl Hn Hp. pose proof Hl as [Ht Hcase].
  assert (kept w w) as Hsame by (by split).
  unfold UpdateAddonStatusLifecycleFromWorkflow, getExistingAddon. apply get_rwp.
  2: { intros e _. split; [by eexists | done]. }
  intros a Hfind. destruct Hcase as [[Hnone _]|(a1 & Hw1)]; [by rewrite (find_gone w Hnone) in Hfind|].
  rewrite (find_dying w a1 Hw1) in Hfind. injection Hfind as ->. pose proof Hw1 as [Hw Ha].
  destruct (phase_Completed _); [by split; [eexists|]|].
  rewrite Hn, (delete_workflow_read sp ns nm a Ha), (delete_workflow_of sp ns nm a Ha), Hp.
  rewrite !bool_decide_eq_true_2 by done. cbn [negb]. cbv zeta.
  set (rs := [_]). destruct (delete_phase (s_phase s) rs a Hph) as [->|[Hst Hphase]].
  { split; [by eexists | done]. }
  rewrite bool_decide_eq_false_2 by (destruct Hphase as [[-> _]| ->]; done).
  pose proof (SetStatusByLifecyleStep_same Delete
    (ConvertWorkflowPhaseToAddonPhase Delete (s_phase s)) rs a) as Hsm.
  destruct (SetStatusByLifecyleStep Delete _ rs a) as [b e] eqn:Hset. cbn [fst] in Hst, Hsm.
  assert (e = None) as ->
    by (unfold SetStatusByLifecyleStep in Hset; cbn in Hset; by repeat case_match; simplify_eq).
  eapply rwp_mono.
  - apply (write_rwp s f w a b Ht Hw Ha Hsm). rewrite Hst.
    destruct Hphase as [[-> _]| ->]; [by left | by right].
  - intros w' o (e & a' & -> & Ht' & Hw' & Ha' & Hmono & _). split; [by eexists|].
    split; [split; [done|]; right; by exists a'|].
    intros [_ [[Hno _]|(a2 & [Hw2 _] & Hp2)]]; [congruence|].
    split; [done|]. right. exists a'. split; [done|]. apply Hmono. congruence.
Qed.

Lemma workflow_round_rwp s f w :
  unfailed (s_phase s) -> on_way_out w ->
  rspec s f w (WorkflowReconcile go_syntax (mkNN ns (delete_workflow sp ns nm))) (fun w' _ => kept w w').
Proof.
  intros Hph Hl. assert (kept w w) as Hsame by (by split).
  unfold WorkflowReconcile. apply rwp_recover.
  apply rwp_call_bind; intros w1 r [HR|[Hf [[e ->] ->]]].
  2: { by destruct (IsNotFound (Some e)). }
  cbn in HR. injection HR as <- <-.
  cbv beta iota zeta delta [wf_DeletionTimestamp wf_Phase wf_Controller wf_Namespace NN_Name NN_Namespace].
  rewrite bool_decide_eq_false_2 by (by intros []). destruct (phase_empty (s_phase s)); [done|].
  rewrite (bool_decide_eq_true_2 ("Addon" = "Addon")) by done. cbn [negb]. apply rwp_bind.
  eapply rwp_mono; [by apply workflow_update_rwp|]. intros w' o [[[e|] ->] Hk]; exact Hk.
Qed.

(** ** Sequences of reconciles *)

(** A reconcile and whether requests may fail in it. *)
Abbreviation drounds := (list (dround * bool)).

Definition dround_prog (r : dround) : Prog (Result * option error) :=
  match r with
  | AddonRound t _ => Reconcile t (mkNN ns nm)
  | WorkflowRound _ => WorkflowReconcile go_syntax (mkNN ns (delete_workflow sp ns nm))
  end.

Inductive faulty_rounds : drounds -> dstore -> dstore -> Prop :=
  | faulty_rounds_nil w : faulty_rounds [] w w
  | faulty_rounds_cons r f l w w1 o w2 :
      behaves (responds (deleting_cluster nm (dround_surroundings r)) f) w (dround_prog r) w1 o ->
      faulty_rounds l w1 w2 -> faulty_rounds ((r, f) :: l) w w2.

Lemma faulty_rounds_total l w : exists w', faulty_rounds l w w'.
Proof.
  revert w. induction l as [|[r f] l IH]; intros w; [by eexists; constructor|].
  destruct (IH (run (deleting_cluster nm (dround_surroundings r)) w (dround_prog r)).1) as [w2 Hw2].
  exists w2. econstructor; [|exact Hw2]. apply behaves_total. apply responds_handler.
Qed.

Lemma faulty_rounds_app_inv l1 l2 w w' :
  faulty_rounds (l1 ++ l2) w w' -> exists w1, faulty_rounds l1 w w1 /\ faulty_rounds l2 w1 w'.
Proof.
  revert w. induction l1 as [|[r f] l1 IH]; intros w Hl; [by exists w; split; [constructor|]|].
  inversion Hl as [|? ? ? ? w1 o ? Hb Hl']. subst. destruct (IH w1 Hl') as (w2 & H12 & H2').
  exists w2. split; [by econstructor | done].
Qed.

Section rounds.
Hypothesis Hsubmits : delete_submits sp ns nm.
Hypothesis Hname : name_is_own sp nm w0.

Lemma round_kept r f w w' o :
  unfailed_round r -> on_way_out w ->
  behaves (responds (deleting_cluster nm (dround_surroundings r)) f) w (dround_prog r) w' o ->
  kept w w'.
Proof.
  intros Hr Hw Hb. destruct r as [t s|s].
  - exact (proj1 (rwp_behaves _ _ _ _ _ _ (addon_round_rwp s f w t Hsubmits Hname Hr Hw) Hb)).
  - exact (rwp_behaves _ _ _ _ _ _ (workflow_round_rwp s f w Hr Hw) Hb).
Qed.

Lemma addon_round_advances t s w w' o :
  unfailed (s_phase s) -> on_way_out w ->
  behaves (responds (deleting_cluster nm s) false) w (Reconcile t (mkNN ns nm)) w' o ->
  deletion_noticed w' /\
  (deletion_noticed w -> s_phase s = WorkflowSucceeded -> gone sp w').
Proof.
  intros Hs Hw Hb.
  destruct (rwp_behaves _ _ _ _ _ _ (addon_round_rwp s false w t Hsubmits Hname Hs Hw) Hb)
    as (_ & Hn & Hg). auto.
Qed.

Lemma rounds_kept l w w' :
  Forall (fun r => unfailed_round r.1) l -> on_way_out w -> faulty_rounds l w w' -> kept w w'.
Proof.
  intros Hall Hw Hl. induction Hl as [w|r f l w w1 o w2 Hb Hl IH]; [by split|].
  apply Forall_cons in Hall as [Hr Hall]. destruct (round_kept r f w w1 o Hr Hw Hb) as [Hw1 Hn1].
  destruct (IH Hall Hw1) as [Hw2 Hn2]. split; [done|]. auto.
Qed.

(** Once gone, the addon stays away. *)
Lemma rounds_stay_gone l w w' :
  Forall (fun r => unfailed_round r.1) l -> tidy w -> gone sp w -> faulty_rounds l w w' ->
  tidy w' /\ gone sp w'.
Proof.
  intros Hall Ht Hg Hl. induction Hl as [w|r f l w w1 o w2 Hb Hl IH]; [done|].
  apply Forall_cons in Hall as [Hr Hall]. cut (tidy w1 /\ gone sp w1); [intros []; by apply IH|].
  assert (forall B (k : result Addon -> Prog B) s post, (forall e, rwp (responds (deleting_cluster nm s) f) w (k (Err e)) post) ->
    rwp (responds (deleting_cluster nm s) f) w (call (CGetAddon (mkNN ns nm)) ≫= k) post) as Hget.
  { intros B k s post Hk. apply get_rwp; [|intros e _; apply Hk].
    intros a Hfind. by rewrite (find_gone w (proj1 Hg)) in Hfind. }
  refine (rwp_behaves _ _ _ (fun w' _ => tidy w' /\ gone sp w') _ _ _ Hb).
  destruct r as [t s|s]; cbn [dround_prog dround_surroundings].
  - unfold Reconcile. apply Hget. intros e. apply rwp_bind.
    eapply rwp_mono; [by apply RemoveFromCache_rwp|]. intros w' o' (-> & Ht' & Hw' & Hown).
    split; [done|]. destruct Hg as [Hn Hk]. split; [congruence | by apply Hown].
  - unfold WorkflowReconcile. apply rwp_recover.
    apply rwp_call_bind; intros w3 r [HR|[Hf [[e ->] ->]]].
    2: { by destruct (IsNotFound (Some e)). }
    cbn in HR. injection HR as <- <-.
    cbv beta iota zeta delta [wf_DeletionTimestamp wf_Phase wf_Controller wf_Namespace NN_Name NN_Namespace].
    rewrite bool_decide_eq_false_2 by (by intros []). destruct (phase_empty (s_phase s)); [done|].
    rewrite (bool_decide_eq_true_2 ("Addon" = "Addon")) by done. cbn [negb]. apply rwp_bind.
    unfold UpdateAddonStatusLifecycleFromWorkflow, getExistingAddon. by apply Hget.
Qed.
End rounds.

(** C5: Deletion survives failed requests.  Whatever reads, status writes
    and updates of the addon fail, with or without having taken effect, in
    whatever reconciles of the addon and of its delete workflow: if one
    reconcile of the addon without failures is followed, at any distance, by
    another without failures that finds the delete workflow succeeded, every
    behaviour (and there is one) ends with the object dropped by the API
    server and its entry gone from the version cache, and no other cache
    entry changes.  Provided that the delete workflow, if there is one, can be
    submitted and has not failed in any of the reconciles, that no failed
    deletion was recorded before, that no other finalizer holds the object,
    and that no other cached package carries the addon's name. *)
Theorem deletion_survives_failures (a : Addon) (before between after : drounds)
    (t1 t2 : list nat) (s1 s2 : surroundings) :
  let rounds := before ++ (AddonRound t1 s1, false) :: between ++ (AddonRound t2 s2, false) :: after in
  d_addon w0 = Some a -> dying a -> keys_ok (Cached.abs (d_cache w0)) -> name_is_own sp nm w0 ->
  delete_submits sp ns nm -> Forall (fun r => unfailed_round r.1) rounds ->
  s_phase s2 = WorkflowSucceeded ->
  (exists w', faulty_rounds rounds w0 w') /\
  forall w', faulty_rounds rounds w0 w' ->
    d_addon w' = None /\ Cached.abs (d_cache w') !! own = None /\
    (forall k, k <> own -> Cached.abs (d_cache w') !! k = Cached.abs (d_cache w0) !! k).
Proof.
  intros rounds Hw Ha Hok Hname Hd Hall Hs2. split; [apply faulty_rounds_total|]. intros w' Hr.
  unfold rounds in *. rewrite !Forall_app, !Forall_cons, !Forall_app, !Forall_cons in Hall.
  destruct Hall as (Hb & Hu1 & Hm & Hu2 & Hf).
  apply faulty_rounds_app_inv in Hr as (w1 & Hr1 & Hr).
  inversion Hr as [|? ? ? ? w2 o2 ? Hg1 Hr']; subst.
  apply faulty_rounds_app_inv in Hr' as (w3 & Hr2 & Hr').
  inversion Hr' as [|? ? ? ? w4 o4 ? Hg2 Hr3]; subst.
  assert (on_way_out w0) as Hl0 by (split; [by split | right; by exists a]).
  destruct (rounds_kept Hd Hname before w0 w1 Hb Hl0 Hr1) as [Hl1 _].
  destruct (addon_round_advances Hd Hname t1 s1 w1 w2 o2 Hu1 Hl1 Hg1) as [Hn2 _].
  destruct (rounds_kept Hd Hname between w2 w3 Hm (noticed_on_way_out _ Hn2) Hr2) as [Hl3 Hn3].
  destruct (addon_round_advances Hd Hname t2 s2 w3 w4 o4 Hu2 Hl3 Hg2) as [Hn4 Hgone].
  destruct (rounds_stay_gone Hname after w4 w' Hf (proj1 Hn4) (Hgone (Hn3 Hn2) Hs2) Hr3)
    as [[_ Hothers] [Hnone Hown]].
  by split_and!.
Qed.
End faulty_deletion.

(** ** A concrete deletion with failures *)

Definition doomed_rounds : list (dround * bool) :=
  [(AddonRound [0] (in_phase WorkflowUnknown 1000), true)] ++
  (AddonRound [1] (in_phase WorkflowUnknown 1050), false) ::
  [(AddonRound [2] (in_phase WorkflowSucceeded 1100), true);
   (WorkflowRound (in_phase WorkflowSucceeded 1200), true)] ++
  (AddonRound [3] (in_phase WorkflowSucceeded 1300), false) ::
  [(AddonRound [4] (in_phase WorkflowSucceeded 1400), true)].

Abbreviation sample_faulty_rounds := (@faulty_rounds range_fwd star_semver sample_yaml sample_reader
  default_retry sample_lifecycle sample_selectors sample_util Error doomed_spec
  "addon-manager-system" "c").

Lemma doomed_keys_ok : keys_ok (Cached.abs (d_cache doomed_start)).
Proof.
  unfold doomed_start, mixed_cache. cbn [d_cache foldl run_cache_op].
  rewrite !Cached.abs_AddVersion. intros p x v. rewrite !lookup_insert_Some.
  intros [[[= <- <-] <-]|[_ [[[= <- <-] <-]|[_ [[[= <- <-] <-]|[_ Hv]]]]]]; [done..|].
  by rewrite Cached.lookup_abs in Hv.
Qed.

Lemma deletion_survives_failures_witness :
  (exists w', sample_faulty_rounds doomed_rounds doomed_start w') /\
  forall w', sample_faulty_rounds doomed_rounds doomed_start w' -> d_addon w' = None.
Proof.
  destruct (@deletion_survives_failures range_fwd star_semver sample_yaml sample_reader default_retry
    tree_object sample_lifecycle sample_lifecycle_laws sample_selectors sample_util Error
    doomed_spec "addon-manager-system" "c" doomed_start (doomed_addon Succeeded)
    [(AddonRound [0] (in_phase WorkflowUnknown 1000), true)]
    [(AddonRound [2] (in_phase WorkflowSucceeded 1100), true);
     (WorkflowRound (in_phase WorkflowSucceeded 1200), true)]
    [(AddonRound [4] (in_phase WorkflowSucceeded 1400), true)]
    [1] [3] (in_phase WorkflowUnknown 1050) (in_phase WorkflowSucceeded 1300)) as [Hex Hall].
  - reflexivity.
  - split_and!; [reflexivity | reflexivity | eexists; reflexivity | repeat constructor |].
    vm_compute. discriminate.
  - exact doomed_keys_ok.
  - exact mixed_cache_names.
  - exact sample_delete_submits.
  - apply (bool_decide_unpack _). vm_compute. exact I.
  - reflexivity.
  - split; [exact Hex|]. intros w' Hw'. exact (proj1 (Hall w' Hw')).
Defined.
