(* ===== verification/FatalFaults.v ===== *)
(** Failed requests an installation does not survive: a list of secrets or of
    observed resources that cannot be read fails the addon for good, and a
    list of workflows that cannot be read lets a new addon expire. *)
From S2P Require Import Prelude GoStrings GoFmt AddonTypes Common VersionCache Unstructured.
From S2P Require Import TreeObject Validator Effects Updater Workflow Objects Controller.
From S2P Require Import WorkflowController Samples Protocol Outcome.

(** ** Lists that fail *)

(** The lists an installation reads: the secrets of the addon's namespace
    and the resources that carry its labels. *)
Definition reads_list (c : Call) : bool :=
  match c with CListSecrets _ | CList _ _ _ => true | _ => false end.

Definition list_answer_failed (c : Call) : Resp c -> bool :=
  match c as c return Resp c -> bool with
  | CListSecrets _ => fun r => match r with Err _ => true | Ok _ => false end
  | CList _ _ _ => fun r => match r with Err _ => true | Ok _ => false end
  | _ => fun _ => false
  end.

Definition failed_list (e : event) : bool := list_answer_failed (projT1 e) (projT2 e).

(** The ghost state: a list has failed. *)
Definition note (b : bool) (c : Call) (r : Resp c) : bool := b || list_answer_failed c r.

Abbreviation lwp := (wp (fun _ _ => True) note).

Lemma note_end b tr : trace_end note b tr = b || existsb failed_list tr.
Proof.
  revert b. induction tr as [|[c r] tr IH]; intros b; cbn; [by rewrite orb_false_r|].
  rewrite IH. unfold note. by rewrite orb_assoc.
Qed.

(** Programs that read no such list. *)
Definition listless {A : Type} (p : Prog A) : Prop := calls_all (fun c => reads_list c = false) p.

Lemma lwp_listless {A} b (p : Prog A) (post : bool -> outcome A -> Prop) :
  listless p -> (forall o, post b o) -> lwp b p post.
Proof.
  intros Hp Hpost. eapply wp_mono.
  - eapply wp_stable; [|exact Hp]. intros c Hc. split; [done|]. intros r. unfold note.
    destruct c; try done; by rewrite orb_false_r.
  - by intros s o ->.
Qed.

Lemma listless_exec {A} (p : Prog A) tr o : listless p -> exec p tr o -> existsb failed_list tr = false.
Proof.
  intros Hp He. unfold listless, calls_all in Hp.
  assert (Forall (fun e => failed_list e = false) tr) as Hall.
  { apply Forall_forall. intros [c r] Hin.
    pose proof (calls_all_exec _ _ _ _ c r Hp He Hin) as Hc. by destruct c. }
  clear -Hall. by induction Hall as [|e tr' He' _ IH]; [|cbn; rewrite He'].
Qed.

Lemma listless_bind {A B} (p : Prog A) (f : A -> Prog B) :
  listless p -> (forall x, listless (f x)) -> listless (p ≫= f).
Proof. apply calls_all_bind. Qed.

Ltac solve_listless :=
  cbv zeta;
  repeat match goal with
  | |- listless (_ ≫= _) => apply listless_bind; [|intros ?]
  | |- listless (match ?x with _ => _ end) => destruct x
  | |- listless (mret _) => done
  | |- listless (call _) => by apply calls_all_call
  | |- listless (lift_outcome ?x) => by destruct x
  | |- listless _ => by auto with listless
  end.

Create HintDb listless.

Section fatal.
Context `{GoRange, Semver, Yaml, UnstructuredReader, RetryOnConflict}.
Context `{AddonLifecycleLaws, Selectors, ControllerUtil}.
Implicit Types (a w : Addon) (b : bool).

Lemma wfl_Install_listless t a wp : listless (wfl_Install t a wp).
Proof. eapply calls_all_mono; [|apply wfl_Install_calls]. by intros []. Qed.

Lemma delete_workflows_listless ns (l : list Workflow) : listless (delete_workflows ns l).
Proof. induction l as [|x l IH]; cbn [delete_workflows]; [done|]. solve_listless. Qed.

#[local] Hint Resolve wfl_Install_listless delete_workflows_listless : listless.

Lemma runWorkflow_listless t step a : listless (runWorkflow t step a).
Proof. unfold runWorkflow. solve_listless. Qed.

Lemma deleteOldWorkflows_listless a : listless (deleteOldWorkflows a).
Proof. unfold deleteOldWorkflows. solve_listless. Qed.

Lemma SetFinalizer_listless a f : listless (SetFinalizer a f).
Proof. unfold SetFinalizer. solve_listless. Qed.

Lemma validation_failed_listless a e : listless (validation_failed a e).
Proof. unfold validation_failed. solve_listless. Qed.

Lemma UpdateStatus_listless a : listless (UpdateStatus a).
Proof. apply UpdateStatus_calls; [by intros [] | done]. Qed.

(** ** What a failed list leads to *)

(** When a list has failed, the program ends with a failed addon and an
    error. *)
Definition fails_with {E : Type} (P : E -> Prop) b (o : outcome (Addon * E)) : Prop :=
  b = true -> exists a e, o = Val (a, e) /\ GetInstallStatus a = Failed /\ P e.

Lemma validateSecrets_lwp a :
  lwp false (validateSecrets a) (fun b o => b = true -> exists e, o = Val (Some e)).
Proof.
  unfold validateSecrets. apply wp_call_bind; [done|]. intros [items|e]; cbn.
  - by destruct (secret_names items).
  - by exists e.
Qed.

Lemma executePrereqAndInstall_lwp t a :
  lwp false (executePrereqAndInstall t a) (fails_with (fun e => is_Some e)).
Proof.
  unfold executePrereqAndInstall. apply wp_bind. apply lwp_listless; [apply runWorkflow_listless|].
  intros [[a1 [e|]]|m]; [| |done].
  - apply wp_call_bind; [done|]. by intros [].
  - destruct (phase_Succeeded _); [|by destruct (phase_Failed _)].
    apply wp_bind. eapply wp_mono; [apply validateSecrets_lwp|].
    intros b [[e|]|m] Hb.
    + apply wp_call_bind; [done|]. intros []. intros _. eexists _, _. by split_and!.
    + destruct b; [by destruct (Hb eq_refl)|]. apply lwp_listless; [|done].
      apply listless_bind; [apply runWorkflow_listless|]. intros [a2 [e|]]; solve_listless.
    + intros ->. by destruct (Hb eq_refl).
Qed.

(** One observation: an error is added when its list fails. *)
Definition observed b (o : outcome (list ObjectStatus * list error)) : Prop :=
  exists acc, o = Val acc /\ (b = true -> acc.2 <> []).

Lemma observe_lwp a what kind ns sel b (g : list ListedObject -> list ObjectStatus)
    (h : error -> error) acc (p : Prog (result (list ObjectStatus))) :
  p = (r ← cli_List kind ns sel;
       match r with Err err => mret (Err (h err)) | Ok items => mret (Ok (g items)) end) ->
  (b = true -> acc.2 <> []) -> lwp b (observe a what p acc) observed.
Proof.
  intros -> Hacc. cbn. split; [done|]. intros [items|e]; cbn; eexists; (split; [done|]).
  - unfold note. cbn. by rewrite orb_false_r.
  - intros _. by destruct acc.2.
Qed.

Lemma observeResources_lwp a :
  lwp false (observeResources a) (fun b o =>
    b = true -> exists a' l e, o = Val (a', l, Some e)).
Proof.
  unfold observeResources. cbv zeta. case_match; [done|].
  do 7 (apply wp_bind; eapply wp_mono; [eapply observe_lwp; [reflexivity|]; cbn; done|];
    cbn beta; intros ? o (? & -> & ?)).
  destruct (0 <? length _)%nat eqn:Hl; [by intros _; eexists _, _, _|].
  intros Hb. apply Nat.ltb_ge, Nat.le_0_r, nil_length_inv in Hl. naive_solver.
Qed.

Lemma observe_and_return_lwp a :
  lwp false (observe_and_return a) (fails_with (fun e => is_Some e.2)).
Proof.
  unfold observe_and_return. apply wp_bind. eapply wp_mono; [apply observeResources_lwp|].
  intros b [[[a' l] [e|]]|m] Hb.
  - apply wp_call_bind; [done|]. intros [] _. eexists _, _. by split_and!.
  - assert (b = false) as -> by (destruct b; [by destruct (Hb eq_refl) as (? & ? & ? & ?) | done]).
    cbv zeta. by destruct (phase_Running _).
  - intros ->. by destruct (Hb eq_refl) as (? & ? & ? & ?).
Qed.

Lemma processAddon_lwp t a : lwp false (processAddon t a) (fails_with (fun e => is_Some e.2)).
Proof.
  unfold processAddon, validateChecksum.
  destruct (bool_decide (Checksum (Status a) = CalculateChecksum a)).
  - destruct (phase_Completed _) eqn:Hc; [done|].
    apply wp_call_bind; [done|]. intros cache. apply wp_bind, wp_lift.
    destruct (Validate_addon _ _) as [[[|] e]|m]; [| |done].
    + apply wp_call_bind; [done|]. intros []. apply wp_bind.
      apply lwp_listless; [apply SetFinalizer_listless|]. intros [[a1 [e1|]]|m]; [| |done].
      { apply wp_call_bind; [done|]. by intros []. }
      destruct (phase_Completed (GetInstallStatus a1)); [apply observe_and_return_lwp|].
      apply wp_call_bind; [done|]. intros now. destruct (IsExpired _ _ _).
      { apply wp_call_bind; [done|]. by intros []. }
      apply wp_bind. eapply wp_mono; [apply executePrereqAndInstall_lwp|].
      intros b [[a2 [e2|]]|m] Hb.
      * intros Ht. destruct (Hb Ht) as (a3 & e3 & [= <- <-] & Hf & _). by eexists _, _.
      * assert (b = false) as ->
          by (destruct b; [by destruct (Hb eq_refl) as (? & ? & [= <- <-] & _ & [? ?]) | done]).
        apply observe_and_return_lwp.
      * intros Ht. by destruct (Hb Ht) as (? & ? & ? & _).
    + apply lwp_listless; [apply validation_failed_listless | done].
  - apply wp_bind. apply lwp_listless; [apply deleteOldWorkflows_listless|].
    intros [[e|]|m]; [done| |done]. apply wp_call_bind; [done|]. by intros now.
Qed.
End fatal.

(** ** Properties *)

Section fatal_properties.
Context `{GoRange, Semver, Yaml, UnstructuredReader, RetryOnConflict}.
Context `{AddonLifecycleLaws, Selectors, ControllerUtil}.

(** C33: One failed list ends an installation: when the secrets or one of the
    kinds of observed resources cannot be listed in a reconcile, the status
    it writes is [Failed] and it returns an error, which asks for another
    reconcile; but while the spec stays as it is, no reconcile of the addon
    with that status makes a call other than to write [Failed] again. *)
Theorem failed_list_is_final (t t' : list nat) (req req' : NamespacedName) (a w : Addon)
    (tr tr' : list event) (o o' : outcome (Result * option error)) (ev : event) (r : option error) :
  DeletionTimestamp (Meta a) = None ->
  exec (Reconcile t req) (existT (CGetAddon req) (Ok a) :: tr) o ->
  ev ∈ tr -> failed_list ev = true -> existT (CStatusUpdate w) r ∈ tr ->
  let stored := mkAddon (Meta a) (Spec a) (Status w) in
  GetInstallStatus stored = Failed /\ (exists ret e, o = Val (ret, Some e)) /\
  (Checksum (Status stored) = CalculateChecksum stored ->
   exec (Reconcile t' req') (existT (CGetAddon req') (Ok stored) :: tr') o' ->
   forall c r', existT c r' ∈ tr' ->
     updater_call c = true \/ exists w', c = CStatusUpdate w' /\ GetInstallStatus w' = Failed).
Proof.
  intros Hd He%Reconcile_after_get Hev Hfail Hin stored.
  assert (GetInstallStatus stored = Failed /\ exists ret e, o = Val (ret, Some e)) as [Hst Ho].
  { apply execAddon_live in He as
      [(tr1 & tr2 & a' & ret & pe & e & -> & H1p & H2p & ->)|(m & H1p & _)]; [| |done].
    - pose proof (processAddon_lwp t a) as Hp.
      apply (fun Hp => wp_exec _ _ _ _ _ _ _ Hp H1p) in Hp as [_ Hp]. rewrite note_end in Hp.
      pose proof (listless_exec _ _ _ (UpdateStatus_listless a') H2p) as Hno.
      assert (existsb failed_list tr1 = true) as Hyes.
      { apply elem_of_app in Hev as [Hev|Hev].
        - apply existsb_exists. exists ev. by split; [apply list_elem_of_In|].
        - exfalso. assert (existsb failed_list tr2 = true) as Hyes; [|congruence].
          apply existsb_exists. exists ev. by split; [apply list_elem_of_In|]. }
      destruct (Hp Hyes) as (a1 & e1 & [= <- <-] & Hf & [err Herr]). cbn in Herr. subst pe.
      split; [|destruct e; by eexists _, _].
      apply elem_of_app in Hin as [Hin|Hin];
        [by apply (processAddon_no_write _ _ _ _ _ _ H1p) in Hin|].
      apply (UpdateStatus_writes _ _ _ _ _ H2p) in Hin. unfold stored, GetInstallStatus in *.
      cbn. by rewrite Hin.
    - by apply (processAddon_no_write _ _ _ _ _ _ H1p) in Hin. }
  split_and!; [done..|]. intros Hck He'%Reconcile_after_get c r' Hin'.
  destruct (completed_calls t' stored tr' o' c r') as [?|(w' & -> & Hw')];
    [done | done | by rewrite Hst | done | done | by left |].
  right. exists w'. split; [done|]. unfold GetInstallStatus. by rewrite Hw'.
Qed.
End fatal_properties.

(** ** Examples *)

(** A cluster in which secrets cannot be listed for a moment. *)
Definition secretless_handler (w : world) (c : Call) : world * Resp c :=
  match c as c return world * Resp c with
  | CListSecrets _ => (w, Err unavailable)
  | c => world_handler w c
  end.

Definition secretless_run : list event * outcome (Result * option error) :=
  trace secretless_handler installing_world (sample_Reconcile [] (addon_key fresh_addon)).

(** Afterwards, in a cluster that answers. *)
Definition after_failure : world :=
  (run secretless_handler installing_world (sample_Reconcile [] (addon_key fresh_addon))).1.

Definition failed_addon : Addon := default fresh_addon (w_addon after_failure).

Definition secretless_event : event := existT (CListSecrets "c-ns") (Err unavailable).

(** The addon that was read, with the status that was written. *)
Definition read_addon : Addon := default fresh_addon (w_addon installing_world).
Definition stored_addon : Addon :=
  mkAddon (Meta read_addon) (Spec read_addon) (Status failed_addon).
Definition later_world : world := w_set_addon (Some stored_addon) after_failure.

Lemma failed_list_is_final_witness :
  GetInstallStatus stored_addon = Failed /\
  (exists ret e, secretless_run.2 = Val (ret, Some e)) /\
  forall c r', existT c r' ∈ drop 1 (sample_trace later_world []) ->
    updater_call c = true \/ exists w', c = CStatusUpdate w' /\ GetInstallStatus w' = Failed.
Proof.
  destruct (sample_theorem (@failed_list_is_final) [] [] (addon_key fresh_addon)
    (addon_key fresh_addon) read_addon failed_addon
    (drop 1 secretless_run.1) (drop 1 (sample_trace later_world [])) secretless_run.2
    (sample_outcome later_world []) secretless_event None) as (Hst & Ho & Hlater).
  - vm_compute. reflexivity.
  - match goal with |- exec _ ?l _ => replace l with secretless_run.1 by (vm_compute; reflexivity) end.
    exact (exec_trace secretless_handler installing_world _).
  - apply (list_elem_of_lookup_2 _ 4). vm_compute. reflexivity.
  - reflexivity.
  - apply (list_elem_of_lookup_2 _ 8). vm_compute. reflexivity.
  - split; [exact Hst|]. split; [exact Ho|]. apply Hlater; [vm_compute; reflexivity|].
    match goal with |- exec _ ?l _ =>
      replace l with (sample_trace later_world []) by (vm_compute; reflexivity) end.
    exact (sample_run later_world []).
Defined.

(** The first reconcile of a new addon cannot list workflows.  It records the
    checksum of the spec, but no start time; so the next reconcile finds the
    time limit exceeded, although the addon is new and the cluster answers. *)
Definition flaky_round (w : world) : world :=
  (run flaky_handler w (sample_Reconcile [] (addon_key fresh_addon))).1.

Definition new_world : world :=
  mkWorld (Some fresh_addon) 0 Cached.NewAddonVersionCacheClient [] 1785000000000 WorkflowSucceeded.

Theorem failed_workflow_list_expires_new_addon :
  let w1 := flaky_round new_world in
  let w2 := reconciles 1 w1 in
  world_phases new_world = Some ("", "") /\
  (Checksum ∘ Status <$> w_addon w1) = Some (CalculateChecksum fresh_addon) /\
  (StartTime ∘ Status <$> w_addon w1) = Some 0%Z /\ w_now w1 = w_now w2 /\
  world_phases w2 = Some ("", Failed) /\
  (Reason ∘ Status <$> w_addon w2) = Some (ttl_reason fresh_addon) /\
  w_wfs w2 = [].
Proof. vm_compute. by split_and!. Qed.

(** A read of the addon that fails for any reason is taken for its deletion:
    the version of an installed addon leaves the cache, and until its next
    reconcile an addon that depends on it is not valid. *)
Definition unreadable_handler (w : world) (c : Call) : world * Resp c :=
  match c as c return world * Resp c with
  | CGetAddon _ => (w, Err unavailable)
  | c => world_handler w c
  end.

Definition unread_world : world :=
  (run unreadable_handler installed_world (sample_Reconcile [] (addon_key fresh_addon))).1.

Definition dependent_addon : Addon :=
  let s := Spec (sample_dependent ∅) in
  mkAddon (mkObjectMeta "d" "addon-manager-system" "1" None [] ∅)
    (mkAddonSpec (mkPackageSpec "" "core/D" "v1" CompositePkg "" {["core/C" := "v1"]}) (Params s)
      (Selector s) (Overrides s) (Secrets s) (Lifecycle s)) zero_AddonStatus.

Definition dependent_valid (w : world) : outcome (bool * option error) :=
  @Validate_addon range_fwd sample_yaml sample_reader Cached.cached
    (@Cached.cached_client range_fwd star_semver) [] (NewAddonValidator dependent_addon (w_cache w)).

Theorem failed_read_forgets_addon :
  w_addon unread_world = w_addon installed_world /\
  (PkgPhase <$> Cached.abs (w_cache installed_world) !! ("core/C", "v1")) = Some Succeeded /\
  Cached.abs (w_cache unread_world) !! ("core/C", "v1") = None /\
  dependent_valid installed_world = Val (true, None) /\
  exists e, dependent_valid unread_world = Val (false, Some e) /\
    HasPrefix (Error e) ErrDepNotInstalled = true.
Proof. vm_compute. split_and!; try reflexivity. eexists. split; reflexivity. Qed.
