(* ===== verification/ManagerSpec.v ===== *)
(** What starting the program does: the calls it makes, in which order, how a
    failing one ends it, what the two controllers share, and which addons an
    event in the cluster wakes. *)
From S2P Require Import Prelude GoStrings GoFmt AddonTypes Common VersionCache GoHeap Unstructured.
From S2P Require Import Validator Effects Updater Workflow Objects Controller WorkflowController.
From S2P Require Import Samples Manager.

(** ** The script

    The calls of a start-up that meets no failure.  Positions are object
    identities: 2 is the version cache, 3 the dynamic client, 4 the informer
    factory, 5 the workflow informer, 6 the status updater, 8 the Argo
    client and 9 the addon controller. *)
Section script.
Context `{GoRange, Semver, Yaml, UnstructuredReader, RetryOnConflict, AddonLifecycle}.
Context `{Selectors, ControllerUtil}.

Definition the_reconciler : AddonReconciler := mkReconciler 3 8 5 2 6.

Definition script (f : flags) : list SetupCall := [
  SGetConfigOrDie;
  SNewManager (manager_options f);
  SNewVersionCache;
  SNewDynamicClientOrDie;
  SNewInformerFactory 3 AddonResyncPeriod ManagedNameSpace;
  SInformer 4 WorkflowGVR;
  SNewUpdater (mkUpdater 2);
  SMgrAdd [RunStart 4; RunWaitForCacheSync 4];
  SNewWFClient;
  SNewController controllerName the_reconciler CacheSyncTimeout;
  SWatch 9 KAddon EnqueueRequestForObject;
  SWatch 9 KDeployment (EnqueueRequestsFromMapFunc mapDeploymentToAddonRequests);
  SWatch 9 KService (EnqueueRequestsFromMapFunc mapServiceToAddonRequests);
  SWatch 9 KDaemonSet (EnqueueRequestsFromMapFunc mapDaemonSetToAddonRequests);
  SWatch 9 KReplicaSet (EnqueueRequestsFromMapFunc mapReplicaSetToAddonRequests);
  SWatch 9 KStatefulSet (EnqueueRequestsFromMapFunc mapStatefulSetToAddonRequests);
  SWatch 9 KJob (EnqueueRequestsFromMapFunc mapJobToAddonRequests);
  SManagedController KWorkflow (mkWfReconciler 3 6) CacheSyncTimeout;
  SMgrStart].

(** The end that a failing call brings about: constructors do not fail, the
    dynamic client and a missing Argo client panic, the rest exit. *)
Definition end_of_failure (c : SetupCall) (e : error) : option process_end :=
  match c with
  | SNewVersionCache | SNewInformerFactory _ _ _ | SInformer _ _ | SNewUpdater _ => None
  | SNewDynamicClientOrDie => Some (Crash (Error e))
  | SNewWFClient => Some (Crash "workflow client could not be nil")
  | _ => Some (Exit 1)
  end.

Section fails.
Context (fails : list SetupCall -> option error).

(** Whether the last of these calls ends the process. *)
Definition ended (h : list SetupCall) : option process_end :=
  c ← last h; e ← fails h; end_of_failure c e.

(** Make the calls until one ends the process. *)
Fixpoint run_script (calls h : list SetupCall) : list SetupCall * process_end :=
  match calls with
  | [] => (h, Exit 0)
  | c :: calls =>
    let h := h ++ [c] in
    match ended h with
    | Some e => (h, e)
    | None => run_script calls h
    end
  end.

Lemma run_script_new (c : SetupCall) (calls h : list SetupCall) :
  (forall e, end_of_failure c e = None) ->
  run_script (c :: calls) h = run_script calls (h ++ [c]).
Proof.
  intros Hc. cbn. unfold ended. rewrite last_snoc. cbn.
  destruct (fails _); cbn; by rewrite ?Hc.
Qed.

Lemma run_script_call (g : error -> process_end) (c : SetupCall) (calls h : list SetupCall) :
  (forall e, end_of_failure c e = Some (g e)) ->
  run_script (c :: calls) h =
    match fails (h ++ [c]) with
    | Some e => (h ++ [c], g e)
    | None => run_script calls (h ++ [c])
    end.
Proof.
  intros Hc. cbn. unfold ended. rewrite last_snoc. cbn.
  destruct (fails _); cbn; by rewrite ?Hc.
Qed.

(** [run_script] stops at the first call that ends the process. *)
Lemma run_script_spec (calls h : list SetupCall) :
  exists n, n <= length calls /\
    (run_script calls h).1 = h ++ take n calls /\
    (forall i, 0 < i < n -> ended (h ++ take i calls) = None) /\
    match ended (h ++ take n calls) with
    | Some e => 0 < n -> (run_script calls h).2 = e
    | None => n = length calls /\ (run_script calls h).2 = Exit 0
    end.
Proof.
  induction calls as [|c calls IH] in h |- *.
  - exists 0. cbn. rewrite app_nil_r.
    split_and!; [lia|done|lia|]. destruct (ended h); [lia|done].
  - cbn. destruct (ended (h ++ [c])) as [e|] eqn:He.
    + exists 1. cbn. rewrite take_0, He. split_and!; [lia|done|lia|done].
    + destruct (IH (h ++ [c])) as (n & Hn & Hh & Hi & Hend).
      assert (Hc : forall l, h ++ c :: l = (h ++ [c]) ++ l) by (intros; by rewrite <- app_assoc).
      exists (S n). cbn. rewrite (Hc (take n calls)).
      split_and!; [lia|done| |].
      * intros [|[|i]] ?; [lia|done|]. cbn. rewrite Hc.
        apply (Hi (S i)). lia.
      * revert Hend. destruct (ended ((h ++ [c]) ++ take n calls)) as [e|] eqn:He2; intros Hend.
        -- intros _. apply Hend. destruct n; [|lia]. rewrite take_0, app_nil_r in He2. congruence.
        -- by destruct Hend as [-> ->].
Qed.

Lemma main_run_script (f : flags) : main fails f [] = run_script (script f) [].
Proof.
  unfold main, controllers_New, NewAddonController, NewAddonReconciler, NewWFController, NewWFClient,
    NewAddonUpdater, wrapped, or_panic, setup_panic.
  unfold mbind, mret, Setup_bind, Setup_ret, setup_call, setup_new.
  unfold script, the_reconciler. cbn -[run_script].
  repeat first [rewrite run_script_new by done
    | rewrite (run_script_call (fun _ => Exit 1)) by done
    | rewrite (run_script_call (fun e => Crash (Error e))) by done
    | rewrite (run_script_call (fun _ => Crash "workflow client could not be nil")) by done].
  cbn.
  repeat (match goal with |- context [fails ?l] => destruct (fails l) end; [reflexivity|cbn]).
  reflexivity.
Qed.
End fails.

(** C26: Starting the program makes the calls of the script in order, up to
    and including the first one that ends the process: a failing constructor
    exits with status 1 (its error wrapped by [controllers.New], then dropped), except
    that a dynamic client that cannot be built and a missing Argo client
    crash the process.  The call that fails is the last one made; when none
    does, all nineteen are made and the process exits with status 0 after
    the manager returns. *)
Theorem start_up_stops_at_first_failure (fails : list SetupCall -> option error) (f : flags) :
  exists n, n <= 19 /\ (main fails f []).1 = take n (script f) /\
    (forall i, 0 < i < n -> ended fails (take i (script f)) = None) /\
    match ended fails (take n (script f)) with
    | Some e => (main fails f []).2 = e
    | None => n = 19 /\ (main fails f []).2 = Exit 0
    end.
Proof.
  rewrite main_run_script. pose proof (run_script_spec fails (script f) []) as Hs. revert Hs.
  generalize (run_script fails (script f) []). intros r (n & Hn & Hh & Hi & Hend).
  exists n. split_and!; [exact Hn|exact Hh|exact Hi|]. revert Hend. rewrite app_nil_l.
  destruct (ended fails (take n (script f))) eqn:He; [|by intros []]. intros Hend.
  apply Hend. destruct n; [discriminate He|lia].
Qed.

Lemma end_of_failure_bad (c : SetupCall) (e : error) : end_of_failure c e <> Some (Exit 0).
Proof. by destruct c. Qed.

Lemma ended_bad (fails : list SetupCall -> option error) (h : list SetupCall) :
  ended fails h <> Some (Exit 0).
Proof.
  unfold ended. destruct (last h) as [c|]; [|done]. cbn.
  destruct (fails h); [apply end_of_failure_bad|done].
Qed.

Lemma successful_start_up (fails : list SetupCall -> option error) (f : flags) (h : list SetupCall) :
  main fails f [] = (h, Exit 0) -> h = script f.
Proof.
  rewrite main_run_script. pose proof (run_script_spec fails (script f) []) as Hs. revert Hs.
  generalize (run_script fails (script f) []). intros r (n & Hn & Hh & Hi & Hend) ->.
  revert Hend. cbn [fst snd] in *. rewrite app_nil_l in *.
  destruct (ended fails (take n (script f))) as [e|] eqn:He.
  - intros Hend. destruct (ended_bad fails (take n (script f))). rewrite He. f_equal. symmetry.
    apply Hend. destruct n; [discriminate He|lia].
  - intros [-> _]. rewrite Hh. apply take_ge. lia.
Qed.

(** ** What the controllers share *)

(** C25: a manager that comes up is wired the way the controllers need it:
    both reconcilers hold one status updater and one dynamic client; the
    version cache the updater writes is the one the addon reconciler reads
    and maps labels with; and the workflow informer the lifecycle reads comes
    from a factory over that client, for the managed namespace alone, which
    the manager runs by starting it before waiting for its caches. *)
Theorem controllers_share_state (fails : list SetupCall -> option error) (f : flags)
    (h : list SetupCall) (Hup : main fails f [] = (h, Exit 0)) :
  exists r w fac,
    SNewController controllerName r CacheSyncTimeout ∈ h /\
    SManagedController KWorkflow w CacheSyncTimeout ∈ h /\
    r_addonUpdater r = w_addonUpdater w /\ r_dynClient r = w_dynClient w /\
    h !! r_addonUpdater r = Some (SNewUpdater (mkUpdater (r_versionCache r))) /\
    h !! r_versionCache r = Some SNewVersionCache /\
    h !! r_dynClient r = Some SNewDynamicClientOrDie /\
    h !! r_wfcli r = Some SNewWFClient /\
    h !! r_wfinformer r = Some (SInformer fac WorkflowGVR) /\
    h !! fac = Some (SNewInformerFactory (r_dynClient r) AddonResyncPeriod ManagedNameSpace) /\
    SMgrAdd [RunStart fac; RunWaitForCacheSync fac] ∈ h /\
    last h = Some SMgrStart.
Proof.
  apply successful_start_up in Hup as ->. exists the_reconciler, (mkWfReconciler 3 6), 4%nat.
  unfold script. split_and!; first [reflexivity | repeat constructor].
Qed.

(** ** Events *)

(** The kinds whose objects carry the label of their addon. *)
Definition observed (k : WatchKind) : Prop := k <> KAddon /\ k <> KWorkflow.

#[global] Instance observed_dec (k : WatchKind) : Decision (observed k).
Proof. unfold observed. solve_decision. Defined.

Lemma script_events (f : flags) (k : WatchKind) (key : NamespacedName) (labels : gmap string string) :
  event_requests (script f) k key labels =
    if decide (observed k) then [getAddonRequestsFromLabels labels] else [mret [key]].
Proof.
  destruct (decide (observed k)) as [[Ha Hw]|Hk]; destruct k; try done.
  all: exfalso; apply Hk; done.
Qed.

(** C27: once the manager is up, every event is handled by exactly one watch.
    An event on an addon or a workflow reconciles that object.  One on a
    deployed resource reconciles the addon its label names: each request is
    for a cached addon of that name, there is one whenever the cache knows
    the addon, the cache stays as it is, and no other request is made. *)
Theorem events_reach_their_addon (fails : list SetupCall -> option error) (f : flags)
    (h : list SetupCall) (Hup : main fails f [] = (h, Exit 0))
    (k : WatchKind) (key : NamespacedName) (labels : gmap string string)
    (i : nat) (c : Cached.cached) :
  exists p reqs, event_requests h k key labels = [p] /\
    (let r := run (cache_handler no_services) (i, c) p in r.2 = Val reqs /\ r.1.2 = c) /\
    (~ observed k -> reqs = [key]) /\
    (observed k ->
      (forall q, q ∈ reqs -> exists pw v, Cached.abs c !! pw = Some v /\
        labels !! ResourceDefaultOwnLabel = Some (V_Name v) /\
        q = mkNN (V_Namespace v) (V_Name v)) /\
      (forall pw v, Cached.abs c !! pw = Some v ->
        labels !! ResourceDefaultOwnLabel = Some (V_Name v) -> TrimSpace (V_Name v) <> "" ->
        exists q, q ∈ reqs /\ NN_Name q = V_Name v)).
Proof.
  apply successful_start_up in Hup as ->. rewrite script_events.
  destruct (decide (observed k)) as [Ho|Ho].
  - destruct (label_requests_spec i c labels) as (reqs & Hr & Hc & Hin & Hex).
    exists (getAddonRequestsFromLabels labels), reqs. split_and!; done.
  - exists (mret [key]), [key]. split_and!; done.
Qed.
End script.

(** ** Examples *)

Definition no_failure (h : list SetupCall) : option error := None.

(** The Argo client cannot be made. *)
Definition no_argo (h : list SetupCall) : option error :=
  match last h with Some SNewWFClient => Some (Errorf "no client") | _ => None end.

(** Nine calls are made, and the process crashes. *)
Example no_argo_crashes :
  (main no_argo default_flags []).1 = take 9 (script default_flags) /\
  (main no_argo default_flags []).2 = Crash "workflow client could not be nil".
Proof. split; vm_compute; reflexivity. Qed.

Lemma sample_up : main no_failure default_flags [] = (script default_flags, Exit 0).
Proof. reflexivity. Qed.

Lemma controllers_share_state_witness :
  exists r w, SNewController controllerName r CacheSyncTimeout ∈ script default_flags /\
    SManagedController KWorkflow w CacheSyncTimeout ∈ script default_flags /\
    r_addonUpdater r = w_addonUpdater w.
Proof.
  destruct (controllers_share_state no_failure default_flags (script default_flags))
    as (r & w & fac & Hr & Hw & Hu & _); [reflexivity|].
  exists r, w. exact (conj Hr (conj Hw Hu)).
Defined.

(** An event on a Deployment labelled with a cached addon. *)
Definition sample_labels : gmap string string := {[ResourceDefaultOwnLabel := "a"]}.

Lemma events_reach_their_addon_witness :
  exists p reqs, event_requests (script default_flags) KDeployment (mkNN "x" "web") sample_labels = [p] /\
    (run (@cache_handler range_fwd no_services) (0%nat, sample_cache) p).2 = Val reqs /\
    exists q, q ∈ reqs /\ NN_Name q = "a".
Proof.
  destruct (@events_reach_their_addon range_fwd no_failure default_flags (script default_flags)
    eq_refl KDeployment (mkNN "x" "web") sample_labels 0 sample_cache)
    as (p & reqs & Hp & [Hr _] & _ & Ho).
  exists p, reqs. split; [exact Hp|]. split; [exact Hr|].
  destruct Ho as [_ Hex]; [split; discriminate|].
  apply (Hex ("core/A", "v1") (sample_version "a" "core/A" "v1" ∅ Succeeded)).
  - vm_compute. reflexivity.
  - vm_compute. reflexivity.
  - vm_compute. discriminate.
Defined.
