(* ===== verification/System.v ===== *)
(** The two controllers running concurrently against the API server.

    The server keeps the current addons and every revision it ever stored.
    Reads may be stale: they return any revision of the addon (the controllers
    read through informer caches).  A write succeeds only with the resource
    version of the current revision; a request that reports an error may
    still have been carried out.  Threads run [Reconcile] of either
    controller, one call at a time, interleaved with each other and with
    users who create, edit and delete addons. *)
From S2P Require Import Prelude GoStrings GoFmt AddonTypes Common VersionCache Unstructured.
From S2P Require Import TreeObject Validator Effects Updater Workflow Objects Controller.
From S2P Require Import WorkflowController Samples.

(** ** The API server *)

Record server := mkServer {
  objs : gmap NamespacedName Addon;
  history : list Addon
}.

Definition no_objects : server := mkServer ∅ [].

Definition set_ResourceVersion (rv : string) (m : ObjectMeta) : ObjectMeta :=
  mkObjectMeta (Name m) (Namespace m) rv (DeletionTimestamp m) (Finalizers m) (Labels m).

Abbreviation rv_of a := (ResourceVersion (Meta a)).

(** Store a new revision. *)
Definition commit (a : Addon) (s : server) : server :=
  mkServer (<[addon_key a := a]> (objs s)) (a :: history s).

Definition remove (nn : NamespacedName) (s : server) : server :=
  mkServer (delete nn (objs s)) (history s).

Definition fresh_rv (rv : string) (s : server) : Prop := rv ∉ (fun a => rv_of a) <$> history s.

(** What a status write, an update, and a user's change store. *)
Definition status_revision (cur o : Addon) (rv : string) : Addon :=
  mkAddon (set_ResourceVersion rv (Meta cur)) (Spec cur) (Status o).

Definition update_revision (cur o : Addon) (rv : string) : Addon :=
  mkAddon (set_ResourceVersion rv (set_Finalizers (fun _ => Finalizers (Meta o)) (Meta cur)))
    (Spec o) (Status cur).

(** The answer to a call, and what it does to the store.  An update answers
    with the revision it made; the last update of an object that is being
    deleted removes it. *)
Inductive serve (s : server) : forall c : Call, Resp c -> server -> Prop :=
  | serve_read nn a : a ∈ history s -> addon_key a = nn -> serve s (CGetAddon nn) (Ok a) s
  | serve_read_error nn e : serve s (CGetAddon nn) (Err e) s
  | serve_status o cur rv (r : option error) :
      objs s !! addon_key o = Some cur -> rv_of cur = rv_of o -> fresh_rv rv s ->
      serve s (CStatusUpdate o) r (commit (status_revision cur o rv) s)
  | serve_status_error o e : serve s (CStatusUpdate o) (Some e) s
  | serve_update o cur rv (r : result Addon) :
      objs s !! addon_key o = Some cur -> rv_of cur = rv_of o -> fresh_rv rv s ->
      (forall a, r = Ok a -> a = update_revision cur o rv) ->
      serve s (CUpdate o) r (commit (update_revision cur o rv) s)
  | serve_update_last o cur (r : result Addon) :
      objs s !! addon_key o = Some cur -> rv_of cur = rv_of o ->
      (forall a, r = Ok a -> exists rv, a = update_revision cur o rv) ->
      serve s (CUpdate o) r (remove (addon_key o) s)
  | serve_update_error o e : serve s (CUpdate o) (Err e) s
  | serve_other c (r : Resp c) :
      match c with CGetAddon _ | CStatusUpdate _ | CUpdate _ => False | _ => True end ->
      serve s c r s.

(** Users: create with an empty status, change metadata and spec, remove. *)
Inductive user_step (s : server) : server -> Prop :=
  | user_create a rv :
      objs s !! addon_key a = None -> fresh_rv rv s ->
      user_step s (commit (mkAddon (set_ResourceVersion rv (Meta a)) (Spec a) zero_AddonStatus) s)
  | user_edit nn cur m sp rv :
      objs s !! nn = Some cur -> Name m = NN_Name nn -> Namespace m = NN_Namespace nn ->
      fresh_rv rv s ->
      user_step s (commit (mkAddon (set_ResourceVersion rv m) sp (Status cur)) s)
  | user_remove nn : user_step s (remove nn s).

(** ** The system *)

Abbreviation thread := (Prog (Result * option error)).

Record config := mkConfig { srv : server; threads : list thread }.

Section system.
Context `{GoRange, Semver, Yaml, UnstructuredReader, RetryOnConflict}.
Context `{AddonLifecycleLaws, Selectors, ControllerUtil}.
Context (go_syntax : error -> string).

Inductive sys_step : config -> config -> Prop :=
  | sys_user s s' ts : user_step s s' -> sys_step (mkConfig s ts) (mkConfig s' ts)
  | sys_addon s ts t req : sys_step (mkConfig s ts) (mkConfig s (Reconcile t req :: ts))
  | sys_workflow s ts req :
      sys_step (mkConfig s ts) (mkConfig s (WorkflowReconcile go_syntax req :: ts))
  | sys_call s s' ts1 ts2 c k r :
      serve s c r s' ->
      sys_step (mkConfig s (ts1 ++ Vis c k :: ts2)) (mkConfig s' (ts1 ++ k r :: ts2))
  | sys_crash s ts1 ts2 p :
      sys_step (mkConfig s (ts1 ++ p :: ts2)) (mkConfig s (ts1 ++ ts2)).

(** ** Invariants *)

(** Resource versions identify revisions, and the current objects are
    revisions stored under their own key. *)
Definition server_ok (s : server) : Prop :=
  NoDup ((fun a => rv_of a) <$> history s) /\
  forall nn a, objs s !! nn = Some a -> addon_key a = nn /\ a ∈ history s.

(** A thread will only make guarded writes, to revisions it has read. *)
Definition thread_ok (s : server) (p : thread) : Prop :=
  exists last, guarded last p /\ forall a, last = Some a -> a ∈ history s.

Definition config_ok (c : config) : Prop :=
  server_ok (srv c) /\ Forall (thread_ok (srv c)) (threads c).

Lemma commit_ok a s :
  server_ok s -> fresh_rv (rv_of a) s -> server_ok (commit a s).
Proof.
  intros [Hnd Hobj] Hf. split; cbn.
  - by constructor.
  - intros nn b. rewrite lookup_insert_Some. intros [[<- <-]|[_ Hb]].
    + split; [done | by left].
    + destruct (Hobj _ _ Hb). split; [done | by right].
Qed.

Lemma remove_ok nn s : server_ok s -> server_ok (remove nn s).
Proof. 
  intros [Hnd Hobj]. split; [done|]. intros nn' a. cbn. intros [_ Ha]%lookup_delete_Some.
  by apply Hobj.
Qed.

Lemma serve_ok s c r s' : server_ok s -> serve s c r s' -> server_ok s'.
Proof. intros Hs []; try done; solve [by apply commit_ok | by apply remove_ok]. Qed.

Lemma user_ok s s' : server_ok s -> user_step s s' -> server_ok s'.
Proof. intros Hs []; solve [by apply commit_ok | by apply remove_ok]. Qed.

Lemma serve_history s c r s' : serve s c r s' -> history s ⊆ history s'.
Proof. intros []; cbn; set_solver. Qed.

Lemma user_history s s' : user_step s s' -> history s ⊆ history s'.
Proof. intros []; cbn; set_solver. Qed.

Lemma thread_mono s s' p : history s ⊆ history s' -> thread_ok s p -> thread_ok s' p.
Proof. intros Hs (last & Hg & Hl). exists last. split; [done|]. intros a Ha. by apply Hs, Hl. Qed.

(** A step of a thread keeps its invariant: a read extends what it knows. *)
Lemma thread_step s s' c k r :
  serve s c r s' -> thread_ok s (Vis c k) -> thread_ok s' (k r).
Proof.
  intros Hserve (last & [Hc Hk] & Hl). exists (last_read last c r). split; [apply Hk|].
  pose proof (serve_history _ _ _ _ Hserve) as Hh. intros a Ha.
  destruct Hserve; cbn in Ha; simplify_eq; auto.
  destruct c; simplify_eq; auto. done.
Qed.

Lemma sys_step_ok c c' : config_ok c -> sys_step c c' -> config_ok c'.
Proof.
  intros [Hs Hts] Hstep. destruct Hstep as [s s' ts Hu|s ts t req|s ts req|s s' ts1 ts2 c k r Hc|s ts1 ts2 p];
    cbn [srv threads] in *; split; cbn [srv threads]; try done.
  - by eapply user_ok.
  - eapply Forall_impl; [exact Hts|]. intros p. apply thread_mono. by eapply user_history.
  - constructor; [|done]. exists None. split; [apply Reconcile_guarded | done].
  - constructor; [|done]. exists None. split; [apply WorkflowReconcile_guarded | done].
  - by eapply serve_ok.
  - apply Forall_app in Hts as [H1p [H2p H3p]%Forall_cons].
    assert (forall p, thread_ok s p -> thread_ok s' p) as Hmono
      by (intros p; by eapply thread_mono, serve_history).
    apply Forall_app. split; [by eapply Forall_impl|].
    constructor; [by eapply thread_step | by eapply Forall_impl].
  - apply Forall_app in Hts as [H1p [_ H3p]%Forall_cons]. by apply Forall_app.
Qed.

Lemma reachable_ok c : rtc sys_step (mkConfig no_objects []) c -> config_ok c.
Proof.
  intros Hr. remember (mkConfig no_objects []) as c0 eqn:Hc0.
  assert (config_ok c0) as Hok.
  { subst. split; [|constructor]. split; [constructor|]. intros nn a Ha.
    cbn in Ha. by rewrite lookup_empty in Ha. }
  clear Hc0. induction Hr as [c|c1 c2 c3 Hstep Hr IH]; [done|]. apply IH. by eapply sys_step_ok.
Qed.

(** A status never blocks itself. *)
Lemma guard_blocks_same st : guard_blocks st st = false.
Proof.
  unfold guard_blocks. destruct (phase_Completed _) eqn:Hc; [|done].
  by rewrite (Completed_not_Running _ Hc).
Qed.

(** The write of a guarded thread against the current revision. *)
Lemma guarded_write s o cur k :
  server_ok s -> thread_ok s (Vis (CStatusUpdate o) k) ->
  objs s !! addon_key o = Some cur -> rv_of cur = rv_of o ->
  guard_blocks (Status cur) (Status o) = false.
Proof.
  intros [Hnd Hobj] (last & [(a & -> & Hm & _ & Hg) _] & Hl) Hcur Hrv.
  destruct (Hobj _ _ Hcur) as [_ Hin].
  assert (a = cur) as <-; [|done].
  eapply (NoDup_fmap_elem (fun a => rv_of a)); [done | by apply Hl | done |]. by rewrite Hrv, Hm.
Qed.

(** Storing a revision with the status of the current one or a guarded one. *)
Lemma commit_status s x nn cur new :
  (forall cur, objs s !! addon_key x = Some cur -> guard_blocks (Status cur) (Status x) = false) ->
  objs s !! nn = Some cur -> objs (commit x s) !! nn = Some new ->
  guard_blocks (Status cur) (Status new) = false.
Proof.
  intros Hx Hcur. cbn. rewrite lookup_insert_Some. intros [[<- <-]|[_ Hnew]].
  - by apply Hx.
  - rewrite Hcur in Hnew. simplify_eq. apply guard_blocks_same.
Qed.

Lemma remove_status s nn' nn cur new :
  objs s !! nn = Some cur -> objs (remove nn' s) !! nn = Some new ->
  guard_blocks (Status cur) (Status new) = false.
Proof.
  cbn. intros Hcur [_ Hnew]%lookup_delete_Some. rewrite Hcur in Hnew. simplify_eq.
  apply guard_blocks_same.
Qed.

Lemma sys_step_status c c' nn cur new :
  config_ok c -> sys_step c c' ->
  objs (srv c) !! nn = Some cur -> objs (srv c') !! nn = Some new ->
  guard_blocks (Status cur) (Status new) = false.
Proof.
  intros [Hs Hts] Hstep Hcur Hnew.
  assert (srv c' = srv c -> guard_blocks (Status cur) (Status new) = false) as Hsame.
  { intros Heq. rewrite Heq, Hcur in Hnew. simplify_eq. apply guard_blocks_same. }
  destruct Hstep as [s s' ts Hu|s ts t req|s ts req|s s' ts1 ts2 c k r Hc|s ts1 ts2 p];
    cbn [srv threads] in *; [|by auto|by auto| |by auto].
  - destruct Hu as [a rv Hnone _|nn' cur' m sp rv Hcur' Hn Hns _|nn'].
    + eapply commit_status; [|done..]. intros cur0. cbn. unfold addon_key in *. cbn in *. congruence.
    + eapply commit_status; [|done..]. intros cur0. unfold addon_key. cbn.
      replace (mkNN (Namespace m) (Name m)) with nn' by (destruct nn'; cbn in *; congruence).
      intros ?. simplify_eq. apply guard_blocks_same.
    + by eapply remove_status.
  - apply Forall_app in Hts as [_ [Hth _]%Forall_cons].
    assert (forall nn b, objs s !! nn = Some b -> addon_key b = nn) as Hkey by (by intros; apply Hs).
    destruct Hc as [| |o cur0 rv r Hcur0 Hrv _| |o cur0 rv r Hcur0 Hrv _ _|o cur0 r| |]; try by auto.
    + eapply commit_status; [|done..]. intros b Hb.
      assert (addon_key (status_revision cur0 o rv) = addon_key o) as Hko by (by rewrite <-(Hkey _ _ Hcur0)).
      rewrite Hko, Hcur0 in Hb. simplify_eq. by apply (guarded_write s o b k).
    + eapply commit_status; [|done..]. intros b Hb.
      assert (addon_key (update_revision cur0 o rv) = addon_key o) as Hko by (by rewrite <-(Hkey _ _ Hcur0)).
      rewrite Hko, Hcur0 in Hb. simplify_eq. apply guard_blocks_same.
    + by eapply remove_status.
Qed.
End system.

(** ** Properties *)

(** C1: however the reconciles of both controllers and the users interleave,
    with stale reads and lost responses, no step replaces a stored status
    whose installation is completed by one that is pending or failed in
    validation for the same checksum: the race that overwrote a recorded
    success cannot happen. *)
Theorem completed_status_never_regresses
    `{GoRange, Semver, Yaml, UnstructuredReader, RetryOnConflict, AddonLifecycleLaws, Selectors,
      ControllerUtil} (go_syntax : error -> string) (c c' : config) (nn : NamespacedName)
    (cur new : Addon) :
  rtc (sys_step go_syntax) (mkConfig no_objects []) c ->
  sys_step go_syntax c c' ->
  objs (srv c) !! nn = Some cur -> objs (srv c') !! nn = Some new ->
  phase_Completed (GetInstallStatus cur) = true ->
  Checksum (Status new) = Checksum (Status cur) ->
  phase_Running (GetInstallStatus new) = false.
Proof.
  intros Hr%reachable_ok Hstep Hcur Hnew Hc Hck.
  pose proof (sys_step_status _ _ _ _ _ _ Hr Hstep Hcur Hnew) as Hg.
  unfold guard_blocks, GetInstallStatus in *. rewrite Hc, Hck in Hg.
  rewrite bool_decide_eq_true_2, andb_true_r in Hg by done. exact Hg.
Qed.

(** ** Witness: an installation, then one more reconcile *)

(** Services next to the API server: every workflow has succeeded. *)
Definition sample_services (c : Call) : Resp c :=
  match c as c return Resp c with
  | CGetWorkflow _ n => Ok (mkWorkflow n "addon-manager-system" None None WorkflowSucceeded "")
  | CListWorkflows _ _ => Ok []
  | CListSecrets _ => Ok []
  | CList _ _ _ => Ok []
  | CCreateWorkflow _ _ _ => None
  | CNow => 1000%Z
  | c => no_services c
  end.

Definition next_rv (s : server) : string := pretty (length (history s)).

(** An API server that answers from the current state. *)
Definition api_handler (s : server) (c : Call) : server * Resp c :=
  match c as c return server * Resp c with
  | CGetAddon nn =>
      match objs s !! nn with
      | Some a => if bool_decide (a ∈ history s) && (addon_key a == nn) then (s, Ok a)
                  else (s, Err not_found)
      | None => (s, Err not_found)
      end
  | CStatusUpdate o =>
      match objs s !! addon_key o with
      | Some cur =>
          if (rv_of cur == rv_of o) && bool_decide (next_rv s ∉ (fun a => rv_of a) <$> history s)
          then (commit (status_revision cur o (next_rv s)) s, None) else (s, Some not_found)
      | None => (s, Some not_found)
      end
  | CUpdate o =>
      match objs s !! addon_key o with
      | Some cur =>
          if (rv_of cur == rv_of o) && bool_decide (next_rv s ∉ (fun a => rv_of a) <$> history s)
          then (commit (update_revision cur o (next_rv s)) s,
                Ok (update_revision cur o (next_rv s)))
          else (s, Err not_found)
      | None => (s, Err not_found)
      end
  | c => (s, sample_services c)
  end.

Lemma api_serve s c : serve s c (api_handler s c).2 (api_handler s c).1.
Proof.
  destruct c; cbn [api_handler fst snd]; try (by apply serve_other);
    (case_match eqn:Ha; [|by constructor]); (case_match eqn:Hb; [|by constructor]);
    apply andb_true_iff in Hb as [?%bool_decide_eq_true ?%bool_decide_eq_true]; constructor;
    try done.
  by intros ? [= <-].
Qed.

(** One thread making calls to that server. *)
Definition step1 (sp : server * thread) : server * thread :=
  match sp.2 with
  | Vis c k => let '(s, r) := api_handler sp.1 c in (s, k r)
  | _ => sp
  end.

Definition drive (n : nat) (s : server) (p : thread) : server * thread := Nat.iter n step1 (s, p).

Section sample_system.
Context (go_syntax : error -> string).

Abbreviation sample_step := (@sys_step range_fwd star_semver sample_yaml sample_reader
  default_retry sample_lifecycle sample_selectors sample_util go_syntax).

Definition at_call (p : thread) : bool := match p with Vis _ _ => true | _ => false end.

Definition alone (sp : server * thread) : config := mkConfig sp.1 [sp.2].

Lemma step1_sys sp : at_call sp.2 = true -> sample_step (alone sp) (alone (step1 sp)).
Proof.
  destruct sp as [s [a|m|c k]]; try done. intros _. unfold alone, step1. cbn [fst snd].
  pose proof (api_serve s c) as Hs. destruct (api_handler s c) as [s' r].
  exact (sys_call go_syntax s s' [] [] c k r Hs).
Qed.

Lemma step1_idle sp : at_call sp.2 = false -> step1 sp = sp.
Proof. by destruct sp as [s []]. Qed.

Lemma drive_sys n s p : rtc sample_step (alone (s, p)) (alone (drive n s p)).
Proof.
  induction n as [|n IH]; [done|]. etrans; [exact IH|]. cbn.
  destruct (at_call (Nat.iter n step1 (s, p)).2) eqn:Hc; [by apply rtc_once, step1_sys|].
  by rewrite step1_idle.
Qed.

(** A whole reconcile of the addon, from start to end. *)
Definition session (n : nat) (s : server) : server * thread :=
  drive n s (sample_Reconcile [] (addon_key fresh_addon)).

Lemma session_sys n s : rtc sample_step (mkConfig s []) (alone (session n s)).
Proof. eapply rtc_l; [apply sys_addon|]. apply drive_sys. Qed.

Lemma session_end n s : rtc sample_step (mkConfig s []) (mkConfig (session n s).1 []).
Proof.
  etrans; [apply session_sys|]. apply rtc_once. apply (sys_crash go_syntax _ [] [] _).
Qed.
End sample_system.

Definition created_server : server :=
  commit (mkAddon (set_ResourceVersion "r0" (Meta fresh_addon)) (Spec fresh_addon) zero_AddonStatus)
    no_objects.

(** After two reconciles the addon is installed; the third is at its write. *)
Definition pending_server : server := (session 30 created_server).1.
Definition installed_server : server := (session 30 pending_server).1.
Definition before_write : server * thread := session 3 installed_server.
Definition stored_addon (s : server) : Addon := default fresh_addon (objs s !! addon_key fresh_addon).

Lemma completed_status_never_regresses_witness :
  GetInstallStatus (stored_addon before_write.1) = Succeeded /\
  phase_Running (GetInstallStatus (stored_addon (step1 before_write).1)) = false.
Proof.
  split; [vm_compute; reflexivity|].
  apply (@completed_status_never_regresses range_fwd star_semver sample_yaml sample_reader
    default_retry tree_object sample_lifecycle sample_lifecycle_laws sample_selectors sample_util
    (fun e => Error e) (alone before_write) (alone (step1 before_write)) (addon_key fresh_addon)
    (stored_addon before_write.1)).
  - apply (rtc_l _ _ (mkConfig created_server []));
      [apply sys_user, (user_create no_objects fresh_addon "r0"); [done | by apply not_elem_of_nil]|].
    exact (transitivity (session_end _ 30 created_server)
      (transitivity (session_end _ 30 pending_server) (session_sys _ 3 installed_server))).
  - apply step1_sys. vm_compute. reflexivity.
  - vm_compute. reflexivity.
  - vm_compute. reflexivity.
  - vm_compute. reflexivity.
  - vm_compute. reflexivity.
Defined.
