(* ===== verification/Provenance.v ===== *)
(** Where the entries of the version cache come from: a thread of the
    controllers caches only packages of addons it has received, with phases
    it has written. *)
From S2P Require Import Prelude GoStrings GoFmt AddonTypes Common VersionCache Unstructured.
From S2P Require Import Validator Effects Updater Workflow Objects Controller.
From S2P Require Import WorkflowController.

(** ** What a thread has seen

    The addons it has read, and those whose status it has written with
    success.  [None] when the API has answered something that it cannot:
    another addon than was asked for, or an update with another package. *)
Record seen := mkSeen { sn_read : list Addon; sn_written : list Addon }.

Definition see (os : option seen) (c : Call) : Resp c -> option seen :=
  match os with
  | None => fun _ => None
  | Some s =>
      match c as c return Resp c -> option seen with
      | CGetAddon nn => fun r =>
          match r with
          | Ok a => if decide (addon_key a = nn) then Some (mkSeen (a :: sn_read s) (sn_written s))
                    else None
          | Err _ => Some s
          end
      | CUpdate o => fun r =>
          match r with
          | Ok a => if decide (addon_key a = addon_key o /\ GetPackageSpec a = GetPackageSpec o)
                    then Some s else None
          | Err _ => Some s
          end
      | CStatusUpdate o => fun r =>
          match r with None => Some (mkSeen (sn_read s) (o :: sn_written s)) | Some _ => Some s end
      | _ => fun _ => Some s
      end
  end.

(** The addon has the name and the package of one that was read. *)
Definition derived (os : option seen) (a : Addon) : Prop :=
  match os with
  | None => True
  | Some s => exists b, b ∈ sn_read s /\ addon_key b = addon_key a /\
                GetPackageSpec b = GetPackageSpec a
  end.

(** Its installation phase was written under its name. *)
Definition written (os : option seen) (a : Addon) : Prop :=
  match os with
  | None => True
  | Some s => exists o, o ∈ sn_written s /\ addon_key o = addon_key a /\
                GetInstallStatus o = GetInstallStatus a
  end.

Definition accounted (os : option seen) (c : Call) : Prop :=
  match c with
  | CAddVersion v => exists a, v = addon_version a /\ derived os a /\ written os a
  | CUpdate o => derived os o
  | _ => True
  end.

(** The calls on which [accounted] says nothing. *)
Definition free_call (c : Call) : bool :=
  match c with CAddVersion _ | CUpdate _ => false | _ => true end.

Lemma free_accounted os c : free_call c = true -> accounted os c.
Proof. by destruct c. Qed.

(** ** What has been seen stays so *)

Lemma derived_see os c r a : derived os a -> derived (see os c r) a.
Proof.
  destruct os as [s|]; [|done]. intros (b & Hb & Hk & Hp).
  destruct c; try (by exists b).
  - destruct r as [x|e]; cbn; [|by exists b]. case_decide; [|done].
    exists b. split; [by right | done].
  - destruct r as [e|]; by exists b.
  - destruct r as [x|e]; cbn; [|by exists b]. case_decide; [by exists b | done].
Qed.

Lemma derived_any_read os nn a : derived (see os (CGetAddon nn) (Ok a)) a.
Proof.
  destruct os as [s|]; [|done]. cbn. case_decide; [|done]. exists a. split; [by left | done].
Qed.

Lemma derived_update os o a : derived os o -> derived (see os (CUpdate o) (Ok a)) a.
Proof.
  destruct os as [s|]; [|done]. intros (b & Hb & Hk & Hp). cbn. case_decide as Ha; [|done].
  destruct Ha as [Hka Hpa]. exists b. split_and!; [done|congruence..].
Qed.

Lemma derived_same os a b :
  addon_key b = addon_key a -> GetPackageSpec b = GetPackageSpec a -> derived os a -> derived os b.
Proof.
  intros Hk Hp. destruct os as [s|]; [|done]. intros (x & Hx & Hkx & Hpx).
  exists x. split_and!; [done|congruence..].
Qed.

Lemma derived_phases os a b : same_but_phases a b -> derived os a -> derived os b.
Proof.
  intros (Hm & Hs & _). apply derived_same; unfold addon_key, addon_Namespace, addon_Name,
    GetPackageSpec; by rewrite ?Hm, ?Hs.
Qed.

#[export] Hint Resolve derived_see derived_any_read derived_update : addon.

(** ** Programs *)

Abbreviation swp := (wp accounted see).

(** A program that makes only free calls loses nothing. *)
Lemma swp_free {A} os (p : Prog A) a :
  calls_all (fun c => free_call c = true) p -> derived os a -> swp os p (fun os' _ => derived os' a).
Proof.
  intros Hp. revert os. unfold calls_all in Hp. induction p as [x|m|c k IH]; intros os Ha; [done..|].
  destruct Hp as [Hc Hk]. split; [by apply free_accounted|]. intros r.
  by apply IH; [apply Hk | apply derived_see].
Qed.

Lemma swp_any {A} os (p : Prog A) :
  calls_all (fun c => free_call c = true) p -> swp os p (fun _ _ => True).
Proof. intros Hp. eapply wp_allowed; [|exact Hp]. intros s c. apply free_accounted. Qed.

(** Programs that keep the name and the package of the addon they work on. *)
Definition keeps {B : Type} (a : Addon) (p : Prog (Addon * B)) : Prop :=
  forall os, derived os a ->
    swp os p (fun os' o => match o with Val (a', _) => derived os' a' | Panicked _ => True end).

Lemma keeps_ret {B} a a' (b : B) :
  addon_key a' = addon_key a -> GetPackageSpec a' = GetPackageSpec a -> keeps a (mret (a', b)).
Proof. intros Hk Hp os Ha. by apply (derived_same _ a). Qed.

Lemma keeps_phases {B} a a' (b : B) : same_but_phases a a' -> keeps a (mret (a', b)).
Proof. intros Hs os Ha. by apply (derived_phases _ a). Qed.

Lemma keeps_panic {B} a m : keeps (B:=B) a (Panic m).
Proof. done. Qed.

Lemma keeps_bind {A B} a (p : Prog A) (f : A -> Prog (Addon * B)) :
  calls_all (fun c => free_call c = true) p -> (forall x, keeps a (f x)) -> keeps a (p ≫= f).
Proof.
  intros Hp Hf os Ha. apply wp_bind. eapply wp_mono; [by apply swp_free|].
  intros os' [x|m] Hd; [by apply Hf | done].
Qed.

Lemma keeps_then {B D} a (p : Prog (Addon * B)) (f : Addon * B -> Prog (Addon * D)) :
  keeps a p -> (forall a' b, keeps a' (f (a', b))) -> keeps a (p ≫= f).
Proof.
  intros Hp Hf os Ha. apply wp_bind. eapply wp_mono; [by apply Hp|].
  intros os' [[a' b]|m] Hd; [by apply Hf | done].
Qed.

Lemma keeps_same {B} a b (p : Prog (Addon * B)) :
  addon_key b = addon_key a -> GetPackageSpec b = GetPackageSpec a -> keeps b p -> keeps a p.
Proof. intros Hk Hp Hb os Ha. apply Hb. by apply (derived_same _ a). Qed.

Lemma keeps_same_phases {B} a b (p : Prog (Addon * B)) :
  same_but_phases a b -> keeps b p -> keeps a p.
Proof. intros Hs Hb os Ha. apply Hb. by apply (derived_phases _ a). Qed.

(** ** The updater *)

(** One attempt: when it ends without error, and without the guard, it has
    written the status. *)
Definition attempted (a : Addon) (os : option seen) (o : outcome (guard * option error)) : Prop :=
  derived os a /\ forall g, o = Val (g, None) -> guardFired g = false -> written os a.

Lemma update_attempt_swp a g os :
  derived os a -> swp os (update_attempt a g) (attempted a).
Proof.
  intros Ha. apply wp_call_bind; [done|]. intros [b|e].
  2: { split; [exact (derived_see os (CGetAddon _) _ _ Ha) | done]. }
  set (os1 := see os (CGetAddon (addon_key a)) (Ok b)).
  assert (derived os1 a) as Ha1 by (by apply (derived_see os (CGetAddon _))).
  destruct (guard_blocks _ _) eqn:Hgb; [split; [done|]; intros g' [= <-] Hf; by change (true = false) in Hf|].
  apply wp_call_bind; [done|]. intros err. split; [by apply derived_see|].
  intros g' [= -> ->] _. unfold os1. destruct os as [s|]; [|done]. cbn.
  case_decide as Hk; [|done]. eexists. split; [by left|].
  unfold addon_key, addon_Namespace, addon_Name in *. cbn. split; [|done]. exact Hk.
Qed.

Lemma retry_swp a n g os :
  derived os a -> swp os (retry_unroll n (update_attempt a) g) (attempted a).
Proof.
  revert g os. induction n as [|n IH]; intros g os Ha; cbn [retry_unroll];
    [by apply update_attempt_swp|].
  apply wp_bind. eapply wp_mono; [by apply update_attempt_swp|].
  intros os' [[g' e]|m] Hpost; [|split; [apply Hpost | done]]. cbn [snd fst].
  destruct (IsConflict e); [apply IH, Hpost | exact Hpost].
Qed.

Lemma UpdateStatus_swp `{RetryOnConflict} a os :
  derived os a -> swp os (UpdateStatus a) (fun _ _ => True).
Proof.
  intros Ha. apply wp_call_bind; [done|]. intros []. apply wp_defer.
  destruct (retry_unrolls (update_attempt a) no_guard) as [n ->]. apply wp_bind.
  eapply wp_mono; [apply retry_swp, (derived_see os (CLockStatus _) tt _ Ha)|].
  intros os' [[g [e|]]|m] [Hd Hw]; [| |done].
  - apply wp_call_bind; [done|]. intros []. by apply wp_ret, wp_call.
  - destruct (guardFired g) eqn:Hg; [by apply wp_ret, wp_call|].
    apply wp_call_bind; [|intros []; by apply wp_ret, wp_call].
    exists a. split_and!; [done..|]. by eapply Hw.
Qed.

Section controllers.
Context `{GoRange, Semver, Yaml, UnstructuredReader, RetryOnConflict}.
Context `{AddonLifecycleLaws, Selectors, ControllerUtil}.
Implicit Types (a : Addon) (t : list nat).

Abbreviation free p := (calls_all (fun c => free_call c = true) p).

Lemma free_call_free c : free_call c = true -> free (call c).
Proof. apply (calls_all_call (fun c => free_call c = true)). Qed.

Lemma wfl_Install_free t a w : free (wfl_Install t a w).
Proof. eapply calls_all_mono; [|apply wfl_Install_calls]. by intros []. Qed.

Lemma delete_workflows_free ns l : free (delete_workflows ns l).
Proof.
  induction l as [|w l IH]; [done|]. by apply calls_all_bind; [apply free_call_free|].
Qed.

(** Goes through a program, down to its calls. *)
Ltac solve_free :=
  cbv zeta;
  repeat match goal with
  | |- free (_ ≫= _) => apply calls_all_bind; [|intros ?]
  | |- free (match ?x with _ => _ end) => destruct x
  | |- free (call _) => by apply free_call_free
  | |- free (wfl_Install _ _ _) => apply wfl_Install_free
  | |- free (delete_workflows _ _) => apply delete_workflows_free
  | |- free _ => done
  end.

Lemma validateSecrets_free a : free (validateSecrets a).
Proof. unfold validateSecrets, lift_outcome. solve_free. Qed.

Lemma deleteOldWorkflows_free a : free (deleteOldWorkflows a).
Proof. unfold deleteOldWorkflows. solve_free. Qed.

Lemma observe_free a what p acc : free p -> free (observe a what p acc).
Proof. intros Hp. unfold observe. apply calls_all_bind; [done|]. intros x. solve_free. Qed.

Lemma RemoveFromCache_free n : free (RemoveFromCache n).
Proof. unfold RemoveFromCache. solve_free. Qed.

(** ** The addon controller *)

(** A program that ends with the given addon, up to phases. *)
Ltac solve_keeps :=
  cbv zeta;
  repeat match goal with
  | |- keeps _ (mret (?b, _)) => by apply keeps_phases; auto with addon
  | |- keeps _ (call _ ≫= _) => apply keeps_bind; [by apply free_call_free|intros ?]
  | |- keeps _ (match ?x with _ => _ end) => destruct x
  end.

Lemma validation_failed_keeps a e : keeps a (validation_failed a e).
Proof. unfold validation_failed. solve_keeps. Qed.

Lemma runWorkflow_keeps t step a : keeps a (runWorkflow t step a).
Proof.
  unfold runWorkflow. cbv zeta. destruct (step_completed step a); [solve_keeps|].
  destruct (GetWorkflowType a step) as [wt|e]; [|solve_keeps].
  destruct (_ == ""); [solve_keeps|]. destruct (_ == ""); [solve_keeps|].
  apply keeps_bind; [apply wfl_Install_free|]. intros [e|]; solve_keeps.
Qed.

Lemma executePrereqAndInstall_keeps t a : keeps a (executePrereqAndInstall t a).
Proof.
  apply keeps_then; [apply runWorkflow_keeps|]. intros a1 [e|]; [solve_keeps|].
  destruct (phase_Succeeded _); [|solve_keeps].
  apply keeps_bind; [apply validateSecrets_free|]. intros [e|]; [solve_keeps|].
  apply keeps_then; [apply runWorkflow_keeps|]. intros a2 [e|]; solve_keeps.
Qed.

(** The labels that [observeResources] adds change only the selector. *)
Lemma observeResources_swp os a :
  derived os a -> swp os (observeResources a) (fun os' o =>
    match o with Val (a', _, _) => derived os' a' | Panicked _ => True end).
Proof.
  intros Ha. unfold observeResources. cbv zeta.
  set (b := if bool_decide (MatchLabels _ = ∅) then a else _).
  assert (derived os b) as Hb by (by apply (derived_same _ a); unfold b; destruct (bool_decide _)).

  clearbody b. destruct (selector_error _) as [e|]; [done|].
  do 7 (apply wp_bind; eapply wp_mono;
    [apply swp_free; [apply observe_free; unfold ObserveService, ObserveJob, ObserveCronJob,
       ObserveStatefulSet, ObserveDeployment, ObserveDaemonSet, ObserveReplicaSet, cli_List;
       solve_free | eassumption]
    |intros ? [?|?] ?; [|done]]).
  by destruct (_ <? _)%nat.
Qed.

Lemma observe_and_return_keeps a : keeps a (observe_and_return a).
Proof.
  intros os Ha. unfold observe_and_return. apply wp_bind.
  eapply wp_mono; [by apply observeResources_swp|]. intros os' [[[a' obs] [e|]]|m] Hd; [| |done].
  - apply (keeps_bind a'); [by apply free_call_free| |done]. intros []. solve_keeps.
  - assert (forall b, addon_key b = addon_key a' -> GetPackageSpec b = GetPackageSpec a' ->
      derived os' b) as Hsame by (intros b Hk Hp; by apply (derived_same _ a')).
    destruct (_ <? _)%nat; case_match; by apply Hsame.
Qed.

Lemma SetFinalizer_keeps a f : keeps a (SetFinalizer a f).
Proof.
  intros os Ha. unfold SetFinalizer. destruct (DeletionTimestamp _); [done|].
  destruct (ContainsFinalizer _ _); [done|].
  apply wp_call_bind; [by apply (derived_same _ a)|].
  intros [b|e]; apply wp_ret; [apply derived_update | apply derived_see];
    by apply (derived_same _ a).
Qed.

Lemma processAddon_keeps t a : keeps a (processAddon t a).
Proof.
  unfold processAddon. destruct (validateChecksum a) as [changed ck].
  set (b := set_Status (set_Resources []) _).
  apply (keeps_same a b); [done..|]. clearbody b. destruct changed.
  - apply keeps_bind; [apply deleteOldWorkflows_free|]. intros [e|]; [solve_keeps|].
    apply keeps_bind; [by apply free_call_free|]. intros now. apply (keeps_same b (ClearStatus
      (set_Status (set_StartTime now) b))); [done..|]. solve_keeps.
  - destruct (phase_Completed _); [solve_keeps|].
    apply keeps_bind; [by apply free_call_free|]. intros c.
    apply keeps_bind; [by destruct (Validate_addon _ _)|].
    intros [[|] e]; [|apply validation_failed_keeps].
    apply keeps_bind; [by apply free_call_free|]. intros [].
    apply keeps_then; [apply SetFinalizer_keeps|]. intros a1 [e1|]; [solve_keeps|].
    destruct (phase_Completed _); [apply observe_and_return_keeps|].
    apply keeps_bind; [by apply free_call_free|]. intros now.
    destruct (IsExpired _ _ _); [solve_keeps|].
    apply keeps_then; [apply executePrereqAndInstall_keeps|].
    intros a2 [e2|]; [solve_keeps | apply observe_and_return_keeps].
Qed.

Lemma Finalize_swp t a f os : derived os a -> swp os (Finalize t a f) (fun _ _ => True).
Proof.
  intros Ha. unfold Finalize. apply wp_bind.
  apply (wp_mono _ _ _ _ (fun os' o =>
    match o with Val (a', _, _) => derived os' a' | Panicked _ => True end)).
  - destruct (_ != ""); [|done]. apply wp_bind.
    eapply wp_mono; [by apply runWorkflow_keeps|]. by intros os' [[a' [e|]]|m] Hd.
  - intros os' [[[a' rm] [e|]]|m] Hd; [done| |done].
    apply wp_call_bind; [done|]. intros [].
    assert (derived (see os' (CRemoveVersion (PkgName (Spec_Package (Spec a')))
      (PkgVersion (Spec_Package (Spec a')))) tt) a') as Hd1 by (by apply derived_see).
    destruct rm; [|done]. apply wp_call_bind; [by apply (derived_same _ a')|]. by intros [b|e].
Qed.

Lemma Reconcile_swp t req os : swp os (Reconcile t req) (fun _ _ => True).
Proof.
  apply wp_call_bind; [done|]. intros [a|e].
  - assert (derived (see os (CGetAddon req) (Ok a)) a) as Ha by apply derived_any_read.
    generalize dependent (see os (CGetAddon req) (Ok a)). intros os1 Ha.
    apply wp_recover. destruct (DeletionTimestamp _) as [d|].
    + destruct (negb _).
      * apply wp_bind. eapply wp_mono; [apply UpdateStatus_swp|by intros ? []].
        by eapply derived_phases; [apply SetInstallStatus_same|].
      * apply wp_bind. eapply wp_mono; [by apply Finalize_swp|].
        intros os2 [[b [e|]]|m] _; [|done..]. by apply wp_call_bind.
    + apply wp_bind. eapply wp_mono; [by apply processAddon_keeps|].
      intros os2 [[b [ret e]]|m] Hb; [|done].
      apply wp_bind. eapply wp_mono; [by apply UpdateStatus_swp | by intros ? [[]|]].
  - apply wp_bind. eapply wp_mono; [apply swp_any, RemoveFromCache_free | by intros ? []].
Qed.
End controllers.

(** ** The workflow controller *)

Lemma WorkflowReconcile_swp `{RetryOnConflict} go_syntax req os :
  swp os (WorkflowReconcile go_syntax req) (fun _ _ => True).
Proof.
  apply wp_recover, wp_call_bind; [done|]. intros [wf|e]; [|by destruct (IsNotFound _)].
  destruct (bool_decide _); [done|]. destruct (phase_empty _); [done|].
  destruct (wf_Controller wf) as [[kind n]|]; [|done]. destruct (_ != _); [done|].
  apply wp_bind. apply (wp_mono _ _ _ _ (fun _ _ => True)); [|by intros ? [[]|] _].
  generalize (see os (CClientGetWorkflow req) (Ok wf)). clear os. intros os.
  apply wp_call_bind; [done|]. intros [a|e]; [|done].
  assert (derived (see os (CGetAddon (mkNN (wf_Namespace wf) n)) (Ok a)) a) as Ha
    by apply derived_any_read.
  destruct (phase_Completed _); [done|].
  destruct (ExtractChecksumAndLifecycleStep _) as [[ck step]|e]; [|done].
  destruct (_ != _); [done|]. destruct (_ != _); [done|]. cbv zeta. destruct (_ == _); [done|].
  match goal with |- context [SetStatusByLifecyleStep step ?p ?rs a] =>
    pose proof (SetStatusByLifecyleStep_same step p rs a) as Hsame;
    destruct (SetStatusByLifecyleStep step p rs a) as [b [e|]] end; [done|].
  apply UpdateStatus_swp. by eapply derived_phases.
Qed.
