(* ===== verification/Dependencies.v ===== *)
(** The whole program: both controllers, interleaved, with the version cache
    they share, against the API server of [System]; and what this means for
    the dependencies of an addon. *)
From S2P Require Import Prelude GoStrings GoFmt AddonTypes Common VersionCache Unstructured.
From S2P Require Import TreeObject Validator Effects Updater Workflow Objects Controller.
From S2P Require Import WorkflowController Samples Protocol System Provenance.

(** ** The system with its cache *)

Record cluster := mkCluster { cl_srv : server; cl_cache : Cached.cached; cl_threads : list thread }.

Definition empty_cluster : cluster := mkCluster no_objects Cached.NewAddonVersionCacheClient [].

(** The calls that the shared cache answers. *)
Definition cache_call (c : Call) : bool :=
  match c with
  | CReadCache | CAddVersion _ | CRemoveVersion _ _ | CHasVersionName _ => true
  | _ => false
  end.

Abbreviation deps_of a := (PkgDeps (Spec_Package (Spec a))).

Section cluster.
Context `{GoRange, Semver, Yaml, UnstructuredReader, RetryOnConflict}.
Context `{AddonLifecycleLaws, Selectors, ControllerUtil}.
Context (go_syntax : error -> string).

Inductive answer (s : server) (ca : Cached.cached)
    : forall c : Call, Resp c -> server -> Cached.cached -> Prop :=
  | answer_read : answer s ca CReadCache ca s ca
  | answer_add v : answer s ca (CAddVersion v) tt s (Cached.AddVersion v ca)
  | answer_remove p w : answer s ca (CRemoveVersion p w) tt s (Cached.RemoveVersion p w ca)
  | answer_has t n : answer s ca (CHasVersionName n) (Cached.HasVersionName t ca n) s ca
  | answer_api c r s' : cache_call c = false -> serve s c r s' -> answer s ca c r s' ca.

(** A restart loses the cache and what the threads were doing. *)
Inductive cluster_step : cluster -> cluster -> Prop :=
  | cluster_user s s' ca ts :
      user_step s s' -> cluster_step (mkCluster s ca ts) (mkCluster s' ca ts)
  | cluster_addon s ca ts t req :
      cluster_step (mkCluster s ca ts) (mkCluster s ca (Reconcile t req :: ts))
  | cluster_workflow s ca ts req :
      cluster_step (mkCluster s ca ts) (mkCluster s ca (WorkflowReconcile go_syntax req :: ts))
  | cluster_call s ca ts1 ts2 c k r s' ca' :
      answer s ca c r s' ca' ->
      cluster_step (mkCluster s ca (ts1 ++ Vis c k :: ts2)) (mkCluster s' ca' (ts1 ++ k r :: ts2))
  | cluster_stop s ca ts1 ts2 p :
      cluster_step (mkCluster s ca (ts1 ++ p :: ts2)) (mkCluster s ca (ts1 ++ ts2))
  | cluster_restart s ca ts :
      cluster_step (mkCluster s ca ts) (mkCluster s Cached.NewAddonVersionCacheClient []).

(** *** It refines the system without a cache *)

Definition without_cache (C : cluster) : config := mkConfig (cl_srv C) (cl_threads C).

Lemma answer_serve s ca c r s' ca' : answer s ca c r s' ca' -> serve s c r s'.
Proof. intros []; [by apply serve_other.. | done]. Qed.

Lemma all_crash s ts : rtc (sys_step go_syntax) (mkConfig s ts) (mkConfig s []).
Proof.
  induction ts as [|p ts IH]; [done|].
  eapply rtc_l; [exact (sys_crash go_syntax s [] ts p) | exact IH].
Qed.

Lemma cluster_step_sys C C' :
  cluster_step C C' -> rtc (sys_step go_syntax) (without_cache C) (without_cache C').
Proof.
  intros [].
  - by apply rtc_once, sys_user.
  - apply rtc_once, sys_addon.
  - apply rtc_once, sys_workflow.
  - by eapply rtc_once, sys_call, answer_serve.
  - apply rtc_once, sys_crash.
  - apply all_crash.
Qed.

Lemma cluster_sys C C' :
  rtc cluster_step C C' -> rtc (sys_step go_syntax) (without_cache C) (without_cache C').
Proof.
  induction 1 as [C|C1 C2 C3 Hs _ IH]; [done|]. by etrans; [apply cluster_step_sys|].
Qed.

(** ** Provenance *)

(** The entry's package and its phase are those of revisions of the addon
    that the entry names. *)
Definition entry_ok (hist : list Addon) (v : Version) : Prop :=
  (exists a, a ∈ hist /\ addon_key a = mkNN (V_Namespace v) (V_Name v) /\
     GetPackageSpec a = V_Package v) /\
  (exists a, a ∈ hist /\ addon_key a = mkNN (V_Namespace v) (V_Name v) /\
     GetInstallStatus a = PkgPhase v).

Definition cache_ok (hist : list Addon) (ca : Cached.cached) : Prop :=
  forall p w v, Cached.abs ca !! (p, w) = Some v ->
    p = V_PkgName v /\ w = V_PkgVersion v /\ entry_ok hist v.

Definition seen_ok (hist : list Addon) (os : option seen) : Prop :=
  match os with
  | None => False
  | Some s => (forall a, a ∈ sn_read s -> a ∈ hist) /\
      forall o, o ∈ sn_written s -> exists a, a ∈ hist /\ addon_key a = addon_key o /\
        GetInstallStatus a = GetInstallStatus o
  end.

Definition knows (hist : list Addon) (k : knowledge) : Prop :=
  (forall read, k_read k = Some read -> read ∈ hist /\
     exists a, k_inst k = Some a /\ addon_key a = addon_key read /\ Spec a = Spec read) /\
  (forall ca, k_cache k = Some ca -> cache_ok hist ca).

Definition submits (c : Call) : bool := match c with CCreateWorkflow _ _ _ => true | _ => false end.

(** What a thread may do: cache what it has seen; and submit workflows as
    the protocol allows on what it has learnt, or not at all. *)
Definition thread_good (hist : list Addon) (p : thread) : Prop :=
  (exists os, seen_ok hist os /\ wp accounted see os p (fun _ _ => True)) /\
  ((exists t k, knows hist k /\ wp (allowed t) learn k p (fun _ _ => True)) \/
   calls_all (fun c => submits c = false) p).

(** More history changes none of it. *)
Section more_history.
Context (h1 h2 : list Addon) (Hh : h1 ⊆ h2).

Lemma entry_mono v : entry_ok h1 v -> entry_ok h2 v.
Proof. intros [(a & ? & ?) (b & ? & ?)]. split; [exists a | exists b]; auto. Qed.

Lemma cache_mono ca : cache_ok h1 ca -> cache_ok h2 ca.
Proof. intros Hca p w v Hv. destruct (Hca p w v Hv) as (? & ? & ?). auto using entry_mono. Qed.

Lemma seen_mono os : seen_ok h1 os -> seen_ok h2 os.
Proof.
  destruct os as [s|]; [|done]. intros [Hr Hw]. split; [auto|].
  intros o Ho. destruct (Hw o Ho) as (a & ? & ?). exists a. auto.
Qed.

Lemma knows_mono k : knows h1 k -> knows h2 k.
Proof.
  intros [Hr Hc]. split; [|by auto using cache_mono].
  intros read Hk. destruct (Hr read Hk). auto.
Qed.

Lemma thread_good_mono p : thread_good h1 p -> thread_good h2 p.
Proof.
  intros [(os & Hos & Hp) Hc]. split; [exists os; auto using seen_mono|].
  destruct Hc as [(t & k & Hk & Hw)|Hc]; [left | by right].
  exists t, k. auto using knows_mono.
Qed.
End more_history.

(** *** One step *)

Lemma cache_keeps_add hist os ca v :
  seen_ok hist os -> accounted os (CAddVersion v) -> cache_ok hist ca ->
  cache_ok hist (Cached.AddVersion v ca).
Proof.
  destruct os as [s|]; [|done]. intros [Hr Hw] (a & -> & (b & Hb & Hkb & Hpb) & (o & Ho & Hko & Hpo)) Hca.
  intros p w v. rewrite Cached.abs_AddVersion, lookup_insert_Some.
  intros [[[= <- <-] <-]|[_ Hv]]; [|by apply Hca]. split_and!; [done..|].
  destruct (Hw o Ho) as (d & Hd & Hkd & Hpd). split.
  - exists b. split_and!; [by apply Hr | exact Hkb | exact Hpb].
  - exists d. split_and!; [done | exact (eq_trans Hkd Hko) | exact (eq_trans Hpd Hpo)].
Qed.

Lemma answer_cache_ok s ca c r s' ca' k :
  history s ⊆ history s' -> cache_ok (history s) ca -> thread_good (history s) (Vis c k) ->
  answer s ca c r s' ca' -> cache_ok (history s') ca'.
Proof.
  intros Hh Hca [(os & Hos & Hacc & _) _] Ha. apply (cache_mono _ _ Hh).
  destruct Ha as [|v|p w| |]; try done.
  - by eapply cache_keeps_add.
  - intros p' w' v. rewrite Cached.abs_RemoveVersion. intros [_ Hv]%lookup_delete_Some. by apply Hca.
Qed.

(** What the answers of the server tell. *)
Definition serve_shape (s : server) (c : Call) : Resp c -> server -> Prop :=
  match c as c return Resp c -> server -> Prop with
  | CGetAddon nn => fun r _ => forall a, r = Ok a -> a ∈ history s /\ addon_key a = nn
  | CStatusUpdate o => fun r s' => r = None ->
      exists cur rv, objs s !! addon_key o = Some cur /\ s' = commit (status_revision cur o rv) s
  | CUpdate o => fun r _ => forall a, r = Ok a ->
      exists cur rv, objs s !! addon_key o = Some cur /\ a = update_revision cur o rv
  | _ => fun _ _ => True
  end.

Lemma serve_inv s c r s' : serve s c r s' -> serve_shape s c r s'.
Proof.
  intros []; cbn; try done; try (by intros; simplify_eq).
  - intros _. eauto.
  - intros a Hr. exists cur, rv. auto.
  - intros b Hb. match goal with Ha : forall a, _ -> exists rv, _ |- _ =>
      destruct (Ha b Hb) as [rv ->] end. eauto.
  - match goal with |- serve_shape _ ?c' _ _ => by destruct c' end.
Qed.

Lemma update_answer s o r s' a :
  server_ok s -> serve s (CUpdate o) r s' -> r = Ok a -> addon_key a = addon_key o /\ Spec a = Spec o.
Proof.
  intros [_ Hobj] Hs%serve_inv (cur & rv & Hcur & ->)%Hs. split; [|done].
  by destruct (Hobj _ _ Hcur) as [<- _].
Qed.

Lemma seen_step s c r s' os :
  server_ok s -> serve s c r s' -> seen_ok (history s) os -> accounted os c ->
  seen_ok (history s') (see os c r).
Proof.
  intros Hok Hs Hos _. pose proof (seen_mono _ _ (serve_history _ _ _ _ Hs) os Hos) as Hos'.
  destruct os as [sn|]; [|done]. destruct c; try done; cbn [see].
  - destruct r as [a|e]; [|done].
    destruct (serve_inv _ _ _ _ Hs a eq_refl) as [Ha Hk].
    rewrite decide_True by done. destruct Hos' as [Hr Hw]. split; [|done].
    intros x [->|Hx]%elem_of_cons; [by eapply serve_history | by apply Hr].
  - destruct r as [e|]; [done|]. destruct Hos' as [Hr Hw]. split; [done|].
    intros x [->|Hx]%elem_of_cons; [|by apply Hw].
    destruct (serve_inv _ _ _ _ Hs eq_refl) as (cur & rv & Hcur & ->).
    exists (status_revision cur a rv). cbn [history commit]. split; [by left|].
    split; [|done]. by destruct (proj2 Hok _ _ Hcur) as [<- _].
  - destruct r as [x|e]; [|done].
    destruct (update_answer _ _ _ _ _ Hok Hs eq_refl) as [Hk Hsp].
    rewrite decide_True; [done|]. split; [done|]. unfold GetPackageSpec. by rewrite Hsp.
Qed.

(** What reading the cache gives. *)
Definition answer_shape (ca : Cached.cached) (c : Call) : Resp c -> Prop :=
  match c as c return Resp c -> Prop with CReadCache => fun r => r = ca | _ => fun _ => True end.

Lemma answer_inv s ca c r s' ca' : answer s ca c r s' ca' -> answer_shape ca c r.
Proof.
  intros []; try done. match goal with |- answer_shape _ ?c' _ => by destruct c' end.
Qed.

Lemma knows_step s ca c r s' ca' t k :
  server_ok s -> cache_ok (history s) ca -> answer s ca c r s' ca' ->
  knows (history s) k -> allowed t k c -> knows (history s') (learn k c r).
Proof.
  intros Hok Hca Ha Hk Hall. pose proof (answer_serve _ _ _ _ _ _ Ha) as Hs.
  pose proof (knows_mono _ _ (serve_history _ _ _ _ Hs) k Hk) as Hk'.
  pose proof Hk' as [Hr Hc]. destruct c; try done; cbn [learn].
  - destruct (k_read k) as [read|] eqn:Hread; [done|]. destruct r as [a|e]; [|done].
    cbn [ok_or]. split; [|done]. cbn. intros read [= <-].
    destruct (serve_inv _ _ _ _ Hs a eq_refl) as [Hin _].
    split; [by eapply serve_history | by exists a].
  - destruct r as [b|e]; [|done]. cbn [ok_or]. split; [|done]. cbn. intros read Hread.
    destruct (update_answer _ _ _ _ _ Hok Hs eq_refl) as [Hka Hsa].
    destruct Hall as (read' & Hread' & Hko & Hso & _). rewrite Hread in Hread'. injection Hread' as <-.
    split; [by apply Hr|]. exists b. split_and!; [done|congruence..].
  - by destruct r.
  - by destruct r.
  - by destruct r.
  - split; [done|]. cbn. intros ca0 [= <-]. rewrite (answer_inv _ _ _ _ _ _ Ha).
    by eapply cache_mono, Hca; eapply serve_history.
Qed.

Lemma thread_good_step s ca c r s' ca' k :
  server_ok s -> cache_ok (history s) ca -> answer s ca c r s' ca' ->
  thread_good (history s) (Vis c k) -> thread_good (history s') (k r).
Proof.
  intros Hok Hca Ha [(os & Hos & Hacc & Hp) Hc].
  pose proof (answer_serve _ _ _ _ _ _ Ha) as Hs. split.
  - exists (see os c r). split; [by eapply seen_step | apply Hp].
  - destruct Hc as [(t & kn & Hk & Hall & Hw)|[_ Hw]]; [left | right; apply Hw].
    exists t, (learn kn c r). split; [by eapply knows_step | apply Hw].
Qed.

Lemma Reconcile_good hist t req : thread_good hist (Reconcile t req).
Proof.
  split.
  - exists (Some (mkSeen [] [])). split; [by split; intros ? ?%elem_of_nil | apply Reconcile_swp].
  - left. exists t, k_init. split; [done | apply Reconcile_kwp].
Qed.

Lemma WorkflowReconcile_submits_none req :
  calls_all (fun c => submits c = false) (WorkflowReconcile go_syntax req).
Proof.
  assert (forall c, submits c = false -> calls_all (fun c => submits c = false) (call c)) as Hcall
    by (intros c; apply (calls_all_call (fun c => submits c = false))).
  apply wp_recover. apply calls_all_bind; [by apply Hcall|]. intros [wf|e]; [|by destruct (IsNotFound _)].
  destruct (bool_decide _); [done|]. destruct (phase_empty _); [done|].
  destruct (wf_Controller wf) as [[kind n]|]; [|done]. destruct (_ != _); [done|].
  apply calls_all_bind; [|by intros [e|]].
  apply calls_all_bind; [by apply Hcall|]. intros [a|e]; [|done].
  destruct (phase_Completed _); [done|].
  destruct (ExtractChecksumAndLifecycleStep _) as [[ck step]|e]; [|done].
  destruct (_ != _); [done|]. destruct (_ != _); [done|]. cbv zeta. destruct (_ == _); [done|].
  destruct (SetStatusByLifecyleStep _ _ _ a) as [b [e|]]; [done|].
  by apply UpdateStatus_calls; [intros []|].
Qed.

Lemma WorkflowReconcile_good hist req : thread_good hist (WorkflowReconcile go_syntax req).
Proof.
  split; [|right; apply WorkflowReconcile_submits_none].
  exists (Some (mkSeen [] [])).
  split; [by split; intros ? ?%elem_of_nil | apply WorkflowReconcile_swp].
Qed.

(** ** Reachable states *)

Definition cluster_good (C : cluster) : Prop :=
  cache_ok (history (cl_srv C)) (cl_cache C) /\
  Forall (thread_good (history (cl_srv C))) (cl_threads C).

Lemma empty_cache_ok hist : cache_ok hist Cached.NewAddonVersionCacheClient.
Proof. intros p w v. by rewrite Cached.lookup_abs. Qed.

Lemma cluster_step_good C C' :
  server_ok (cl_srv C) -> cluster_good C -> cluster_step C C' -> cluster_good C'.
Proof.
  intros Hok [Hca Hts] Hstep.
  destruct Hstep as [s s' ca ts Hu|s ca ts t req|s ca ts req|s ca ts1 ts2 c k r s' ca' Ha
    |s ca ts1 ts2 p|s ca ts]; cbn [cl_srv cl_cache cl_threads] in *;
    split; cbn [cl_srv cl_cache cl_threads]; try done.
  - by eapply cache_mono, Hca; eapply user_history.
  - eapply Forall_impl; [exact Hts|]. intros p. by apply thread_good_mono, user_history.
  - constructor; [apply Reconcile_good | done].
  - constructor; [apply WorkflowReconcile_good | done].
  - apply Forall_app in Hts as [_ [Hp _]%Forall_cons].
    by eapply answer_cache_ok; [eapply serve_history, answer_serve | | |].
  - apply Forall_app in Hts as [H1p [Hp H2p]%Forall_cons].
    pose proof (serve_history _ _ _ _ (answer_serve _ _ _ _ _ _ Ha)) as Hh.
    apply Forall_app. split; [|constructor];
      [eapply Forall_impl; [exact H1p|] | by eapply thread_good_step
      |eapply Forall_impl; [exact H2p|]]; intros p; by apply thread_good_mono.
  - apply Forall_app in Hts as [H1p [_ H2p]%Forall_cons]. by apply Forall_app.
Qed.

Lemma reachable_good C : rtc cluster_step empty_cluster C -> cluster_good C.
Proof.
  revert C. apply rtc_ind_r; [split; [apply empty_cache_ok | constructor]|].
  intros C1 C2 Hr Hs Hgood. apply (cluster_step_good C1); [|done..].
  exact (proj1 (reachable_ok go_syntax _ (cluster_sys _ _ Hr))).
Qed.

(** ** Dependencies *)

(** An addon of the history provides what a dependency asks for: at some
    time its spec had the package in a version that satisfies it, and at some
    time its installation had succeeded. *)
Definition provided (hist : list Addon) (k w : string) : Prop :=
  exists a b, a ∈ hist /\ b ∈ hist /\ addon_key a = addon_key b /\
    PkgName (Spec_Package (Spec a)) = TrimSpace k /\
    (TrimSpace w = "*" \/ PkgVersion (Spec_Package (Spec a)) = TrimSpace w \/
     satisfies (TrimSpace w) (PkgVersion (Spec_Package (Spec a))) = true) /\
    GetInstallStatus b = Succeeded.

Lemma entry_provided hist v k w :
  entry_ok hist v -> PkgPhase v = Succeeded -> V_PkgName v = TrimSpace k ->
  TrimSpace w = "*" \/ V_PkgVersion v = TrimSpace w \/ satisfies (TrimSpace w) (V_PkgVersion v) = true ->
  provided hist k w.
Proof.
  intros [(a & Ha & Hka & Hpa) (b & Hb & Hkb & Hpb)] Hs Hk Hw. exists a, b.
  rewrite <-Hpa in Hk, Hw. split_and!; try done; [by rewrite Hka, Hkb | by rewrite Hpb].
Qed.

Lemma installed_provided hist ca k w :
  cache_ok hist ca -> dep_installed ca k w -> provided hist k w.
Proof.
  intros Hca. unfold dep_installed. case_decide as Hstar.
  - intros (w' & v & Hv & Hs). destruct (Hca _ _ _ Hv) as (Hk & _ & Hok).
    eapply entry_provided; [done..|]. by left.
  - intros (v & (w' & Hv & Hw) & Hs). destruct (Hca _ _ _ Hv) as (Hk & -> & Hok).
    by eapply entry_provided; [..|right].
Qed.

Definition may_start (hist : list Addon) (read : Addon) (step : LifecycleStep) : Prop :=
  (step = Delete /\ being_deleted read) \/
  ((step = Prereqs \/ step = Install) /\ DeletionTimestamp (Meta read) = None /\
    (size (deps_of read) <= 1 \/ (forall k w, deps_of read !! k = Some w -> TrimSpace w = "*") ->
     forall k w, deps_of read !! k = Some w -> provided hist k w)).

Lemma validated_provided hist t k read kk w :
  knows hist k -> validated t k read ->
  size (deps_of read) <= 1 \/ (forall k w, deps_of read !! k = Some w -> TrimSpace w = "*") ->
  deps_of read !! kk = Some w -> provided hist kk w.
Proof.
  intros [_ Hc] (ca & e & Hca & Hv) Hdeps Hkw.
  destruct (Validate_addon_shape _ _ _ _ Hv) as [[_ ->]|[? _]]; [|done].
  apply Validate_addon_ok in Hv as (_ & _ & _ & _ & _ & Hd).
  eapply installed_provided; [by apply Hc|].
  exact (ValidateDependencies_sound (3 :: 0 :: t) (NewAddonValidator (processed read) ca)
    Hdeps Hd kk w Hkw).
Qed.
End cluster.

(** ** Properties *)

(** C2: however the reconciles of both controllers interleave with each
    other, with users and with restarts of the manager, with stale reads and
    lost responses, a thread that submits a workflow submits one of an addon
    that the API server has stored: the delete workflow of an addon that is
    being deleted, or else the prereqs or install workflow of an addon that
    is not, and then all its dependencies are provided, each by some addon
    whose spec had the package in a version that satisfies the constraint and
    whose installation had succeeded; provided that the addon has a single
    dependency or that all of them ask for any version. *)
Theorem workflows_wait_for_dependencies
    `{GoRange, Semver, Yaml, UnstructuredReader, RetryOnConflict, AddonLifecycleLaws, Selectors,
      ControllerUtil} (go_syntax : error -> string) (C : cluster) (ts1 ts2 : list thread)
    (ns : string) (owner : NamespacedName) (wf : object) (k : option error -> thread) :
  rtc (cluster_step go_syntax) empty_cluster C ->
  cl_threads C = ts1 ++ Vis (CCreateWorkflow ns owner wf) k :: ts2 ->
  exists read step, read ∈ history (cl_srv C) /\ owner = addon_key read /\
    ns = addon_Namespace read /\ un_GetName wf = GetFormattedWorkflowName read step /\
    may_start (history (cl_srv C)) read step.
Proof.
  intros [_ Hts]%reachable_good Heq. rewrite Heq in Hts.
  apply Forall_app in Hts as [_ [[_ Hp] _]%Forall_cons].
  destruct Hp as [(t & kn & Hk & Hall & _)|[Hno _]]; [|done].
  destruct Hall as (read & a & step & Hread & Hinst & -> & -> & Hn & Hrun).
  destruct (proj1 Hk read Hread) as (Hin & a' & Hinst' & Hkey & Hspec).
  rewrite Hinst in Hinst'. injection Hinst' as <-. exists read, step. injection Hkey as Hns Hname.
  split_and!; [done| |done| |].
  - unfold addon_key. by rewrite Hns, Hname.
  - rewrite Hn. by apply GetFormattedWorkflowName_same.
  - destruct Hrun as [Hdel|[(Hd & _ & _ & _ & Hval & _) Hstep]]; [by left | right].
    split; [destruct Hstep as [[-> _]|[-> _]]; auto|]. split; [done|].
    intros Hdeps kk w. by eapply validated_provided.
Qed.

(** ** A run: a provider is installed, then an addon that depends on it *)

Definition cluster_handler (w : server * Cached.cached) (c : Call)
    : (server * Cached.cached) * Resp c :=
  match c as c return (server * Cached.cached) * Resp c with
  | CReadCache => (w, w.2)
  | CAddVersion v => ((w.1, Cached.AddVersion v w.2), tt)
  | CRemoveVersion p x => ((w.1, Cached.RemoveVersion p x w.2), tt)
  | CHasVersionName n => (w, @Cached.HasVersionName range_fwd [] w.2 n)
  | c => let '(s, r) := api_handler w.1 c in ((s, w.2), r)
  end.

Section sample_cluster.
#[local] Existing Instances range_fwd star_semver sample_yaml sample_reader default_retry
  tree_object sample_lifecycle sample_lifecycle_laws sample_selectors sample_util.

Abbreviation sample_cluster_step := (cluster_step (fun e => Error e)).

Lemma cluster_answer w c :
  answer w.1 w.2 c (cluster_handler w c).2 (cluster_handler w c).1.1 (cluster_handler w c).1.2.
Proof.
  destruct c; cbn [cluster_handler fst snd];
    try (match goal with |- context [api_handler ?s ?c] =>
      pose proof (api_serve s c) as Hs; destruct (api_handler s c) as [s' r] end;
      by apply answer_api); constructor.
Qed.

(** [n] calls of a thread. *)
Fixpoint calls (n : nat) (w : server * Cached.cached) (p : thread) : cluster :=
  match n, p with
  | S n', Vis c k => let '(w, r) := cluster_handler w c in calls n' w (k r)
  | _, _ => mkCluster w.1 w.2 [p]
  end.

Lemma calls_run n w p : rtc sample_cluster_step (mkCluster w.1 w.2 [p]) (calls n w p).
Proof.
  revert w p. induction n as [|n IH]; intros w p; [done|]. destruct p as [a|m|c k]; [done..|].
  cbn [calls]. pose proof (cluster_answer w c) as Ha. destruct (cluster_handler w c) as [w' r].
  eapply rtc_l; [exact (cluster_call _ w.1 w.2 [] [] c k r w'.1 w'.2 Ha) | apply IH].
Qed.

Definition reconcile_calls (n : nat) (nn : NamespacedName) (C : cluster) : cluster :=
  calls n (cl_srv C, cl_cache C) (sample_Reconcile [] nn).

Lemma reconcile_calls_run n nn C :
  cl_threads C = [] -> rtc sample_cluster_step C (reconcile_calls n nn C).
Proof.
  destruct C as [s ca ts]. cbn. intros ->.
  eapply rtc_l; [apply (cluster_addon _ s ca [] [] nn) | apply (calls_run n (s, ca))].
Qed.

(** The thread is done, or forgotten. *)
Definition ended (C : cluster) : cluster := mkCluster (cl_srv C) (cl_cache C) [].

Lemma ended_run n nn C :
  cl_threads C = [] -> rtc sample_cluster_step C (ended (reconcile_calls n nn C)).
Proof.
  intros Hts. etrans; [by apply reconcile_calls_run|].
  assert (exists s ca p, reconcile_calls n nn C = mkCluster s ca [p]) as (s & ca & p & ->).
  { unfold reconcile_calls. generalize (cl_srv C, cl_cache C), (sample_Reconcile [] nn).
    induction n as [|n IH]; intros w p; [by destruct p; eauto|].
    destruct p as [a|m|c k]; [by eauto..|]. cbn [calls].
    destruct (cluster_handler w c) as [w' r]. apply IH. }
  apply rtc_once, (cluster_stop _ s ca [] []).
Qed.

Definition create (a : Addon) (rv : string) (C : cluster) : cluster :=
  mkCluster (commit (mkAddon (set_ResourceVersion rv (Meta a)) (Spec a) zero_AddonStatus) (cl_srv C))
    (cl_cache C) [].

Lemma create_run a rv C :
  cl_threads C = [] -> objs (cl_srv C) !! addon_key a = None ->
  rv ∉ (fun a => rv_of a) <$> history (cl_srv C) ->
  rtc sample_cluster_step C (create a rv C).
Proof.
  destruct C as [s ca ts]. cbn. intros -> Hn Hrv. by apply rtc_once, cluster_user, user_create.
Qed.

Definition provider : Addon :=
  mkAddon (mkObjectMeta "a" "addon-manager-system" "1" None [] ∅)
    (mkAddonSpec (mkPackageSpec "" "core/A" "v1" CompositePkg "" ∅) (Params (Spec fresh_addon))
      (Selector (Spec fresh_addon)) (Overrides (Spec fresh_addon)) []
      (Lifecycle (Spec fresh_addon)))
    zero_AddonStatus.

Definition dependent : Addon := sample_dependent {["core/A" := "v1"]}.

Definition with_provider : cluster := create provider "r0" empty_cluster.
Definition provider_pending : cluster := ended (reconcile_calls 30 (addon_key provider) with_provider).
Definition provider_installed : cluster :=
  ended (reconcile_calls 30 (addon_key provider) provider_pending).
Definition with_dependent : cluster := create dependent "r1" provider_installed.
Definition dependent_pending : cluster :=
  ended (reconcile_calls 30 (addon_key dependent) with_dependent).
Definition at_submission : cluster := reconcile_calls 6 (addon_key dependent) dependent_pending.

Lemma provider_reached : rtc sample_cluster_step empty_cluster provider_installed.
Proof.
  etrans; [apply (create_run provider "r0"); [done..|by apply not_elem_of_nil]|].
  etrans; [by apply (ended_run 30 (addon_key provider))|].
  by apply ended_run.
Qed.

Lemma submission_reached : rtc sample_cluster_step empty_cluster at_submission.
Proof.
  etrans; [exact provider_reached|].
  etrans; [apply (create_run dependent "r1"); [done|vm_compute; reflexivity|]|].
  { apply (bool_decide_unpack _). vm_compute. exact I. }
  etrans; [by apply (ended_run 30 (addon_key dependent))|].
  by apply reconcile_calls_run.
Qed.

(** The workflow at whose submission the only thread is. *)
Definition submission (ts : list thread) : option (string * NamespacedName * object) :=
  match ts with [Vis (CCreateWorkflow ns owner wf) _] => Some (ns, owner, wf) | _ => None end.

Lemma submission_Some ts ns owner wf :
  submission ts = Some (ns, owner, wf) -> exists k, ts = [] ++ Vis (CCreateWorkflow ns owner wf) k :: [].
Proof. destruct ts as [|[| |[] k] []]; try done. intros [= <- <- <-]. by exists k. Qed.

Definition submitted : object :=
  match submission (cl_threads at_submission) with Some (_, _, wf) => wf | None => [] end.

(** The dependent's revisions ask for [core/A] and are not being deleted. *)
Definition asks (a : Addon) : bool :=
  (addon_key a != addon_key dependent) ||
  (bool_decide (deps_of a = {["core/A" := "v1"]}) && bool_decide (DeletionTimestamp (Meta a) = None)).

Lemma history_asks : Forall (fun a => asks a = true) (history (cl_srv at_submission)).
Proof. apply (bool_decide_unpack _). vm_compute. exact I. Qed.

Lemma submitted_now :
  submission (cl_threads at_submission) =
    Some ("addon-manager-system", addon_key dependent, submitted).
Proof. vm_compute. reflexivity. Qed.

Lemma workflows_wait_for_dependencies_witness :
  un_GetName submitted = GetFormattedWorkflowName dependent Install /\
  provided (history (cl_srv at_submission)) "core/A" "v1".
Proof.
  split; [vm_compute; reflexivity|].
  destruct (submission_Some _ _ _ _ submitted_now) as [k Hk].
  destruct (workflows_wait_for_dependencies (fun e => Error e) at_submission [] []
    "addon-manager-system" (addon_key dependent) submitted k submission_reached Hk)
    as (read & step & Hin & Hkey & _ & _ & Hstart).
  pose proof (proj1 (Forall_forall _ _) history_asks read Hin) as Ha.
  unfold asks in Ha. rewrite Hkey, bool_decide_true in Ha by done.
  apply andb_true_iff in Ha as [Hd%bool_decide_eq_true Hdel%bool_decide_eq_true].
  destruct Hstart as [(_ & [[d Hd'] _])|(_ & _ & Hprov)]; [by rewrite Hdel in Hd'|].
  apply Hprov; rewrite Hd; [left; by rewrite map_size_singleton | apply lookup_singleton_eq].
Defined.

(** An addon with the package version of the installed provider. *)
Definition duplicate : Addon :=
  mkAddon (mkObjectMeta "b" "addon-manager-system" "1" None [] ∅) (Spec provider) zero_AddonStatus.

Definition with_duplicate : cluster := create duplicate "r1" provider_installed.
Definition duplicate_pending : cluster :=
  ended (reconcile_calls 30 (addon_key duplicate) with_duplicate).
Definition duplicate_installed : cluster :=
  ended (reconcile_calls 30 (addon_key duplicate) duplicate_pending).

(** Validation does not keep an addon from being installed next to another
    one of the same package version: the first reconcile of the second addon
    replaces the first one's entry in the cache, so that the second
    reconcile, which validates, finds no duplicate. *)
Theorem duplicates_get_installed :
  exists C a b, rtc sample_cluster_step empty_cluster C /\
    objs (cl_srv C) !! addon_key a = Some a /\ objs (cl_srv C) !! addon_key b = Some b /\
    addon_key a <> addon_key b /\ GetPackageSpec a = GetPackageSpec b /\
    GetInstallStatus a = Succeeded /\ GetInstallStatus b = Succeeded.
Proof.
  exists duplicate_installed,
    (default provider (objs (cl_srv duplicate_installed) !! addon_key provider)),
    (default duplicate (objs (cl_srv duplicate_installed) !! addon_key duplicate)).
  split; [|split_and!; [vm_compute; reflexivity..|by vm_compute| | |]; vm_compute; reflexivity].
  etrans; [exact provider_reached|].
  etrans; [apply (create_run duplicate "r1"); [done|vm_compute; reflexivity|]|].
  { apply (bool_decide_unpack _). vm_compute. exact I. }
  etrans; [by apply (ended_run 30 (addon_key duplicate))|].
  by apply ended_run.
Qed.
End sample_cluster.
