(* ===== verification/Typing.v ===== *)
(** Well-formed statuses: which phases a status may record for the
    prerequisites and for the installation, and with which of them a reason
    goes.  The phases are strings ([ApplicationAssemblyPhase]), so nothing in
    the types keeps a deletion phase out of the prerequisites' field. *)
From S2P Require Import Prelude GoStrings GoFmt AddonTypes Common VersionCache Unstructured.
From S2P Require Import TreeObject Validator Effects Updater Workflow Objects Controller.
From S2P Require Import WorkflowController Samples System.

(** ** The type *)

Definition prereqs_phases : list string := [""; Pending; Succeeded; Failed].

Definition install_phases : list string :=
  [""; Pending; Succeeded; Failed; ValidationFailed; Deleting; DeleteFailed; DeleteSucceeded].

Definition reason_phases : list string := [Pending; ValidationFailed; DeleteFailed; Failed].

Definition status_wf (st : AddonStatus) : Prop :=
  Prereqs_Phase (Status_Lifecycle st) ∈ prereqs_phases /\
  Installed_Phase (Status_Lifecycle st) ∈ install_phases /\
  (Reason st <> "" -> Installed_Phase (Status_Lifecycle st) ∈ reason_phases).

#[global] Instance status_wf_decision st : Decision (status_wf st).
Proof. unfold status_wf. apply _. Defined.

Abbreviation wf_addon a := (status_wf (Status a)).

(** The phases of a status, without the reason. *)
Definition phases_wf (a : Addon) : Prop :=
  GetPrereqStatus a ∈ prereqs_phases /\ GetInstallStatus a ∈ install_phases.

Lemma wf_phases a : wf_addon a -> phases_wf a.
Proof. by intros (? & ? & _). Qed.

Ltac phase_member := apply (bool_decide_unpack _); reflexivity.

(** ** The methods *)

Lemma SetInstallStatus_wf p rs a :
  p ∈ install_phases -> phases_wf a -> wf_addon (SetInstallStatus p rs a).
Proof.
  intros Hp [Hpre _]. pose proof (SetInstallStatus_reason_ok p rs a) as Hr.
  pose proof (GetInstallStatus_SetInstallStatus p rs a) as Hi.
  unfold reason_ok in Hr. unfold GetInstallStatus in *. rewrite Hi in Hr.
  assert (Prereqs_Phase (Status_Lifecycle (Status (SetInstallStatus p rs a))) = GetPrereqStatus a)
    as Hq by (unfold SetInstallStatus; by case_match).
  unfold status_wf. rewrite Hi, Hq. split_and!; [done..|]. exact Hr.
Qed.

Lemma phases_wf_set_Prereqs p a :
  p ∈ prereqs_phases -> phases_wf a -> phases_wf (set_Status (set_Prereqs p) a).
Proof. by intros Hp [_ Hi]. Qed.

Lemma SetPrereqAndInstallStatuses_wf p rs a :
  wf_addon a -> wf_addon (SetPrereqAndInstallStatuses p rs a).1.
Proof.
  intros Ha. pose proof (wf_phases a Ha) as Hph. unfold SetPrereqAndInstallStatuses.
  repeat case_bool_decide; cbn [fst];
    try (apply SetInstallStatus_wf; [phase_member | apply phases_wf_set_Prereqs; [phase_member | done]]).
  destruct Ha as (_ & Hi & Hr). split_and!; [phase_member | exact Hi | exact Hr].
Qed.

Lemma SetStatusByLifecyleStep_wf step p rs a :
  p ∈ install_phases -> wf_addon a -> wf_addon (SetStatusByLifecyleStep step p rs a).1.
Proof.
  intros Hp Ha. pose proof (wf_phases a Ha) as Hph. unfold SetStatusByLifecyleStep.
  repeat case_bool_decide; cbn [fst];
    first [by apply SetPrereqAndInstallStatuses_wf | done
          | apply SetInstallStatus_wf; [first [done | phase_member] | done]].
Qed.

Lemma Convert_phases step ph : ConvertWorkflowPhaseToAddonPhase step ph ∈ install_phases.
Proof.
  unfold ConvertWorkflowPhaseToAddonPhase. destruct ph; try case_bool_decide; phase_member.
Qed.

Lemma ClearStatus_wf a : wf_addon (ClearStatus a).
Proof. split_and!; [phase_member | phase_member |]. by intros []. Qed.

(** Changes of a status that leave phases and reason alone. *)
Definition same_phases (a b : Addon) : Prop :=
  Status_Lifecycle (Status a) = Status_Lifecycle (Status b) /\
  Reason (Status a) = Reason (Status b).

Lemma same_phases_wf a b : same_phases a b -> wf_addon a -> wf_addon b.
Proof. unfold status_wf. by intros [-> ->]. Qed.

#[local] Hint Resolve wf_phases SetPrereqAndInstallStatuses_wf SetStatusByLifecyleStep_wf
  Convert_phases ClearStatus_wf : addon.
#[local] Hint Extern 2 (_ ∈ install_phases) => phase_member : addon.
#[local] Hint Extern 3 (wf_addon (SetInstallStatus _ _ _)) => apply SetInstallStatus_wf : addon.

(** ** Programs

    The ghost state: every addon received so far has a well-formed status.
    Then so must every status that is written. *)
Definition ok_wf (r : result Addon) : bool := match r with Ok a => bool_decide (wf_addon a) | Err _ => true end.

Definition typed_pre (g : bool) (c : Call) : Prop :=
  match c with CStatusUpdate o => g = true -> wf_addon o | _ => True end.

Definition typed_upd (g : bool) (c : Call) : Resp c -> bool :=
  match c as c return Resp c -> bool with
  | CGetAddon _ => fun r => g && ok_wf r
  | CUpdate _ => fun r => g && ok_wf r
  | _ => fun _ => g
  end.

(** [twp p Q]: [p] writes well-formed statuses as long as it receives them,
    and then its outcome satisfies [Q]. *)
Definition twp {A : Type} (p : Prog A) (Q : outcome A -> Prop) : Prop :=
  wp typed_pre typed_upd true p (fun g o => g = true -> Q o).

Lemma typed_false {A} (p : Prog A) : wp typed_pre typed_upd false p (fun g _ => g = false).
Proof.
  induction p as [a|m|c k IH]; [done..|]. split; [by destruct c|]. intros r.
  destruct c; apply IH.
Qed.

(** Once something ill-formed was received there is nothing to show. *)
Lemma twp_any {A} g (p : Prog A) Q :
  (g = true -> twp p Q) -> wp typed_pre typed_upd g p (fun g o => g = true -> Q o).
Proof.
  destruct g; [intros Hp; by apply Hp|]. intros _. eapply wp_mono; [apply typed_false|]. by intros g o ->.
Qed.

Lemma twp_ret {A} (a : A) (Q : outcome A -> Prop) : Q (Val a) -> twp (mret a) Q.
Proof. by intros ? _. Qed.

Lemma twp_bind {A B} (p : Prog A) (f : A -> Prog B) (R : outcome A -> Prop) (Q : outcome B -> Prop) :
  twp p R -> (forall a, R (Val a) -> twp (f a) Q) -> (forall m, Q (Panicked m)) ->
  twp (p ≫= f) Q.
Proof.
  intros Hp Hf Hm. apply wp_bind. eapply wp_mono; [exact Hp|]. intros g [a|m] Hg; [|by auto].
  apply twp_any. auto.
Qed.

Lemma twp_recover {A} (z : A) (p : Prog A) : twp p (fun _ => True) -> twp (recover z p) (fun _ => True).
Proof. intros Hp. apply wp_recover. eapply wp_mono; [exact Hp | done]. Qed.

(** Programs that write no status need only the bound on what they return. *)
Lemma typed_quiet {A} g (p : Prog A) Q :
  quiet p -> returns p Q -> wp typed_pre typed_upd g p (fun g o => g = true -> Q o).
Proof.
  unfold returns, quiet, calls_all. revert g. induction p as [a|m|c k IH]; intros g;
    [cbn; auto..|].
  intros [Hc Hk] [_ HQ]. split; [by destruct c|]. intros r. exact (IH r _ (Hk r) (HQ r)).
Qed.

Lemma twp_quiet {A} (p : Prog A) Q : quiet p -> returns p Q -> twp p Q.
Proof. apply typed_quiet. Qed.

Lemma returns_True {A} (p : Prog A) : returns p (fun _ => True).
Proof. induction p as [a|m|c k IH]; [done..|]. by split. Qed.

Lemma twp_call_bind {B} c (f : Resp c -> Prog B) Q :
  quiet (call c) -> (forall r, twp (f r) Q) -> (forall m, Q (Panicked m)) -> twp (call c ≫= f) Q.
Proof.
  intros Hc Hf Hm. eapply twp_bind; [apply twp_quiet; [exact Hc | apply returns_True] | auto | done].
Qed.

(** An addon that was received. *)
Lemma twp_get_bind {B} nn (f : result Addon -> Prog B) Q :
  (forall r, ok_wf r = true -> twp (f r) Q) -> twp (call (CGetAddon nn) ≫= f) Q.
Proof.
  intros Hf. apply wp_call_bind; [done|]. intros r. apply twp_any. apply Hf.
Qed.

Lemma twp_update_bind {B} o (f : result Addon -> Prog B) Q :
  (forall r, ok_wf r = true -> twp (f r) Q) -> twp (call (CUpdate o) ≫= f) Q.
Proof.
  intros Hf. apply wp_call_bind; [done|]. intros r. apply twp_any. apply Hf.
Qed.

Lemma ok_wf_Ok a : ok_wf (Ok a) = true -> wf_addon a.
Proof. apply bool_decide_eq_true. Qed.

Lemma twp_quiet_bind {A B} (p : Prog A) (f : A -> Prog B) Q :
  quiet p -> (forall a, twp (f a) Q) -> (forall m, Q (Panicked m)) -> twp (p ≫= f) Q.
Proof.
  intros Hp Hf Hm. eapply twp_bind; [apply twp_quiet; [exact Hp | apply returns_True] | auto | done].
Qed.

(** The addon that a program returns. *)
Definition wf_result {X : Type} (o : outcome (Addon * X)) : Prop :=
  match o with Val (a, _) => wf_addon a | Panicked _ => True end.

(** Goes through the calls and cases of a program. *)
Ltac solve_twp :=
  cbv zeta;
  repeat match goal with
  | |- twp (call (CGetAddon _) ≫= _) _ => apply twp_get_bind; intros ? ?
  | |- twp (call (CUpdate _) ≫= _) _ => apply twp_update_bind; intros ? ?
  | |- twp (call _ ≫= _) _ => apply twp_call_bind; [solve [auto with addon] | intros ? | done]
  | |- twp (match ?x with _ => _ end) _ => destruct x eqn:?
  | |- twp (mret _) _ => apply twp_ret; cbn [wf_result]; try solve [auto with addon]
  end.

Section typing.
Context `{GoRange, Semver, Yaml, UnstructuredReader, RetryOnConflict}.
Context `{AddonLifecycleLaws, Selectors, ControllerUtil}.
Context (go_syntax : error -> string).
Implicit Types (a : Addon).

Lemma runWorkflow_wf t step a : wf_addon a -> twp (runWorkflow t step a) wf_result.
Proof.
  intros Ha. unfold runWorkflow. solve_twp.
  apply twp_quiet_bind; [apply wfl_Install_quiet | intros err | done]. solve_twp.
Qed.

Lemma validation_failed_wf a e : wf_addon a -> twp (validation_failed a e) wf_result.
Proof. intros Ha. unfold validation_failed. solve_twp. Qed.

Lemma observeResources_wf a : wf_addon a ->
  twp (observeResources a) (fun o => match o with Val (a', _, _) => wf_addon a' | _ => True end).
Proof.
  intros Ha. apply twp_quiet; [apply observeResources_quiet|]. unfold observeResources. cbv zeta.
  destruct (selector_error _); [apply returns_ret; by case_bool_decide|].
  repeat (apply returns_bind; [intros ?|done]).
  destruct (_ <? _)%nat; apply returns_ret; by case_bool_decide.
Qed.

Lemma observe_and_return_wf a : wf_addon a -> twp (observe_and_return a) wf_result.
Proof.
  intros Ha. unfold observe_and_return. eapply twp_bind; [by apply observeResources_wf| |done].
  intros [[a' l] e] Ha'. cbv beta iota in Ha'. solve_twp; destruct (_ <? _)%nat; done.
Qed.

Lemma executePrereqAndInstall_wf t a : wf_addon a -> twp (executePrereqAndInstall t a) wf_result.
Proof.
  intros Ha. unfold executePrereqAndInstall.
  eapply twp_bind; [by apply runWorkflow_wf| |done]. intros [a1 e1] H1wf. cbn in H1wf. solve_twp.
  apply twp_quiet_bind; [unfold validateSecrets; solve_quiet | intros err | done]. solve_twp.
  eapply twp_bind; [by apply runWorkflow_wf| |done]. intros [a2 e2] H2wf. cbn in H2wf. solve_twp.
Qed.

Lemma SetFinalizer_wf a f : wf_addon a -> twp (SetFinalizer a f) wf_result.
Proof. intros Ha. unfold SetFinalizer. solve_twp. by apply ok_wf_Ok. Qed.

Lemma processAddon_wf t a : wf_addon a -> twp (processAddon t a) wf_result.
Proof.
  intros Ha. unfold processAddon. destruct (validateChecksum a) as [changed ck]. cbv zeta.
  set (a1 := set_Status (set_Resources []) (set_Status (set_Checksum ck) a)).
  assert (wf_addon a1) as H1wf by exact Ha. clearbody a1. destruct changed.
  - apply twp_quiet_bind; [unfold deleteOldWorkflows; solve_quiet | intros err | done].
    { apply delete_workflows_quiet. }
    solve_twp.
  - destruct (phase_Completed _); [by apply twp_ret|].
    apply twp_call_bind; [auto with addon | intros cache | done].
    apply twp_quiet_bind; [auto with addon | intros [[|] e] | done]; [|by apply validation_failed_wf].
    apply twp_call_bind; [auto with addon | intros _ | done].
    eapply twp_bind; [by apply SetFinalizer_wf | | done]. intros [a2 e2] H2wf. cbn in H2wf.
    solve_twp; [by apply observe_and_return_wf|].
    eapply twp_bind; [by apply executePrereqAndInstall_wf | | done]. intros [a3 e3] H3wf.
    cbn in H3wf. solve_twp. by apply observe_and_return_wf.
Qed.

Lemma UpdateStatus_typed a : wf_addon a -> twp (UpdateStatus a) (fun _ => True).
Proof.
  intros Ha. unfold twp. eapply wp_mono; [|done].
  eapply (wp_allowed _ _ _ (fun c => updater_call c = true \/
    match c with CStatusUpdate o => Status o = Status a | _ => False end)).
  - intros g [] [?|Ho]; try done. intros _. by rewrite Ho.
  - apply UpdateStatus_calls; auto.
Qed.

Lemma execAddon_typed t a : wf_addon a -> twp (execAddon t a) (fun _ => True).
Proof.
  intros Ha. unfold execAddon. apply twp_recover. destruct (DeletionTimestamp _).
  - destruct (negb _).
    + eapply twp_bind; [apply UpdateStatus_typed; auto with addon | | done]. by intros e _.
    + apply twp_quiet_bind; [apply Finalize_quiet | intros [a1 e1] | done]. solve_twp.
  - eapply twp_bind; [by apply processAddon_wf | | done]. intros [a1 [ret e1]] H1wf.
    eapply twp_bind; [by apply UpdateStatus_typed | | done]. intros e _. solve_twp.
Qed.

Lemma Reconcile_typed t req : twp (Reconcile t req) (fun _ => True).
Proof.
  unfold Reconcile. apply twp_get_bind. intros [a|e] Ha; [by apply execAddon_typed, ok_wf_Ok|].
  apply twp_quiet_bind; [apply RemoveFromCache_quiet | done | done].
Qed.

Lemma WorkflowReconcile_typed req : twp (WorkflowReconcile go_syntax req) (fun _ => True).
Proof.
  unfold WorkflowReconcile. apply twp_recover. solve_twp.
  eapply (twp_bind _ _ (fun _ => True)); [|intros e _; solve_twp|done].
  unfold UpdateAddonStatusLifecycleFromWorkflow, getExistingAddon. solve_twp.
  match goal with Hset : SetStatusByLifecyleStep ?l ?p ?rs ?a = (?b, None) |- _ =>
    pose proof (SetStatusByLifecyleStep_wf l p rs a) as Hwf; rewrite Hset in Hwf end.
  apply UpdateStatus_typed, Hwf; [apply Convert_phases | by apply ok_wf_Ok].
Qed.
End typing.

(** ** The system *)
Section system.
Context `{GoRange, Semver, Yaml, UnstructuredReader, RetryOnConflict}.
Context `{AddonLifecycleLaws, Selectors, ControllerUtil}.
Context (go_syntax : error -> string).

Definition stored_wf (s : server) : Prop := Forall (fun a => wf_addon a) (history s).

Definition typed_config (c : config) : Prop :=
  stored_wf (srv c) /\ Forall (fun p => twp p (fun _ => True)) (threads c).

Lemma stored_wf_cur s nn cur :
  server_ok s -> stored_wf s -> objs s !! nn = Some cur -> wf_addon cur.
Proof. intros [_ Ho] Hs Hc. apply Ho in Hc as [_ Hin]. by eapply Forall_forall in Hs. Qed.

Lemma commit_wf a s : stored_wf s -> wf_addon a -> stored_wf (commit a s).
Proof. intros Hs Ha. by constructor. Qed.

(** A call of a typed thread keeps the store typed, and its answer is. *)
Lemma serve_wf s c r s' :
  server_ok s -> stored_wf s -> typed_pre true c -> serve s c r s' ->
  stored_wf s' /\ typed_upd true c r = true.
Proof.
  intros Hok Hs Hpre Hserve. destruct Hserve as [nn a Ha _| |o cur rv r Hcur _ _| |
    o cur rv r Hcur _ _ Hr|o cur r Hcur _ Hr| |c r Hc]; try done.
  - split; [done|]. apply bool_decide_eq_true. by eapply Forall_forall in Hs.
  - split; [|done]. apply commit_wf; [done|]. by apply Hpre.
  - assert (wf_addon cur) as Hwf by (by eapply stored_wf_cur).
    split; [by apply commit_wf|]. destruct r as [a|e]; [|done].
    apply bool_decide_eq_true. by rewrite (Hr a eq_refl).
  - assert (wf_addon cur) as Hwf by (by eapply stored_wf_cur).
    split; [done|]. destruct r as [a|e]; [|done].
    apply bool_decide_eq_true. by destruct (Hr a eq_refl) as [rv ->].
  - split; [done|]. by destruct c.
Qed.

Lemma user_wf s s' : server_ok s -> stored_wf s -> user_step s s' -> stored_wf s'.
Proof.
  intros Hok Hs [a rv _ _|nn cur m sp rv Hcur _ _ _|nn]; [| |done]; apply commit_wf; try done.
  - apply (bool_decide_unpack _). reflexivity.
  - exact (stored_wf_cur _ _ _ Hok Hs Hcur).
Qed.

Lemma sys_step_typed c c' :
  config_ok c -> typed_config c -> sys_step go_syntax c c' -> typed_config c'.
Proof.
  intros [Hok _] [Hs Hts] Hstep.
  destruct Hstep as [s s' ts Hu|s ts t req|s ts req|s s' ts1 ts2 c k r Hc|s ts1 ts2 p];
    cbn [srv threads] in *; split; cbn [srv threads]; try done.
  - by eapply user_wf.
  - constructor; [apply Reconcile_typed | done].
  - constructor; [apply WorkflowReconcile_typed | done].
  - apply Forall_app in Hts as [_ [[Hpre _] _]%Forall_cons]. by eapply serve_wf.
  - apply Forall_app in Hts as [H1p [[Hpre Hk] H3p]%Forall_cons].
    destruct (serve_wf _ _ _ _ Hok Hs Hpre Hc) as [_ Hg].
    apply Forall_app. split; [done|]. constructor; [|done]. specialize (Hk r). by rewrite Hg in Hk.
  - apply Forall_app in Hts as [H1p [_ H3p]%Forall_cons]. by apply Forall_app.
Qed.

(** C15: Every status that the API server ever stores is well formed, however
    the reconciles of both controllers and the users interleave: the phase of
    the prerequisites is none, pending, succeeded or failed, never one of a
    deletion or of validation; the phase of the installation is a declared
    one; and a reason is present only with a phase that carries one. *)
Theorem stored_statuses_well_formed c a :
  rtc (sys_step go_syntax) (mkConfig no_objects []) c -> a ∈ history (srv c) ->
  GetPrereqStatus a ∈ prereqs_phases /\ GetInstallStatus a ∈ install_phases /\
  (Reason (Status a) <> "" -> GetInstallStatus a ∈ reason_phases).
Proof.
  intros Hr Ha. assert (typed_config c) as [Hs _]; [|by eapply Forall_forall in Hs].
  revert Hr. clear Ha a. apply (rtc_ind_r (fun c => typed_config c)); [by split; constructor|].
  intros c1 c2 Hr Hstep Hty. eapply sys_step_typed; [by eapply reachable_ok | done..].
Qed.
End system.

Lemma installed_reachable go_syntax :
  rtc (@sys_step range_fwd star_semver sample_yaml sample_reader default_retry sample_lifecycle
    sample_selectors sample_util go_syntax)
    (mkConfig no_objects []) (mkConfig installed_server []).
Proof.
  unfold installed_server. etrans; [|apply (session_end go_syntax 30)].
  unfold pending_server. etrans; [|apply (session_end go_syntax 30)].
  unfold created_server. eapply rtc_once, sys_user, (user_create no_objects fresh_addon "r0"); [done|].
  by apply not_elem_of_nil.
Qed.

Lemma stored_statuses_well_formed_witness :
  length (history installed_server) = 4 /\
  GetPrereqStatus (stored_addon installed_server) ∈ prereqs_phases.
Proof.
  split; [vm_compute; reflexivity|].
  refine (proj1 (@stored_statuses_well_formed range_fwd star_semver sample_yaml sample_reader
    default_retry tree_object sample_lifecycle sample_lifecycle_laws sample_selectors sample_util
    (fun e => Error e) (mkConfig installed_server []) (stored_addon installed_server) _ _)).
  - apply installed_reachable.
  - apply (bool_decide_unpack _). vm_compute. reflexivity.
Defined.
