(* ===== verification/StatusMutex.v ===== *)
(** The status mutexes of [pkg/addon/addon_update.go]: a map from addon names
    to mutex objects, and the controllers' threads that use them.

    [getStatusMutex] and [removeStatusWaitGroup] hold [statusMapMu] for their
    whole, non-blocking bodies, so each is one step.  Waiting for a mutex
    object, and the time between fetching the object and locking it, are not:
    the object may be dropped from the map while it is held or waited for. *)
From S2P Require Import Prelude GoStrings GoFmt AddonTypes Common VersionCache GoHeap Unstructured.
From S2P Require Import TreeObject Validator Effects Updater Workflow Objects Controller.
From S2P Require Import WorkflowController Samples.

(** ** The map and the mutexes *)

(** The mutex objects, with the thread that holds each. *)
Record status_mutexes := mkStatusMutexes {
  statusMap : gmap string loc;
  holders : list (option nat)
}.

Definition no_mutexes : status_mutexes := mkStatusMutexes ∅ [].

Definition getStatusMutex (addonName : string) : St status_mutexes loc :=
  c ← get_state;
  match statusMap c !! addonName with
  | Some m => mret m
  | None =>
      let m := length (holders c) in
      modify_state (fun c =>
        mkStatusMutexes (<[addonName := m]> (statusMap c)) (holders c ++ [None]));;
      mret m
  end.

Definition removeStatusWaitGroup (addonName : string) : St status_mutexes () :=
  modify_state (fun c => mkStatusMutexes (delete addonName (statusMap c)) (holders c)).

(** [m.Lock()] by thread [i]: [None] while the mutex is held. *)
Definition mutex_Lock (i : nat) (m : loc) (c : status_mutexes) : option status_mutexes :=
  match holders c !! m with
  | Some None => Some (mkStatusMutexes (statusMap c) (<[m := Some i]> (holders c)))
  | _ => None
  end.

(** [m.Unlock()]: [None] is the fatal error of unlocking a free mutex. *)
Definition mutex_Unlock (m : loc) (c : status_mutexes) : option status_mutexes :=
  match holders c !! m with
  | Some (Some _) => Some (mkStatusMutexes (statusMap c) (<[m := None]> (holders c)))
  | _ => None
  end.

(** ** Threads

    Where a thread is with respect to [UpdateStatus]: before it has fetched
    a mutex, waiting for the one it fetched, or between [Lock] and
    [Unlock].  The name is the one the mutex was fetched for. *)
Inductive stage :=
  | Outside
  | Waiting (n : string) (m : loc)
  | Inside (n : string) (m : loc).

Record mthread := mkThread {
  t_prog : Prog (Result * option error);
  t_stage : stage
}.

(** One step of thread [i], given the answers of the services.  [None]: the
    thread has ended, waits, or has failed fatally. *)
Definition thread_step (i : nat) (resp : forall c, Resp c) (s : status_mutexes) (t : mthread)
    : option (status_mutexes * mthread) :=
  match t_prog t with
  | Vis c k =>
      match c as c return (Resp c -> Prog (Result * option error)) -> _ with
      | CLockStatus n => fun k =>
          match t_stage t with
          | Outside =>
              match getStatusMutex n s with
              | Val (m, s') => Some (s', mkThread (Vis (CLockStatus n) k) (Waiting n m))
              | Panicked _ => None
              end
          | Waiting _ m => s' ← mutex_Lock i m s; Some (s', mkThread (k tt) (Inside n m))
          | Inside _ _ => None
          end
      | CUnlockStatus n => fun k =>
          match t_stage t with
          | Inside _ m => s' ← mutex_Unlock m s; Some (s', mkThread (k tt) Outside)
          | _ => None
          end
      | CDropStatusMutex n => fun k =>
          match removeStatusWaitGroup n s with
          | Val (_, s') => Some (s', mkThread (k tt) (t_stage t))
          | Panicked _ => None
          end
      | c => fun k => Some (s, mkThread (k (resp c)) (t_stage t))
      end k
  | _ => None
  end.

(** The name whose mutex the next step of a thread drops. *)
Definition drops (t : mthread) : option string :=
  match t_prog t with Vis (CDropStatusMutex n) _ => Some n | _ => None end.

(** The API answers a read with the object that was asked for. *)
Definition faithful (resp : forall c, Resp c) : Prop :=
  forall nn a, resp (CGetAddon nn) = Ok a -> addon_key a = nn.

Record mconfig := mkMconfig { mutexes : status_mutexes; mthreads : list mthread }.

(** ** How the programs lock

    The ghost state: the name whose mutex is held, and whether every read so
    far was answered with the object that was asked for. *)
Abbreviation lock_ghost := (option string * bool)%type.

Definition lock_pre (g : lock_ghost) (c : Call) : Prop :=
  match c with
  | CLockStatus _ => g.1 = None
  | CUnlockStatus n => g.1 = Some n
  | CStatusUpdate o => is_Some g.1 /\ (g.2 = true -> g.1 = Some (addon_Name o))
  | _ => True
  end.

Definition lock_upd (g : lock_ghost) (c : Call) : Resp c -> lock_ghost :=
  match c as c return Resp c -> lock_ghost with
  | CLockStatus n => fun _ => (Some n, g.2)
  | CUnlockStatus _ => fun _ => (None, g.2)
  | CGetAddon nn => fun r =>
      (g.1, g.2 && match r with Ok a => addon_key a == nn | Err _ => true end)
  | _ => fun _ => g
  end.

(** From holding [l], the program only writes statuses under the mutex of
    the addon's name, and holds no mutex when it ends. *)
Definition lock_wp {A : Type} (g : lock_ghost) (p : Prog A) : Prop :=
  wp lock_pre lock_upd g p (fun g _ => g.1 = None).

Definition disciplined {A : Type} (p : Prog A) : Prop := forall b, lock_wp (None, b) p.

Lemma lock_wp_stable {A} l b (p : Prog A) :
  quiet p -> wp lock_pre lock_upd (l, b) p (fun g _ => g.1 = l).
Proof.
  unfold quiet, calls_all. revert b. induction p as [a|m|c k IH]; intros b; [done..|].
  cbn [wp]. intros [Hc Hk]. split; [by destruct c|]. intros r.
  destruct c; try discriminate; apply IH, Hk.
Qed.

Lemma disciplined_quiet {A} (p : Prog A) : quiet p -> disciplined p.
Proof. intros Hp b. by apply (lock_wp_stable None). Qed.

Lemma disciplined_bind {A B} (p : Prog A) (f : A -> Prog B) :
  disciplined p -> (forall a, disciplined (f a)) -> disciplined (p ≫= f).
Proof.
  intros Hp Hf b. apply wp_bind. eapply wp_mono; [apply Hp|].
  intros [l b'] [a|m] Hl; cbn in Hl; subst; [apply Hf | done].
Qed.

Lemma disciplined_recover {A} (z : A) (p : Prog A) : disciplined p -> disciplined (recover z p).
Proof. intros Hp b. apply wp_recover. by eapply wp_mono; [apply Hp|]. Qed.

#[local] Hint Resolve disciplined_quiet : addon.

Ltac solve_disciplined :=
  cbv zeta;
  repeat match goal with
  | |- disciplined (_ ≫= _) => apply disciplined_bind; [|intros ?]
  | |- disciplined (recover _ _) => apply disciplined_recover
  | |- disciplined (match ?x with _ => _ end) => destruct x
  | |- disciplined _ => solve [auto with addon]
  end.

Lemma update_attempt_lock addon g b :
  wp lock_pre lock_upd (Some (addon_Name addon), b) (update_attempt addon g)
    (fun g _ => g.1 = Some (addon_Name addon)).
Proof.
  apply wp_call_bind; [done|]. intros [a|e]; [|done]. cbn [lock_upd fst snd].
  case_match; [done|]. apply wp_call_bind; [|done]. split; [done|]. cbn.
  intros [_ Hk%bool_decide_eq_true]%andb_true_iff. injection Hk as _ Hk. by rewrite <-Hk.
Qed.

Lemma retry_unroll_lock addon n g b :
  wp lock_pre lock_upd (Some (addon_Name addon), b) (retry_unroll n (update_attempt addon) g)
    (fun g _ => g.1 = Some (addon_Name addon)).
Proof.
  revert g b. induction n as [|n IH]; intros g b; [apply update_attempt_lock|].
  apply wp_bind. eapply wp_mono; [apply update_attempt_lock|].
  intros [l b'] [[g' e]|m] Hl; cbn in Hl; subst; [|done]. case_match; [apply IH | done].
Qed.

Lemma UpdateStatus_disciplined `{RetryOnConflict} addon : disciplined (UpdateStatus addon).
Proof.
  intros b. apply wp_call_bind; [done|]. intros []. apply wp_defer. cbn [lock_upd snd].
  eapply (wp_mono _ _ _ _ (fun g _ => g.1 = Some (addon_Name addon))).
  2: { intros g o Hg. by apply wp_call. }
  apply wp_bind. destruct (retry_unrolls (update_attempt addon) no_guard) as [n ->].
  eapply wp_mono; [apply retry_unroll_lock|].
  intros [l b'] [[g e]|m] Hl; cbn in Hl; subst; [|done].
  destruct e; cbv beta iota; [by apply lock_wp_stable; solve_quiet|].
  destruct (guardFired g); apply lock_wp_stable; unfold addAddonToCache; solve_quiet.
Qed.

#[local] Hint Resolve UpdateStatus_disciplined : addon.

Section threads.
Context `{GoRange, Semver, Yaml, UnstructuredReader, RetryOnConflict}.
Context `{AddonLifecycleLaws, Selectors, ControllerUtil}.
Context (go_syntax : error -> string).

Lemma Reconcile_disciplined t req : disciplined (Reconcile t req).
Proof.
  unfold Reconcile, execAddon. solve_disciplined.
  - apply disciplined_quiet, Finalize_quiet.
  - apply disciplined_quiet, processAddon_quiet.
Qed.

Lemma WorkflowReconcile_disciplined req : disciplined (WorkflowReconcile go_syntax req).
Proof.
  unfold WorkflowReconcile, UpdateAddonStatusLifecycleFromWorkflow, getExistingAddon.
  solve_disciplined.
Qed.

(** The workers of both controllers start reconciles at any time; the label
    of a step is the name whose mutex it drops. *)
Inductive mstep : option string -> mconfig -> mconfig -> Prop :=
  | mstep_addon s ts t req :
      mstep None (mkMconfig s ts) (mkMconfig s (ts ++ [mkThread (Reconcile t req) Outside]))
  | mstep_workflow s ts req :
      mstep None (mkMconfig s ts)
        (mkMconfig s (ts ++ [mkThread (WorkflowReconcile go_syntax req) Outside]))
  | mstep_thread i resp s s' ts t t' :
      ts !! i = Some t -> faithful resp -> thread_step i resp s t = Some (s', t') ->
      mstep (drops t) (mkMconfig s ts) (mkMconfig s' (<[i := t']> ts)).

(** Steps that drop only mutexes of names outside [kept]. *)
Definition keeping (kept : string -> Prop) (c c' : mconfig) : Prop :=
  exists l, mstep l c c' /\ forall n, l = Some n -> ~ kept n.

Definition initial : mconfig := mkMconfig no_mutexes [].

(** ** Invariant *)
Section invariant.
Context (kept : string -> Prop).

(** The mutex of a kept name stays in the map. *)
Definition mutex_of (s : status_mutexes) (n : string) (m : loc) : Prop :=
  m < length (holders s) /\ (kept n -> statusMap s !! n = Some m).

Definition mthread_ok (s : status_mutexes) (i : nat) (t : mthread) : Prop :=
  match t_stage t with
  | Outside => lock_wp (None, true) (t_prog t)
  | Waiting n m => lock_wp (None, true) (t_prog t) /\
      (exists k, t_prog t = Vis (CLockStatus n) k) /\ mutex_of s n m
  | Inside n m => lock_wp (Some n, true) (t_prog t) /\
      holders s !! m = Some (Some i) /\ mutex_of s n m
  end.

(** What thread [i] may hold, given its stage. *)
Definition holds_only (s : status_mutexes) (i : nat) (t : mthread) : Prop :=
  forall m, holders s !! m = Some (Some i) -> exists n, t_stage t = Inside n m.

Definition bounded (s : status_mutexes) : Prop :=
  forall n m, statusMap s !! n = Some m -> m < length (holders s).

Definition mconfig_ok (c : mconfig) : Prop :=
  bounded (mutexes c) /\
  (forall i t, mthreads c !! i = Some t ->
    mthread_ok (mutexes c) i t /\ holds_only (mutexes c) i t) /\
  (forall m i, holders (mutexes c) !! m = Some (Some i) -> is_Some (mthreads c !! i)).

(** What a step of thread [i] leaves to the others. *)
Definition extends (i : nat) (s s' : status_mutexes) : Prop :=
  (forall n m, mutex_of s n m -> mutex_of s' n m) /\
  (forall m j, j <> i -> holders s !! m = Some (Some j) <-> holders s' !! m = Some (Some j)).

Lemma mthread_ok_extends i j s s' t :
  extends i s s' -> j <> i -> mthread_ok s j t /\ holds_only s j t ->
  mthread_ok s' j t /\ holds_only s' j t.
Proof.
  intros [Hm Hh] Hji [Hok Hold]. split.
  - unfold mthread_ok in *. destruct (t_stage t); [done | |].
    + destruct Hok as (? & ? & ?). auto.
    + destruct Hok as (? & Hheld & ?). rewrite Hh in Hheld by done. auto.
  - intros m. rewrite <-Hh by done. apply Hold.
Qed.

(** Replacing the holder of a mutex that no other thread holds. *)
Lemma extends_insert i s m o o' :
  holders s !! m = Some o -> (forall j, j <> i -> o <> Some j /\ o' <> Some j) ->
  extends i s (mkStatusMutexes (statusMap s) (<[m := o']> (holders s))).
Proof.
  intros Hm Ho. split.
  - intros n l [Hl Hk]. split; cbn; [by rewrite length_insert | done].
  - intros l j [Hj Hj']%Ho. cbn. destruct (decide (l = m)) as [->|Hne].
    + rewrite list_lookup_insert_eq by (by eapply lookup_lt_Some). rewrite Hm. naive_solver.
    + by rewrite list_lookup_insert_ne.
Qed.

Lemma getStatusMutex_spec i n s :
  bounded s -> exists m s', getStatusMutex n s = Val (m, s') /\
    bounded s' /\ extends i s s' /\ statusMap s' !! n = Some m /\ m < length (holders s') /\
    forall l, holders s' !! l = Some (Some i) -> holders s !! l = Some (Some i).
Proof.
  intros Hb. unfold getStatusMutex. st_eval. destruct (statusMap s !! n) as [m|] eqn:Hn.
  { exists m, s. split_and!; try done. by eapply Hb. }
  eexists _, _. split; [done|]. cbn.
  assert (forall (l : loc) (x : nat), (holders s ++ [None]) !! l = Some (Some x) <-> holders s !! l = Some (Some x))
    as Hsnoc.
  { intros l x. rewrite lookup_app. destruct (holders s !! l) eqn:Hl; [done|].
    split; [|done]. intros Hx%list_elem_of_lookup_2. by apply list_elem_of_singleton in Hx. }
  split_and!.
  - intros n' m'. cbn. rewrite length_app, lookup_insert_Some. intros [[_ <-]|[_ Hm]]; cbn; [lia|].
    apply Hb in Hm. lia.
  - split; [|intros; by rewrite Hsnoc].
    intros n' m' [Hl Hk]. split; cbn; [rewrite length_app; lia|]. intros Hkept.
    rewrite lookup_insert_ne; [by apply Hk|]. intros ->. apply Hk in Hkept. congruence.
  - by rewrite lookup_insert_eq.
  - rewrite length_app. cbn. lia.
  - intros l. by rewrite Hsnoc.
Qed.

(** Calls that are not about mutexes. *)
Definition service_call (c : Call) : bool :=
  match c with CLockStatus _ | CUnlockStatus _ | CDropStatusMutex _ => false | _ => true end.

Lemma thread_step_service i resp s c k st :
  service_call c = true ->
  thread_step i resp s (mkThread (Vis c k) st) = Some (s, mkThread (k (resp c)) st).
Proof. by destruct c. Qed.

Lemma lock_upd_service resp l c :
  faithful resp -> service_call c = true -> lock_upd (l, true) c (resp c) = (l, true).
Proof.
  intros Hf Hc. destruct c; try done. cbn. destruct (resp (CGetAddon nn)) as [a|e] eqn:Hr; [|done].
  apply Hf in Hr. by rewrite bool_decide_eq_true_2.
Qed.

Lemma extends_refl i s : extends i s s.
Proof. done. Qed.

(** A step of a thread keeps its invariant and leaves the others alone. *)
Lemma thread_step_ok i resp s t s' t' :
  bounded s -> mthread_ok s i t -> holds_only s i t -> faithful resp ->
  (forall n, drops t = Some n -> ~ kept n) ->
  thread_step i resp s t = Some (s', t') ->
  bounded s' /\ extends i s s' /\ mthread_ok s' i t' /\ holds_only s' i t'.
Proof.
  intros Hb Hok Hold Hf Hdrop Hstep. destruct t as [[a|msg|c k] st]; [done..|].
  destruct (service_call c) eqn:Hc.
  { rewrite thread_step_service in Hstep by done. simplify_eq. split_and!; try done.
    revert Hok. unfold mthread_ok. destruct st as [|n m|n m]; cbn [t_stage t_prog].
    - intros [_ Hk]. specialize (Hk (resp c)). by rewrite lock_upd_service in Hk.
    - intros (_ & (k' & Hk') & _). by simplify_eq.
    - intros ([_ Hk] & ? & ?). specialize (Hk (resp c)). by rewrite lock_upd_service in Hk. }
  destruct c as [| | | | | | | | | | | | | | | | |n|n|n]; try discriminate; cbn in Hstep.
  - destruct st as [|n' m|n' m]; [| |done].
    + destruct (getStatusMutex_spec i n s Hb) as (m & s1 & Hget & Hb1 & He & Hm & Hlt & Hl).
      rewrite Hget in Hstep. simplify_eq. split_and!; try done.
      * unfold mthread_ok; cbn [t_stage t_prog]. split_and!; [exact Hok | by exists k | done].
      * intros l Hh. by apply Hl, Hold in Hh as [? ?].
    + destruct Hok as ([_ Hk] & (k' & Hk') & Hm). cbn in Hk'. simplify_eq.
      unfold mutex_Lock in Hstep. destruct (holders s !! m) as [[j|]|] eqn:Hh; simplify_eq/=.
      assert (extends i s (mkStatusMutexes (statusMap s) (<[m := Some i]> (holders s)))) as He
        by (eapply extends_insert; [done|]; intros; split; congruence).
      split_and!; [intros n1 l Hn1; cbn; rewrite length_insert; by eapply Hb | done | |].
      * unfold mthread_ok; cbn [t_stage t_prog]. split_and!; [apply (Hk tt) | | by apply He].
        cbn. by rewrite list_lookup_insert_eq by (by eapply lookup_lt_Some).
      * intros l. cbn. destruct (decide (l = m)) as [->|Hne]; [by intros _; eexists|].
        rewrite list_lookup_insert_ne by done. by intros [? ?]%Hold.
  - destruct st as [|n' m|n' m]; try done. destruct Hok as ([Hpre Hk] & Hh & Hm).
    unfold mutex_Unlock in Hstep. rewrite Hh in Hstep. simplify_eq/=.
    split_and!; [intros n1 l Hn1; cbn; rewrite length_insert; by eapply Hb | | |].
    + eapply extends_insert; [done|]. intros; split; congruence.
    + apply (Hk tt).
    + intros l. cbn. destruct (decide (l = m)) as [->|Hne].
      * by rewrite list_lookup_insert_eq by (by eapply lookup_lt_Some).
      * rewrite list_lookup_insert_ne by done. intros Hl. destruct (Hold _ Hl) as [? [= _ ?]].
        by subst.
  - simplify_eq/=. specialize (Hdrop n eq_refl).
    assert (extends i s (mkStatusMutexes (delete n (statusMap s)) (holders s))) as He.
    { split; [|done]. intros n1 m1 [Hl Hk1]. split; [done|]. intros Hkept. cbn.
      rewrite lookup_delete_ne by (by intros ->). by apply Hk1. }
    split_and!; [intros n1 l; cbn; intros [_ Hn1]%lookup_delete_Some; by eapply Hb | done | | done].
    revert Hok. unfold mthread_ok. destruct st as [|n1 m1|n1 m1]; cbn [t_stage t_prog].
    + intros [_ Hk]. apply (Hk tt).
    + intros (_ & (k' & Hk') & _). by simplify_eq.
    + intros ([_ Hk] & Hh & Hm1). split_and!; [apply (Hk tt) | done | by apply He].
Qed.

Lemma mstep_ok c c' : mconfig_ok c -> keeping kept c c' -> mconfig_ok c'.
Proof.
  intros (Hb & Hts & Hh) (l & Hstep & Hl).
  assert (forall s ts t, mconfig_ok (mkMconfig s ts) -> disciplined (t_prog t) ->
    t_stage t = Outside -> mconfig_ok (mkMconfig s (ts ++ [t]))) as Hspawn.
  { clear. intros s ts t (Hb & Hts & Hh) Ht Hst. split_and!; cbn in *; [done| |].
    - intros i t' [Hi|[Hi Ht']]%lookup_app_Some; [by apply Hts|].
      apply list_lookup_singleton_Some in Ht' as [Hi' <-].
      split; [unfold mthread_ok; rewrite Hst; apply Ht|].
      intros m Hm. apply Hh, lookup_lt_is_Some in Hm. lia.
    - intros m i [t' Ht']%Hh. exists t'. by apply lookup_app_l_Some. }
  destruct Hstep as [s ts t req|s ts req|i resp s s' ts t t' Hi Hf Hstep].
  - apply Hspawn; [done | apply Reconcile_disciplined | done].
  - apply Hspawn; [done | apply WorkflowReconcile_disciplined | done].
  - cbn in *. destruct (Hts i t Hi) as [Hok Hold].
    destruct (thread_step_ok i resp s t s' t' Hb Hok Hold Hf Hl Hstep) as (Hb' & He & Hok' & Hold').
    split_and!; [done | |].
    + intros j tj. cbn. destruct (decide (i = j)) as [<-|Hne].
      * rewrite list_lookup_insert_eq by (by eapply lookup_lt_Some). by intros [= <-].
      * rewrite list_lookup_insert_ne by done. intros Hj.
        eapply mthread_ok_extends; [done | done | by apply Hts].
    + intros m j Hm. cbn. apply lookup_lt_is_Some. rewrite length_insert. apply lookup_lt_is_Some.
      destruct (decide (j = i)) as [->|Hne]; [by exists t|].
      apply (Hh m). by apply He.
Qed.

Lemma initial_ok : mconfig_ok initial.
Proof. split_and!; [intros n m; cbn; by rewrite lookup_empty | done | done]. Qed.

Lemma kept_ok c : rtc (keeping kept) initial c -> mconfig_ok c.
Proof.
  apply (rtc_ind_r (fun c => mconfig_ok c)); [apply initial_ok|].
  intros c1 c2 _ Hstep Hok. by eapply mstep_ok.
Qed.
End invariant.

(** ** Properties *)

(** The thread is about to write the status of an addon of this name. *)
Definition writes_to (t : mthread) : option string :=
  match t_prog t with Vis (CStatusUpdate o) _ => Some (addon_Name o) | _ => None end.

Definition writing (n : string) (t : mthread) : Prop := writes_to t = Some n.

Lemma writing_call n t :
  writing n t -> exists o k, t_prog t = Vis (CStatusUpdate o) k /\ addon_Name o = n.
Proof.
  unfold writing, writes_to. destruct (t_prog t) as [a|m|[] k]; try done. intros [= <-]. by eexists _, k.
Qed.

Lemma writing_inside kept s i t n :
  mthread_ok kept s i t -> writing n t -> exists m, t_stage t = Inside n m.
Proof.
  intros Hok (o & k & Hp & <-)%writing_call. unfold mthread_ok in Hok. rewrite Hp in Hok.
  destruct (t_stage t) as [|n m|n m].
  - by destruct Hok as [[[? ?] _] _].
  - by destruct Hok as ([[[? ?] _] _] & _).
  - destruct Hok as ([[_ Hn] _] & _). exists m. by injection (Hn eq_refl) as ->.
Qed.

(** C14: As long as the mutex of an addon name is not dropped from the map,
    the status writes of addons of this name exclude each other, whichever
    controllers make them and however the threads interleave: a thread that
    is about to write holds the mutex, and no other thread is between its
    [Lock] and [Unlock] for the name, let alone about to write. *)
Theorem status_writes_exclusive c n i j ti tj :
  rtc (keeping (eq n)) initial c ->
  mthreads c !! i = Some ti -> mthreads c !! j = Some tj -> i <> j -> writing n ti ->
  (exists m, t_stage ti = Inside n m /\ holders (mutexes c) !! m = Some (Some i)) /\
  (forall m, t_stage tj <> Inside n m) /\ ~ writing n tj.
Proof.
  intros (_ & Hts & _)%kept_ok Hi Hj Hij Hw.
  destruct (Hts i ti Hi) as [Hoki _]. destruct (Hts j tj Hj) as [Hokj _].
  destruct (writing_inside _ _ _ _ _ Hoki Hw) as [m Hm].
  assert (holders (mutexes c) !! m = Some (Some i) /\ statusMap (mutexes c) !! n = Some m)
    as [Hhi Hmi].
  { unfold mthread_ok in Hoki. rewrite Hm in Hoki. destruct Hoki as (_ & ? & _ & Hk). auto. }
  assert (forall m', t_stage tj <> Inside n m') as Hout.
  { intros m' Hm'. unfold mthread_ok in Hokj. rewrite Hm' in Hokj.
    destruct Hokj as (_ & Hhj & _ & Hk). specialize (Hk eq_refl). congruence. }
  split_and!; [by exists m | exact Hout |]. intros [m' Hm']%(writing_inside _ _ _ _ _ Hokj).
  by eapply Hout.
Qed.

Definition can_step (c : mconfig) (i : nat) : Prop :=
  exists t resp s' t', mthreads c !! i = Some t /\ faithful resp /\
    thread_step i resp (mutexes c) t = Some (s', t').

Lemma no_services_faithful : faithful no_services.
Proof. done. Qed.

Lemma thread_can_step c i t call k :
  mconfig_ok (fun _ => False) c -> mthreads c !! i = Some t -> t_prog t = Vis call k ->
  can_step c i \/ exists n m j, t_stage t = Waiting n m /\
    holders (mutexes c) !! m = Some (Some j).
Proof.
  intros (Hb & Hts & Hh) Hi Hp. destruct (Hts i t Hi) as [Hok _]. destruct t as [p st].
  cbn in Hp. subst p.
  destruct (service_call call) eqn:Hc.
  { left. eexists _, no_services, _, _. split_and!; [done | done | by apply thread_step_service]. }
  destruct call as [| | | | | | | | | | | | | | | | |n|n|n]; try discriminate.
  - destruct st as [|n' m|n' m].
    + left. destruct (getStatusMutex_spec (fun _ => False) i n (mutexes c) Hb) as (m & s' & Hg & _).
      eexists _, no_services, _, _. split_and!; [done | done |]. cbn. by rewrite Hg.
    + destruct Hok as (_ & _ & Hm & _). apply lookup_lt_is_Some in Hm as [[j|] Hm].
      * right. by exists n', m, j.
      * left. eexists _, no_services, _, _. split_and!; [done | done |]. cbn. unfold mutex_Lock.
        by rewrite Hm.
    + by destruct Hok as [[? _] _].
  - left. destruct st as [|n' m|n' m].
    + by destruct Hok as [? _].
    + by destruct Hok as [[? _] _].
    + destruct Hok as (_ & Hm & _). eexists _, no_services, _, _. split_and!; [done | done |].
      cbn. unfold mutex_Unlock. by rewrite Hm.
  - left. eexists _, no_services, _, _. by split_and!.
Qed.

(** C12: The controllers never deadlock on the status mutexes, even when
    mutexes are dropped: in every reachable state, a thread that has not
    ended can go on, or waits for a mutex whose holder can go on; and a
    thread that has ended, by a return or a panic, holds none. *)
Theorem no_deadlock c i t :
  rtc (keeping (fun _ => False)) initial c -> mthreads c !! i = Some t ->
  match t_prog t with
  | Vis call k =>
      can_step c i \/ exists n m j, t_stage t = Waiting n m /\
        holders (mutexes c) !! m = Some (Some j) /\ can_step c j
  | _ => forall m, holders (mutexes c) !! m <> Some (Some i)
  end.
Proof.
  intros Hok%kept_ok Hi. pose proof Hok as (_ & Hts & Hh).
  assert (forall j tj m, mthreads c !! j = Some tj -> holders (mutexes c) !! m = Some (Some j) ->
    exists call k n m, t_prog tj = Vis call k /\ t_stage tj = Inside n m) as Hrun.
  { intros j tj m Hj Hm. destruct (Hts j tj Hj) as [Hokj Hold]. destruct (Hold m Hm) as [n Hst].
    unfold mthread_ok in Hokj. rewrite Hst in Hokj. destruct Hokj as (Hwp & _).
    destruct (t_prog tj) as [a|msg|call k]; [done | done |]. by exists call, k, n, m. }
  destruct (t_prog t) as [a|msg|call k] eqn:Hp.
  - intros m Hm. destruct (Hrun i t m Hi Hm) as (? & ? & ? & ? & ? & _). congruence.
  - intros m Hm. destruct (Hrun i t m Hi Hm) as (? & ? & ? & ? & ? & _). congruence.
  - destruct (thread_can_step c i t call k Hok Hi Hp) as [?|(n & m & j & Hst & Hm)]; [by left|].
    right. exists n, m, j. split_and!; [done..|].
    destruct (Hh m j Hm) as [tj Hj].
    destruct (Hrun j tj m Hj Hm) as (call' & k' & n' & m' & Hpj & Hstj).
    destruct (thread_can_step c j tj call' k' Hok Hj Hpj) as [?|(? & ? & ? & ? & _)]; [done|].
    congruence.
Qed.
End threads.

(** ** Running a schedule *)

(** An API server that has the addon, or has none. *)
Definition answers (a : option Addon) (c : Call) : Resp c :=
  match c as c return Resp c with
  | CGetAddon nn =>
      match a with
      | Some a => if addon_key a == nn then Ok a else Err not_found
      | None => Err not_found
      end
  | CStatusUpdate _ => None
  | c => no_services c
  end.

Lemma answers_faithful a : faithful (answers a).
Proof. intros nn b. cbn. destruct a; [|done]. case_bool_decide; [|done]. by intros [= <-]. Qed.

(** The thread of an event makes a step, if it can. *)
Definition sched_step (c : mconfig) (e : nat * option Addon) : mconfig :=
  match mthreads c !! e.1 with
  | Some t =>
      match thread_step e.1 (answers e.2) (mutexes c) t with
      | Some (s', t') => mkMconfig s' (<[e.1 := t']> (mthreads c))
      | None => c
      end
  | None => c
  end.

Fixpoint drops_nothing (c : mconfig) (es : list (nat * option Addon)) : bool :=
  match es with
  | [] => true
  | e :: es' =>
      (match mthreads c !! e.1 with Some t => drops t == None | None => true end)
      && drops_nothing (sched_step c e) es'
  end.

Section schedules.
Context (go_syntax : error -> string).

Abbreviation sample_keeping := (@keeping range_fwd star_semver sample_yaml sample_reader
  default_retry sample_lifecycle sample_selectors sample_util go_syntax).

Lemma sched_step_keeping kept c e :
  (forall t n, mthreads c !! e.1 = Some t -> drops t = Some n -> ~ kept n) ->
  rtc (sample_keeping kept) c (sched_step c e).
Proof.
  intros Hd. unfold sched_step. destruct (mthreads c !! e.1) as [t|] eqn:Hi; [|done].
  destruct (thread_step e.1 (answers e.2) (mutexes c) t) as [[s' t']|] eqn:Hs; [|done].
  apply rtc_once. exists (drops t). split; [|by intros n; apply Hd].
  destruct c as [s ts]. eapply mstep_thread; [done | apply answers_faithful | done].
Qed.

Lemma schedule_all c es :
  rtc (sample_keeping (fun _ => False)) c (foldl sched_step c es).
Proof.
  revert c. induction es as [|e es IH]; intros c; [done|].
  cbn. etrans; [apply sched_step_keeping; by intros ? ? _ _ []|]. apply IH.
Qed.

Lemma schedule_keeping kept c es :
  drops_nothing c es = true -> rtc (sample_keeping kept) c (foldl sched_step c es).
Proof.
  revert c. induction es as [|e es IH]; intros c; [done|]. cbn.
  intros [Hd Hes]%andb_true_iff. etrans; [apply sched_step_keeping | by apply IH].
  intros t n Hi Hn. rewrite Hi in Hd. apply bool_decide_eq_true in Hd. congruence.
Qed.

Definition fresh_thread : mthread := mkThread (sample_Reconcile [] (addon_key fresh_addon)) Outside.

Definition spawned (n : nat) : mconfig := mkMconfig no_mutexes (replicate n fresh_thread).

Lemma spawned_reachable kept n : rtc (sample_keeping kept) initial (spawned n).
Proof.
  induction n as [|n IH]; [done|]. eapply rtc_r; [exact IH|].
  exists None. split; [|done]. unfold spawned. rewrite replicate_S_end.
  exact (mstep_addon go_syntax no_mutexes (replicate n fresh_thread) [] (addon_key fresh_addon)).
Qed.
End schedules.

(** Thread [i] reads the addon, fails to list old workflows, fetches the
    mutex, locks it and reads again: it is about to write. *)
Definition to_write (i : nat) : list (nat * option Addon) := replicate 5 (i, Some fresh_addon).

(** The second thread waits for the mutex. *)
Definition one_writes : mconfig :=
  foldl sched_step (spawned 2) (to_write 0 ++ to_write 1).

Definition nth_thread (c : mconfig) (i : nat) : mthread := default fresh_thread (mthreads c !! i).

Lemma nth_thread_lookup c i :
  (i <? length (mthreads c))%nat = true -> mthreads c !! i = Some (nth_thread c i).
Proof.
  intros [t Ht]%Nat.ltb_lt%lookup_lt_is_Some. unfold nth_thread. by rewrite Ht.
Qed.

Lemma one_writes_writing : writing "c" (nth_thread one_writes 0).
Proof. vm_compute. reflexivity. Qed.

Lemma status_writes_exclusive_witness :
  t_stage (nth_thread one_writes 1) = Waiting "c" 0 /\ ~ writing "c" (nth_thread one_writes 1).
Proof.
  split; [vm_compute; reflexivity|].
  apply (@status_writes_exclusive range_fwd star_semver sample_yaml sample_reader default_retry
    tree_object sample_lifecycle sample_lifecycle_laws sample_selectors sample_util
    (fun e => Error e) one_writes "c" 0 1 (nth_thread one_writes 0)).
  - exact (transitivity (spawned_reachable (fun e => Error e) (eq "c") 2)
      (schedule_keeping (fun e => Error e) (eq "c") (spawned 2) (to_write 0 ++ to_write 1)
        ltac:(vm_compute; reflexivity))).
  - apply nth_thread_lookup. vm_compute. reflexivity.
  - apply nth_thread_lookup. vm_compute. reflexivity.
  - discriminate.
  - apply one_writes_writing.
Defined.

Lemma no_deadlock_witness : can_step one_writes 0 /\
  exists n m j, t_stage (nth_thread one_writes 1) = Waiting n m /\
    holders (mutexes one_writes) !! m = Some (Some j) /\ can_step one_writes j.
Proof.
  assert (can_step one_writes 0) as Hstep.
  { pose proof (@no_deadlock range_fwd star_semver sample_yaml sample_reader default_retry
      tree_object sample_lifecycle sample_lifecycle_laws sample_selectors sample_util
      (fun e => Error e) one_writes 0 (nth_thread one_writes 0)
      (transitivity (spawned_reachable (fun e => Error e) (fun _ => False) 2)
        (schedule_all (fun e => Error e) (spawned 2) (to_write 0 ++ to_write 1)))
      (nth_thread_lookup one_writes 0 ltac:(vm_compute; reflexivity))) as Hd.
    destruct (writing_call _ _ one_writes_writing) as (o & k & Hp & _). rewrite Hp in Hd.
    destruct Hd as [Hd|(n & m & j & Hd & _)]; [exact Hd | vm_compute in Hd; discriminate Hd]. }
  split; [exact Hstep|]. exists "c", 0, 0. split; [vm_compute; reflexivity|].
  split; [vm_compute; reflexivity | exact Hstep].
Defined.

(** After a third thread found the addon gone and dropped the mutex, a
    second writer for the same name no longer waits for the first. *)
Definition two_write : mconfig :=
  foldl sched_step (spawned 3) (to_write 0 ++ replicate 3 (2, None) ++ to_write 1).

Lemma drop_breaks_exclusion go_syntax :
  rtc (@keeping range_fwd star_semver sample_yaml sample_reader default_retry sample_lifecycle
    sample_selectors sample_util go_syntax (fun _ => False)) initial two_write /\
  writing "c" (nth_thread two_write 0) /\ writing "c" (nth_thread two_write 1).
Proof.
  split_and!.
  - etrans; [apply (spawned_reachable go_syntax _ 3) | apply schedule_all].
  - vm_compute. reflexivity.
  - vm_compute. reflexivity.
Qed.
