(* ===== verification/Builder.v ===== *)
(** The workflow builder, [pkg/workflows/workflow_builder.go], which the
    command line tool uses to turn manifests into workflow templates.

    The builder holds references to nested [map[string]interface{}] objects
    and changes them in place; the same step object is appended to a list
    every time, and a built workflow shares its content with the builder.
    Map objects are therefore cells of a heap.  A slice is a value: every
    [append] of the file stores its result where it read its operand, so no
    two places hold the same slice. *)
From S2P Require Import Prelude GoStrings GoFmt AddonTypes Common VersionCache Unstructured.
From S2P Require Import TreeObject Effects Workflow GoHeap.

(** ** Values and objects *)

(** The dynamic types that the file stores in an [interface{}]: strings, map
    objects, [[]string], [[]map[string]interface{}],
    [[][]map[string]interface{}] and [[]interface{}]. *)
Inductive iface :=
  | IString (s : string)
  | IMap (l : loc)
  | IStrings (ss : list string)
  | IMaps (ls : list loc)
  | ISteps (lss : list (list loc))
  | IIfaces (l : list iface).

(** [%T] *)
Definition iface_type (v : iface) : string :=
  match v with
  | IString _ => "string"
  | IMap _ => "map[string]interface {}"
  | IStrings _ => "[]string"
  | IMaps _ => "[]map[string]interface {}"
  | ISteps _ => "[][]map[string]interface {}"
  | IIfaces _ => "[]interface {}"
  end.

(** A [map[string]interface{}] object, in order of insertion. *)
Abbreviation cell := (list (string * iface)).

(** The map objects, and the package variable [doDelete]. *)
Record package_state := mkPackageState {
  objects : list cell;
  doDelete : bool
}.

Abbreviation BM := (St package_state).

Definition on_objects {A : Type} (m : St (list cell) A) : BM A := fun w =>
  match m (objects w) with
  | Val (a, h) => Val (a, mkPackageState h (doDelete w))
  | Panicked msg => Panicked msg
  end.

(** [make(map[string]interface{})] *)
Definition make_map : BM loc := on_objects (alloc []).

(** [m[k] = v] *)
Definition assign (l : loc) (k : string) (v : iface) : BM () :=
  m ← on_objects (deref l); on_objects (store l (obj_insert k v m)).

(** [m[k]]; [None] is the nil interface. *)
Definition index (l : loc) (k : string) : BM (option iface) :=
  m ← on_objects (deref l); mret (obj_lookup m k).

(** The type assertion [v.(T)] fails. *)
Definition conversion_panic {A : Type} (v : option iface) (want : string) : BM A :=
  go_panic ("interface conversion: interface {} is " +:+
    (match v with Some v => iface_type v | None => "nil" end) +:+ ", not " +:+ want).

Definition as_map (v : option iface) : BM loc :=
  match v with Some (IMap l) => mret l | _ => conversion_panic v "map[string]interface {}" end.

Definition as_maps (v : option iface) : BM (list loc) :=
  match v with Some (IMaps ls) => mret ls | _ => conversion_panic v "[]map[string]interface {}" end.

Definition as_steps (v : option iface) : BM (list (list loc)) :=
  match v with
  | Some (ISteps lss) => mret lss | _ => conversion_panic v "[][]map[string]interface {}" end.

Definition as_ifaces (v : option iface) : BM (list iface) :=
  match v with Some (IIfaces l) => mret l | _ => conversion_panic v "[]interface {}" end.

(** [m[k].(map[string]interface{})] *)
Definition index_map (l : loc) (k : string) : BM loc := v ← index l k; as_map v.

(** [m[k] = append(m[k].([]map[string]interface{}), xs...)] *)
Definition append_maps (l : loc) (k : string) (xs : list loc) : BM () :=
  v ← index l k; ls ← as_maps v; assign l k (IMaps (ls ++ xs)).

(** [m[k].([][]map[string]interface{})[0] = append(m[k].([][]map[string]interface{})[0], x)] *)
Definition append_first (l : loc) (k : string) (x : loc) : BM () :=
  v ← index l k; lss ← as_steps v;
  match lss with
  | ls :: lss' => assign l k (ISteps ((ls ++ [x]) :: lss'))
  | [] => go_panic "runtime error: index out of range [0] with length 0"
  end.

(** ** The builder *)

Definition defaultPython3ScriptImage : string := "python:3".
Definition defaultSubmitContainerImage : string := "expert360/kubectl-awscli:v1.11.2".

Record workflowBuilder := mkWorkflowBuilder {
  defaultContent : loc;
  defaultEntryTemplate : loc;
  defaultSubmitStep : loc;
  defaultSubmitTemplate : loc;
  deleteTemplates : list loc;
  workflowName : string;
  workflowNamespace : string
}.

Definition New : BM workflowBuilder :=
  content ← make_map;
  spec ← make_map; assign content "spec" (IMap spec);;
  spec ← index_map content "spec"; assign spec "entrypoint" (IString "entry");;
  spec ← index_map content "spec";
  assign spec "serviceAccountName" (IString "addon-manager-workflow-installer-sa");;
  spec ← index_map content "spec"; assign spec "templates" (IMaps []);;
  dsc ← make_map;
  assign dsc "image" (IString defaultSubmitContainerImage);;
  assign dsc "command" (IStrings ["sh"; "-c"]);;
  assign dsc "args" (IStrings ["kubectl apply -f /tmp/doc"]);;
  submitTemplate ← make_map;
  assign submitTemplate "name" (IString "submit");;
  inputs ← make_map; assign submitTemplate "inputs" (IMap inputs);;
  inputs ← index_map submitTemplate "inputs"; assign inputs "parameters" (IMaps []);;
  inputs ← index_map submitTemplate "inputs"; assign inputs "artifacts" (IMaps []);;
  assign submitTemplate "container" (IMap dsc);;
  entryTemplate ← make_map;
  assign entryTemplate "name" (IString "entry");;
  assign entryTemplate "steps" (ISteps [[]]);;
  submitStep ← make_map;
  assign submitStep "name" (IString "install");;
  arguments ← make_map; assign submitStep "arguments" (IMap arguments);;
  arguments ← index_map submitStep "arguments"; assign arguments "parameters" (IMaps []);;
  arguments ← index_map submitStep "arguments"; assign arguments "artifacts" (IMaps []);;
  assign submitStep "template" (IString "submit");;
  deleteEntryTemplate ← make_map;
  assign deleteEntryTemplate "name" (IString "delete-wf");;
  assign deleteEntryTemplate "steps" (ISteps [[]]);;
  deleteStepsTemp ← make_map;
  assign deleteStepsTemp "name" (IString "delete-ns");;
  assign deleteStepsTemp "template" (IString "delete-ns");;
  append_first deleteEntryTemplate "steps" deleteStepsTemp;;
  deleteNSTemplate ← make_map;
  assign deleteNSTemplate "name" (IString "delete-ns");;
  container ← make_map; assign deleteNSTemplate "container" (IMap container);;
  container ← index_map deleteNSTemplate "container";
  assign container "image" (IString defaultSubmitContainerImage);;
  container ← index_map deleteNSTemplate "container";
  assign container "command" (IStrings ["sh"; "-c"]);;
  container ← index_map deleteNSTemplate "container";
  assign container "args"
    (IStrings ["kubectl delete all -n {{workflow.parameters.namespace}} --all"]);;
  mret {| defaultContent := content;
          defaultEntryTemplate := entryTemplate;
          defaultSubmitStep := submitStep;
          defaultSubmitTemplate := submitTemplate;
          deleteTemplates := [deleteEntryTemplate; deleteNSTemplate];
          workflowName := "";
          workflowNamespace := "" |}.

(** [wb.deleteTemplates[i]] *)
Definition delete_template (wb : workflowBuilder) (i : nat) : BM loc :=
  match deleteTemplates wb !! i with
  | Some l => mret l
  | None => go_panic "runtime error: index out of range"
  end.

(** The setters of [unstructured.Unstructured] on the content map that an
    object holds a reference to. *)
Class ContentSetters := {
  content_SetGroupVersionKind : GroupVersionKind -> loc -> list cell -> list cell;
  content_SetGenerateName : string -> loc -> list cell -> list cell
}.

(** An [unstructured.Unstructured] is the reference to its content. *)
Definition Build `{ContentSetters} (wb : workflowBuilder) : BM loc :=
  w ← get_state;
  spec ← index_map (defaultContent wb) "spec";
  (if negb (doDelete w)
   then append_maps spec "templates" [defaultEntryTemplate wb; defaultSubmitTemplate wb]
   else d0 ← delete_template wb 0; d1 ← delete_template wb 1;
        append_maps spec "templates" [d0; d1]);;
  let wf := defaultContent wb in
  modify_state (fun w => mkPackageState
    (content_SetGroupVersionKind (mkGVK "argoproj.io" "v1alpha1" "Workflow") wf (objects w))
    (doDelete w));;
  modify_state (fun w => mkPackageState (content_SetGenerateName "-" wf (objects w)) (doDelete w));;
  mret wf.

Definition builder_Delete (wb : workflowBuilder) : BM workflowBuilder :=
  modify_state (fun w => mkPackageState (objects w) true);; mret wb.

Definition newline : string := String "010" EmptyString.

(** The loop that concatenates the resources. *)
Definition resource_separator (resource : string) : string :=
  let separator := "---" +:+ newline in
  if negb (HasSuffix resource newline) then newline +:+ separator else separator.

Definition resource_data (resources : list string) : string :=
  foldl (fun data resource => data +:+ (resource +:+ resource_separator resource)) "" resources.

Definition builder_Resources (wb : workflowBuilder) (resources : list string)
    : BM workflowBuilder :=
  let resourceArtifactData := resource_data resources in
  resourceArtifact ← make_map;
  assign resourceArtifact "name" (IString "doc");;
  assign resourceArtifact "path" (IString "/tmp/doc");;
  raw ← make_map; assign resourceArtifact "raw" (IMap raw);;
  raw ← index_map resourceArtifact "raw"; assign raw "data" (IString resourceArtifactData);;
  inputs ← index_map (defaultSubmitTemplate wb) "inputs";
  append_maps inputs "artifacts" [resourceArtifact];;
  append_first (defaultEntryTemplate wb) "steps" (defaultSubmitStep wb);;
  mret wb.

(** One round of the loop over the scripts. *)
Definition add_script (wb : workflowBuilder) (name scriptData : string) : BM () :=
  let tempName := TrimSuffix name ".py" in
  tempScript ← make_map;
  assign tempScript "name" (IString tempName);;
  script ← make_map; assign tempScript "script" (IMap script);;
  script ← index_map tempScript "script";
  assign script "image" (IString defaultPython3ScriptImage);;
  script ← index_map tempScript "script"; assign script "command" (IStrings ["pyhton"]);;
  script ← index_map tempScript "script"; assign script "source" (IString scriptData);;
  tempStep ← make_map;
  assign tempStep "name" (IString tempName);;
  assign tempStep "template" (IString tempName);;
  spec ← index_map (defaultContent wb) "spec";
  v ← index spec "templates"; templates ← as_ifaces v;
  assign spec "templates" (IIfaces (templates ++ [IMap tempScript]));;
  append_first (defaultEntryTemplate wb) "steps" tempStep;;
  let paramValue := "{{steps." +:+ tempName +:+ ".outputs.result}}" in
  scriptParamArgument ← make_map;
  assign scriptParamArgument "name" (IString tempName);;
  assign scriptParamArgument "value" (IString paramValue);;
  scriptParamInput ← make_map;
  assign scriptParamInput "name" (IString tempName);;
  arguments ← index_map (defaultSubmitStep wb) "arguments";
  append_maps arguments "parameters" [scriptParamArgument];;
  inputs ← index_map (defaultSubmitTemplate wb) "inputs";
  append_maps inputs "parameters" [scriptParamInput].

Definition builder_Scripts `{GoRange} (t : list nat) (wb : workflowBuilder)
    (scripts : gmap string string) : BM workflowBuilder :=
  for_each (fun kv => add_script wb kv.1 kv.2) (range t scripts);; mret wb.

(** ** Reading a workflow

    [read fuel h v]: the document that [v] stands for.  The fuel bounds the
    depth of nesting. *)
Fixpoint read (fuel : nat) (h : list cell) (v : iface) : option value :=
  match fuel with
  | O => None
  | S fuel' =>
      match v with
      | IString s => Some (VString s)
      | IMap l =>
          m ← h !! l;
          VMap <$> mapM (fun kv => pair kv.1 <$> read fuel' h kv.2) m
      | IStrings ss => Some (VSlice (VString <$> ss))
      | IMaps ls => VSlice <$> mapM (fun l => read fuel' h (IMap l)) ls
      | ISteps lss => VSlice <$> mapM (fun ls => read fuel' h (IMaps ls)) lss
      | IIfaces vs => VSlice <$> mapM (read fuel' h) vs
      end
  end.

(** [ConvertUnstructuredWorkflowToString]: [yaml.Marshal] of the content, or
    [log.Fatal], which ends the process.  Twelve levels are enough for every
    object of this file. *)
Inductive converted :=
  | Text (s : string)
  | Fatal (e : error).

Definition read_fuel : nat := 12.

Definition ConvertUnstructuredWorkflowToString `{Yaml} (u : loc) : BM converted :=
  w ← get_state;
  match read read_fuel (objects w) (IMap u) with
  | Some (VMap content) =>
      match yaml_Marshal content with
      | Ok s => mret (Text s)
      | Err e => mret (Fatal e)
      end
  | _ => go_panic invalid_memory
  end.

(** ** Executing builder code *)

Lemma make_map_run w :
  make_map w = Val (length (objects w), mkPackageState (objects w ++ [[]]) (doDelete w)).
Proof. done. Qed.

Lemma index_run w l m k :
  objects w !! l = Some m -> index l k w = Val (obj_lookup m k, w).
Proof.
  intros Hl. unfold index, on_objects, mbind, St_bind. rewrite (deref_Some _ _ _ Hl).
  by destruct w.
Qed.

Lemma index_map_run w l m k l' :
  objects w !! l = Some m -> obj_lookup m k = Some (IMap l') -> index_map l k w = Val (l', w).
Proof.
  intros Hl Hk. unfold index_map. rewrite (St_bind_step _ _ _ _ _ (index_run _ _ _ _ Hl)).
  by rewrite Hk.
Qed.

Lemma assign_run w l m k v :
  objects w !! l = Some m ->
  assign l k v w = Val ((), mkPackageState (<[l := obj_insert k v m]> (objects w)) (doDelete w)).
Proof.
  intros Hl. unfold assign, on_objects, mbind, St_bind.
  rewrite (deref_Some _ _ _ Hl). simpl. by rewrite (store_Some _ _ _ _ Hl).
Qed.

(** Objects allocated on top of [h]: their locations are relative to it. *)
Lemma make_map_top h L b :
  make_map (mkPackageState (h ++ L) b) = Val (length h + length L, mkPackageState (h ++ (L ++ [[]])) b).
Proof. rewrite make_map_run. simpl. by rewrite length_app, app_assoc. Qed.

Lemma lookup_top h (L : list cell) i : (h ++ L) !! (length h + i) = L !! i.
Proof. rewrite lookup_app_r by lia. f_equal. lia. Qed.

Lemma insert_top h (L : list cell) i c : <[length h + i := c]> (h ++ L) = h ++ <[i := c]> L.
Proof. rewrite insert_app_r_alt by lia. do 2 f_equal. lia. Qed.

Lemma assign_top h L i m k v b :
  L !! i = Some m ->
  assign (length h + i) k v (mkPackageState (h ++ L) b) =
    Val ((), mkPackageState (h ++ <[i := obj_insert k v m]> L) b).
Proof.
  intros Hi. erewrite assign_run by (simpl; by rewrite lookup_top). simpl. by rewrite insert_top.
Qed.

Lemma append_maps_run w l m k ls xs :
  objects w !! l = Some m -> obj_lookup m k = Some (IMaps ls) ->
  append_maps l k xs w =
    Val ((), mkPackageState (<[l := obj_insert k (IMaps (ls ++ xs)) m]> (objects w)) (doDelete w)).
Proof.
  intros Hl Hk. unfold append_maps.
  rewrite (St_bind_step _ _ _ _ _ (index_run _ _ _ _ Hl)), Hk. simpl.
  rewrite St_bind_ret. by apply assign_run.
Qed.

Lemma append_first_run w l m k ls lss x :
  objects w !! l = Some m -> obj_lookup m k = Some (ISteps (ls :: lss)) ->
  append_first l k x w =
    Val ((), mkPackageState (<[l := obj_insert k (ISteps ((ls ++ [x]) :: lss)) m]> (objects w))
      (doDelete w)).
Proof.
  intros Hl Hk. unfold append_first.
  rewrite (St_bind_step _ _ _ _ _ (index_run _ _ _ _ Hl)), Hk. simpl.
  rewrite St_bind_ret. by apply assign_run.
Qed.

Lemma append_first_top h L i m k ls lss x b :
  L !! i = Some m -> obj_lookup m k = Some (ISteps (ls :: lss)) ->
  append_first (length h + i) k x (mkPackageState (h ++ L) b) =
    Val ((), mkPackageState (h ++ <[i := obj_insert k (ISteps ((ls ++ [x]) :: lss)) m]> L) b).
Proof.
  intros Hi Hk. erewrite append_first_run; [|simpl; by rewrite lookup_top | done].
  simpl. by rewrite insert_top.
Qed.

(** ** The objects of a builder

    A builder allocates twelve objects, then two for every call of
    [Resources]: an artifact and its data. *)
Definition builder_at (n : loc) : workflowBuilder :=
  mkWorkflowBuilder n (n + 5) (n + 6) (n + 3) [n + 8; n + 10] "" "".

Definition artifact_at (n : loc) (i : nat) : loc := n + 12 + 2 * i.

Definition base_cells (n : loc) (k : nat) (templates : list loc) : list cell :=
  [ [("spec", IMap (n + 1))];
    [("entrypoint", IString "entry");
     ("serviceAccountName", IString "addon-manager-workflow-installer-sa");
     ("templates", IMaps templates)];
    [("image", IString defaultSubmitContainerImage);
     ("command", IStrings ["sh"; "-c"]);
     ("args", IStrings ["kubectl apply -f /tmp/doc"])];
    [("name", IString "submit"); ("inputs", IMap (n + 4)); ("container", IMap (n + 2))];
    [("parameters", IMaps []); ("artifacts", IMaps (artifact_at n <$> seq 0 k))];
    [("name", IString "entry"); ("steps", ISteps [replicate k (n + 6)])];
    [("name", IString "install"); ("arguments", IMap (n + 7)); ("template", IString "submit")];
    [("parameters", IMaps []); ("artifacts", IMaps [])];
    [("name", IString "delete-wf"); ("steps", ISteps [[n + 9]])];
    [("name", IString "delete-ns"); ("template", IString "delete-ns")];
    [("name", IString "delete-ns"); ("container", IMap (n + 11))];
    [("image", IString defaultSubmitContainerImage);
     ("command", IStrings ["sh"; "-c"]);
     ("args", IStrings ["kubectl delete all -n {{workflow.parameters.namespace}} --all"])] ].

Definition artifact_cells (n : loc) (i : nat) (data : string) : list cell :=
  [ [("name", IString "doc"); ("path", IString "/tmp/doc"); ("raw", IMap (S (artifact_at n i)))];
    [("data", IString data)] ].

Definition builder_objects (h0 : list cell) (datas : list string) (templates : list loc)
    : list cell :=
  h0 ++ base_cells (length h0) (length datas) templates
     ++ concat (imap (artifact_cells (length h0)) datas).

Lemma length_artifact_cells n datas :
  length (concat (imap (artifact_cells n) datas)) = 2 * length datas.
Proof.
  rewrite <-(length_imap (artifact_cells n) datas).
  assert (Forall (fun cs => length cs = 2) (imap (artifact_cells n) datas)) as Hall.
  { apply Forall_forall. intros cs. rewrite elem_of_lookup_imap. naive_solver. }
  induction Hall as [|cs css Hcs Hall IH]; simpl; [done|]. rewrite length_app, Hcs, IH. lia.
Qed.

Lemma length_builder_objects h0 datas ts :
  length (builder_objects h0 datas ts) = artifact_at (length h0) (length datas).
Proof.
  unfold builder_objects, artifact_at. rewrite !length_app, length_artifact_cells. simpl. lia.
Qed.

Lemma lookup_base h0 datas ts tail i c :
  base_cells (length h0) (length datas) ts !! i = Some c ->
  (builder_objects h0 datas ts ++ tail) !! (length h0 + i) = Some c.
Proof.
  intros Hi. unfold builder_objects. rewrite <-!app_assoc, lookup_app_r by lia.
  replace (length h0 + i - length h0) with i by lia.
  rewrite lookup_app_l; [done|]. by apply lookup_lt_Some in Hi.
Qed.

Lemma lookup_base_nil h0 datas ts i c :
  base_cells (length h0) (length datas) ts !! i = Some c ->
  builder_objects h0 datas ts !! (length h0 + i) = Some c.
Proof. rewrite <-(app_nil_r (builder_objects h0 datas ts)). apply lookup_base. Qed.

(** One statement of builder code on objects allocated on top of a heap. *)
Ltac builder_step :=
  first
  [ rewrite (St_bind_step _ _ _ _ _ (make_map_top _ _ _)); cbn [length app]
  | erewrite St_bind_step;
      [|eapply assign_top; reflexivity]; cbn [insert list_insert]; cbn [obj_insert]
  | erewrite St_bind_step;
      [|eapply index_map_run; [cbn [objects]; rewrite lookup_top; reflexivity | reflexivity]]
  | erewrite St_bind_step;
      [|eapply append_first_top; [reflexivity | reflexivity]];
    cbn [insert list_insert]; cbn [obj_insert app] ].

Lemma New_run w :
  New w = Val (builder_at (length (objects w)),
               mkPackageState (builder_objects (objects w) [] []) (doDelete w)).
Proof.
  destruct w as [h b]. cbn [objects doDelete]. rewrite <-(app_nil_r h) at 1. unfold New.
  repeat builder_step. unfold builder_at. rewrite !Nat.add_0_r. reflexivity.
Qed.

Lemma artifact_cells_snoc n datas data :
  concat (imap (artifact_cells n) (datas ++ [data])) =
  concat (imap (artifact_cells n) datas) ++ artifact_cells n (length datas) data.
Proof. rewrite imap_app, concat_app. simpl. by rewrite Nat.add_0_r. Qed.

Lemma builder_objects_add h0 datas ts data :
  builder_objects h0 (datas ++ [data]) ts =
  <[length h0 + 5 := [("name", IString "entry");
      ("steps", ISteps [replicate (length datas) (length h0 + 6) ++ [length h0 + 6]])]]>
  (<[length h0 + 4 := [("parameters", IMaps []);
      ("artifacts", IMaps ((artifact_at (length h0) <$> seq 0 (length datas))
         ++ [artifact_at (length h0) (length datas)]))]]>
    (builder_objects h0 datas ts ++ artifact_cells (length h0) (length datas) data)).
Proof.
  unfold builder_objects. rewrite artifact_cells_snoc, length_app, <-!app_assoc. simpl length.
  rewrite !insert_top. f_equal. unfold base_cells.
  rewrite (Nat.add_1_r (length datas)), seq_S, fmap_app, replicate_S_end. reflexivity.
Qed.

Lemma Resources_run h0 datas ts rs b :
  builder_Resources (builder_at (length h0)) rs (mkPackageState (builder_objects h0 datas ts) b) =
  Val (builder_at (length h0), mkPackageState (builder_objects h0 (datas ++ [resource_data rs]) ts) b).
Proof.
  unfold builder_Resources. rewrite builder_objects_add.
  set (h := builder_objects h0 datas ts). rewrite <-(app_nil_r h) at 1.
  do 7 builder_step. cbn [builder_at defaultSubmitTemplate defaultEntryTemplate defaultSubmitStep].
  erewrite St_bind_step;
    [|eapply index_map_run; [cbn [objects]; by apply lookup_base | reflexivity]].
  erewrite St_bind_step;
    [|eapply append_maps_run; [cbn [objects]; by apply lookup_base | reflexivity]].
  cbn [objects doDelete]. erewrite St_bind_step;
    [|eapply append_first_run; [cbn [objects]; rewrite list_lookup_insert_ne by lia;
        by apply lookup_base | reflexivity]].
  unfold h. rewrite !length_builder_objects, Nat.add_0_r, Nat.add_1_r. reflexivity.
Qed.

Definition scripts_panic : string :=
  "interface conversion: interface {} is []map[string]interface {}, not []interface {}".

(** The first script that is added fails: the list of templates was made as
    a [[]map[string]interface{}]. *)
Lemma add_script_run h0 datas ts name source b :
  add_script (builder_at (length h0)) name source (mkPackageState (builder_objects h0 datas ts) b) =
  Panicked scripts_panic.
Proof.
  unfold add_script. set (h := builder_objects h0 datas ts). rewrite <-(app_nil_r h) at 1.
  do 13 builder_step. cbn [builder_at defaultContent].
  rewrite <-(Nat.add_0_r (length h0)) at 1. erewrite St_bind_step;
    [|eapply index_map_run; [cbn [objects]; by apply lookup_base | reflexivity]].
  erewrite St_bind_step; [|eapply index_run; cbn [objects]; by apply lookup_base].
  reflexivity.
Qed.

Lemma Scripts_run `{GoRange} t h0 datas ts scripts b :
  builder_Scripts t (builder_at (length h0)) scripts (mkPackageState (builder_objects h0 datas ts) b) =
  if scripts == ∅
  then Val (builder_at (length h0), mkPackageState (builder_objects h0 datas ts) b)
  else Panicked scripts_panic.
Proof.
  unfold builder_Scripts. pose proof (range_perm _ t scripts) as Hp.
  case_bool_decide as Hs.
  - subst. rewrite map_to_list_empty in Hp. apply Permutation_nil_r in Hp. by rewrite Hp.
  - destruct (range t scripts) as [|kv l] eqn:Hr.
    + apply Permutation_nil_l, eq_sym, map_to_list_empty_iff in Hp. done.
    + cbn [for_each]. unfold mbind, St_bind. by rewrite add_script_run.
Qed.

(** ** Build *)

(** [SetGroupVersionKind] assigns [apiVersion] and [kind]; [SetGenerateName]
    on an object without metadata gives it a new [metadata] map with that
    one field. *)
Class ContentSettersLaws `{ContentSetters} := {
  content_SetGroupVersionKind_spec g l h m :
    h !! l = Some m ->
    content_SetGroupVersionKind g l h =
    <[l := obj_insert "kind" (IString (GVK_Kind g))
             (obj_insert "apiVersion" (IString (GVK_Group g +:+ "/" +:+ GVK_Version g)) m)]> h;
  content_SetGenerateName_spec n l h m :
    h !! l = Some m -> obj_lookup m "metadata" = None ->
    content_SetGenerateName n l h =
    <[l := obj_insert "metadata" (IMap (length h)) m]> h ++ [[("generateName", IString n)]]
}.

(** The templates that [Build] appends. *)
Definition templates_at (n : loc) (del : bool) : list loc :=
  if del then [n + 8; n + 10] else [n + 5; n + 3].

Definition built_objects (h0 : list cell) (datas : list string) (ts : list loc) : list cell :=
  <[length h0 := [("spec", IMap (length h0 + 1));
                  ("apiVersion", IString "argoproj.io/v1alpha1");
                  ("kind", IString "Workflow");
                  ("metadata", IMap (artifact_at (length h0) (length datas)))]]>
    (builder_objects h0 datas ts) ++ [[("generateName", IString "-")]].

Lemma builder_objects_templates h0 datas ts ts' :
  <[length h0 + 1 := [("entrypoint", IString "entry");
     ("serviceAccountName", IString "addon-manager-workflow-installer-sa");
     ("templates", IMaps ts')]]> (builder_objects h0 datas ts) = builder_objects h0 datas ts'.
Proof. unfold builder_objects. rewrite insert_top. reflexivity. Qed.

Lemma lookup_root h0 datas ts :
  builder_objects h0 datas ts !! length h0 = Some [("spec", IMap (length h0 + 1))].
Proof. rewrite <-(Nat.add_0_r (length h0)) at 1. by apply lookup_base_nil. Qed.

Section build.
Context `{ContentSettersLaws}.

Lemma Build_run h0 datas b :
  Build (builder_at (length h0)) (mkPackageState (builder_objects h0 datas []) b) =
  Val (length h0, mkPackageState (built_objects h0 datas (templates_at (length h0) b)) b).
Proof.
  unfold Build. cbn [builder_at defaultContent defaultEntryTemplate defaultSubmitTemplate].
  erewrite St_bind_step; [|reflexivity]. erewrite St_bind_step;
    [|eapply index_map_run; [cbn [objects]; apply lookup_root | reflexivity]].
  set (wb := builder_at (length h0)).
  erewrite St_bind_step with (a := ())
    (s1 := mkPackageState (builder_objects h0 datas (templates_at (length h0) b)) b).
  - unfold built_objects. erewrite St_bind_step; [|reflexivity]. cbn [objects doDelete].
    rewrite (content_SetGroupVersionKind_spec _ _ _ _ (lookup_root _ _ _)).
    erewrite St_bind_step; [|reflexivity]. cbn [objects doDelete].
    erewrite content_SetGenerateName_spec;
      [|apply list_lookup_insert_eq, lookup_lt_Some with (1 := lookup_root _ _ _) | reflexivity].
    rewrite list_insert_insert_eq, length_insert, length_builder_objects. reflexivity.
  - assert (forall ls, append_maps (length h0 + 1) "templates" ls
        (mkPackageState (builder_objects h0 datas []) b) =
      Val ((), mkPackageState (builder_objects h0 datas ls) b)) as Happ.
    { intros ls. rewrite <-(builder_objects_templates h0 datas [] ls).
      etransitivity;
        [eapply append_maps_run; [by apply lookup_base_nil | reflexivity] | reflexivity]. }
    destruct b; cbn [negb doDelete]; apply Happ.
Qed.
End build.
