(* ===== verification/BuilderSpec.v ===== *)
(** What the workflow builder of [Builder] builds: it refines a small
    specification of the documents, for every chain of calls; what its
    artifacts contain; and what the controller does with its workflows. *)
From S2P Require Import Prelude GoStrings GoFmt AddonTypes Common VersionCache Unstructured.
From S2P Require Import TreeObject Effects Workflow GoHeap Builder.

(** ** The documents that are built *)

Definition container_doc (arg : string) : value :=
  VMap [("image", VString defaultSubmitContainerImage);
        ("command", VSlice [VString "sh"; VString "-c"]);
        ("args", VSlice [VString arg])].

Definition artifact_doc (data : string) : value :=
  VMap [("name", VString "doc"); ("path", VString "/tmp/doc");
        ("raw", VMap [("data", VString data)])].

Definition install_step_doc : value :=
  VMap [("name", VString "install");
        ("arguments", VMap [("parameters", VSlice []); ("artifacts", VSlice [])]);
        ("template", VString "submit")].

Definition install_templates (datas : list string) : list value :=
  [ VMap [("name", VString "entry");
          ("steps", VSlice [VSlice (replicate (length datas) install_step_doc)])];
    VMap [("name", VString "submit");
          ("inputs", VMap [("parameters", VSlice []);
                           ("artifacts", VSlice (artifact_doc <$> datas))]);
          ("container", container_doc "kubectl apply -f /tmp/doc")] ].

Definition deletion_templates : list value :=
  [ VMap [("name", VString "delete-wf");
          ("steps", VSlice [VSlice [VMap [("name", VString "delete-ns");
                                          ("template", VString "delete-ns")]]])];
    VMap [("name", VString "delete-ns");
          ("container",
           container_doc "kubectl delete all -n {{workflow.parameters.namespace}} --all")] ].

Definition workflow_doc (del : bool) (datas : list string) : object :=
  [("spec", VMap [("entrypoint", VString "entry");
                  ("serviceAccountName", VString "addon-manager-workflow-installer-sa");
                  ("templates", VSlice (if del then deletion_templates
                                        else install_templates datas))]);
   ("apiVersion", VString "argoproj.io/v1alpha1");
   ("kind", VString "Workflow");
   ("metadata", VMap [("generateName", VString "-")])].

(** Reading, as rules. *)
Section read_rules.
Context (fuel : nat) (h : list cell).

Lemma read_IMap l m d :
  h !! l = Some m ->
  Forall2 (fun kv kd => kv.1 = kd.1 /\ read fuel h kv.2 = Some kd.2) m d ->
  read (S fuel) h (IMap l) = Some (VMap d).
Proof.
  intros Hl Hd. simpl. rewrite Hl. simpl. apply fmap_Some. exists d. split; [|done].
  apply mapM_Some. eapply Forall2_impl; [exact Hd|]. intros [k v] [k' v'] [Hk Hv]; simpl in *.
  by rewrite Hv, Hk.
Qed.

Lemma read_IMaps ls ds :
  Forall2 (fun l d => read fuel h (IMap l) = Some d) ls ds ->
  read (S fuel) h (IMaps ls) = Some (VSlice ds).
Proof. intros Hd. simpl. apply fmap_Some. exists ds. by rewrite mapM_Some. Qed.

Lemma read_ISteps lss ds :
  Forall2 (fun ls d => read fuel h (IMaps ls) = Some d) lss ds ->
  read (S fuel) h (ISteps lss) = Some (VSlice ds).
Proof. intros Hd. simpl. apply fmap_Some. exists ds. by rewrite mapM_Some. Qed.
End read_rules.

Lemma lookup_built h0 datas ts l c :
  l <> length h0 -> builder_objects h0 datas ts !! l = Some c ->
  built_objects h0 datas ts !! l = Some c.
Proof.
  intros Hl Hc. unfold built_objects. apply lookup_app_l_Some.
  by rewrite list_lookup_insert_ne.
Qed.

Lemma lookup_built_base h0 datas ts i c :
  i <> 0 -> base_cells (length h0) (length datas) ts !! i = Some c ->
  built_objects h0 datas ts !! (length h0 + i) = Some c.
Proof. intros ??. apply lookup_built; [lia | by apply lookup_base_nil]. Qed.

Lemma lookup_concat_imap {A} (f : nat -> A -> list cell) l i j x c :
  (forall i x, length (f i x) = 2) -> l !! i = Some x -> f i x !! j = Some c ->
  concat (imap f l) !! (2 * i + j) = Some c.
Proof.
  intros Hf. revert f Hf i. induction l as [|y l IH]; intros f Hf i Hi Hj; [done|].
  destruct i as [|i]; simplify_eq/=.
  - by apply lookup_app_l_Some.
  - rewrite lookup_app_r; rewrite Hf; [|lia].
    replace (S (i + S (i + 0) + j) - 2) with (2 * i + j) by lia.
    apply (IH (f ∘ S)); auto. intros; apply Hf.
Qed.

Lemma lookup_built_artifact h0 datas ts i j data c :
  datas !! i = Some data -> artifact_cells (length h0) i data !! j = Some c ->
  built_objects h0 datas ts !! (artifact_at (length h0) i + j) = Some c.
Proof.
  intros Hi Hj. apply lookup_built; [unfold artifact_at; lia|].
  unfold builder_objects, artifact_at. rewrite <-!Nat.add_assoc, lookup_top.
  change (12 + (2 * i + j)) with
    (length (base_cells (length h0) (length datas) ts) + (2 * i + j)).
  rewrite lookup_top. by eapply lookup_concat_imap.
Qed.

(** Reading the objects of a builder, from the leaves up. *)
Ltac read_fields :=
  repeat first [ apply Forall2_nil_2 | apply Forall2_cons_2 ];
  try (split; [reflexivity|]); try reflexivity.

Section read_built.
Context (h0 : list cell) (datas : list string) (ts : list loc).
Abbreviation F := (built_objects h0 datas ts).
Abbreviation n := (length h0).

Ltac read_cell i :=
  eapply read_IMap; [by apply (lookup_built_base h0 datas ts i)|]; read_fields.

Lemma read_artifact fuel i data :
  datas !! i = Some data ->
  read (S (S (S fuel))) F (IMap (artifact_at n i)) = Some (artifact_doc data).
Proof.
  intros Hi.
  pose proof (lookup_built_artifact h0 datas ts i 0 data _ Hi eq_refl) as Ha.
  pose proof (lookup_built_artifact h0 datas ts i 1 data _ Hi eq_refl) as Hd.
  rewrite Nat.add_0_r in Ha. rewrite Nat.add_1_r in Hd.
  eapply read_IMap; [exact Ha|]. read_fields. eapply read_IMap; [exact Hd|]. read_fields.
Qed.

Lemma read_artifacts fuel :
  Forall2 (fun l d => read (S (S (S fuel))) F (IMap l) = Some d)
    (artifact_at n <$> seq 0 (length datas)) (artifact_doc <$> datas).
Proof.
  apply Forall2_lookup. intros i. rewrite !list_lookup_fmap.
  destruct (datas !! i) as [data|] eqn:Hi; simpl.
  - pose proof (lookup_lt_Some _ _ _ Hi) as Hlt. rewrite lookup_seq_lt by done.
    constructor. by apply read_artifact.
  - rewrite lookup_seq_ge by (by apply lookup_ge_None). constructor.
Qed.

Lemma read_container fuel i arg :
  i <> 0 ->
  base_cells n (length datas) ts !! i =
    Some [("image", IString defaultSubmitContainerImage);
          ("command", IStrings ["sh"; "-c"]); ("args", IStrings [arg])] ->
  read (S (S fuel)) F (IMap (n + i)) = Some (container_doc arg).
Proof. intros Hi Hc. eapply read_IMap; [by apply lookup_built_base|]. read_fields. Qed.

Lemma read_install_step fuel : read (S (S (S fuel))) F (IMap (n + 6)) = Some install_step_doc.
Proof. read_cell 6. read_cell 7. Qed.

Lemma read_install_templates fuel :
  Forall2 (fun l d => read (S (S (S (S (S (S (S fuel))))))) F (IMap l) = Some d)
    (templates_at n false) (install_templates datas).
Proof.
  apply Forall2_cons_2; [|apply Forall2_cons_2; [|apply Forall2_nil_2]].
  - read_cell 5. apply read_ISteps. read_fields. apply read_IMaps.
    apply Forall2_replicate, read_install_step.
  - read_cell 3; [|by apply read_container]. read_cell 4. apply read_IMaps, read_artifacts.
Qed.

Lemma read_deletion_templates fuel :
  Forall2 (fun l d => read (S (S (S (S (S fuel))))) F (IMap l) = Some d)
    (templates_at n true) deletion_templates.
Proof.
  apply Forall2_cons_2; [|apply Forall2_cons_2; [|apply Forall2_nil_2]].
  - read_cell 8. apply read_ISteps. read_fields. apply read_IMaps. read_fields. read_cell 9.
  - read_cell 10. by apply read_container.
Qed.
End read_built.

Lemma lookup_built_metadata h0 datas ts :
  built_objects h0 datas ts !! artifact_at (length h0) (length datas) =
  Some [("generateName", IString "-")].
Proof.
  unfold built_objects. rewrite <-(length_builder_objects h0 datas ts) at 1.
  rewrite lookup_app_r by (by rewrite length_insert).
  by rewrite length_insert, Nat.sub_diag.
Qed.

Lemma prefix_built h0 datas ts : h0 `prefix_of` built_objects h0 datas ts.
Proof.
  unfold built_objects. apply prefix_app_r, prefix_insert; [|done].
  unfold builder_objects. by apply prefix_app_r.
Qed.

(** The content of the object that [Build] gives. *)
Lemma read_built h0 datas b :
  read read_fuel (built_objects h0 datas (templates_at (length h0) b)) (IMap (length h0)) =
  Some (VMap (workflow_doc b datas)).
Proof.
  unfold read_fuel. eapply read_IMap.
  { unfold built_objects. apply lookup_app_l_Some, list_lookup_insert_eq.
    apply lookup_lt_Some with (1 := lookup_root _ _ _). }
  read_fields.
  - eapply read_IMap; [by apply (lookup_built_base h0 datas _ 1)|]. read_fields.
    apply read_IMaps. destruct b; [apply read_deletion_templates | apply read_install_templates].
  - eapply read_IMap; [apply lookup_built_metadata | read_fields].
Qed.

(** ** The builder refines its specification

    What a client sees of a builder is the data of the artifacts it has added
    so far; the package keeps whether [Delete] was ever called, on any
    builder. *)
Record builder_state := mkBuilderState {
  bs_delete : bool;
  bs_datas : list string
}.

Inductive builder_op :=
  | OpResources (resources : list string)
  | OpScripts (scripts : gmap string string)
  | OpDelete.

Definition spec_op (s : builder_state) (op : builder_op) : outcome builder_state :=
  match op with
  | OpResources rs => Val (mkBuilderState (bs_delete s) (bs_datas s ++ [resource_data rs]))
  | OpScripts scripts => if scripts == ∅ then Val s else Panicked scripts_panic
  | OpDelete => Val (mkBuilderState true (bs_datas s))
  end.

Fixpoint spec_ops (s : builder_state) (ops : list builder_op) : outcome builder_state :=
  match ops with
  | [] => Val s
  | op :: ops' => let? s := spec_op s op in spec_ops s ops'
  end.

Section refinement.
Context `{GoRange, ContentSettersLaws}.

Definition run_op (t : list nat) (wb : workflowBuilder) (op : builder_op) : BM workflowBuilder :=
  match op with
  | OpResources rs => builder_Resources wb rs
  | OpScripts scripts => builder_Scripts t wb scripts
  | OpDelete => builder_Delete wb
  end.

(** A chain of calls: each is made on what the one before returned. *)
Fixpoint run_ops (t : list nat) (wb : workflowBuilder) (ops : list builder_op)
    : BM workflowBuilder :=
  match ops with
  | [] => mret wb
  | op :: ops' => wb ← run_op (length ops' :: t) wb op; run_ops t wb ops'
  end.

(** [New().op1(...)...opn(...).Build()] *)
Definition build_workflow (t : list nat) (ops : list builder_op) : BM loc :=
  wb ← New; wb ← run_ops t wb ops; Build wb.

Lemma run_ops_spec t h0 ops s :
  run_ops t (builder_at (length h0)) ops
    (mkPackageState (builder_objects h0 (bs_datas s) []) (bs_delete s)) =
  let? s' := spec_ops s ops in
  Val (builder_at (length h0), mkPackageState (builder_objects h0 (bs_datas s') []) (bs_delete s')).
Proof.
  revert s. induction ops as [|op ops IH]; intros s; [done|].
  cbn [run_ops spec_ops]. destruct op as [rs|scripts|]; cbn [run_op spec_op].
  - erewrite St_bind_step by apply Resources_run. cbn [outcome_bind].
    by rewrite <-(IH (mkBuilderState _ _)).
  - unfold mbind, St_bind. rewrite Scripts_run. case_bool_decide; [|done].
    cbn [outcome_bind]. apply IH.
  - erewrite St_bind_step by reflexivity. cbn [outcome_bind].
    by rewrite <-(IH (mkBuilderState _ _)).
Qed.

(** A chain of calls, evaluated. *)
Lemma build_workflow_run t ops w :
  build_workflow t ops w =
  let? s := spec_ops (mkBuilderState (doDelete w) []) ops in
  Val (length (objects w),
       mkPackageState (built_objects (objects w) (bs_datas s)
                  (templates_at (length (objects w)) (bs_delete s))) (bs_delete s)).
Proof.
  unfold build_workflow. erewrite St_bind_step by apply New_run.
  pose proof (run_ops_spec t (objects w) ops (mkBuilderState (doDelete w) [])) as Hrun.
  cbn [bs_datas bs_delete] in Hrun.
  destruct (spec_ops _ ops) as [s|msg]; cbn [outcome_bind] in *.
  - erewrite St_bind_step by exact Hrun. apply Build_run.
  - unfold mbind, St_bind. by rewrite Hrun.
Qed.

(** C18: For every chain of calls on a new builder, made in any state of the
    process: when the specification panics (a script is added) so does the
    builder, with the same message; otherwise [Build] returns a workflow
    whose content is exactly the document of the specification, the package
    variable is as specified, and no object that existed before is changed. *)
Theorem builder_refines t ops w :
  match spec_ops (mkBuilderState (doDelete w) []) ops with
  | Panicked msg => build_workflow t ops w = Panicked msg
  | Val s => exists wf w',
      build_workflow t ops w = Val (wf, w') /\
      read read_fuel (objects w') (IMap wf) = Some (VMap (workflow_doc (bs_delete s) (bs_datas s))) /\
      doDelete w' = bs_delete s /\
      objects w `prefix_of` objects w'
  end.
Proof.
  pose proof (build_workflow_run t ops w) as Hrun.
  destruct (spec_ops _ ops) as [s|msg]; cbn [outcome_bind] in Hrun; [|exact Hrun].
  eexists _, _. split_and!; [exact Hrun | apply read_built | done | apply prefix_built].
Qed.
End refinement.

(** ** The data of an artifact

    The concatenated resources split into the same resources again, each
    ended by a newline, and an empty document at the end. *)
Definition terminated (r : string) : string :=
  if HasSuffix r newline then r else r +:+ newline.

(** A text that the separator does not cut, and that does not end in a
    separator without its newline. *)
Definition single_document (r : string) : bool :=
  negb (Contains r documents_sep) && negb (HasSuffix r "---").

Ltac prefix_cases :=
  unfold HasPrefix, documents_sep, newline; rewrite ?sapp_cons, ?sapp_nil_l;
  cbn [strip_prefix]; repeat case_bool_decide; simplify_eq; try done.

(** The separator has its only newline at the end, so it cannot start inside
    a text that ends in a newline and reach beyond it. *)
Lemma no_start_terminated p s :
  Contains p documents_sep = false -> HasSuffix p newline = true ->
  no_start documents_sep p s = true.
Proof.
  induction p as [|a p IH]; intros Hc Hs; [done|].
  cbn [Contains] in Hc. apply orb_false_elim in Hc as [Ha Hc].
  apply HasSuffix_spec in Hs as [q Hq]. cbn [no_start].
  apply andb_true_intro. split.
  - apply negb_true_iff.
    destruct (decide (4 <= String.length (String a p))) as [Hl|Hl]; [by rewrite HasPrefix_long|].
    rewrite Hq in Hl |- *. rewrite slength_app in Hl. simpl in Hl.
    destruct q as [|b [|c [|d q]]]; simpl in Hl; [| | | lia];
      prefix_cases.
  - destruct q as [|b q]; [by injection Hq as -> ->|].
    rewrite sapp_cons in Hq. simplify_eq.
    apply IH; [done|]. apply HasSuffix_spec. by exists q.
Qed.
Lemma Contains_newline r : single_document r = true -> Contains (r +:+ newline) documents_sep = false.
Proof.
  unfold single_document. induction r as [|a r IH]; intros Hr; [done|].
  apply andb_prop in Hr as [Hc Hd]. apply negb_true_iff in Hc, Hd.
  cbn [Contains] in Hc. apply orb_false_elim in Hc as [Ha Hc].
  rewrite sapp_cons. cbn [Contains]. apply orb_false_intro.
  - rewrite <-sapp_cons.
    destruct (decide (4 <= String.length (String a r))) as [Hl|Hl]; [by rewrite HasPrefix_long|].
    destruct r as [|b [|c [|d r]]]; simpl in Hl; [| | | lia];
      prefix_cases.
  - apply IH. rewrite Hc. simpl. apply negb_true_iff.
    destruct (HasSuffix r "---") eqn:Hs; [|done]. by rewrite (HasSuffix_cons _ _ _ Hs) in Hd.
Qed.

Lemma resource_data_acc rs acc :
  foldl (fun data r => data +:+ (r +:+ resource_separator r)) acc rs = acc +:+ resource_data rs.
Proof.
  unfold resource_data. revert acc. induction rs as [|r rs IH]; intros acc; cbn [foldl].
  - by rewrite sapp_nil_r.
  - rewrite (IH (acc +:+ _)), (IH ("" +:+ _)). by rewrite !sapp_nil_l, sapp_assoc.
Qed.

Lemma resource_data_cons r rs :
  resource_data (r :: rs) = terminated r +:+ (documents_sep +:+ resource_data rs).
Proof.
  unfold resource_data at 1. cbn [foldl]. rewrite resource_data_acc, sapp_nil_l.
  unfold resource_separator, terminated. destruct (HasSuffix r newline); cbn [negb].
  - by rewrite !sapp_assoc.
  - by rewrite !sapp_assoc.
Qed.

Lemma terminated_newline r : HasSuffix (terminated r) newline = true.
Proof.
  unfold terminated. destruct (HasSuffix r newline) eqn:Hr; [done|].
  apply HasSuffix_spec. by exists r.
Qed.

Lemma terminated_single r : single_document r = true -> Contains (terminated r) documents_sep = false.
Proof.
  intros Hr. unfold terminated. destruct (HasSuffix r newline); [|by apply Contains_newline].
  apply andb_prop in Hr as [Hr _]. by apply negb_true_iff.
Qed.

Lemma split_resource_data rs :
  Forall (fun r => single_document r = true) rs ->
  Split (resource_data rs) documents_sep = (terminated <$> rs) ++ [""].
Proof.
  induction 1 as [|r rs Hr Hrs IH]; [done|].
  rewrite resource_data_cons, Split_piece, IH; [done | done |].
  apply no_start_terminated; [by apply terminated_single | apply terminated_newline].
Qed.

(** ** What the controller does with a built workflow *)

(** The entrypoint of a workflow is the name of one of its templates. *)
Definition entrypoint_defined (wf : object) : bool :=
  match obj_path wf ["spec"; "entrypoint"], obj_path wf ["spec"; "templates"] with
  | Some (VString entrypoint), Some (VSlice templates) =>
      existsb (fun t =>
        match t with
        | VMap t => match obj_path t ["name"] with
                    | Some (VString name) => name == entrypoint
                    | _ => false
                    end
        | _ => false
        end) templates
  | _, _ => false
  end.

Definition is_OpDelete (op : builder_op) : bool :=
  match op with OpDelete => true | _ => false end.

Lemma spec_ops_delete s ops s' :
  spec_ops s ops = Val s' -> bs_delete s' = bs_delete s || existsb is_OpDelete ops.
Proof.
  revert s. induction ops as [|op ops IH]; intros s Hs; cbn [spec_ops existsb] in *.
  { simplify_eq. by rewrite orb_false_r. }
  destruct (spec_op s op) as [s1|] eqn:Hop; [|done]. cbn [outcome_bind] in Hs.
  rewrite (IH _ Hs). destruct op as [rs|scripts|]; cbn in *; [by simplify_eq | | ].
  - case_bool_decide; by simplify_eq.
  - simplify_eq. by rewrite orb_true_r.
Qed.

Section consumers.
Context `{GoRange, ContentSettersLaws}.

(** C38: Once [Delete] has been called, on this builder or on any builder
    of the process, every workflow that is built afterwards is a deletion
    workflow; and the entrypoint of a built workflow names one of its
    templates exactly when it is not a deletion workflow. *)
Theorem delete_is_sticky t ops w wf w' :
  build_workflow t ops w = Val (wf, w') ->
  doDelete w' = doDelete w || existsb is_OpDelete ops /\
  exists content,
    read read_fuel (objects w') (IMap wf) = Some (VMap content) /\
    entrypoint_defined content = negb (doDelete w').
Proof.
  rewrite build_workflow_run.
  destruct (spec_ops _ ops) as [s|msg] eqn:Hs; cbn [outcome_bind]; intros Hb; simplify_eq.
  cbn [objects doDelete]. split; [by apply spec_ops_delete in Hs|].
  eexists. split; [apply read_built|]. by destruct (bs_delete s).
Qed.

Context `{UnstructuredLaws}.
Context `{!Yaml}.

Lemma process_none a m :
  obj_absent m ["arguments"; "artifacts"] = true -> obj_absent m ["resource"; "manifest"] = true ->
  processWorkflowResources a (VMap m) = Val (Ok (VMap m)).
Proof.
  intros Ha Hm. unfold processWorkflowResources.
  by rewrite (NestedFieldNoCopy_absent _ _ Ha), (NestedFieldNoCopy_absent _ _ Hm).
Qed.

Lemma process_install_step a :
  processWorkflowResources a install_step_doc = Val (Ok install_step_doc).
Proof.
  unfold processWorkflowResources, install_step_doc.
  by rewrite (NestedFieldNoCopy_found _ _ (VSlice [])).
Qed.

Lemma process_no_steps a m :
  obj_absent m ["arguments"; "artifacts"] = true -> obj_absent m ["resource"; "manifest"] = true ->
  obj_absent m ["steps"] = true -> process_template a (VMap m) = Val (Ok (VMap m)).
Proof.
  intros Ha Hm Hs. unfold process_template. rewrite process_none by done. cbn [try_bind outcome_bind].
  by rewrite (NestedFieldNoCopy_absent _ _ Hs).
Qed.

Lemma process_with_steps a name steps :
  Forall (fun s => processWorkflowResources a s = Val (Ok s)) steps ->
  let template := VMap [("name", VString name); ("steps", VSlice [VSlice steps])] in
  process_template a template = Val (Ok template).
Proof.
  intros Hs. cbn zeta. unfold process_template. rewrite process_none by done.
  cbn [try_bind outcome_bind]. rewrite (NestedFieldNoCopy_found _ _ (VSlice [VSlice steps])) by done.
  rewrite (try_map_same _ [VSlice steps]); [done|].
  constructor; [|constructor]. unfold process_steps. by rewrite try_map_same.
Qed.

(** The controller's pass over the artifacts of a workflow, which adds
    the addon's labels to the manifests it finds, leaves a workflow of the
    builder exactly as it is: the builder puts manifests into the inputs of
    a template, where the pass does not look. *)
Theorem built_workflow_not_labelled a del datas wf :
  obj_lookup wf "spec" = obj_lookup (workflow_doc del datas) "spec" ->
  configureWorkflowArtifacts a wf = Val (Ok wf).
Proof.
  intros Hspec. change (obj_lookup (workflow_doc del datas) "spec") with
    (Some (VMap [("entrypoint", VString "entry");
                 ("serviceAccountName", VString "addon-manager-workflow-installer-sa");
                 ("templates", VSlice (if del then deletion_templates
                                       else install_templates datas))])) in Hspec.
  unfold configureWorkflowArtifacts. rewrite (NestedFieldNoCopy_found _ ["spec"] _ Hspec).
  cbn [default from_option id]. rewrite process_none by done. cbn [try_bind outcome_bind set_path].
  rewrite (obj_insert_same _ _ _ Hspec).
  set (ts := if del then deletion_templates else install_templates datas) in *.
  rewrite (NestedFieldNoCopy_found _ _ (VSlice ts)) by (cbn [obj_path]; by rewrite Hspec).
  rewrite (try_map_same _ ts).
  - cbn [try_bind outcome_bind set_path]. rewrite Hspec.
    rewrite (obj_insert_same "templates" (VSlice ts)) by done.
    by rewrite (obj_insert_same _ _ _ Hspec).
  - unfold ts. destruct del; (constructor; [|constructor; [|constructor]]).
    + apply (process_with_steps a "delete-wf"). constructor; [|constructor]. by apply process_none.
    + by apply process_no_steps.
    + apply (process_with_steps a "entry"). apply Forall_replicate, process_install_step.
    + by apply process_no_steps.
Qed.
End consumers.

(** ** A concrete instance *)

#[global] Instance heap_setters : ContentSetters := {|
  content_SetGroupVersionKind g l h :=
    match h !! l with
    | Some m =>
        <[l := obj_insert "kind" (IString (GVK_Kind g))
          (obj_insert "apiVersion" (IString (GVK_Group g +:+ "/" +:+ GVK_Version g)) m)]> h
    | None => h
    end;
  content_SetGenerateName n l h :=
    match h !! l with
    | Some m =>
        match obj_lookup m "metadata" with
        | Some (IMap lm) => alter (obj_insert "generateName" (IString n)) lm h
        | Some _ => h
        | None => <[l := obj_insert "metadata" (IMap (length h)) m]> h
                    ++ [[("generateName", IString n)]]
        end
    | None => h
    end
|}.

#[global] Instance heap_setters_laws : ContentSettersLaws.
Proof.
  split; intros; cbn [content_SetGroupVersionKind content_SetGenerateName heap_setters].
  - by rewrite H.
  - by rewrite H, H0.
Qed.

Definition sample_package : package_state := mkPackageState [[("other", IString "object")]] false.

Lemma builder_refines_witness :
  exists wf w',
    @build_workflow range_fwd heap_setters [] [OpScripts ∅; OpResources ["a: 1"; "b: 2"]]
      sample_package = Val (wf, w') /\
    read read_fuel (objects w') (IMap wf) =
      Some (VMap (workflow_doc false [resource_data ["a: 1"; "b: 2"]])) /\
    doDelete w' = false /\ objects sample_package `prefix_of` objects w'.
Proof.
  exact (@builder_refines range_fwd heap_setters heap_setters_laws []
    [OpScripts ∅; OpResources ["a: 1"; "b: 2"]] sample_package).
Defined.

Lemma delete_is_sticky_witness :
  exists w', @build_workflow range_fwd heap_setters [] [OpDelete] sample_package = Val (1, w') /\
  doDelete w' = true /\
  exists content, read read_fuel (objects w') (IMap 1) = Some (VMap content) /\
    entrypoint_defined content = false.
Proof.
  eexists. split; [vm_compute; reflexivity|].
  refine (@delete_is_sticky range_fwd heap_setters heap_setters_laws [] [OpDelete] sample_package
    1 _ _).
  vm_compute. reflexivity.
Defined.

Lemma built_workflow_not_labelled_witness :
  obj_lookup (workflow_doc false ["a: 1"]) "spec" =
    obj_lookup (workflow_doc false ["a: 1"]) "spec" /\
  @configureWorkflowArtifacts
    (Build_Yaml (fun _ o => (o, None)) (fun _ => Ok "text")) tree_object
    (mkAddon (mkObjectMeta "a" "ns" "" None [] ∅) zero_AddonSpec zero_AddonStatus)
    (workflow_doc false ["a: 1"]) = Val (Ok (workflow_doc false ["a: 1"])).
Proof.
  split; [reflexivity|]. eapply (@built_workflow_not_labelled tree_object tree_object_laws).
  reflexivity.
Defined.
