(* ===== verification/Addonctl.v ===== *)
(** The command line tool, [pkg/addonctl/addonctl.go].

    The package variables that hold the flags and what was parsed from them
    are a record; the command threads it together with the state of the
    workflow builder's package.  [create] is what cobra runs for
    [addonctl create]: the [Args] check, then [PreRunE], then [Run]. *)
From S2P Require Import Prelude GoStrings GoFmt AddonTypes Common VersionCache Unstructured.
From S2P Require Import TreeObject Effects Workflow GoHeap Builder BuilderSpec.

(** ** Package variables *)

(** [params] is the only map that is ever nil. *)
Record globals := mkGlobals {
  g_addonName : string;
  g_clusterName : string;
  g_clusterRegion : string;
  g_dryRun : bool;
  g_description : string;
  g_dependencies : string;
  g_install : string;
  g_namespace : string;
  g_pkgChannel : string;
  g_pkgType : string;
  g_pkgVersion : string;
  g_paramsRaw : string;
  g_prereqs : string;
  g_secretsRaw : string;
  g_selector : string;
  dependenciesMap : gmap string string;
  params : option (gmap string string);
  prereqResources : list string;
  prereqScripts : gmap string string;
  installResources : list string;
  installScripts : gmap string string;
  secretsList : list string;
  selectorMap : gmap string string
}.

Definition addonMgrSystemNamespace : string := "addon-manager-system".

(** Assignments to the variables the parsers write. *)
Definition set_addonName (n : string) (g : globals) : globals :=
  mkGlobals n (g_clusterName g) (g_clusterRegion g) (g_dryRun g) (g_description g)
    (g_dependencies g) (g_install g) (g_namespace g) (g_pkgChannel g) (g_pkgType g)
    (g_pkgVersion g) (g_paramsRaw g) (g_prereqs g) (g_secretsRaw g) (g_selector g)
    (dependenciesMap g) (params g) (prereqResources g) (prereqScripts g) (installResources g)
    (installScripts g) (secretsList g) (selectorMap g).

(** The parsed variables, all at once. *)
Definition set_parsed (deps : gmap string string) (ps : option (gmap string string))
    (pr : list string) (psc : gmap string string) (ir : list string) (isc : gmap string string)
    (secrets : list string) (sel : gmap string string) (g : globals) : globals :=
  mkGlobals (g_addonName g) (g_clusterName g) (g_clusterRegion g) (g_dryRun g) (g_description g)
    (g_dependencies g) (g_install g) (g_namespace g) (g_pkgChannel g) (g_pkgType g)
    (g_pkgVersion g) (g_paramsRaw g) (g_prereqs g) (g_secretsRaw g) (g_selector g)
    deps ps pr psc ir isc secrets sel.

Definition set_dependenciesMap (d : gmap string string) (g : globals) : globals :=
  set_parsed d (params g) (prereqResources g) (prereqScripts g) (installResources g)
    (installScripts g) (secretsList g) (selectorMap g) g.
Definition set_params (p : option (gmap string string)) (g : globals) : globals :=
  set_parsed (dependenciesMap g) p (prereqResources g) (prereqScripts g) (installResources g)
    (installScripts g) (secretsList g) (selectorMap g) g.
Definition set_prereqResources (r : list string) (g : globals) : globals :=
  set_parsed (dependenciesMap g) (params g) r (prereqScripts g) (installResources g)
    (installScripts g) (secretsList g) (selectorMap g) g.
Definition set_prereqScripts (s : gmap string string) (g : globals) : globals :=
  set_parsed (dependenciesMap g) (params g) (prereqResources g) s (installResources g)
    (installScripts g) (secretsList g) (selectorMap g) g.
Definition set_installResources (r : list string) (g : globals) : globals :=
  set_parsed (dependenciesMap g) (params g) (prereqResources g) (prereqScripts g) r
    (installScripts g) (secretsList g) (selectorMap g) g.
Definition set_installScripts (s : gmap string string) (g : globals) : globals :=
  set_parsed (dependenciesMap g) (params g) (prereqResources g) (prereqScripts g)
    (installResources g) s (secretsList g) (selectorMap g) g.
Definition set_secretsList (l : list string) (g : globals) : globals :=
  set_parsed (dependenciesMap g) (params g) (prereqResources g) (prereqScripts g)
    (installResources g) (installScripts g) l (selectorMap g) g.
Definition set_selectorMap (m : gmap string string) (g : globals) : globals :=
  set_parsed (dependenciesMap g) (params g) (prereqResources g) (prereqScripts g)
    (installResources g) (installScripts g) (secretsList g) m g.

Abbreviation GM := (St globals).

(** [err = f(); if err != nil { return err }] *)
Definition unless_err {S : Type} (m : St S (option error)) (k : St S (option error))
    : St S (option error) :=
  err ← m; match err with Some e => mret (Some e) | None => k end.

(** [for _, x := range l { if err := f(x); err != nil { return err } }; return nil] *)
Fixpoint for_err {S A : Type} (f : A -> St S (option error)) (l : list A)
    : St S (option error) :=
  match l with
  | [] => mret None
  | x :: l' => unless_err (f x) (for_err f l')
  end.

(** ** Parsing flags *)

Definition index_panic {S A : Type} : St S A :=
  go_panic "runtime error: index out of range [1] with length 1".

Definition nil_map_message : string := "assignment to entry in nil map".

Definition nil_map_panic {S A : Type} : St S A := go_panic nil_map_message.

Definition parseSelector (sel : string) : GM (option error) :=
  if sel == "" then mret None else
  let s := Split sel ":" in
  match s with
  | [s0; s1] =>
      modify_state (fun g => set_selectorMap (<[s0 := s1]> (selectorMap g)) g);; mret None
  | [s0] =>
      if s0 == ":" then mret (Some (Errorf "Missing ':' separator in selector"))
      else mret (Some (Errorf "Dependency had multiple separators"))
  | _ => mret (Some (Errorf "Dependency had multiple separators"))
  end.

(** One item of the comma separated list. *)
Definition parse_param (raw item : string) : GM (option error) :=
  let kv := Split item "=" in
  match kv with
  | [k] =>
      if k == "=" then
        mret (Some (Errorf ("Unable to parse addon params: '" +:+ raw +:+ "'. Key-value pair "
          +:+ item +:+ " does not have separator '='")))
      else index_panic
  | k :: v :: _ =>
      g ← get_state;
      match params g with
      | None => nil_map_panic
      | Some m => modify_state (set_params (Some (<[k := v]> m)));; mret None
      end
  | [] => index_panic
  end.

Definition parseAddonParams (raw : string) : GM (option error) :=
  if raw == "" then modify_state (set_params None);; mret None
  else for_err (parse_param raw) (Split raw ",").

Definition validatePkgType (pt : string) : option error :=
  let t : PackageType := pt in
  if (t != HelmPkg) && (t != ShipPkg) && (t != KustomizePkg) && (t != CnabPkg)
     && (t != CompositePkg)
  then Some (Errorf "unsupported package type") else None.

Definition parse_dependency (dep : string) : GM (option error) :=
  let d := Split dep ":" in
  match d with
  | [d0; d1] =>
      modify_state (fun g => set_dependenciesMap (<[d0 := d1]> (dependenciesMap g)) g);; mret None
  | [d0] =>
      if d0 == ":" then mret (Some (Errorf "missing ':' separator in dependency"))
      else mret (Some (Errorf "dependency had multiple separators"))
  | _ => mret (Some (Errorf "dependency had multiple separators"))
  end.

Definition parseDependencies (deps : string) : GM (option error) :=
  if deps == "" then mret None else for_err parse_dependency (Split deps ",").

Definition parseSecrets (raw : string) : GM (option error) :=
  if raw == "" then mret None else
  let secrets := Split raw "," in
  if bool_decide (length secrets = 1) && bool_decide (secrets !! 0 = Some ",")
  then mret (Some (Errorf ("Error parsing secrets " +:+ raw)))
  else
    for_each (fun item => modify_state (fun g => set_secretsList (secretsList g ++ [item]) g))
      secrets;;
    mret None.

(** ** Reading manifests

    The file system and the environment, as one invocation sees them. *)
Record FileInfo := mkFileInfo {
  fi_Name : string;
  fi_IsDir : bool
}.

Class OS := {
  os_Getenv : string -> string;
  filepath_Join : string -> string -> string;
  os_Stat : string -> result FileInfo;
  os_ReadDir : string -> result (list string);
  os_ReadFile : string -> result string
}.

(** [errors.Wrapf(err, msg)] *)
Definition Wrapf (err : error) (msg : string) : error := Errorw (msg +:+ ": " +:+ Error err) err.

(** Where the resources and scripts of a step go; a step of another name goes
    nowhere. *)
Definition add_resource (stepName resource : string) (g : globals) : globals :=
  if stepName == "prereqs" then set_prereqResources (prereqResources g ++ [resource]) g
  else if stepName == "install" then set_installResources (installResources g ++ [resource]) g
  else g.

Definition store_script (stepName name data : string) (g : globals) : globals :=
  if stepName == "prereqs" then set_prereqScripts (<[name := data]> (prereqScripts g)) g
  else if stepName == "install" then set_installScripts (<[name := data]> (installScripts g)) g
  else g.

Section files.
Context `{OS, GoRange}.

Definition parseResources (filename stepName : string) : GM (option error) :=
  match os_ReadFile filename with
  | Err err => mret (Some (Wrapf err ("failed to read file " +:+ filename)))
  | Ok rawBytes =>
      for_each (fun resource =>
          if TrimSpace resource == "" then mret ()
          else modify_state (add_resource stepName resource))
        (Split rawBytes documents_sep);;
      mret None
  end.

Definition is_yaml (name : string) : bool := HasSuffix name ".yaml" || HasSuffix name ".yml".

(** A file of a directory. *)
Definition extract_dir_entry (path stepName name : string) : GM (option error) :=
  if HasSuffix name ".py" then
    match os_ReadFile name with
    | Err _ => mret (Some (Errorf ("unable to read file " +:+ name)))
    | Ok data => modify_state (store_script stepName name data);; mret None
    end
  else if is_yaml name then parseResources path stepName
  else mret None.

Definition extract_step (step : string * string) : GM (option error) :=
  let stepName := step.1 in
  let path := step.2 in
  if path == "" then mret None else
  let path := filepath_Join (os_Getenv "PWD") path in
  match os_Stat path with
  | Err err => mret (Some err)
  | Ok fi =>
      if fi_IsDir fi then
        match os_ReadDir path with
        | Err err => mret (Some (Wrapf err ("failed to read dir path " +:+ path)))
        | Ok files => for_err (extract_dir_entry path stepName) files
        end
      else if HasSuffix (fi_Name fi) ".py" then
        match os_ReadFile path with
        | Err _ => mret (Some (Errorf ("unable to read file " +:+ fi_Name fi)))
        | Ok data => modify_state (store_script stepName (fi_Name fi) data);; mret None
        end
      else if is_yaml (fi_Name fi) then parseResources path stepName
      else mret None
  end.

Definition extractResources (t : list nat) (prereqsPath installPath : string)
    : GM (option error) :=
  let lifecycleSteps : gmap string string :=
    <["install" := installPath]> (<["prereqs" := prereqsPath]> ∅) in
  for_err extract_step (range t lifecycleSteps).

Definition parseAllArgs (t : list nat) : GM (option error) :=
  g ← get_state;
  unless_err (extractResources t (g_prereqs g) (g_install g))
  (unless_err (parseAddonParams (g_paramsRaw g))
  (unless_err (parseDependencies (g_dependencies g))
  (unless_err (parseSecrets (g_secretsRaw g))
  (unless_err (parseSelector (g_selector g))
  (mret (validatePkgType (g_pkgType g))))))).
End files.

(** ** The create command *)

Definition is_letter (a : ascii) : bool :=
  let c := nat_of_ascii a in
  (65 <=? c)%nat && (c <=? 90)%nat || (97 <=? c)%nat && (c <=? 122)%nat.

Definition is_digit (a : ascii) : bool :=
  let c := nat_of_ascii a in (48 <=? c)%nat && (c <=? 57)%nat.

(** [^[a-zA-Z][a-zA-Z0-9-.]*$] *)
Definition name_matches (s : string) : bool :=
  match chars s with
  | [] => false
  | a :: l => is_letter a
      && forallb (fun c => is_letter c || is_digit c || (c == "-"%char) || (c == "."%char)) l
  end.

Definition check_args (args : list string) : GM (option error) :=
  match args with
  | [] => mret (Some (Errorf "requires more arguments"))
  | a :: _ =>
      modify_state (set_addonName a);;
      if negb (name_matches a) then mret (Some (Errorf "Invalid addon name")) else mret None
  end.

(** Outside the repository: [encoding/json], the resource version of an
    unstructured object, and the dynamic client for addons of a namespace. *)
Class CtlServices := {
  json_MarshalIndent : GroupVersionKind -> Addon -> result string;
  json_Marshal_addon : GroupVersionKind -> Addon -> string * option error;
  json_Unmarshal_map : string -> result object;
  un_GetResourceVersion : object -> string;
  un_SetResourceVersion : string -> object -> object;
  client_Get : string -> string -> result object;
  client_Update : string -> object -> option error;
  client_Create : string -> object -> option error
}.

(** Requests that change the cluster. *)
Inductive request :=
  | ReqUpdate (ns : string) (o : object)
  | ReqCreate (ns : string) (o : object).

(** How the command ends: [log.Fatal] in the conversion of a workflow, the
    output of a dry run (nothing when it cannot be encoded), an addon that
    cannot be converted, or a request and its answer. *)
Inductive run_end :=
  | RunExit (e : error)
  | RunPrinted (text : option string)
  | RunBadAddon (e : error)
  | RunSent (r : request) (answer : option error).

(** The package variables of the tool and the state of package [workflows]. *)
Record ctl := mkCtl {
  vars : globals;
  pkg : package_state
}.

Definition on_vars {A : Type} (m : GM A) : St ctl A := fun c =>
  match m (vars c) with
  | Val (a, g) => Val (a, mkCtl g (pkg c))
  | Panicked msg => Panicked msg
  end.

Definition on_pkg {A : Type} (m : BM A) : St ctl A := fun c =>
  match m (pkg c) with
  | Val (a, w) => Val (a, mkCtl (vars c) w)
  | Panicked msg => Panicked msg
  end.

Definition addon_GVK : GroupVersionKind := mkGVK "addonmgr.keikoproj.io" "v1alpha1" "Addon".

Section create.
Context `{OS, GoRange, ContentSetters, Yaml, CtlServices}.

(** [x := ConvertUnstructuredWorkflowToString(wf)] and what follows. *)
Definition with_template (m : BM loc) (k : string -> St ctl run_end) : St ctl run_end :=
  text ← on_pkg (wf ← m; ConvertUnstructuredWorkflowToString wf);
  match text with
  | Text s => k s
  | Fatal e => mret (RunExit e)
  end.

Definition set_Template (s : string) (w : WorkflowType) : WorkflowType :=
  mkWorkflowType (NamePrefix w) (Role w) (WorkflowRole w) s.

(** The fields that are set from the package variables. *)
Definition base_instance (g : globals) : Addon :=
  let spec := {|
    Spec_Package := {|
      PkgChannel := g_pkgChannel g;
      PkgName := g_addonName g;
      PkgVersion := g_pkgVersion g;
      PkgType := g_pkgType g;
      PkgDescription := g_description g;
      PkgDeps := dependenciesMap g |};
    Params := mkAddonParams (g_namespace g)
      (mkClusterContext (g_clusterName g) (g_clusterRegion g) ∅) ∅;
    Selector := mkLabelSelector (selectorMap g) [];
    Overrides := Overrides zero_AddonSpec;
    Secrets := (fun secret => mkSecretCmdSpec secret 0 []) <$> secretsList g;
    Lifecycle := Lifecycle zero_AddonSpec |} in
  mkAddon (mkObjectMeta (g_addonName g) addonMgrSystemNamespace "" None [] ∅) spec zero_AddonStatus.

(** The addon without its workflows.  [Spec.Params.Data] is a nil map, so the
    first round of the loop over [params] panics. *)
Definition new_instance (t : list nat) (g : globals) : outcome Addon :=
  let instance := base_instance g in
  match range t (default ∅ (params g)) with
  | [] => Val instance
  | _ :: _ => Panicked nil_map_message
  end.

Definition set_Lifecycle (f : LifecycleWorkflowSpec -> LifecycleWorkflowSpec) (a : Addon) : Addon :=
  set_Spec (fun s => mkAddonSpec (Spec_Package s) (Params s) (Selector s) (Overrides s) (Secrets s)
    (f (Lifecycle s))) a.

Definition set_templates (prereqs install delete : string) : Addon -> Addon :=
  set_Lifecycle (fun l => mkLifecycleWorkflowSpec (set_Template prereqs (LC_Prereqs l))
    (set_Template install (LC_Install l)) (set_Template delete (LC_Delete l)) (LC_Validate l)).

(** Sending the addon to the cluster. *)
Definition submit_addon (name : string) (instance : Addon) : run_end :=
  let jsonInstance := (json_Marshal_addon addon_GVK instance).1 in
  match json_Unmarshal_map jsonInstance with
  | Err err => RunBadAddon err
  | Ok addon =>
      match client_Get addonMgrSystemNamespace name with
      | Ok addonObject =>
          let addon := un_SetResourceVersion (un_GetResourceVersion addonObject) addon in
          RunSent (ReqUpdate addonMgrSystemNamespace addon)
            (client_Update addonMgrSystemNamespace addon)
      | Err _ =>
          RunSent (ReqCreate addonMgrSystemNamespace addon)
            (client_Create addonMgrSystemNamespace addon)
      end
  end.

Definition Run (t : list nat) : St ctl run_end :=
  c ← get_state;
  let g := vars c in
  match new_instance (0 :: t) g with
  | Panicked msg => go_panic msg
  | Val instance =>
      with_template (build_workflow (1 :: t)
          [OpScripts (prereqScripts g); OpResources (prereqResources g)]) (fun prereqs =>
      with_template (build_workflow (2 :: t)
          [OpScripts (installScripts g); OpResources (installResources g)]) (fun install =>
      with_template (build_workflow (3 :: t) [OpDelete]) (fun delete =>
      let instance := set_templates prereqs install delete instance in
      if g_dryRun g then
        mret (RunPrinted (match json_MarshalIndent addon_GVK instance with
                          | Ok b => Some b
                          | Err _ => None
                          end))
      else mret (submit_addon (g_addonName g) instance))))
  end.

(** The whole command: an error of the checks is printed by cobra. *)
Definition create (t : list nat) (args : list string) : St ctl (error + run_end) :=
  err ← on_vars (unless_err (check_args args) (parseAllArgs (4 :: t)));
  match err with
  | Some e => mret (inl e)
  | None => e ← Run t; mret (inr e)
  end.
End create.
