(* ===== verification/AddonctlSpec.v ===== *)
(** What [addonctl] does: its flag parsers, the manifests it reads, and the
    outcome of [addonctl create] on every branch. *)
From S2P Require Import Prelude GoStrings GoFmt AddonTypes Common VersionCache Unstructured.
From S2P Require Import TreeObject Effects Workflow GoHeap Builder BuilderSpec Addonctl.

(** ** Sequences of fallible steps *)

Lemma unless_err_None {S} (m k : St S (option error)) s s' :
  unless_err m k s = Val (None, s') -> exists s1, m s = Val (None, s1) /\ k s1 = Val (None, s').
Proof.
  unfold unless_err. rewrite St_bind_Val. intros ([e|] & s1 & Hm & Hk); [done|]. by exists s1.
Qed.

(** An invariant of every step is an invariant of the loop. *)
Lemma for_err_inv {S A} (P : S -> Prop) (f : A -> St S (option error)) l s r s' :
  (forall x s r s', x ∈ l -> P s -> f x s = Val (r, s') -> P s') ->
  P s -> for_err f l s = Val (r, s') -> P s'.
Proof.
  revert s. induction l as [|x l IH]; intros s Hf Hs; cbn [for_err].
  { by st_inv. }
  unfold unless_err. rewrite St_bind_Val. intros (e & s1 & Hx & Hk).
  assert (P s1) as Hs1 by (eapply Hf; [left | exact Hs | exact Hx]).
  destruct e; [by st_inv|].
  eapply IH; [|exact Hs1 | exact Hk]. intros y s0 ??? . apply Hf. by right.
Qed.

(** A loop whose steps are all successful. *)
Lemma for_err_ok {S A T} (f : A -> St S (option error)) (g : T -> S) (step : T -> A -> T) l acc :
  (forall x acc, x ∈ l -> f x (g acc) = Val (None, g (step acc x))) ->
  for_err f l (g acc) = Val (None, g (foldl step acc l)).
Proof.
  revert acc. induction l as [|x l IH]; intros acc Hf; cbn [for_err foldl]; [done|].
  unfold unless_err. erewrite St_bind_step by (apply Hf; left). cbn iota. apply IH.
  intros y acc' Hy. apply Hf. by right.
Qed.

Lemma for_err_fmap {S A B} (h : A -> B) (f : B -> St S (option error)) l s :
  for_err f (h <$> l) s = for_err (fun x => f (h x)) l s.
Proof.
  revert s. induction l as [|x l IH]; intros s; [done|]. cbn [for_err fmap list_fmap].
  unfold unless_err, mbind, St_bind. destruct (f (h x) s) as [[[e|] s1]|]; [done | apply IH | done].
Qed.

(** A loop with a step that always fails, and no step that panics. *)
Lemma for_err_fails {S A} (f : A -> St S (option error)) l s :
  (forall x s, x ∈ l -> exists r s', f x s = Val (r, s')) ->
  (exists x, x ∈ l /\ forall s r s', f x s = Val (r, s') -> r <> None) ->
  exists e s', for_err f l s = Val (Some e, s').
Proof.
  revert s. induction l as [|x l IH]; intros s Hret (y & Hy & Hfail); [by apply elem_of_nil in Hy|].
  cbn [for_err]. unfold unless_err.
  destruct (Hret x s) as (r & s1 & Hx); [left|]. erewrite St_bind_step by exact Hx.
  destruct r as [e|]; [by exists e, s1|]. apply IH; [intros; apply Hret; by right|].
  exists y. split; [|done]. apply elem_of_cons in Hy as [->|]; [|done].
  by apply Hfail in Hx.
Qed.

(** ** The package variables *)

Lemma set_dependenciesMap_twice m m' g :
  set_dependenciesMap m (set_dependenciesMap m' g) = set_dependenciesMap m g.
Proof. done. Qed.

Lemma set_dependenciesMap_id g : set_dependenciesMap (dependenciesMap g) g = g.
Proof. by destruct g. Qed.

Lemma set_secretsList_id g : set_secretsList (secretsList g) g = g.
Proof. by destruct g. Qed.

(** ** Dependencies *)

(** How [--deps] is written. *)
Definition deps_flag (l : list (string * string)) : string :=
  Join ((fun kv => kv.1 +:+ ":" +:+ kv.2) <$> l) ",".

Definition no_separator (s : string) : Prop := byte_free ","%char s /\ byte_free ":"%char s.

Lemma parse_dependency_pair k v g :
  no_separator k -> no_separator v ->
  parse_dependency (k +:+ ":" +:+ v) g =
  Val (None, set_dependenciesMap (<[k := v]> (dependenciesMap g)) g).
Proof.
  intros [_ Hk] [_ Hv]. unfold parse_dependency.
  rewrite (sapp_cons ":" ""), sapp_nil_l, Split_sep, !Split_free by done. reflexivity.
Qed.

(** What is passed to [--deps] as a list of [name:version] items ends
    up in the dependency map, later items over earlier ones and over what
    the map held, and nothing else changes. *)
Theorem parseDependencies_roundtrip l g :
  l <> [] -> Forall (fun kv => no_separator kv.1 /\ no_separator kv.2) l ->
  parseDependencies (deps_flag l) g =
  Val (None, set_dependenciesMap (foldl (fun m kv => <[kv.1 := kv.2]> m) (dependenciesMap g) l) g).
Proof.
  intros Hne Hl. unfold parseDependencies, deps_flag.
  assert (Forall (byte_free ","%char) ((fun kv => kv.1 +:+ ":" +:+ kv.2) <$> l)) as Hfree.
  { apply Forall_fmap. eapply Forall_impl; [exact Hl|]. intros kv [[Hk _] [Hv _]].
    unfold byte_free in *. cbn. rewrite !chars_app. set_solver. }
  rewrite bool_decide_false; [|by destruct l as [|[[] ?] [|? ?]]].
  rewrite Split_Join; [|by destruct l | done].
  rewrite for_err_fmap. rewrite <-(set_dependenciesMap_id g) at 1.
  apply (for_err_ok _ (fun m => set_dependenciesMap m g)).
  intros [k v] m Hkv. rewrite Forall_forall in Hl. destruct (Hl _ Hkv) as [Hk Hv].
  exact (parse_dependency_pair k v (set_dependenciesMap m g) Hk Hv).
Qed.

Definition multiple_separators : error := Errorf "dependency had multiple separators".

(** ** Parameters *)

Definition params_given (g : globals) : Prop := exists m, params g = Some m /\ m <> ∅.

Lemma parse_param_spec raw item g r g' :
  parse_param raw item g = Val (r, g') ->
  (r <> None /\ g' = g) \/
  (r = None /\ exists m k v, params g = Some m /\ g' = set_params (Some (<[k := v]> m)) g).
Proof.
  unfold parse_param. destruct (Split item "=") as [|k [|v kv]]; [done| |].
  - case_bool_decide; [|done]. st_inv. left. by split.
  - unfold nil_map_panic. st_eval. destruct (params g) as [m|] eqn:Hp; [|done]. st_inv.
    right. split; [done|]. by exists m, k, v.
Qed.

Lemma parse_param_given raw item g r g' :
  parse_param raw item g = Val (r, g') -> r = None \/ params_given g -> params_given g'.
Proof.
  intros Hp Hr. apply parse_param_spec in Hp as [[Hne ->]|(-> & m & k & v & Hm & ->)].
  - by destruct Hr.
  - exists (<[k := v]> m). split; [done|]. apply insert_non_empty.
Qed.

(** [--params] given: parsing it leaves a non-empty map. *)
Lemma parseAddonParams_given raw g g' :
  raw <> "" -> parseAddonParams raw g = Val (None, g') -> params_given g'.
Proof.
  intros Hraw. unfold parseAddonParams. rewrite bool_decide_false by done.
  pose proof (Split_length raw ",") as Hlen.
  destruct (Split raw ",") as [|x l]; simpl in Hlen; [lia|]. clear Hlen.
  cbn [for_err]. intros Hx. apply unless_err_None in Hx as (g1 & Hx & Hl).
  apply parse_param_given in Hx; [|by left]. revert Hl.
  apply (for_err_inv params_given); [|done].
  intros y g0 r g2 _ Hg Hy. eapply parse_param_given; [exact Hy | by right].
Qed.

Lemma parseAddonParams_empty g : parseAddonParams "" g = Val (None, set_params None g).
Proof. done. Qed.

(** ** What an accepted flag leaves *)

Lemma parseAddonParams_frame raw g r g' :
  parseAddonParams raw g = Val (r, g') -> g' = set_params (params g') g.
Proof.
  unfold parseAddonParams. case_bool_decide; [st_eval; by st_inv|].
  apply (for_err_inv (fun g' => g' = set_params (params g') g)); [|by destruct g].
  intros x g1 r1 g2 _ Hg Hx. apply parse_param_spec in Hx as [[_ ->]|(_ & m & k & v & _ & ->)];
    [done | by rewrite Hg].
Qed.

(** The items of [--deps] as pairs. *)
Definition dependency_pairs (flag : string) (l : list (string * string)) : Prop :=
  if decide (flag = "") then l = []
  else Forall2 (fun item kv => Split item ":" = [kv.1; kv.2]) (Split flag ",") l.

Definition with_pairs (m : gmap string string) (l : list (string * string)) : gmap string string :=
  foldl (fun m kv => <[kv.1 := kv.2]> m) m l.

Lemma parse_dependency_None dep g g' :
  parse_dependency dep g = Val (None, g') ->
  exists k v, Split dep ":" = [k; v] /\
    g' = set_dependenciesMap (<[k := v]> (dependenciesMap g)) g.
Proof.
  unfold parse_dependency. destruct (Split dep ":") as [|k [|v [|]]]; try case_bool_decide;
    st_eval; st_inv. by exists k, v.
Qed.

Lemma parseDependencies_None flag g g' :
  parseDependencies flag g = Val (None, g') ->
  exists l, dependency_pairs flag l /\
    g' = set_dependenciesMap (with_pairs (dependenciesMap g) l) g.
Proof.
  unfold parseDependencies, dependency_pairs. case_bool_decide as Hf.
  { destruct (decide (flag = "")); [|done]. st_inv. exists []. split; [done|]. by destruct g'. }
  destruct (decide (flag = "")); [done|]. generalize (Split flag ","). intros items.
  revert g. induction items as [|x items IH]; intros g Hrun; cbn [for_err] in Hrun.
  { st_inv. exists []. split; [constructor|]. by destruct g'. }
  apply unless_err_None in Hrun as (g1 & Hx & Hrun).
  apply parse_dependency_None in Hx as (k & v & Hkv & ->).
  destruct (IH _ Hrun) as (l & Hl & ->). exists ((k, v) :: l). split; [by constructor | done].
Qed.

Lemma foldl_snoc_app {A} (acc l : list A) : foldl (fun l x => l ++ [x]) acc l = acc ++ l.
Proof.
  revert acc. induction l as [|x l IH]; intros acc; cbn [foldl]; [by rewrite app_nil_r|].
  by rewrite IH, <-app_assoc.
Qed.

Definition secret_names_of (flag : string) : list string :=
  if decide (flag = "") then [] else Split flag ",".

Lemma parseSecrets_None flag g g' :
  parseSecrets flag g = Val (None, g') ->
  g' = set_secretsList (secretsList g ++ secret_names_of flag) g.
Proof.
  unfold parseSecrets, secret_names_of. case_bool_decide as Hf.
  { destruct (decide (flag = "")); [|done]. st_inv. rewrite app_nil_r. by destruct g'. }
  destruct (decide (flag = "")); [done|]. destruct (_ && _); [by st_inv|].
  rewrite St_bind_Val. intros ([] & g1 & Hl & Hr). st_inv.
  rewrite <-(set_secretsList_id g) in Hl.
  erewrite (for_each_fold _ (fun l => set_secretsList l g)) in Hl by done. simplify_eq.
  by rewrite foldl_snoc_app.
Qed.

Definition selector_of (flag : string) (m m' : gmap string string) : Prop :=
  if decide (flag = "") then m' = m
  else exists k v, Split flag ":" = [k; v] /\ m' = <[k := v]> m.

Lemma parseSelector_None flag g g' :
  parseSelector flag g = Val (None, g') ->
  exists m, selector_of flag (selectorMap g) m /\ g' = set_selectorMap m g.
Proof.
  unfold parseSelector, selector_of. case_bool_decide as Hf.
  { destruct (decide (flag = "")); [|done]. st_inv. exists (selectorMap g'). split; [done|]. by destruct g'. }
  destruct (decide (flag = "")); [done|]. destruct (Split flag ":") as [|k [|v [|]]]; try case_bool_decide;
    st_eval; st_inv. eexists. split; [by eexists _, _ | done].
Qed.

(** ** Manifests *)

(** The documents of a file that are not blank. *)
Definition manifests (text : string) : list string :=
  filter (fun r => TrimSpace r <> "") (Split text documents_sep).

Lemma foldl_filter {A B} (P : A -> Prop) `{!forall x, Decision (P x)} (f : B -> A -> B) l b :
  foldl (fun b x => if decide (P x) then f b x else b) b l = foldl f b (filter P l).
Proof.
  revert b. induction l as [|x l IH]; intros b; [done|]. cbn [foldl].
  rewrite filter_cons. destruct (decide (P x)); apply IH.
Qed.

Section files.
Context `{OS, GoRange}.

Lemma parseResources_Ok file step text g :
  os_ReadFile file = Ok text ->
  parseResources file step g =
  Val (None, foldl (fun g r => add_resource step r g) g (manifests text)).
Proof.
  intros Hf. unfold parseResources, manifests. rewrite Hf.
  rewrite <-(foldl_filter _ (fun g r => add_resource step r g)).
  erewrite St_bind_step; [reflexivity|].
  apply (for_each_fold _ id). intros r g'. unfold id.
  case_bool_decide as Hr; [by rewrite decide_False by naive_solver | by rewrite decide_True].
Qed.

Lemma add_install_resources l g :
  foldl (fun g r => add_resource "install" r g) g l =
  set_installResources (installResources g ++ l) g.
Proof.
  revert g. induction l as [|r l IH]; intros g; cbn [foldl]; [rewrite app_nil_r; by destruct g|].
  rewrite IH, (cons_middle r), app_assoc. reflexivity.
Qed.

(** C37: The documents of a manifest file arrive in the artifact of the
    install workflow: splitting the artifact's data gives the file's non-blank
    documents in their order, each ended by a newline, and one empty document,
    provided no document of the file ends in an unfinished separator. *)
Theorem manifest_documents file text g :
  os_ReadFile file = Ok text ->
  Forall (fun r => HasSuffix r "---" = false) (manifests text) ->
  exists g',
    parseResources file "install" g = Val (None, g') /\
    installResources g' = installResources g ++ manifests text /\
    Split (resource_data (manifests text)) documents_sep = (terminated <$> manifests text) ++ [""].
Proof.
  intros Hf Hend. rewrite (parseResources_Ok _ _ _ _ Hf), add_install_resources.
  eexists. split_and!; [done | done|]. apply split_resource_data.
  apply Forall_forall. intros r Hr. rewrite Forall_forall in Hend.
  unfold single_document. rewrite (Hend _ Hr). rewrite andb_true_r, negb_true_iff.
  apply list_elem_of_filter in Hr as [_ Hr].
  pose proof (Split_pieces documents_sep text ltac:(done)) as Hp.
  rewrite Forall_forall in Hp. by apply Hp.
Qed.

Lemma parseResources_returns file step g : exists r g', parseResources file step g = Val (r, g').
Proof.
  destruct (os_ReadFile file) as [text|e] eqn:Hf.
  - rewrite (parseResources_Ok _ _ _ _ Hf). by eexists _, _.
  - unfold parseResources. rewrite Hf. by eexists _, _.
Qed.

Lemma for_err_returns {S A} (f : A -> St S (option error)) l s :
  (forall x s, exists r s', f x s = Val (r, s')) -> exists r s', for_err f l s = Val (r, s').
Proof.
  intros Hf. revert s. induction l as [|x l IH]; intros s; [by eexists _, _|].
  cbn [for_err]. unfold unless_err. destruct (Hf x s) as (r & s1 & Hx).
  erewrite St_bind_step by exact Hx. destruct r; [by eexists _, _ | apply IH].
Qed.

Lemma extract_dir_entry_returns path step name g :
  exists r g', extract_dir_entry path step name g = Val (r, g').
Proof.
  unfold extract_dir_entry. destruct (HasSuffix name ".py").
  { destruct (os_ReadFile name); by eexists _, _. }
  destruct (is_yaml name); [apply parseResources_returns | by eexists _, _].
Qed.

(** Reading manifests never panics. *)
Lemma extract_step_returns step g : exists r g', extract_step step g = Val (r, g').
Proof.
  unfold extract_step. case_bool_decide; [by eexists _, _|].
  destruct (os_Stat _) as [fi|e]; [|by eexists _, _]. destruct (fi_IsDir fi).
  { destruct (os_ReadDir _); [|by eexists _, _].
    apply for_err_returns. intros; apply extract_dir_entry_returns. }
  destruct (HasSuffix _ _); [destruct (os_ReadFile _); by eexists _, _|].
  destruct (is_yaml _); [apply parseResources_returns | by eexists _, _].
Qed.

(** A directory with a YAML file is never accepted: the directory
    itself is read as if it were the file, which fails. *)
Theorem manifest_directory_fails t prereqsPath installPath g fi files name err :
  let path := filepath_Join (os_Getenv "PWD") installPath in
  installPath <> "" ->
  os_Stat path = Ok fi -> fi_IsDir fi = true -> os_ReadDir path = Ok files ->
  name ∈ files -> is_yaml name = true -> HasSuffix name ".py" = false ->
  os_ReadFile path = Err err ->
  exists e g', extractResources t prereqsPath installPath g = Val (Some e, g').
Proof.
  intros path Hne Hstat Hdir Hls Hname Hyaml Hpy Hread. unfold extractResources.
  apply for_err_fails; [intros; apply extract_step_returns|].
  exists ("install", installPath). split.
  { apply elem_of_range. by rewrite lookup_insert_eq. }
  intros g0 r g1. unfold extract_step. cbn [fst snd]. rewrite bool_decide_false by done.
  fold path. rewrite Hstat, Hdir, Hls. intros Hrun.
  destruct (for_err_fails (extract_dir_entry path "install") files g0) as (e & g2 & Hf).
  - intros; apply extract_dir_entry_returns.
  - exists name. split; [done|]. intros s r' s'. unfold extract_dir_entry, parseResources.
    rewrite Hpy, Hyaml, Hread. by st_inv.
  - rewrite Hf in Hrun. by simplify_eq.
Qed.

(** Reading manifests changes only the resources and scripts of the steps. *)
Definition steps_only (g g' : globals) : Prop :=
  exists pr psc ir isc, g' = set_parsed (dependenciesMap g) (params g) pr psc ir isc
    (secretsList g) (selectorMap g) g.

#[local] Instance steps_only_preorder : PreOrder steps_only.
Proof.
  split; [intros []; by eexists _, _, _, _|].
  intros g1 g2 g3 (? & ? & ? & ? & ->) (? & ? & ? & ? & ->). by eexists _, _, _, _.
Qed.

Lemma add_resource_steps step r g : steps_only g (add_resource step r g).
Proof. unfold add_resource. by repeat case_bool_decide; [eexists _, _, _, _..|]. Qed.

Lemma store_script_steps step n d g : steps_only g (store_script step n d g).
Proof. unfold store_script. by repeat case_bool_decide; [eexists _, _, _, _..|]. Qed.

Lemma parseResources_steps file step g r g' :
  parseResources file step g = Val (r, g') -> steps_only g g'.
Proof.
  destruct (os_ReadFile file) as [text|e] eqn:Hf.
  - rewrite (parseResources_Ok _ _ _ _ Hf). intros [= _ <-].
    generalize (manifests text). intros l. revert g. induction l as [|x l IH]; intros g; [done|].
    cbn [foldl]. etrans; [apply add_resource_steps | apply IH].
  - unfold parseResources. rewrite Hf. by st_inv.
Qed.

Lemma extract_dir_entry_steps path step name g r g' :
  extract_dir_entry path step name g = Val (r, g') -> steps_only g g'.
Proof.
  unfold extract_dir_entry. destruct (HasSuffix name ".py").
  { destruct (os_ReadFile name); st_eval; st_inv; [apply store_script_steps | done]. }
  destruct (is_yaml name); [apply parseResources_steps | by st_inv].
Qed.

Lemma extract_step_steps step g r g' : extract_step step g = Val (r, g') -> steps_only g g'.
Proof.
  unfold extract_step. case_bool_decide; [by st_inv|].
  destruct (os_Stat _) as [fi|e]; [|by st_inv]. destruct (fi_IsDir fi).
  { destruct (os_ReadDir _) as [files|]; [|by st_inv].
    apply (for_err_inv (steps_only g)); [|done]. intros x g1 r1 g2 _ Hg Hx.
    etrans; [exact Hg | by eapply extract_dir_entry_steps]. }
  destruct (HasSuffix _ _).
  { destruct (os_ReadFile _); st_eval; st_inv; [apply store_script_steps | done]. }
  destruct (is_yaml _); [apply parseResources_steps | by st_inv].
Qed.

Lemma extractResources_steps t prereqsPath installPath g r g' :
  extractResources t prereqsPath installPath g = Val (r, g') -> steps_only g g'.
Proof.
  unfold extractResources. apply (for_err_inv (steps_only g)); [|done].
  intros x g1 r1 g2 _ Hg Hx. etrans; [exact Hg | by eapply extract_step_steps].
Qed.

(** ** What accepted arguments leave *)

(** The package variables [g] after the checks, against those before, [v],
    and the addon's name: the flags themselves are as given, and the maps and
    lists hold what the flags say. *)
Record accepted (v : globals) (name : string) (g : globals) : Prop := {
  acc_name : g_addonName g = name;
  acc_cluster : g_clusterName g = g_clusterName v;
  acc_region : g_clusterRegion g = g_clusterRegion v;
  acc_dryRun : g_dryRun g = g_dryRun v;
  acc_description : g_description g = g_description v;
  acc_namespace : g_namespace g = g_namespace v;
  acc_channel : g_pkgChannel g = g_pkgChannel v;
  acc_type : g_pkgType g = g_pkgType v;
  acc_version : g_pkgVersion g = g_pkgVersion v;
  acc_deps : exists l, dependency_pairs (g_dependencies v) l /\
    dependenciesMap g = with_pairs (dependenciesMap v) l;
  acc_secrets : secretsList g = secretsList v ++ secret_names_of (g_secretsRaw v);
  acc_selector : selector_of (g_selector v) (selectorMap v) (selectorMap g);
  acc_params : if decide (g_paramsRaw v = "") then params g = None else params_given g
}.

Lemma arguments_accepted t name rest v g :
  unless_err (check_args (name :: rest)) (parseAllArgs t) v = Val (None, g) -> accepted v name g.
Proof.
  intros Hrun. apply unless_err_None in Hrun as (g0 & Hargs & Hrun).
  assert (g0 = set_addonName name v) as ->.
  { unfold check_args in Hargs. revert Hargs. st_eval. destruct (negb _); by st_inv. }
  unfold parseAllArgs in Hrun. erewrite St_bind_step in Hrun by reflexivity.
  apply unless_err_None in Hrun as (g1 & Hsteps & Hrun).
  apply unless_err_None in Hrun as (g2 & Hparams & Hrun).
  apply unless_err_None in Hrun as (g3 & Hdeps & Hrun).
  apply unless_err_None in Hrun as (g4 & Hsecrets & Hrun).
  apply unless_err_None in Hrun as (g5 & Hsel & Hrun).
  assert (g5 = g) as -> by (st_inv; done).
  apply extractResources_steps in Hsteps as (pr & psc & ir & isc & ->).
  assert (if decide (g_paramsRaw v = "") then params g2 = None else params_given g2) as Hp.
  { destruct (decide (g_paramsRaw v = "")) as [Hraw|Hraw].
    - change (g_paramsRaw (set_addonName name v)) with (g_paramsRaw v) in Hparams.
      rewrite Hraw, parseAddonParams_empty in Hparams. by simplify_eq.
    - by eapply parseAddonParams_given. }
  apply parseAddonParams_frame in Hparams. rewrite Hparams in Hdeps, Hp.
  apply parseDependencies_None in Hdeps as (l & Hl & ->).
  apply parseSecrets_None in Hsecrets as ->.
  apply parseSelector_None in Hsel as (m & Hm & ->).
  split; try done. by exists l.
Qed.
End files.

(** ** The create command *)

Section create.
Context `{OS, GoRange, ContentSettersLaws, !Yaml, CtlServices}.

(** [yaml.Marshal] does not fail on documents made of maps, lists and
    strings. *)
Context (text : object -> string).
Hypothesis yaml_total : forall o, yaml_Marshal o = Ok (text o).

Lemma with_template_run t ops k c :
  match spec_ops (mkBuilderState (doDelete (pkg c)) []) ops with
  | Panicked msg => with_template (build_workflow t ops) k c = Panicked msg
  | Val s => exists w', doDelete w' = bs_delete s /\
      with_template (build_workflow t ops) k c =
      k (text (workflow_doc (bs_delete s) (bs_datas s))) (mkCtl (vars c) w')
  end.
Proof.
  pose proof (build_workflow_run t ops (pkg c)) as Hb.
  unfold with_template, on_pkg, mbind, St_bind. rewrite Hb.
  destruct (spec_ops _ ops) as [s|msg]; cbn [outcome_bind]; [|done].
  eexists. split; [|unfold ConvertUnstructuredWorkflowToString; st_eval; cbn [objects];
    rewrite read_built, yaml_total; reflexivity]. done.
Qed.

(** The data of the artifact with the given documents. *)
Fixpoint documents_text (l : list string) : string :=
  match l with
  | [] => ""
  | r :: l' => terminated r +:+ ("---" +:+ newline +:+ documents_text l')
  end.

Lemma resource_data_text l : resource_data l = documents_text l.
Proof. induction l as [|r l IH]; [done|]. rewrite resource_data_cons, IH. reflexivity. Qed.

(** The template of a step that applies the documents. *)
Definition step_template (l : list string) : string :=
  text (workflow_doc false [documents_text l]).

(** The addon [a] for the flags [v] and the name on the command line; [g] are
    the package variables after parsing, with the documents of the manifests
    and the maps that [accepted] relates to the flags. *)
Record describes (v g : globals) (name : string) (a : Addon) : Prop := {
  d_name : Name (Meta a) = name;
  d_namespace : Namespace (Meta a) = "addon-manager-system";
  d_resource_version : ResourceVersion (Meta a) = "";
  d_alive : DeletionTimestamp (Meta a) = None;
  d_finalizers : Finalizers (Meta a) = [];
  d_labels : Labels (Meta a) = ∅;
  d_package : PkgName (Spec_Package (Spec a)) = name;
  d_channel : PkgChannel (Spec_Package (Spec a)) = g_pkgChannel v;
  d_version : PkgVersion (Spec_Package (Spec a)) = g_pkgVersion v;
  d_type : PkgType (Spec_Package (Spec a)) = g_pkgType v;
  d_description : PkgDescription (Spec_Package (Spec a)) = g_description v;
  d_deps : exists l, dependency_pairs (g_dependencies v) l /\
    PkgDeps (Spec_Package (Spec a)) = with_pairs (dependenciesMap v) l;
  d_params_namespace : Params_Namespace (Params (Spec a)) = g_namespace v;
  d_cluster : ClusterName (Params_Context (Params (Spec a))) = g_clusterName v;
  d_region : ClusterRegion (Params_Context (Params (Spec a))) = g_clusterRegion v;
  d_configs : AdditionalConfigs (Params_Context (Params (Spec a))) = ∅;
  d_params : Params_Data (Params (Spec a)) = ∅;
  d_selector : selector_of (g_selector v) (selectorMap v) (MatchLabels (Selector (Spec a)));
  d_expressions : MatchExpressions (Selector (Spec a)) = [];
  d_overrides : Overrides (Spec a) = Overrides zero_AddonSpec;
  d_secrets : Secrets (Spec a) = (fun n => mkSecretCmdSpec n 0 []) <$>
    (secretsList v ++ secret_names_of (g_secretsRaw v));
  d_prereqs : LC_Prereqs (Lifecycle (Spec a)) = mkWorkflowType "" "" ""
    (step_template (prereqResources g));
  d_install : LC_Install (Lifecycle (Spec a)) = mkWorkflowType "" "" ""
    (step_template (installResources g));
  d_delete : LC_Delete (Lifecycle (Spec a)) = mkWorkflowType "" "" "" (text (workflow_doc true []));
  d_validate : LC_Validate (Lifecycle (Spec a)) = mkWorkflowType "" "" "" "";
  d_status : Status a = zero_AddonStatus
}.

Definition addon_kind : GroupVersionKind := mkGVK "addonmgr.keikoproj.io" "v1alpha1" "Addon".

(** How the command ends for that addon: it is printed, cannot be converted,
    replaces the object of its name under the resource version just read, or
    is created when there is none to be read. *)
Inductive ends (dryRun : bool) (name : string) (a : Addon) : run_end -> Prop :=
  | ends_printed :
      dryRun = true ->
      ends dryRun name a (RunPrinted (match json_MarshalIndent addon_kind a with
                                      | Ok b => Some b | Err _ => None end))
  | ends_unconverted e :
      dryRun = false -> json_Unmarshal_map (json_Marshal_addon addon_kind a).1 = Err e ->
      ends dryRun name a (RunBadAddon e)
  | ends_updated o cur :
      dryRun = false -> json_Unmarshal_map (json_Marshal_addon addon_kind a).1 = Ok o ->
      client_Get "addon-manager-system" name = Ok cur ->
      let o' := un_SetResourceVersion (un_GetResourceVersion cur) o in
      ends dryRun name a (RunSent (ReqUpdate "addon-manager-system" o')
        (client_Update "addon-manager-system" o'))
  | ends_created o e :
      dryRun = false -> json_Unmarshal_map (json_Marshal_addon addon_kind a).1 = Ok o ->
      client_Get "addon-manager-system" name = Err e ->
      ends dryRun name a (RunSent (ReqCreate "addon-manager-system" o)
        (client_Create "addon-manager-system" o)).

(** An addon that is there is updated. *)
Lemma ends_of_update name a e o cur :
  json_Unmarshal_map (json_Marshal_addon addon_kind a).1 = Ok o ->
  client_Get "addon-manager-system" name = Ok cur ->
  ends false name a e ->
  let o' := un_SetResourceVersion (un_GetResourceVersion cur) o in
  e = RunSent (ReqUpdate "addon-manager-system" o') (client_Update "addon-manager-system" o').
Proof.
  intros Ho Hg [|? ? Ho'|o1 cur1 _ Ho' Hg'|? ? _ Ho' Hg']; [done|congruence| |congruence].
  rewrite Ho in Ho'. rewrite Hg in Hg'. by injection Ho' as <-; injection Hg' as <-.
Qed.

(** The addon that [Run] makes. *)
Definition created_addon (g : globals) : Addon :=
  set_templates (step_template (prereqResources g)) (step_template (installResources g))
    (text (workflow_doc true [])) (base_instance g).

Definition created_end (g : globals) : run_end :=
  if g_dryRun g then
    RunPrinted (match json_MarshalIndent addon_GVK (created_addon g) with
                | Ok b => Some b | Err _ => None end)
  else submit_addon (g_addonName g) (created_addon g).

Lemma created_describes v name g : accepted v name g -> describes v g name (created_addon g).
Proof.
  intros [Hname Hcl Hrg _ Hds Hns Hch Hty Hver Hdeps Hsec Hsel _].
  split; cbn; try done. by rewrite Hsec.
Qed.

Lemma created_ends v name g :
  accepted v name g -> ends (g_dryRun v) name (created_addon g) (created_end g).
Proof.
  intros Hacc. unfold created_end. rewrite (acc_dryRun _ _ _ Hacc), (acc_name _ _ _ Hacc).
  destruct (g_dryRun v) eqn:Hd; [by apply ends_printed|]. unfold submit_addon.
  destruct (json_Unmarshal_map _) as [o|e] eqn:Ho; [|by apply ends_unconverted].
  destruct (client_Get _ name) as [cur|e] eqn:Hg;
    [by apply ends_updated | by eapply ends_created].
Qed.

Lemma new_instance_params t g :
  new_instance t g =
  if default ∅ (params g) == ∅ then Val (base_instance g) else Panicked nil_map_message.
Proof.
  unfold new_instance. pose proof (range_perm _ t (default ∅ (params g))) as Hp.
  case_bool_decide as He.
  - rewrite He, map_to_list_empty in Hp. apply Permutation_nil_r in Hp. by rewrite He, Hp.
  - destruct (range t (default ∅ (params g))); [|done].
    by apply Permutation_nil_l, eq_sym, map_to_list_empty_iff in Hp.
Qed.

Lemma new_instance_nil t g : params g = None -> new_instance t g = Val (base_instance g).
Proof. intros Hp. by rewrite new_instance_params, Hp. Qed.

Lemma Run_params t c : params_given (vars c) -> Run t c = Panicked nil_map_message.
Proof.
  intros (m & Hm & Hne). unfold Run. st_eval.
  rewrite new_instance_params, Hm. cbn [default from_option]. by rewrite bool_decide_false.
Qed.

Lemma install_template_run t scripts rs k c :
  doDelete (pkg c) = false ->
  if scripts == ∅ then
    exists w', doDelete w' = false /\
      with_template (build_workflow t [OpScripts scripts; OpResources rs]) k c =
      k (step_template rs) (mkCtl (vars c) w')
  else with_template (build_workflow t [OpScripts scripts; OpResources rs]) k c =
       Panicked scripts_panic.
Proof.
  intros Hd. pose proof (with_template_run t [OpScripts scripts; OpResources rs] k c) as Hrun.
  cbn [spec_ops spec_op] in Hrun. rewrite Hd in Hrun. unfold step_template.
  rewrite <-resource_data_text. by case_bool_decide.
Qed.

Lemma delete_template_run t k c :
  exists w', doDelete w' = true /\
    with_template (build_workflow t [OpDelete]) k c =
    k (text (workflow_doc true [])) (mkCtl (vars c) w').
Proof. exact (with_template_run t [OpDelete] k c). Qed.

Lemma Run_no_params t c :
  params (vars c) = None -> doDelete (pkg c) = false ->
  if (prereqScripts (vars c) != ∅) || (installScripts (vars c) != ∅)
  then Run t c = Panicked scripts_panic
  else exists w', Run t c = Val (created_end (vars c), mkCtl (vars c) w').
Proof.
  intros Hp Hd. unfold Run. erewrite St_bind_step by reflexivity. cbn zeta.
  rewrite (new_instance_nil _ _ Hp).
  match goal with |- context [with_template (build_workflow _ [OpScripts ?s; OpResources ?r]) ?k c] =>
    pose proof (install_template_run (1 :: t) s r k c Hd) as Hpre end.
  case_bool_decide as Hps; cbn [negb orb]; [|exact Hpre].
  destruct Hpre as (w1 & Hw1 & ->).
  match goal with |- context [with_template (build_workflow _ [OpScripts ?s; OpResources ?r]) ?k ?c1] =>
    pose proof (install_template_run (2 :: t) s r k c1 Hw1) as Hins end.
  case_bool_decide as His; cbn [negb]; [|exact Hins].
  destruct Hins as (w2 & Hw2 & ->).
  match goal with |- context [with_template (build_workflow _ [OpDelete]) ?k ?c2] =>
    destruct (delete_template_run (3 :: t) k c2) as (w3 & _ & ->) end.
  exists w3. unfold created_end. cbn [vars]. by destruct (g_dryRun (vars c)).
Qed.

(** C19: The outcome of [addonctl create] once its arguments are accepted,
    in a process that has not built a deletion workflow before: with
    [--params] it panics; with a script it panics; otherwise it ends with the
    dry run's output, or with one request that updates the addon, under the
    resource version just read, or creates it, for an addon whose every field
    is the one that the flags ask for, with workflows that apply the documents
    of the given manifests and a deletion workflow. *)
Theorem create_outcome t name rest c g :
  (unless_err (check_args (name :: rest)) (parseAllArgs (4 :: t))) (vars c) = Val (None, g) ->
  doDelete (pkg c) = false ->
  if g_paramsRaw (vars c) != "" then create t (name :: rest) c = Panicked nil_map_message
  else if (prereqScripts g != ∅) || (installScripts g != ∅)
  then create t (name :: rest) c = Panicked scripts_panic
  else exists a e w', create t (name :: rest) c = Val (inr e, mkCtl g w') /\
    describes (vars c) g name a /\ ends (g_dryRun (vars c)) name a e.
Proof.
  intros Hparse Hd. pose proof (arguments_accepted _ _ _ _ _ Hparse) as Hacc.
  pose proof (acc_params _ _ _ Hacc) as Hall. unfold create.
  assert (on_vars (unless_err (check_args (name :: rest)) (parseAllArgs (4 :: t))) c =
    Val (None, mkCtl g (pkg c))) as Hon by (unfold on_vars; by rewrite Hparse).
  erewrite St_bind_step by exact Hon. cbn iota.
  case_bool_decide as Hraw; cbn [negb].
  - rewrite decide_True in Hall by done.
    pose proof (Run_no_params t (mkCtl g (pkg c)) Hall Hd) as Hrun. cbn [vars] in Hrun.
    destruct (_ || _); [by unfold mbind, St_bind; rewrite Hrun|].
    destruct Hrun as [w' Hrun]. exists (created_addon g), (created_end g), w'.
    split; [by erewrite St_bind_step by exact Hrun|].
    split; [by apply created_describes | by apply created_ends].
  - rewrite decide_False in Hall by done. unfold mbind, St_bind. by rewrite Run_params.
Qed.
End create.

(** ** A concrete environment *)

Definition sample_manifest : string :=
  "kind: A" +:+ newline +:+ "---" +:+ newline +:+ "kind: B".

Definition not_exist : error := mkError "no such file or directory" ReasonUnknown.

#[local] Instance sample_os : OS := {|
  os_Getenv _ := "/work";
  filepath_Join a b := a +:+ "/" +:+ b;
  os_Stat p :=
    if p == "/work/m.yaml" then Ok (mkFileInfo "m.yaml" false)
    else if p == "/work/dir" then Ok (mkFileInfo "dir" true) else Err not_exist;
  os_ReadDir p := if p == "/work/dir" then Ok ["m.yaml"] else Err not_exist;
  os_ReadFile p := if p == "/work/m.yaml" then Ok sample_manifest else Err not_exist
|}.

#[local] Instance plain_yaml : Yaml :=
  {| yaml_Unmarshal _ o := (o, None); yaml_Marshal _ := Ok "workflow" |}.

(** Some fields of an addon, for want of JSON. *)
Definition some_fields (a : Addon) : string :=
  let ps := Params (Spec a) in
  Join [addon_Name a; PkgChannel (Spec_Package (Spec a)); PkgVersion (Spec_Package (Spec a));
        ClusterName (Params_Context ps); ClusterRegion (Params_Context ps)] "/".

#[local] Instance sample_ctl_services : CtlServices := {|
  json_MarshalIndent _ a := Ok (addon_Name a);
  json_Marshal_addon _ a := (some_fields a, None);
  json_Unmarshal_map s := Ok [("fields", VString s)];
  un_GetResourceVersion _ := "7";
  un_SetResourceVersion v o := obj_insert "resourceVersion" (VString v) o;
  client_Get _ _ := Ok [];
  client_Update _ _ := None;
  client_Create _ _ := None
|}.

Definition sample_flags : globals :=
  mkGlobals "" "cluster" "region" false "" "" "m.yaml" "ns" "stable" "composite" "v1" "" "" "" ""
    ∅ (Some ∅) [] ∅ [] ∅ [] ∅.

Definition sample_parsed : globals :=
  set_installResources ["kind: A" +:+ newline; "kind: B"]
    (set_params None (set_addonName "my-addon" sample_flags)).

Lemma create_outcome_witness :
  exists w',
    @create sample_os range_fwd heap_setters plain_yaml sample_ctl_services [] ["my-addon"]
      (mkCtl sample_flags (mkPackageState [] false)) =
    Val (inr (RunSent (ReqUpdate "addon-manager-system"
                         [("fields", VString "my-addon/stable/v1/cluster/region");
                          ("resourceVersion", VString "7")]) None),
         mkCtl sample_parsed w').
Proof.
  assert (unless_err (check_args ["my-addon"]) (@parseAllArgs sample_os range_fwd [4]) sample_flags
    = Val (None, sample_parsed)) as Hparse by (vm_compute; reflexivity).
  destruct (@create_outcome sample_os range_fwd heap_setters heap_setters_laws plain_yaml
    sample_ctl_services (fun _ => "workflow") (fun _ => eq_refl) [] "my-addon" []
    (mkCtl sample_flags (mkPackageState [] false)) sample_parsed Hparse eq_refl)
    as (a & e & w' & Hrun & Ha & He).
  exists w'. rewrite Hrun.
  destruct Ha as [Hn _ _ _ _ _ _ Hc Hv _ _ _ _ Hcl Hrg].
  assert (some_fields a = "my-addon/stable/v1/cluster/region") as Hf.
  { unfold some_fields. by rewrite Hn, Hc, Hv, Hcl, Hrg. }
  assert (@json_Unmarshal_map sample_ctl_services (@json_Marshal_addon sample_ctl_services
    addon_kind a).1 = Ok [("fields", VString "my-addon/stable/v1/cluster/region")]) as Ho
    by (rewrite <-Hf; reflexivity).
  rewrite (ends_of_update "my-addon" a e _ [] Ho eq_refl He). reflexivity.
Defined.

Lemma parseDependencies_roundtrip_witness :
  parseDependencies "core/a:v1,b:*" sample_flags =
  Val (None, set_dependenciesMap (<["b" := "*"]> (<["core/a" := "v1"]> ∅)) sample_flags).
Proof.
  refine (parseDependencies_roundtrip [("core/a", "v1"); ("b", "*")] sample_flags _ _); [done|].
  repeat constructor; unfold byte_free; cbn; set_solver.
Defined.

Lemma manifest_documents_witness :
  exists g',
    @parseResources sample_os "/work/m.yaml" "install" sample_flags = Val (None, g') /\
    installResources g' = ["kind: A" +:+ newline; "kind: B"] /\
    Split (resource_data (manifests sample_manifest)) documents_sep =
      ["kind: A" +:+ newline; "kind: B" +:+ newline; ""].
Proof.
  refine (@manifest_documents sample_os "/work/m.yaml" sample_manifest sample_flags eq_refl _).
  vm_compute. repeat constructor.
Defined.

Lemma manifest_directory_fails_witness :
  exists e g', @extractResources sample_os range_fwd [] "" "dir" sample_flags = Val (Some e, g').
Proof.
  refine (@manifest_directory_fails sample_os range_fwd [] "" "dir" sample_flags
    (mkFileInfo "dir" true) ["m.yaml"] "m.yaml" not_exist _ eq_refl eq_refl eq_refl _
    eq_refl eq_refl eq_refl); [done | left].
Defined.
