(* ===== verification/AddonctlRoot.v ===== *)
(** The root command of [addonctl] ([newRootCommand] and [Execute] of
    [pkg/addonctl/addonctl.go], [cmd/addonctl/main.go]): the flags, the
    package variables they write, and the exit status.

    cobra is outside the repository: how it reads a command line is a
    parameter. *)
From S2P Require Import Prelude GoStrings GoFmt AddonTypes Common VersionCache Unstructured.
From S2P Require Import TreeObject Effects Workflow GoHeap Builder BuilderSpec Addonctl AddonctlSpec.
From S2P Require Import Manager.

(** ** Flags *)

Inductive flag_value := FString (s : string) | FBool (b : bool).

#[global] Instance flag_value_eq_dec : EqDecision flag_value.
Proof. solve_decision. Defined.

(** A declared flag: name, shorthand and default. *)
Record Flag := mkFlag { fl_name : string; fl_short : string; fl_default : flag_value }.

Definition string_flag (name short : string) : Flag := mkFlag name short (FString "").

(** The variable behind a flag. *)
Definition assign (name : string) (v : flag_value) (g : globals) : globals :=
  let str n old := match v with FString s => if name == n then s else old | FBool _ => old end in
  let bln n old := match v with FBool b => if name == n then b else old | FString _ => old end in
  mkGlobals (g_addonName g) (str "cluster-name" (g_clusterName g))
    (str "cluster-region" (g_clusterRegion g)) (bln "dryrun" (g_dryRun g))
    (str "desc" (g_description g)) (str "deps" (g_dependencies g)) (str "install" (g_install g))
    (str "namespace" (g_namespace g)) (str "channel" (g_pkgChannel g)) (str "type" (g_pkgType g))
    (str "version" (g_pkgVersion g)) (str "params" (g_paramsRaw g)) (str "prereqs" (g_prereqs g))
    (str "secrets" (g_secretsRaw g)) (str "selector" (g_selector g))
    (dependenciesMap g) (params g) (prereqResources g) (prereqScripts g) (installResources g)
    (installScripts g) (secretsList g) (selectorMap g).

Definition declared : list Flag := [
  string_flag "cluster-name" ""; string_flag "cluster-region" ""; string_flag "desc" "";
  string_flag "deps" ""; string_flag "channel" "c"; string_flag "type" "t";
  string_flag "version" "v"; string_flag "secrets" ""; string_flag "selector" "";
  string_flag "namespace" "n"; string_flag "params" "p"; string_flag "prereqs" "";
  string_flag "install" ""; mkFlag "dryrun" "" (FBool false)].

(** The calls of [MarkFlagRequired]. *)
Definition required : list string :=
  ["cluster-name"; "cluster-region"; "channel"; "type"; "version"; "namespace"].

(** The root command: its flags, those marked as required, and whether it has
    the subcommand [create]. *)
Record Command := mkCommand {
  cmd_flags : list Flag;
  cmd_required : list string;
  cmd_create : bool
}.

(** Declaring a flag sets its variable to the default.  Without a client
    configuration the root command has neither flags nor subcommands. *)
Definition newRootCommand (cfg_error : option error) (g : globals) : Command * globals :=
  match cfg_error with
  | Some _ => (mkCommand [] [] false, g)
  | None => (mkCommand declared required true,
             foldl (fun g f => assign (fl_name f) (fl_default f) g) g declared)
  end.

(** The initial values of the package variables. *)
Definition initial_globals : globals :=
  mkGlobals "" "" "" false "" "" "" "" "" "" "" "" "" "" "" ∅ (Some ∅) [] ∅ [] ∅ [] ∅.

(** What cobra makes of a command line: an error, the help or the version, or
    a call of [create] with the flags in the order given, and the arguments. *)
Inductive invocation :=
  | CobraError (e : error)
  | CobraShown
  | CobraCreate (assigned : list (string * flag_value)) (args : list string).

Class Cobra := { cobra_parse : Command -> list string -> invocation }.

(** [create] is called only when it was added, and only flags that were
    declared are set, to values of their type. *)
Class CobraLaws `{Cobra} := {
  cobra_create cmd argv fs args : cobra_parse cmd argv = CobraCreate fs args ->
    cmd_create cmd = true /\
    Forall (fun nv => exists f, f ∈ cmd_flags cmd /\ fl_name f = nv.1 /\
      match fl_default f, nv.2 with FString _, FString _ | FBool _, FBool _ => True | _, _ => False end)
      fs
}.

Section execute.
Context `{OS, GoRange, ContentSetters, Yaml, CtlServices, Cobra}.

Definition set_flags (fs : list (string * flag_value)) (g : globals) : globals :=
  foldl (fun g nv => assign nv.1 nv.2 g) g fs.

(** The status of the process: 1 when cobra reports an error, of the command
    line or of the checks of [create], and when a workflow cannot be
    converted.  Errors that [Run] prints do not count. *)
Definition Execute (t : list nat) (cfg_error : option error) (argv : list string)
    (w : package_state) : process_end :=
  let (root, g) := newRootCommand cfg_error initial_globals in
  match cobra_parse root argv with
  | CobraError err => Exit 1
  | CobraShown => Exit 0
  | CobraCreate fs args =>
      match create t args (mkCtl (set_flags fs g) w) with
      | Val (inl err, _) => Exit 1
      | Val (inr (RunExit err), _) => Exit 1
      | Val (inr _, _) => Exit 0
      | Panicked msg => Crash msg
      end
  end.
End execute.

(** ** What the flags do *)

(** The variable behind a flag, read. *)
Definition flag_variable (g : globals) (name : string) : option flag_value :=
  list_to_map (M := gmap string flag_value) [
    ("cluster-name", FString (g_clusterName g)); ("cluster-region", FString (g_clusterRegion g));
    ("desc", FString (g_description g)); ("deps", FString (g_dependencies g));
    ("channel", FString (g_pkgChannel g)); ("type", FString (g_pkgType g));
    ("version", FString (g_pkgVersion g)); ("secrets", FString (g_secretsRaw g));
    ("selector", FString (g_selector g)); ("namespace", FString (g_namespace g));
    ("params", FString (g_paramsRaw g)); ("prereqs", FString (g_prereqs g));
    ("install", FString (g_install g)); ("dryrun", FBool (g_dryRun g))] !! name.

(** A value of the type of a declared flag. *)
Definition fits (nv : string * flag_value) : Prop :=
  exists f, f ∈ declared /\ fl_name f = nv.1 /\
    match fl_default f, nv.2 with FString _, FString _ | FBool _, FBool _ => True | _, _ => False end.

(** The value given last. *)
Definition last_value (fs : list (string * flag_value)) (name : string) : option flag_value :=
  foldl (fun r nv => if nv.1 == name then Some nv.2 else r) None fs.

Lemma assign_variable (n n' : string) (v : flag_value) (g : globals) :
  fits (n, v) -> n' ∈ fl_name <$> declared ->
  flag_variable (assign n v g) n' = if n == n' then Some v else flag_variable g n'.
Proof.
  intros (f & Hf & Hn & Hv) Hn'. cbn in Hn, Hv. subst n.
  repeat (apply elem_of_cons in Hn' as [->|Hn']); [..|by apply elem_of_nil in Hn'].
  all: repeat (apply elem_of_cons in Hf as [->|Hf]); [..|by apply elem_of_nil in Hf].
  all: destruct v; cbn in Hv; try done.
Qed.

Lemma last_value_snoc (fs : list (string * flag_value)) (nv : string * flag_value) (n : string) :
  last_value (fs ++ [nv]) n = if nv.1 == n then Some nv.2 else last_value fs n.
Proof. unfold last_value. by rewrite foldl_app. Qed.

Lemma set_flags_variable (fs : list (string * flag_value)) (g : globals) (n : string) :
  Forall fits fs -> n ∈ fl_name <$> declared ->
  flag_variable (set_flags fs g) n =
    match last_value fs n with Some v => Some v | None => flag_variable g n end.
Proof.
  intros Hfs Hn. induction fs as [|nv fs IH] using rev_ind; [done|].
  apply Forall_app in Hfs as [Hfs [Hnv _]%Forall_cons].
  unfold set_flags. rewrite foldl_app, last_value_snoc. cbn [foldl].
  destruct nv as [m v]. rewrite assign_variable by done. cbn [fst snd].
  case_bool_decide; [done|]. by apply IH.
Qed.

Section flags.
Context `{CobraLaws}.

(** Every flag of [create] has its own variable: whatever order the flags
    are given in, a variable holds the value its flag was given last, and the
    default of the flag when it was not given. *)
Theorem flags_reach_their_variables (argv args : list string) (fs : list (string * flag_value))
    (f : Flag) :
  cobra_parse (newRootCommand None initial_globals).1 argv = CobraCreate fs args ->
  f ∈ declared ->
  flag_variable (set_flags fs (newRootCommand None initial_globals).2) (fl_name f) =
    Some (default (fl_default f) (last_value fs (fl_name f))).
Proof.
  intros Hp Hf. apply cobra_create in Hp as [_ Hfs].
  rewrite set_flags_variable by (done || by apply list_elem_of_fmap_2).
  destruct (last_value fs (fl_name f)) as [v|]; [done|]. cbn [default from_option].
  clear - Hf. repeat (apply elem_of_cons in Hf as [->|Hf]); [..|by apply elem_of_nil in Hf].
  all: reflexivity.
Qed.

(** Without a client configuration nothing is sent, whatever is asked for. *)
Theorem no_configuration_no_create (argv args : list string) (fs : list (string * flag_value))
    (e : error) : cobra_parse (newRootCommand (Some e) initial_globals).1 argv <> CobraCreate fs args.
Proof. intros Hp. by apply cobra_create in Hp as [? _]. Qed.
End flags.

(** ** The exit status *)

(** A run that was refused by the API server, or whose addon cannot be
    converted, prints an error and exits with status 0. *)
Theorem refused_run_exits_0 `{OS, GoRange, ContentSetters, Yaml, CtlServices, Cobra}
    (t : list nat) (argv args : list string) (fs : list (string * flag_value)) (w : package_state)
    (r : request) (answer : option error) (c : ctl) :
  let (root, g) := newRootCommand None initial_globals in
  cobra_parse root argv = CobraCreate fs args ->
  create t args (mkCtl (set_flags fs g) w) = Val (inr (RunSent r answer), c) ->
  Execute t None argv w = Exit 0.
Proof.
  cbn [newRootCommand]. intros Hp Hc. unfold Execute. cbn [newRootCommand].
  rewrite Hp. cbv zeta. by rewrite Hc.
Qed.

(** ** Example: an addon the API server refuses *)

(** As the sample services, but the cluster has no addon and takes none. *)
#[local] Instance refusing_services : CtlServices := {|
  json_MarshalIndent _ a := Ok (addon_Name a);
  json_Marshal_addon _ a := (addon_Name a, None);
  json_Unmarshal_map s := Ok [("name", VString s)];
  un_GetResourceVersion _ := "";
  un_SetResourceVersion _ o := o;
  client_Get _ _ := Err (Errorf "not found");
  client_Update _ _ := Some (Errorf "forbidden");
  client_Create _ _ := Some (Errorf "forbidden") |}.

#[local] Instance sample_cobra : Cobra := {|
  cobra_parse cmd argv :=
    if cmd_create cmd
    then CobraCreate [("install", FString "m.yaml"); ("type", FString "helm");
                      ("type", FString "composite")] ["my-addon"]
    else CobraError (Errorf "unknown command") |}.

(** The later value of a flag counts; the request is refused, and yet the
    process ends with status 0; without a client configuration it is 1. *)
Example refused_exits_0 :
  @Execute sample_os range_fwd heap_setters plain_yaml refusing_services sample_cobra [] None []
    (mkPackageState [] false) = Exit 0.
Proof. vm_compute. reflexivity. Qed.

Example no_configuration_exits_1 (e : error) :
  @Execute sample_os range_fwd heap_setters plain_yaml refusing_services sample_cobra [] (Some e) []
    (mkPackageState [] false) = Exit 1.
Proof. reflexivity. Qed.
