(* ===== verification/DeepCopy.v ===== *)
(** The generated deep copies, [api/addon/v1alpha1/zz_generated.deepcopy.go].

    Here the API types are as the running program has them: a map is a
    reference to a map object, a slice a window of an array, and both may be
    nil.  Copying a struct copies these references, so whether two addons are
    independent depends on every field being copied.  Structs without
    references ([WorkflowType], [ObjectStatus], ...) are those of
    [AddonTypes]. *)
From S2P Require Import Prelude GoStrings GoFmt AddonTypes GoHeap.

(** ** Data *)

Record Slice := mkSlice {
  s_arr : loc;
  s_off : nat;
  s_len : nat
}.

Abbreviation map_ref := (option loc).
Abbreviation slice_ref := (option Slice).

(** The struct types over the representation [M] of maps, [S] of slices of
    strings, [Sec] and [Obj] of slices of secrets and object statuses: with
    references they are what is in memory, with values what it stands for. *)
Record ClusterContextOf (M : Type) := mkClusterContextOf {
  cc_ClusterName : string;
  cc_ClusterRegion : string;
  cc_AdditionalConfigs : M
}.
Arguments mkClusterContextOf {M}.
Arguments cc_ClusterName {M}.
Arguments cc_ClusterRegion {M}.
Arguments cc_AdditionalConfigs {M}.

Record AddonParamsOf (M : Type) := mkAddonParamsOf {
  ap_Namespace : string;
  ap_Context : ClusterContextOf M;
  ap_Data : M
}.
Arguments mkAddonParamsOf {M}.
Arguments ap_Namespace {M}.
Arguments ap_Context {M}.
Arguments ap_Data {M}.

Record KustomizeTemplateOf (M : Type) := mkKustomizeTemplateOf { kt_Template : M }.
Arguments mkKustomizeTemplateOf {M}.
Arguments kt_Template {M}.

Record KustomizeSpecOf (M S : Type) := mkKustomizeSpecOf {
  ks_Labels : M;
  ks_Annotations : M;
  ks_Resources : S;
  ks_Overlay : KustomizeTemplateOf M
}.
Arguments mkKustomizeSpecOf {M S}.
Arguments ks_Labels {M S}.
Arguments ks_Annotations {M S}.
Arguments ks_Resources {M S}.
Arguments ks_Overlay {M S}.

Record AddonOverridesSpecOf (M S : Type) := mkAddonOverridesSpecOf {
  ao_Kustomize : KustomizeSpecOf M S;
  ao_Template : M
}.
Arguments mkAddonOverridesSpecOf {M S}.
Arguments ao_Kustomize {M S}.
Arguments ao_Template {M S}.

Record SecretCmdSpecOf (S : Type) := mkSecretCmdSpecOf {
  sc_Name : string;
  sc_Cmd : Z;
  sc_Args : S
}.
Arguments mkSecretCmdSpecOf {S}.
Arguments sc_Name {S}.
Arguments sc_Cmd {S}.
Arguments sc_Args {S}.

Record PackageSpecOf (M : Type) := mkPackageSpecOf {
  pk_Channel : string;
  pk_Name : string;
  pk_Version : string;
  pk_Type : PackageType;
  pk_Description : string;
  pk_Deps : M
}.
Arguments mkPackageSpecOf {M}.
Arguments pk_Channel {M}.
Arguments pk_Name {M}.
Arguments pk_Version {M}.
Arguments pk_Type {M}.
Arguments pk_Description {M}.
Arguments pk_Deps {M}.

Record AddonSpecOf (M S Sec Sel : Type) := mkAddonSpecOf {
  as_Package : PackageSpecOf M;
  as_Params : AddonParamsOf M;
  as_Selector : Sel;
  as_Overrides : AddonOverridesSpecOf M S;
  as_Secrets : Sec;
  as_Lifecycle : LifecycleWorkflowSpec
}.
Arguments mkAddonSpecOf {M S Sec Sel}.
Arguments as_Package {M S Sec Sel}.
Arguments as_Params {M S Sec Sel}.
Arguments as_Selector {M S Sec Sel}.
Arguments as_Overrides {M S Sec Sel}.
Arguments as_Secrets {M S Sec Sel}.
Arguments as_Lifecycle {M S Sec Sel}.

Record AddonStatusOf (Obj : Type) := mkAddonStatusOf {
  st_Checksum : string;
  st_Lifecycle : AddonStatusLifecycle;
  st_Resources : Obj;
  st_Reason : string;
  st_StartTime : Z
}.
Arguments mkAddonStatusOf {Obj}.
Arguments st_Checksum {Obj}.
Arguments st_Lifecycle {Obj}.
Arguments st_Resources {Obj}.
Arguments st_Reason {Obj}.
Arguments st_StartTime {Obj}.

(** [TypeMeta] is two strings. *)
Record AddonOf (M S Sec Sel Obj Meta : Type) := mkAddonOf {
  ad_TypeMeta : string * string;
  ad_ObjectMeta : Meta;
  ad_Spec : AddonSpecOf M S Sec Sel;
  ad_Status : AddonStatusOf Obj
}.
Arguments mkAddonOf {M S Sec Sel Obj Meta}.
Arguments ad_TypeMeta {M S Sec Sel Obj Meta}.
Arguments ad_ObjectMeta {M S Sec Sel Obj Meta}.
Arguments ad_Spec {M S Sec Sel Obj Meta}.
Arguments ad_Status {M S Sec Sel Obj Meta}.

Record AddonListOf (Items ListMeta : Type) := mkAddonListOf {
  al_TypeMeta : string * string;
  al_ListMeta : ListMeta;
  al_Items : Items
}.
Arguments mkAddonListOf {Items ListMeta}.
Arguments al_TypeMeta {Items ListMeta}.
Arguments al_ListMeta {Items ListMeta}.
Arguments al_Items {Items ListMeta}.

(** ** Memory *)

(** Map objects and arrays.  [CExt] is an object of the Kubernetes types
    whose copies are made outside the repository. *)
Inductive ocell (E Sel Meta : Type) :=
  | CMap (m : gmap string string)
  | CStrings (l : list string)
  | CObjects (l : list ObjectStatus)
  | CSecrets (l : list (SecretCmdSpecOf slice_ref))
  | CAddons (l : list (AddonOf map_ref slice_ref slice_ref Sel slice_ref Meta))
  | CExt (e : E).
Arguments CMap {E Sel Meta}.
Arguments CStrings {E Sel Meta}.
Arguments CObjects {E Sel Meta}.
Arguments CSecrets {E Sel Meta}.
Arguments CAddons {E Sel Meta}.
Arguments CExt {E Sel Meta}.

(** What a stored [T] stands for, and the objects it reaches. *)
Class Stored (C T V : Type) := {
  view : list C -> T -> option V;
  reach : list C -> T -> list loc
}.

(** The value depends on the reached objects only, and these exist. *)
Class StoredLaws (C T V : Type) `{Stored C T V} := {
  stored_frame h h' (x : T) (v : V) :
    view h x = Some v -> (forall l, l ∈ reach h x -> h' !! l = h !! l) ->
    view h' x = Some v /\ reach h' x = reach h x;
  stored_valid h (x : T) (v : V) l : view h x = Some v -> l ∈ reach h x -> l < length h
}.

(** [x] stands for [v] and reaches no object older than [n]. *)
Definition own {C T V : Type} `{Stored C T V} (n : nat) (h : list C) (x : T) (v : V) : Prop :=
  view h x = Some v /\ forall l, l ∈ reach h x -> n <= l.

(** A deep copy: it returns, it keeps every existing object as it is, and its
    result stands for the same value and reaches new objects only. *)
Definition copies {C T V : Type} `{Stored C T V} (copy : T -> St (list C) T) : Prop :=
  forall h (x : T) (v : V), view h x = Some v ->
  exists y h', copy x h = Val (y, h') /\ h `prefix_of` h' /\ own (length h) h' y v.

Section own.
Context {C T V : Type} `{StoredLaws C T V}.
Implicit Types (h : list C) (x : T) (v : V).

Lemma own_frame n h h' x v :
  own n h x v -> (forall l, n <= l -> l < length h -> h' !! l = h !! l) -> own n h' x v.
Proof.
  intros [Hv Hn] Hh. destruct (stored_frame h h' x v Hv) as [Hv' Hr].
  { intros l Hl. apply Hh; [by apply Hn | by eapply stored_valid]. }
  split; [done|]. by rewrite Hr.
Qed.

Lemma own_prefix n h h' x v : own n h x v -> h `prefix_of` h' -> own n h' x v.
Proof.
  intros Ho [k ->]. eapply own_frame; [exact Ho|]. intros l _ Hl. by apply lookup_app_l.
Qed.

Lemma own_weaken m n h x v : own n h x v -> m <= n -> own m h x v.
Proof. intros [Hv Hn] Hm. split; [done|]. intros l Hl. apply Hn in Hl. lia. Qed.

Lemma view_prefix h h' x v : view h x = Some v -> h `prefix_of` h' -> view h' x = Some v.
Proof.
  intros Hv Hp. apply (own_prefix 0 h); [|done]. split; [done|]. intros; lia.
Qed.
End own.

#[export] Hint Resolve own_prefix own_weaken view_prefix prefix_length : addon.

(** ** Elements, maps and slices *)

(** Strings and object statuses hold no references. *)
Definition plain_Stored (C T : Type) : Stored C T T :=
  {| view _ x := Some x; reach _ _ := [] |}.

Lemma plain_StoredLaws C T : @StoredLaws C T T (plain_Stored C T).
Proof. split; [done|]. intros h x v l _ Hl. by apply elem_of_nil in Hl. Qed.

#[export] Instance string_Stored C : Stored C string string := plain_Stored C string.
#[export] Instance string_StoredLaws C : StoredLaws C string string := plain_StoredLaws C string.
#[export] Instance ObjectStatus_Stored C : Stored C ObjectStatus ObjectStatus :=
  plain_Stored C ObjectStatus.
#[export] Instance ObjectStatus_StoredLaws C : StoredLaws C ObjectStatus ObjectStatus :=
  plain_StoredLaws C ObjectStatus.

(** The objects that are maps, and the arrays of a [T]. *)
Class MapCell (C : Type) := {
  to_map : gmap string string -> C;
  of_map : C -> option (gmap string string);
  of_to_map m : of_map (to_map m) = Some m
}.

Class ArrayCell (C T : Type) := {
  to_array : list T -> C;
  of_array : C -> option (list T);
  of_to_array l : of_array (to_array l) = Some l
}.

#[export] Instance map_Stored C `{MapCell C} : Stored C map_ref (option (gmap string string)) := {|
  view h r :=
    match r with
    | None => Some None
    | Some l => m ← h !! l ≫= of_map; Some (Some m)
    end;
  reach h r := option_list r
|}.

#[export] Instance map_StoredLaws C `{MapCell C} :
  StoredLaws C map_ref (option (gmap string string)).
Proof.
  split.
  - intros h h' [l|] v Hv Hh; [|done]. cbn in *. rewrite (Hh l) by (by left). done.
  - intros h [l|] v l' Hv Hl; cbn in *; [|by apply elem_of_nil in Hl].
    apply list_elem_of_singleton in Hl as ->. destruct (h !! l) as [c|] eqn:Hc; [|done].
    by apply lookup_lt_Some in Hc.
Qed.

(** The elements a slice shows. *)
Definition window {C T : Type} `{ArrayCell C T} (h : list C) (s : Slice) : option (list T) :=
  l ← h !! s_arr s ≫= of_array;
  if decide (s_off s + s_len s <= length l)
  then Some (take (s_len s) (drop (s_off s) l)) else None.

#[export] Instance slice_Stored C T V `{ArrayCell C T, Stored C T V}
  : Stored C slice_ref (option (list V)) := {|
  view h r :=
    match r with
    | None => Some None
    | Some s => xs ← window h s; vs ← mapM (view h) xs; Some (Some vs)
    end;
  reach h r :=
    match r with
    | None => []
    | Some s => s_arr s :: mjoin (reach h <$> default [] (window h s))
    end
|}.

Section slices.
Context {C T V : Type} `{ArrayCell C T, StoredLaws C T V}.
Implicit Types (h : list C) (s : Slice).

Lemma window_frame h h' s : h' !! s_arr s = h !! s_arr s -> window h' s = window h s.
Proof. intros Hs. unfold window. by rewrite Hs. Qed.

Lemma elems_frame h h' (xs : list T) (vs : list V) :
  mapM (view h) xs = Some vs ->
  (forall l, l ∈ mjoin (reach h <$> xs) -> h' !! l = h !! l) ->
  mapM (view h') xs = Some vs /\ reach h' <$> xs = reach h <$> xs.
Proof.
  rewrite !mapM_Some. intros Hall Hh. induction Hall as [|x v xs vs Hx Hall IH]; [done|].
  cbn [fmap list_fmap mjoin] in *.
  destruct (stored_frame h h' x v Hx) as [Hv Hr].
  { intros l Hl. apply Hh, elem_of_app. by left. }
  destruct IH as [Hvs Hrs]; [intros l Hl; apply Hh, elem_of_app; by right|].
  split; [by constructor|]. by rewrite Hr, Hrs.
Qed.

Lemma elems_valid h (xs : list T) (vs : list V) l :
  mapM (view h) xs = Some vs -> l ∈ mjoin (reach h <$> xs) -> l < length h.
Proof.
  rewrite mapM_Some. intros Hall Hl. induction Hall as [|x v xs vs Hx Hall IH]; cbn in Hl.
  - by apply elem_of_nil in Hl.
  - apply elem_of_app in Hl as [Hl|Hl]; [by eapply stored_valid | by apply IH].
Qed.

#[export] Instance slice_StoredLaws : StoredLaws C slice_ref (option (list V)).
Proof.
  split.
  - intros h h' [s|] v Hv Hh; [|done]. cbn in *.
    rewrite (window_frame h h') by (apply Hh; by left).
    destruct (window h s) as [xs|] eqn:Hw; [|done]. cbn in *.
    destruct (mapM (view h) xs) as [vs|] eqn:Hvs; [|done].
    destruct (elems_frame h h' xs vs Hvs) as [-> ->]; [|done].
    intros l Hl. apply Hh. by right.
  - intros h [s|] v l Hv Hl; cbn in *; [|by apply elem_of_nil in Hl].
    destruct (window h s) as [xs|] eqn:Hw; [|done]. cbn in *.
    destruct (mapM (view h) xs) as [vs|] eqn:Hvs; [|done].
    apply elem_of_cons in Hl as [->|Hl]; [|by eapply elems_valid].
    unfold window in Hw. destruct (h !! s_arr s) as [c|] eqn:Hc; [|done].
    by apply lookup_lt_Some in Hc.
Qed.
End slices.

(** ** Copying maps and slices

    The blocks that the generator emits for a field [X] that is a map, a
    slice of values, and a slice of structs with references of their own. *)
Section copying.
Context {C : Type}.

Definition deref_as {A : Type} (proj : C -> option A) (l : loc) : St (list C) A :=
  c ← deref l;
  match proj c with
  | Some a => mret a
  | None => go_panic invalid_memory
  end.

(** [if in.X != nil { *out = make(map[string]string, len(in.X));
    for key, val := range in.X { ( *out)[key] = val } }] *)
Definition copy_map `{MapCell C, GoRange} (t : list nat) (r : map_ref) : St (list C) map_ref :=
  match r with
  | None => mret None
  | Some l =>
      out ← alloc (to_map ∅);
      m ← deref_as of_map l;
      for_each (fun kv =>
        acc ← deref_as of_map out; store out (to_map (<[kv.1 := kv.2]> acc))) (range t m);;
      mret (Some out)
  end.

Definition read_window {T : Type} `{ArrayCell C T} (s : Slice) : St (list C) (list T) :=
  fun h => match window h s with Some xs => Val (xs, h) | None => Panicked invalid_memory end.

(** [if in.X != nil { *out = make([]T, len(in.X)); copy( *out, in.X) }] *)
Definition copy_values {T : Type} `{ArrayCell C T} (zero : T) (r : slice_ref)
    : St (list C) slice_ref :=
  match r with
  | None => mret None
  | Some s =>
      out ← alloc (to_array (replicate (s_len s) zero));
      src ← read_window s;
      dst ← deref_as of_array out;
      store out (to_array (take (length dst) src ++ drop (length src) dst));;
      mret (Some (mkSlice out 0 (s_len s)))
  end.

(** [( *in)[i]] *)
Definition slice_index {T : Type} `{ArrayCell C T} (s : Slice) (i : nat) : St (list C) T :=
  xs ← read_window s;
  match xs !! i with
  | Some x => mret x
  | None => go_panic "runtime error: index out of range"
  end.

(** [if in.X != nil { *out = make([]T, len(in.X));
    for i := range in.X { in.X[i].DeepCopyInto(&( *out)[i]) } }] *)
Definition copy_structs {T : Type} `{ArrayCell C T} (zero : T)
    (DeepCopyInto : nat -> T -> St (list C) T) (r : slice_ref) : St (list C) slice_ref :=
  match r with
  | None => mret None
  | Some s =>
      out ← alloc (to_array (replicate (s_len s) zero));
      for_each (fun i =>
        x ← slice_index s i;
        y ← DeepCopyInto i x;
        dst ← deref_as of_array out;
        store out (to_array (<[i := y]> dst))) (seq 0 (s_len s));;
      mret (Some (mkSlice out 0 (s_len s)))
  end.

Lemma deref_as_run {A} (proj : C -> option A) h l c a :
  h !! l = Some c -> proj c = Some a -> deref_as proj l h = Val (a, h).
Proof.
  intros Hl Hc. unfold deref_as. erewrite St_bind_step by (by apply deref_Some). by rewrite Hc.
Qed.

Lemma alloc_run h (c : C) : alloc c h = Val (length h, h ++ [c]).
Proof. done. Qed.

Lemma store_last h (c c' : C) : store (length h) c' (h ++ [c]) = Val ((), h ++ [c']).
Proof.
  erewrite store_Some by apply lookup_alloc.
  by rewrite insert_app_r_alt, Nat.sub_diag by done.
Qed.

Lemma prefix_alloc h (c : C) : h `prefix_of` h ++ [c].
Proof. by apply prefix_app_r. Qed.

Lemma copy_map_copies `{MapCell C, GoRange} t : copies (copy_map t).
Proof.
  intros h [l|] v Hv; cbn in Hv.
  2: { simplify_eq. exists None, h. split_and!; [done..|]. split; [done|].
       intros l Hl. by apply elem_of_nil in Hl. }
  destruct (h !! l) as [c|] eqn:Hl; [|done]. cbn in Hv.
  destruct (of_map c) as [m|] eqn:Hc; simplify_eq/=.
  exists (Some (length h)), (h ++ [to_map m]). split_and!.
  - unfold copy_map. rewrite (St_bind_step _ _ _ _ _ (alloc_run _ _)).
    erewrite St_bind_step by (eapply deref_as_run; [by apply lookup_app_l_Some | exact Hc]).
    erewrite St_bind_step; [reflexivity|].
    rewrite (for_each_fold _ (fun acc => h ++ [to_map acc])
      (fun acc kv => <[kv.1 := kv.2]> acc)).
    { by rewrite range_copy, (right_id_L ∅ (∪)). }
    intros kv acc. erewrite St_bind_step by
      (eapply deref_as_run; [apply lookup_alloc | apply of_to_map]). apply store_last.
  - apply prefix_alloc.
  - split; cbn.
    + rewrite lookup_alloc. cbn. by rewrite of_to_map.
    + intros l' Hl'. apply list_elem_of_singleton in Hl' as ->. done.
Qed.

Lemma copies_None {T V} `{Stored C T V} `{ArrayCell C T} h :
  own (T := slice_ref) (V := option (list V)) (length h) h None None.
Proof. split; [done|]. intros l Hl. by apply elem_of_nil in Hl. Qed.

Lemma window_length {T} `{ArrayCell C T} h s (xs : list T) :
  window h s = Some xs -> length xs = s_len s.
Proof.
  unfold window. destruct (h !! s_arr s ≫= of_array) as [l|]; [|done]. cbn.
  case_decide; [|done]. intros; simplify_eq. rewrite length_take, length_drop. lia.
Qed.

Lemma window_all {T} `{ArrayCell C T} h l (ys : list T) k :
  h !! l = Some (to_array ys) -> k = length ys -> window h (mkSlice l 0 k) = Some ys.
Proof.
  intros Hl ->. unfold window. cbn. rewrite Hl. cbn. rewrite of_to_array. cbn.
  rewrite decide_True by lia. by rewrite drop_0, firstn_all.
Qed.

Lemma window_prefix {T} `{ArrayCell C T} h h' s (xs : list T) :
  window h s = Some xs -> h `prefix_of` h' -> window h' s = Some xs.
Proof.
  intros Hw Hp. rewrite <-Hw. apply window_frame.
  destruct (h !! s_arr s) as [c|] eqn:Hc; [by eapply prefix_lookup_heap|].
  unfold window in Hw. by rewrite Hc in Hw.
Qed.

Lemma mapM_plain {T} (xs : list T) : mapM (fun x => Some x) xs = Some xs.
Proof. apply mapM_Some. induction xs; by constructor. Qed.

Lemma copy_values_copies {T} `{ArrayCell C T} (zero : T) :
  @copies C slice_ref (option (list T)) (slice_Stored C T T (H0 := plain_Stored C T))
    (copy_values zero).
Proof.
  intros h [s|] v Hv; cbn in Hv.
  2: { simplify_eq. exists None, h. split_and!; [done..|]. apply (copies_None (V := T)). }
  destruct (window h s) as [xs|] eqn:Hw; [|done]. cbn in Hv. rewrite mapM_plain in Hv.
  simplify_eq/=. pose proof (window_length _ _ _ Hw) as Hlen.
  exists (Some (mkSlice (length h) 0 (s_len s))), (h ++ [to_array xs]).
  assert (window (h ++ [to_array xs]) (mkSlice (length h) 0 (s_len s)) = Some xs) as Hw'.
  { apply window_all; [apply lookup_alloc | done]. }
  split_and!; [ | apply prefix_alloc |].
  - unfold copy_values. rewrite (St_bind_step _ _ _ _ _ (alloc_run _ _)).
    erewrite St_bind_step by (unfold read_window;
      rewrite (window_prefix _ _ _ _ Hw (prefix_alloc _ _)); reflexivity).
    erewrite St_bind_step by (eapply deref_as_run; [apply lookup_alloc | apply of_to_array]).
    rewrite length_replicate, drop_ge, app_nil_r, take_ge by (rewrite ?length_replicate; lia).
    by erewrite St_bind_step by apply store_last.
  - split; cbn; rewrite Hw'; cbn; [by rewrite mapM_plain|].
    intros l Hl. apply elem_of_cons in Hl as [->|Hl]; [done|].
    exfalso. clear -Hl. induction xs; cbn in Hl; [by apply elem_of_nil in Hl | by apply IHxs].
Qed.

(** Copying the elements of a slice of structs, one after the other, into the
    array [out]. *)
Lemma copy_elements {T V} `{ArrayCell C T, StoredLaws C T V} (f : nat -> T -> St (list C) T)
    (zero : T) h s xs vs k n :
  (forall i, copies (f i)) ->
  window h s = Some xs -> mapM (view h) xs = Some vs -> k + n = length xs ->
  exists ys h',
    for_each (fun i =>
        x ← slice_index s i; y ← f i x;
        dst ← deref_as of_array (length h);
        store (length h) (to_array (<[i := y]> dst)))
      (seq 0 k) (h ++ [to_array (replicate (length xs) zero)]) = Val ((), h') /\
    h `prefix_of` h' /\ length h < length h' /\
    h' !! length h = Some (to_array (ys ++ replicate n zero)) /\
    Forall2 (own (S (length h)) h') ys (take k vs).
Proof.
  intros Hf Hw Hvs. revert n. induction k as [|k IH]; intros n Hn.
  - exists [], (h ++ [to_array (replicate (length xs) zero)]).
    split_and!; [done | apply prefix_alloc | rewrite length_app; simpl; lia | | constructor].
    rewrite lookup_alloc. simpl in Hn. by rewrite <-Hn.
  - destruct (IH (S n)) as (ys & h1 & Hrun & Hp & Hlen & Hout & Hys); [lia|].
    assert (length ys = k) as Hk.
    { apply Forall2_length in Hys. rewrite Hys, length_take.
      apply mapM_Some, Forall2_length in Hvs. lia. }
    destruct (lookup_lt_is_Some_2 xs k ltac:(lia)) as [x Hx].
    assert (exists v, vs !! k = Some v /\ view h x = Some v) as (v & Hv & Hview).
    { apply mapM_Some in Hvs. by eapply Forall2_lookup_l in Hx; [|exact Hvs]. }
    destruct (Hf k h1 x v) as (y & h2 & Hcopy & Hp2 & Hown); [by eapply view_prefix|].
    exists (ys ++ [y]), (<[length h := to_array ((ys ++ [y]) ++ replicate n zero)]> h2).
    pose proof (prefix_length _ _ Hp2) as Hlen2.
    split_and!.
    + rewrite seq_S, for_each_app. erewrite St_bind_step by exact Hrun. cbn [for_each Nat.add].
      erewrite St_bind_step; [reflexivity|].
      erewrite St_bind_step by (unfold slice_index, read_window; st_eval;
        rewrite (window_prefix _ _ _ _ Hw Hp), Hx; reflexivity).
      erewrite St_bind_step by exact Hcopy.
      erewrite St_bind_step by (eapply deref_as_run; [by eapply prefix_lookup_heap | apply of_to_array]).
      erewrite store_Some by (by eapply prefix_lookup_heap).
      do 4 f_equal. rewrite insert_app_r_alt by lia. rewrite Hk, Nat.sub_diag.
      by rewrite <-app_assoc.
    + apply prefix_insert; [|done]. by etrans.
    + rewrite length_insert. lia.
    + apply list_lookup_insert_eq. lia.
    + rewrite (take_S_r _ _ _ Hv). apply Forall2_app.
      * eapply Forall2_impl; [exact Hys|]. intros y' v' Ho.
        apply (own_frame _ h2); [by eapply own_prefix|].
        intros l Hl _. by rewrite list_lookup_insert_ne by lia.
      * constructor; [|constructor]. apply (own_frame _ h2).
        -- eapply own_weaken; [exact Hown | lia].
        -- intros l Hl _. by rewrite list_lookup_insert_ne by lia.
Qed.

Lemma copy_structs_copies {T V} `{ArrayCell C T, StoredLaws C T V} (zero : T)
    (f : nat -> T -> St (list C) T) :
  (forall i, copies (f i)) -> copies (V := option (list V)) (copy_structs zero f).
Proof.
  intros Hf h [s|] v Hv; cbn in Hv.
  2: { simplify_eq. exists None, h. split_and!; [done..|]. apply copies_None. }
  destruct (window h s) as [xs|] eqn:Hw; [|done]. cbn in Hv.
  destruct (mapM (view h) xs) as [vs|] eqn:Hvs; simplify_eq/=.
  pose proof (window_length _ _ _ Hw) as Hlen.
  destruct (copy_elements f zero h s xs vs (length xs) 0 Hf Hw Hvs) as
    (ys & h' & Hrun & Hp & Hlt & Hout & Hys); [lia|].
  assert (length vs = length xs) as Hl by (by apply mapM_Some, Forall2_length in Hvs).
  rewrite take_ge in Hys by lia. cbn in Hout. rewrite app_nil_r in Hout.
  assert (window h' (mkSlice (length h) 0 (s_len s)) = Some ys) as Hw'.
  { apply window_all; [done|]. apply Forall2_length in Hys. lia. }
  exists (Some (mkSlice (length h) 0 (s_len s))), h'. split_and!; [|done|].
  - unfold copy_structs. rewrite (St_bind_step _ _ _ _ _ (alloc_run _ _)). rewrite Hlen in Hrun.
    by erewrite St_bind_step by exact Hrun.
  - split; cbn; rewrite Hw'; cbn.
    + assert (mapM (view h') ys = Some vs) as ->; [|done].
      apply mapM_Some. eapply Forall2_impl; [exact Hys|]. by intros ?? [? _].
    + intros l Hl'. apply elem_of_cons in Hl' as [->|Hl']; [done|].
      apply list_elem_of_join in Hl' as (ls & Hl' & Hls). apply list_elem_of_fmap in Hls as (y & -> & Hy).
      apply list_elem_of_lookup in Hy as [i Hi].
      destruct (Forall2_lookup_l _ _ _ _ _ Hys Hi) as (v & _ & Ho). apply Ho in Hl'. lia.
Qed.
End copying.

(** ** Structs

    A struct is stored as the tuple of its fields that hold references; the
    other fields are copied by assignment. *)
Section structs.
Context {C : Type}.

#[export] Instance pair_Stored {T1 V1 T2 V2} `{Stored C T1 V1, Stored C T2 V2}
  : Stored C (T1 * T2) (V1 * V2) := {|
  view h x := v1 ← view h x.1; v2 ← view h x.2; Some (v1, v2);
  reach h x := reach h x.1 ++ reach h x.2
|}.

#[export] Instance pair_StoredLaws {T1 V1 T2 V2} `{StoredLaws C T1 V1, StoredLaws C T2 V2}
  : StoredLaws C (T1 * T2) (V1 * V2).
Proof.
  split.
  - intros h h' [x1 x2] v Hv Hh. cbn in *.
    destruct (view h x1) as [v1|] eqn:E1; [|done]. cbn in Hv.
    destruct (view h x2) as [v2|] eqn:E2; [|done]. cbn in Hv.
    destruct (stored_frame h h' x1 v1 E1) as [-> ->].
    { intros l Hl. apply Hh, elem_of_app. by left. }
    destruct (stored_frame h h' x2 v2 E2) as [-> ->].
    { intros l Hl. apply Hh, elem_of_app. by right. }
    done.
  - intros h [x1 x2] v l Hv Hl. cbn in *.
    destruct (view h x1) as [v1|] eqn:E1; [|done]. cbn in Hv.
    destruct (view h x2) as [v2|] eqn:E2; [|done].
    apply elem_of_app in Hl as [Hl|Hl];
      [by apply (stored_valid h x1 v1) | by apply (stored_valid h x2 v2)].
Qed.

Definition copy_pair {T1 T2 : Type} (c1 : T1 -> St (list C) T1) (c2 : T2 -> St (list C) T2)
    (x : T1 * T2) : St (list C) (T1 * T2) :=
  y1 ← c1 x.1; y2 ← c2 x.2; mret (y1, y2).

Lemma copy_pair_copies {T1 V1 T2 V2} `{StoredLaws C T1 V1, StoredLaws C T2 V2}
    (c1 : T1 -> St (list C) T1) (c2 : T2 -> St (list C) T2) :
  copies (V := V1) c1 -> copies (V := V2) c2 -> copies (V := V1 * V2) (copy_pair c1 c2).
Proof.
  intros Hc1 Hc2 h [x1 x2] v Hv. cbn in Hv.
  destruct (view h x1) as [v1|] eqn:E1; [|done]. cbn in Hv.
  destruct (view h x2) as [v2|] eqn:E2; [|done]. simplify_eq/=.
  destruct (Hc1 h x1 v1 E1) as (y1 & h1 & Hr1 & Hp1 & Ho1).
  destruct (Hc2 h1 x2 v2) as (y2 & h2 & Hr2 & Hp2 & Ho2); [by eapply view_prefix|].
  exists (y1, y2), h2. split_and!; [|by etrans|].
  - unfold copy_pair. erewrite St_bind_step by exact Hr1. by erewrite St_bind_step by exact Hr2.
  - apply (own_prefix _ _ h2) in Ho1; [|done].
    apply (own_weaken (length h)) in Ho2; [|by apply prefix_length].
    destruct Ho1 as [Hv1 Hn1], Ho2 as [Hv2 Hn2]. split; cbn; [by rewrite Hv1, Hv2|].
    intros l Hl. apply elem_of_app in Hl as [Hl|Hl]; auto.
Qed.

Context {T V T' V' : Type} `{StoredLaws C T' V'}.
Context (fields : T -> T') (fill : T -> V' -> V).

Definition struct_Stored : Stored C T V :=
  {| view h x := fill x <$> view h (fields x); reach h x := reach h (fields x) |}.

Lemma struct_StoredLaws : @StoredLaws C T V struct_Stored.
Proof.
  split.
  - intros h h' x v Hv Hh. cbn in *. destruct (view h (fields x)) as [v'|] eqn:Hx; [|done].
    by destruct (stored_frame h h' (fields x) v' Hx Hh) as [-> ->].
  - intros h x v l Hv Hl. cbn in *. destruct (view h (fields x)) as [v'|] eqn:Hx; [|done].
    by eapply stored_valid.
Qed.

(** A copy that copies the tuple and puts it in place of the original's. *)
Lemma struct_copies (copy : T -> St (list C) T) (copy' : T' -> St (list C) T')
    (build : T -> T' -> T) :
  copies copy' ->
  (forall x y, fields (build x y) = y) ->
  (forall x y, fill (build x y) = fill x) ->
  (forall x h, copy x h = (y ← copy' (fields x); mret (build x y)) h) ->
  @copies C T V struct_Stored copy.
Proof.
  intros Hc Hf Hg Heq h x v Hv. cbn in Hv.
  destruct (view h (fields x)) as [v'|] eqn:Hx; simplify_eq/=.
  destruct (Hc h (fields x) v' Hx) as (y & h' & Hr & Hp & [Hvy Hny]).
  exists (build x y), h'. split_and!; [|done|].
  - rewrite Heq. by erewrite St_bind_step by exact Hr.
  - split; cbn; rewrite Hf; [by rewrite Hvy; cbn; rewrite Hg | done].
Qed.
End structs.

(** Two sequences of the same steps. *)
Ltac copy_steps :=
  st_eval; cbn [fst snd];
  repeat (match goal with
    | |- context [match ?m with Val _ => _ | Panicked _ => _ end] => destruct m as [[]|]
    end; cbn [fst snd]; try reflexivity).

(** ** The API types *)

Abbreviation map_val := (option (gmap string string)).
Abbreviation strings_val := (option (list string)).

Abbreviation SecretCmdSpecRef := (SecretCmdSpecOf slice_ref).
Abbreviation SecretCmdSpecVal := (SecretCmdSpecOf strings_val).

(** What the generated code calls in [k8s.io/apimachinery]: the deep copies
    of [metav1.LabelSelector], [ObjectMeta] and [ListMeta], types outside the
    repository, with their zero values. *)
Class MetaV1 (C Sel Meta ListMeta : Type) := {
  LabelSelector_DeepCopyInto : Sel -> St (list C) Sel;
  ObjectMeta_DeepCopyInto : Meta -> St (list C) Meta;
  ListMeta_DeepCopyInto : ListMeta -> St (list C) ListMeta;
  zero_Sel : Sel;
  zero_Meta : Meta
}.

Section cells.
Context {E Sel Meta : Type}.

#[export] Instance ocell_map : MapCell (ocell E Sel Meta) := {|
  to_map := CMap; of_map c := match c with CMap m => Some m | _ => None end;
  of_to_map m := eq_refl
|}.

#[export] Instance ocell_strings : ArrayCell (ocell E Sel Meta) string := {|
  to_array := CStrings; of_array c := match c with CStrings l => Some l | _ => None end;
  of_to_array l := eq_refl
|}.

#[export] Instance ocell_objects : ArrayCell (ocell E Sel Meta) ObjectStatus := {|
  to_array := CObjects; of_array c := match c with CObjects l => Some l | _ => None end;
  of_to_array l := eq_refl
|}.

#[export] Instance ocell_secrets : ArrayCell (ocell E Sel Meta) SecretCmdSpecRef := {|
  to_array := CSecrets; of_array c := match c with CSecrets l => Some l | _ => None end;
  of_to_array l := eq_refl
|}.

#[export] Instance ocell_addons : ArrayCell (ocell E Sel Meta)
    (AddonOf map_ref slice_ref slice_ref Sel slice_ref Meta) := {|
  to_array := CAddons; of_array c := match c with CAddons l => Some l | _ => None end;
  of_to_array l := eq_refl
|}.
End cells.

(** The [DeepCopy] methods: a nil pointer gives nil, and [new(T)] is a fresh
    struct that the copy is written into. *)
Definition deep_copy_pointer {S T : Type} (into : T -> St S T) (x : option T)
    : St S (option T) :=
  match x with
  | None => mret None
  | Some x => out ← into x; mret (Some out)
  end.

(** Structs without references. *)
Section value_types.
Context {S : Type}.

Definition WorkflowType_DeepCopyInto (x : WorkflowType) : St S WorkflowType := mret x.
Definition WorkflowType_DeepCopy : option WorkflowType -> St S (option WorkflowType) :=
  deep_copy_pointer WorkflowType_DeepCopyInto.

Definition LifecycleWorkflowSpec_DeepCopyInto (x : LifecycleWorkflowSpec)
    : St S LifecycleWorkflowSpec :=
  mret (mkLifecycleWorkflowSpec (LC_Prereqs x) (LC_Install x) (LC_Delete x) (LC_Validate x)).
Definition LifecycleWorkflowSpec_DeepCopy
    : option LifecycleWorkflowSpec -> St S (option LifecycleWorkflowSpec) :=
  deep_copy_pointer LifecycleWorkflowSpec_DeepCopyInto.

Definition ObjectStatus_DeepCopyInto (x : ObjectStatus) : St S ObjectStatus := mret x.
Definition ObjectStatus_DeepCopy : option ObjectStatus -> St S (option ObjectStatus) :=
  deep_copy_pointer ObjectStatus_DeepCopyInto.

Definition AddonStatusLifecycle_DeepCopyInto (x : AddonStatusLifecycle)
    : St S AddonStatusLifecycle := mret x.
Definition AddonStatusLifecycle_DeepCopy
    : option AddonStatusLifecycle -> St S (option AddonStatusLifecycle) :=
  deep_copy_pointer AddonStatusLifecycle_DeepCopyInto.
End value_types.

(** The types whose references are maps and slices only. *)
Section plain_types.
Context {C : Type} `{MapCell C, !ArrayCell C string, GoRange}.

#[export] Instance ClusterContext_Stored
  : Stored C (ClusterContextOf map_ref) (ClusterContextOf map_val) :=
  struct_Stored cc_AdditionalConfigs
    (fun x => mkClusterContextOf (cc_ClusterName x) (cc_ClusterRegion x)).
#[export] Instance ClusterContext_StoredLaws
  : StoredLaws C (ClusterContextOf map_ref) (ClusterContextOf map_val) := struct_StoredLaws _ _.

Definition ClusterContext_DeepCopyInto (t : list nat) (x : ClusterContextOf map_ref)
    : St (list C) (ClusterContextOf map_ref) :=
  configs ← copy_map t (cc_AdditionalConfigs x);
  mret (mkClusterContextOf (cc_ClusterName x) (cc_ClusterRegion x) configs).

Definition ClusterContext_DeepCopy (t : list nat)
    : option (ClusterContextOf map_ref) -> St (list C) (option (ClusterContextOf map_ref)) :=
  deep_copy_pointer (ClusterContext_DeepCopyInto t).

Lemma ClusterContext_copies t : copies (ClusterContext_DeepCopyInto t).
Proof.
  apply (struct_copies _ _ _ (copy_map t)
    (fun x => mkClusterContextOf (cc_ClusterName x) (cc_ClusterRegion x))); try done.
  apply copy_map_copies.
Qed.

#[export] Instance AddonParams_Stored
  : Stored C (AddonParamsOf map_ref) (AddonParamsOf map_val) :=
  struct_Stored (fun x => (ap_Context x, ap_Data x))
    (fun x v => mkAddonParamsOf (ap_Namespace x) v.1 v.2).
#[export] Instance AddonParams_StoredLaws
  : StoredLaws C (AddonParamsOf map_ref) (AddonParamsOf map_val) := struct_StoredLaws _ _.

Definition AddonParams_DeepCopyInto (t : list nat) (x : AddonParamsOf map_ref)
    : St (list C) (AddonParamsOf map_ref) :=
  context ← ClusterContext_DeepCopyInto (0 :: t) (ap_Context x);
  data ← copy_map (1 :: t) (ap_Data x);
  mret (mkAddonParamsOf (ap_Namespace x) context data).

Definition AddonParams_DeepCopy (t : list nat)
    : option (AddonParamsOf map_ref) -> St (list C) (option (AddonParamsOf map_ref)) :=
  deep_copy_pointer (AddonParams_DeepCopyInto t).

Lemma AddonParams_copies t : copies (AddonParams_DeepCopyInto t).
Proof.
  apply (struct_copies _ _ _
    (copy_pair (ClusterContext_DeepCopyInto (0 :: t)) (copy_map (1 :: t)))
    (fun x y => mkAddonParamsOf (ap_Namespace x) y.1 y.2)); try by intros ? [].
  - apply copy_pair_copies; [apply ClusterContext_copies | apply copy_map_copies].
  - intros x h. unfold AddonParams_DeepCopyInto, copy_pair. copy_steps.
Qed.

#[export] Instance KustomizeTemplate_Stored
  : Stored C (KustomizeTemplateOf map_ref) (KustomizeTemplateOf map_val) :=
  struct_Stored kt_Template (fun _ => mkKustomizeTemplateOf).
#[export] Instance KustomizeTemplate_StoredLaws
  : StoredLaws C (KustomizeTemplateOf map_ref) (KustomizeTemplateOf map_val) :=
  struct_StoredLaws _ _.

Definition KustomizeTemplate_DeepCopyInto (t : list nat) (x : KustomizeTemplateOf map_ref)
    : St (list C) (KustomizeTemplateOf map_ref) :=
  template ← copy_map t (kt_Template x);
  mret (mkKustomizeTemplateOf template).

Definition KustomizeTemplate_DeepCopy (t : list nat)
    : option (KustomizeTemplateOf map_ref) -> St (list C) (option (KustomizeTemplateOf map_ref)) :=
  deep_copy_pointer (KustomizeTemplate_DeepCopyInto t).

Lemma KustomizeTemplate_copies t : copies (KustomizeTemplate_DeepCopyInto t).
Proof.
  apply (struct_copies _ _ _ (copy_map t) (fun _ => mkKustomizeTemplateOf)); try done.
  apply copy_map_copies.
Qed.

Abbreviation KustomizeSpecRef := (KustomizeSpecOf map_ref slice_ref).
Abbreviation KustomizeSpecVal := (KustomizeSpecOf map_val strings_val).

#[export] Instance KustomizeSpec_Stored : Stored C KustomizeSpecRef KustomizeSpecVal :=
  struct_Stored (fun x => (ks_Labels x, ks_Annotations x, ks_Resources x, ks_Overlay x))
    (fun _ v => mkKustomizeSpecOf v.1.1.1 v.1.1.2 v.1.2 v.2).
#[export] Instance KustomizeSpec_StoredLaws : StoredLaws C KustomizeSpecRef KustomizeSpecVal :=
  struct_StoredLaws _ _.

Definition KustomizeSpec_DeepCopyInto (t : list nat) (x : KustomizeSpecRef)
    : St (list C) KustomizeSpecRef :=
  labels ← copy_map (0 :: t) (ks_Labels x);
  annotations ← copy_map (1 :: t) (ks_Annotations x);
  resources ← copy_values "" (ks_Resources x);
  overlay ← KustomizeTemplate_DeepCopyInto (2 :: t) (ks_Overlay x);
  mret (mkKustomizeSpecOf labels annotations resources overlay).

Definition KustomizeSpec_DeepCopy (t : list nat)
    : option KustomizeSpecRef -> St (list C) (option KustomizeSpecRef) :=
  deep_copy_pointer (KustomizeSpec_DeepCopyInto t).

Lemma KustomizeSpec_copies t : copies (KustomizeSpec_DeepCopyInto t).
Proof.
  apply (struct_copies _ _ _
    (copy_pair (copy_pair (copy_pair (copy_map (0 :: t)) (copy_map (1 :: t))) (copy_values ""))
       (KustomizeTemplate_DeepCopyInto (2 :: t)))
    (fun _ y => mkKustomizeSpecOf y.1.1.1 y.1.1.2 y.1.2 y.2)); try by intros ? [[[]]].
  - repeat apply copy_pair_copies; [apply copy_map_copies | apply copy_map_copies |
      apply copy_values_copies | apply KustomizeTemplate_copies].
  - intros x h. unfold KustomizeSpec_DeepCopyInto, copy_pair. copy_steps.
Qed.

Abbreviation AddonOverridesSpecRef := (AddonOverridesSpecOf map_ref slice_ref).
Abbreviation AddonOverridesSpecVal := (AddonOverridesSpecOf map_val strings_val).

#[export] Instance AddonOverridesSpec_Stored
  : Stored C AddonOverridesSpecRef AddonOverridesSpecVal :=
  struct_Stored (fun x => (ao_Kustomize x, ao_Template x))
    (fun _ v => mkAddonOverridesSpecOf v.1 v.2).
#[export] Instance AddonOverridesSpec_StoredLaws
  : StoredLaws C AddonOverridesSpecRef AddonOverridesSpecVal := struct_StoredLaws _ _.

Definition AddonOverridesSpec_DeepCopyInto (t : list nat) (x : AddonOverridesSpecRef)
    : St (list C) AddonOverridesSpecRef :=
  kustomize ← KustomizeSpec_DeepCopyInto (0 :: t) (ao_Kustomize x);
  template ← copy_map (1 :: t) (ao_Template x);
  mret (mkAddonOverridesSpecOf kustomize template).

Definition AddonOverridesSpec_DeepCopy (t : list nat)
    : option AddonOverridesSpecRef -> St (list C) (option AddonOverridesSpecRef) :=
  deep_copy_pointer (AddonOverridesSpec_DeepCopyInto t).

Lemma AddonOverridesSpec_copies t : copies (AddonOverridesSpec_DeepCopyInto t).
Proof.
  apply (struct_copies _ _ _ (copy_pair (KustomizeSpec_DeepCopyInto (0 :: t)) (copy_map (1 :: t)))
    (fun _ y => mkAddonOverridesSpecOf y.1 y.2)); try by intros ? [].
  - apply copy_pair_copies; [apply KustomizeSpec_copies | apply copy_map_copies].
  - intros x h. unfold AddonOverridesSpec_DeepCopyInto, copy_pair. copy_steps.
Qed.

#[export] Instance SecretCmdSpec_Stored : Stored C SecretCmdSpecRef SecretCmdSpecVal :=
  struct_Stored sc_Args (fun x => mkSecretCmdSpecOf (sc_Name x) (sc_Cmd x)).
#[export] Instance SecretCmdSpec_StoredLaws : StoredLaws C SecretCmdSpecRef SecretCmdSpecVal :=
  struct_StoredLaws _ _.

Definition zero_SecretCmdSpec : SecretCmdSpecRef := mkSecretCmdSpecOf "" 0%Z None.

Definition SecretCmdSpec_DeepCopyInto (x : SecretCmdSpecRef) : St (list C) SecretCmdSpecRef :=
  args ← copy_values "" (sc_Args x);
  mret (mkSecretCmdSpecOf (sc_Name x) (sc_Cmd x) args).

Definition SecretCmdSpec_DeepCopy : option SecretCmdSpecRef -> St (list C) (option SecretCmdSpecRef) :=
  deep_copy_pointer SecretCmdSpec_DeepCopyInto.

Lemma SecretCmdSpec_copies : copies SecretCmdSpec_DeepCopyInto.
Proof.
  apply (struct_copies _ _ _ (copy_values "")
    (fun x => mkSecretCmdSpecOf (sc_Name x) (sc_Cmd x))); try done.
  apply copy_values_copies.
Qed.

#[export] Instance PackageSpec_Stored
  : Stored C (PackageSpecOf map_ref) (PackageSpecOf map_val) :=
  struct_Stored pk_Deps (fun x => mkPackageSpecOf (pk_Channel x) (pk_Name x) (pk_Version x)
    (pk_Type x) (pk_Description x)).
#[export] Instance PackageSpec_StoredLaws
  : StoredLaws C (PackageSpecOf map_ref) (PackageSpecOf map_val) := struct_StoredLaws _ _.

Definition PackageSpec_DeepCopyInto (t : list nat) (x : PackageSpecOf map_ref)
    : St (list C) (PackageSpecOf map_ref) :=
  deps ← copy_map t (pk_Deps x);
  mret (mkPackageSpecOf (pk_Channel x) (pk_Name x) (pk_Version x) (pk_Type x)
    (pk_Description x) deps).

Definition PackageSpec_DeepCopy (t : list nat)
    : option (PackageSpecOf map_ref) -> St (list C) (option (PackageSpecOf map_ref)) :=
  deep_copy_pointer (PackageSpec_DeepCopyInto t).

Lemma PackageSpec_copies t : copies (PackageSpec_DeepCopyInto t).
Proof.
  apply (struct_copies _ _ _ (copy_map t)
    (fun x => mkPackageSpecOf (pk_Channel x) (pk_Name x) (pk_Version x)
      (pk_Type x) (pk_Description x))); try done.
  apply copy_map_copies.
Qed.
End plain_types.

(** The types that hold Kubernetes types. *)
Section api_types.
Context {E Sel Meta LM VSel VMeta VLM : Type}.
Abbreviation C := (ocell E Sel Meta).
Context `{GoRange, !MetaV1 C Sel Meta LM}.
Context `{!Stored C Sel VSel} `{!Stored C Meta VMeta} `{!Stored C LM VLM}.

Abbreviation AddonSpecRef := (AddonSpecOf map_ref slice_ref slice_ref Sel).
Abbreviation AddonSpecVal :=
  (AddonSpecOf map_val strings_val (option (list SecretCmdSpecVal)) VSel).

#[export] Instance AddonSpec_Stored : Stored C AddonSpecRef AddonSpecVal :=
  struct_Stored
    (fun x => (as_Package x, as_Params x, as_Selector x, as_Overrides x, as_Secrets x))
    (fun x v => mkAddonSpecOf v.1.1.1.1 v.1.1.1.2 v.1.1.2 v.1.2 v.2 (as_Lifecycle x)).

Definition AddonSpec_DeepCopyInto (t : list nat) (x : AddonSpecRef) : St (list C) AddonSpecRef :=
  package ← PackageSpec_DeepCopyInto (0 :: t) (as_Package x);
  params ← AddonParams_DeepCopyInto (1 :: t) (as_Params x);
  selector ← LabelSelector_DeepCopyInto (as_Selector x);
  overrides ← AddonOverridesSpec_DeepCopyInto (2 :: t) (as_Overrides x);
  secrets ← copy_structs zero_SecretCmdSpec (fun _ => SecretCmdSpec_DeepCopyInto) (as_Secrets x);
  mret (mkAddonSpecOf package params selector overrides secrets (as_Lifecycle x)).

Abbreviation AddonStatusRef := (AddonStatusOf slice_ref).
Abbreviation AddonStatusVal := (AddonStatusOf (option (list ObjectStatus))).

#[export] Instance AddonStatus_Stored : Stored C AddonStatusRef AddonStatusVal :=
  struct_Stored st_Resources
    (fun x v => mkAddonStatusOf (st_Checksum x) (st_Lifecycle x) v (st_Reason x) (st_StartTime x)).
#[export] Instance AddonStatus_StoredLaws : StoredLaws C AddonStatusRef AddonStatusVal :=
  struct_StoredLaws _ _.

Definition zero_ObjectStatus : ObjectStatus := mkObjectStatus "" "" "" "" "".

Definition AddonStatus_DeepCopyInto (x : AddonStatusRef) : St (list C) AddonStatusRef :=
  resources ← copy_values zero_ObjectStatus (st_Resources x);
  mret (mkAddonStatusOf (st_Checksum x) (st_Lifecycle x) resources (st_Reason x)
    (st_StartTime x)).

Definition AddonStatus_DeepCopy : option AddonStatusRef -> St (list C) (option AddonStatusRef) :=
  deep_copy_pointer AddonStatus_DeepCopyInto.

Lemma AddonStatus_copies : copies AddonStatus_DeepCopyInto.
Proof.
  apply (struct_copies _ _ _ (copy_values zero_ObjectStatus)
    (fun x r => mkAddonStatusOf (st_Checksum x) (st_Lifecycle x) r (st_Reason x)
      (st_StartTime x))); try done.
  apply copy_values_copies.
Qed.

Abbreviation AddonRef := (AddonOf map_ref slice_ref slice_ref Sel slice_ref Meta).
Abbreviation AddonVal := (AddonOf map_val strings_val (option (list SecretCmdSpecVal)) VSel
  (option (list ObjectStatus)) VMeta).

#[export] Instance Addon_Stored : Stored C AddonRef AddonVal :=
  struct_Stored (fun x => (ad_ObjectMeta x, ad_Spec x, ad_Status x))
    (fun x v => mkAddonOf (ad_TypeMeta x) v.1.1 v.1.2 v.2).

Definition Addon_DeepCopyInto (t : list nat) (x : AddonRef) : St (list C) AddonRef :=
  meta ← ObjectMeta_DeepCopyInto (ad_ObjectMeta x);
  spec ← AddonSpec_DeepCopyInto t (ad_Spec x);
  status ← AddonStatus_DeepCopyInto (ad_Status x);
  mret (mkAddonOf (ad_TypeMeta x) meta spec status).

Definition Addon_DeepCopy (t : list nat) : option AddonRef -> St (list C) (option AddonRef) :=
  deep_copy_pointer (Addon_DeepCopyInto t).

Definition Addon_DeepCopyObject (t : list nat) (x : option AddonRef)
    : St (list C) (option AddonRef) :=
  c ← Addon_DeepCopy t x;
  match c with Some c => mret (Some c) | None => mret None end.

Definition zero_Addon : AddonRef :=
  mkAddonOf ("", "") zero_Meta
    (mkAddonSpecOf (mkPackageSpecOf "" "" "" "" "" None)
      (mkAddonParamsOf "" (mkClusterContextOf "" "" None) None) zero_Sel
      (mkAddonOverridesSpecOf (mkKustomizeSpecOf None None None (mkKustomizeTemplateOf None)) None)
      None (mkLifecycleWorkflowSpec zero_WorkflowType zero_WorkflowType zero_WorkflowType
        zero_WorkflowType))
    (mkAddonStatusOf "" (mkAddonStatusLifecycle "" "") None "" 0%Z).

Abbreviation AddonListRef := (AddonListOf slice_ref LM).
Abbreviation AddonListVal := (AddonListOf (option (list AddonVal)) VLM).

#[export] Instance AddonList_Stored : Stored C AddonListRef AddonListVal :=
  struct_Stored (fun x => (al_ListMeta x, al_Items x))
    (fun x v => mkAddonListOf (al_TypeMeta x) v.1 v.2).

Definition AddonList_DeepCopyInto (t : list nat) (x : AddonListRef) : St (list C) AddonListRef :=
  listMeta ← ListMeta_DeepCopyInto (al_ListMeta x);
  items ← copy_structs zero_Addon (fun i => Addon_DeepCopyInto (i :: t)) (al_Items x);
  mret (mkAddonListOf (al_TypeMeta x) listMeta items).

Definition AddonList_DeepCopy (t : list nat)
    : option AddonListRef -> St (list C) (option AddonListRef) :=
  deep_copy_pointer (AddonList_DeepCopyInto t).

Definition AddonList_DeepCopyObject (t : list nat) (x : option AddonListRef)
    : St (list C) (option AddonListRef) :=
  c ← AddonList_DeepCopy t x;
  match c with Some c => mret (Some c) | None => mret None end.

(** What the Kubernetes library promises of its deep copies. *)
Context `{!StoredLaws C Sel VSel} `{!StoredLaws C Meta VMeta} `{!StoredLaws C LM VLM}.
Hypothesis LabelSelector_copies : copies LabelSelector_DeepCopyInto.
Hypothesis ObjectMeta_copies : copies ObjectMeta_DeepCopyInto.
Hypothesis ListMeta_copies : copies ListMeta_DeepCopyInto.

#[export] Instance AddonSpec_StoredLaws : StoredLaws C AddonSpecRef AddonSpecVal :=
  struct_StoredLaws _ _.
#[export] Instance Addon_StoredLaws : StoredLaws C AddonRef AddonVal := struct_StoredLaws _ _.
#[export] Instance AddonList_StoredLaws : StoredLaws C AddonListRef AddonListVal :=
  struct_StoredLaws _ _.

Definition AddonSpec_DeepCopy (t : list nat)
    : option AddonSpecRef -> St (list C) (option AddonSpecRef) :=
  deep_copy_pointer (AddonSpec_DeepCopyInto t).

Lemma AddonSpec_copies t : copies (AddonSpec_DeepCopyInto t).
Proof using LabelSelector_copies StoredLaws0.
  apply (struct_copies _ _ _
    (copy_pair (copy_pair (copy_pair (copy_pair (PackageSpec_DeepCopyInto (0 :: t))
       (AddonParams_DeepCopyInto (1 :: t))) LabelSelector_DeepCopyInto)
       (AddonOverridesSpec_DeepCopyInto (2 :: t)))
       (copy_structs zero_SecretCmdSpec (fun _ => SecretCmdSpec_DeepCopyInto)))
    (fun x y => mkAddonSpecOf y.1.1.1.1 y.1.1.1.2 y.1.1.2 y.1.2 y.2 (as_Lifecycle x)));
    try by intros ? [[[[]]]].
  - repeat apply copy_pair_copies; [apply PackageSpec_copies | apply AddonParams_copies |
      apply LabelSelector_copies | apply AddonOverridesSpec_copies |
      apply copy_structs_copies; intros _; apply SecretCmdSpec_copies].
  - intros x h. unfold AddonSpec_DeepCopyInto, copy_pair. copy_steps.
Qed.

Lemma Addon_copies t : copies (Addon_DeepCopyInto t).
Proof using LabelSelector_copies ObjectMeta_copies StoredLaws0 StoredLaws1.
  apply (struct_copies _ _ _
    (copy_pair (copy_pair ObjectMeta_DeepCopyInto (AddonSpec_DeepCopyInto t))
      AddonStatus_DeepCopyInto)
    (fun x y => mkAddonOf (ad_TypeMeta x) y.1.1 y.1.2 y.2)); try by intros ? [[]].
  - repeat apply copy_pair_copies; [apply ObjectMeta_copies | apply AddonSpec_copies |
      apply AddonStatus_copies].
  - intros x h. unfold Addon_DeepCopyInto, copy_pair. copy_steps.
Qed.

Lemma AddonList_copies t : copies (AddonList_DeepCopyInto t).
Proof.
  apply (struct_copies _ _ _
    (copy_pair ListMeta_DeepCopyInto
      (copy_structs zero_Addon (fun i => Addon_DeepCopyInto (i :: t))))
    (fun x y => mkAddonListOf (al_TypeMeta x) y.1 y.2)); try by intros ? [].
  - apply copy_pair_copies; [apply ListMeta_copies |
      apply copy_structs_copies; intros i; apply Addon_copies].
  - intros x h. unfold AddonList_DeepCopyInto, copy_pair. copy_steps.
Qed.

(** Two stored values that agree, of which neither sees what is written to
    the objects that the other reaches. *)
Definition equal_and_independent {C' T V : Type} `{Stored C' T V} (h : list C') (x y : T) (v : V)
    : Prop :=
  view h x = Some v /\ view h y = Some v /\
  (forall h2, (forall l, l ∉ reach h y -> h2 !! l = h !! l) -> view h2 x = Some v) /\
  (forall h2, (forall l, l ∉ reach h x -> h2 !! l = h !! l) -> view h2 y = Some v).

Lemma copies_independent {C' T V : Type} `{StoredLaws C' T V} copy h (x : T) (v : V) :
  copies copy -> view h x = Some v ->
  exists y h', copy x h = Val (y, h') /\ h `prefix_of` h' /\ equal_and_independent h' x y v.
Proof.
  intros Hc Hx. destruct (Hc h x v Hx) as (y & h' & Hrun & Hp & Hy & Hnew).
  exists y, h'. split_and!; [done | done|].
  assert (view h' x = Some v) as Hx' by (by eapply view_prefix).
  assert (forall l, l ∈ reach h' x -> l < length h) as Hold.
  { destruct (stored_frame h h' x v Hx) as [_ ->].
    - intros l Hl. apply (stored_valid h x v l Hx) in Hl.
      destruct (lookup_lt_is_Some_2 h l Hl) as [c Hlc]. rewrite Hlc. by eapply prefix_lookup_heap.
    - intros l. by apply stored_valid with (v := v). }
  split_and!; [done | done | |]; intros h2 Hh2.
  - apply (stored_frame h' h2 x v Hx'). intros l Hl. apply Hh2. intros Hl'.
    apply Hnew in Hl'. apply Hold in Hl. lia.
  - apply (stored_frame h' h2 y v Hy). intros l Hl. apply Hh2. intros Hl'.
    apply Hold in Hl'. apply Hnew in Hl. lia.
Qed.

(** C20: The generated deep copies of an addon and of a list of addons
    return, change no existing object, and give a value equal to the original
    (nil maps and slices included) that shares no object with it: whatever is
    written to the maps and arrays of one is not seen through the other.  A
    nil pointer gives nil. *)
Theorem deep_copies_are_independent t h :
  (forall (a : AddonRef) (v : AddonVal), view h a = Some v ->
    exists b h', Addon_DeepCopyObject t (Some a) h = Val (Some b, h') /\
      h `prefix_of` h' /\ equal_and_independent h' a b v) /\
  (forall (l : AddonListRef) (v : AddonListVal), view h l = Some v ->
    exists l' h', AddonList_DeepCopyObject t (Some l) h = Val (Some l', h') /\
      h `prefix_of` h' /\ equal_and_independent h' l l' v) /\
  Addon_DeepCopyObject t None h = Val (None, h) /\
  AddonList_DeepCopyObject t None h = Val (None, h).
Proof.
  split_and!; [| | done | done]; intros x v Hx.
  - destruct (copies_independent _ h x v (Addon_copies t) Hx) as (y & h' & Hrun & Hp & Hi).
    exists y, h'. split; [|done]. unfold Addon_DeepCopyObject, Addon_DeepCopy, deep_copy_pointer.
    st_eval. by rewrite Hrun.
  - destruct (copies_independent _ h x v (AddonList_copies t) Hx) as (y & h' & Hrun & Hp & Hi).
    exists y, h'. split; [|done]. unfold AddonList_DeepCopyObject, AddonList_DeepCopy, deep_copy_pointer.
    st_eval. by rewrite Hrun.
Qed.
End api_types.

(** ** A concrete instance *)

(** Selectors that are one map, metadata with a name and finalizers, list
    metadata that is one string. *)
Abbreviation sample_cell := (ocell unit map_ref (string * slice_ref)).

Definition copy_string (x : string) : St (list sample_cell) string := mret x.

Lemma copy_string_copies : copies copy_string.
Proof.
  intros h x v Hv. exists x, h. split_and!; [done..|]. split; [done|].
  intros l Hl. by apply elem_of_nil in Hl.
Qed.

#[local] Instance sample_meta : MetaV1 sample_cell map_ref (string * slice_ref) string := {|
  LabelSelector_DeepCopyInto := @copy_map sample_cell _ range_fwd [];
  ObjectMeta_DeepCopyInto := copy_pair copy_string (copy_values "");
  ListMeta_DeepCopyInto := copy_string;
  zero_Sel := None;
  zero_Meta := ("", None)
|}.

(** One map is shared by three fields of the original. *)
Definition sample_heap : list sample_cell :=
  [CMap {["a" := "1"]}; CStrings ["x"; "y"; "z"];
   CSecrets [mkSecretCmdSpecOf "s" 0%Z (Some (mkSlice 1 1 2))];
   CObjects [zero_ObjectStatus]].

Definition sample_addon : AddonOf map_ref slice_ref slice_ref map_ref slice_ref (string * slice_ref) :=
  mkAddonOf ("Addon", "v1") ("name", Some (mkSlice 1 0 1))
    (mkAddonSpecOf (mkPackageSpecOf "c" "n" "v" "helm" "d" (Some 0))
      (mkAddonParamsOf "ns" (mkClusterContextOf "c" "r" None) (Some 0)) (Some 0)
      (mkAddonOverridesSpecOf (mkKustomizeSpecOf None None None (mkKustomizeTemplateOf None)) None)
      (Some (mkSlice 2 0 1)) (mkLifecycleWorkflowSpec zero_WorkflowType zero_WorkflowType
        zero_WorkflowType zero_WorkflowType))
    (mkAddonStatusOf "sum" (mkAddonStatusLifecycle "" "") (Some (mkSlice 3 0 1)) "" 0%Z).

Lemma deep_copies_are_independent_witness :
  exists v : AddonOf map_val strings_val (option (list SecretCmdSpecVal)) map_val
      (option (list ObjectStatus)) (string * strings_val),
  view sample_heap sample_addon = Some v /\
  exists b h', @Addon_DeepCopyObject _ _ _ _ range_fwd sample_meta [] (Some sample_addon) sample_heap
      = Val (Some b, h') /\
    sample_heap `prefix_of` h' /\ equal_and_independent h' sample_addon b v.
Proof.
  eexists. split; [vm_compute; reflexivity|].
  refine (proj1 (@deep_copies_are_independent unit map_ref (string * slice_ref) string map_val
    (string * strings_val) string range_fwd sample_meta _ _ _ _ _ _ _ _ _ [] sample_heap)
    sample_addon _ _).
  - apply (@copy_map_copies sample_cell _ range_fwd).
  - apply copy_pair_copies; [apply copy_string_copies | apply copy_values_copies].
  - apply copy_string_copies.
  - vm_compute. reflexivity.
Defined.
