(* ===== verification/Clientset.v ===== *)
(** The generated client, [pkg/client/clientset/versioned]: the typed client
    of addons, the client of its API group and the clientset.

    client-go is outside the repository.  A request is built by a chain of
    steps on [*rest.Request]; what a chain sends to the server is a parameter
    with its documented behaviour as laws, and so is the server. *)
From S2P Require Import Prelude GoStrings AddonTypes Common GoHeap.
From Stdlib Require Import SpecFloat.

(** ** Options

    The fields of [v1.ListOptions] that the clients read or write; the rest
    and the other option types are passed on as they are. *)
Record ListOptions := mkListOptions {
  LO_LabelSelector : string;
  LO_FieldSelector : string;
  LO_Watch : bool;
  TimeoutSeconds : option Z;
  LO_ResourceVersion : string
}.

#[global] Instance ListOptions_eq_dec : EqDecision ListOptions.
Proof. solve_decision. Defined.

Definition set_Watch (b : bool) (o : ListOptions) : ListOptions :=
  mkListOptions (LO_LabelSelector o) (LO_FieldSelector o) b (TimeoutSeconds o)
    (LO_ResourceVersion o).

Class MetaV1Options := {
  GetOptions : Type;
  CreateOptions : Type;
  UpdateOptions : Type;
  DeleteOptions : Type;
  PatchOptions : Type
}.

Record AddonList := mkAddonList { List_ResourceVersion : string; Items : list Addon }.

(** ** Requests *)

(** [rest.Interface] starts a request with one of these. *)
Inductive Verb := VGet | VPost | VPut | VDelete | VPatch (pt : string).

Section requests.
Context `{MetaV1Options}.

(** What [VersionedParams] encodes, and what [Body] sends. *)
Inductive Query :=
  | QGet (o : GetOptions) | QList (o : ListOptions) | QCreate (o : CreateOptions)
  | QUpdate (o : UpdateOptions) | QPatch (o : PatchOptions).

Inductive Body := BAddon (a : Addon) | BDelete (o : DeleteOptions) | BData (d : string).

(** The steps of a chain, methods of [*rest.Request]. *)
Inductive RequestStep :=
  | SNamespace (ns : string) | SResource (r : string) | SName (n : string)
  | SSubResource (l : list string) | SVersionedParams (q : Query)
  | STimeout (d : Z) | SBody (b : Body).

(** What goes to the server. *)
Record HttpRequest := mkHttp {
  h_verb : Verb;
  h_namespace : option string;
  h_resource : option string;
  h_name : option string;
  h_subresources : list string;
  h_params : list Query;
  h_timeout : Z;
  h_body : option Body
}.

Definition empty_request (v : Verb) : HttpRequest := mkHttp v None None None [] [] 0 None.

(** Whether a step is accepted: a part of the path is given once and is a
    valid path segment, and a name is not empty. *)
Definition step_ok (valid_segment : string -> bool) (h : HttpRequest) (s : RequestStep) : bool :=
  match s with
  | SNamespace ns => (h_namespace h == None) && valid_segment ns
  | SResource r => (h_resource h == None) && valid_segment r
  | SName n => (h_name h == None) && (n != "") && valid_segment n
  | SSubResource l => (h_subresources h == []) && forallb valid_segment l
  | SVersionedParams _ | STimeout _ | SBody _ => true
  end.

Definition set_step (h : HttpRequest) (s : RequestStep) : HttpRequest :=
  let '(mkHttp v ns r n sub ps d b) := h in
  match s with
  | SNamespace x => mkHttp v (Some x) r n sub ps d b
  | SResource x => mkHttp v ns (Some x) n sub ps d b
  | SName x => mkHttp v ns r (Some x) sub ps d b
  | SSubResource l => mkHttp v ns r n l ps d b
  | SVersionedParams q => mkHttp v ns r n sub (ps ++ [q]) d b
  | STimeout x => mkHttp v ns r n sub ps x b
  | SBody x => mkHttp v ns r n sub ps d (Some x)
  end.

(** The check before a request goes out: an empty namespace is only for
    collections. *)
Definition preflight (h : HttpRequest) : bool :=
  if h_namespace h == Some "" then
    match h_verb h with
    | VPost => false
    | VGet | VPut | VDelete => match h_name h with Some _ => false | None => true end
    | VPatch _ => true
    end
  else true.
End requests.

(** client-go's [rest] package, and the API server behind it. *)
Class RestInterface `{MetaV1Options} := {
  RC : Type;
  Request : Type;
  Server : Type;
  Response : Type;
  Watcher : Type;
  new_request : RC -> Verb -> Request;
  req_step : RequestStep -> Request -> Request;
  Do : Request -> St Server Response;
  req_Watch : Request -> St Server (option Watcher * option error);
  (* [Into] a zero addon or list, and [Error] *)
  Into_Addon : Response -> Addon * option error;
  Into_AddonList : Response -> AddonList * option error;
  resp_Error : Response -> option error
}.

(** The documented behaviour: the steps collect the parts of the request,
    the first invalid one makes the request fail, and a request that has
    failed is reported without asking the server. *)
Class RestLaws `{RestInterface} := {
  valid_segment : string -> bool;
  sent : Request -> result HttpRequest;
  serve : HttpRequest -> St Server Response;
  serve_watch : HttpRequest -> St Server (option Watcher * option error);
  refused : error -> Response;
  sent_new c v : sent (new_request c v) = Ok (empty_request v);
  sent_step r h s :
    sent r = Ok h -> step_ok valid_segment h s = true -> sent (req_step s r) = Ok (set_step h s);
  sent_invalid r h s :
    sent r = Ok h -> step_ok valid_segment h s = false -> exists e, sent (req_step s r) = Err e;
  sent_failed r e s : sent r = Err e -> sent (req_step s r) = Err e;
  Do_sent r h : sent r = Ok h -> preflight h = true -> Do r = serve h;
  Do_preflight r h :
    sent r = Ok h -> preflight h = false -> exists e, Do r = mret (refused e);
  Do_failed r e : sent r = Err e -> Do r = mret (refused e);
  Watch_sent r h : sent r = Ok h -> req_Watch r = serve_watch h;
  Watch_failed r e : sent r = Err e -> req_Watch r = mret (None, Some e);
  refused_Addon e : (Into_Addon (refused e)).2 = Some e;
  refused_AddonList e : (Into_AddonList (refused e)).2 = Some e;
  refused_Error e : resp_Error (refused e) = Some e;
  valid_addons : valid_segment "addons" = true;
  valid_status : valid_segment "status" = true
}.

Notation "r ▷ s" := (req_step s r) (at level 50, left associativity) : go_scope.

(** ** The typed client, [typed/addon/v1alpha1/addon.go] *)

(** [AddonInterface]: what the generated code promises to its callers.  The
    typed client implements it, and so does the fake client.  A pointer to an
    object is an option. *)
Class AddonInterface `{MetaV1Options} := {
  AddonClient : Type;
  Backend : Type;
  WatchInterface : Type;
  ai_Get : AddonClient -> string -> GetOptions -> St Backend (option Addon * option error);
  ai_List : AddonClient -> ListOptions -> St Backend (option AddonList * option error);
  ai_Watch : AddonClient -> ListOptions -> St Backend (option WatchInterface * option error);
  ai_Create : AddonClient -> Addon -> CreateOptions -> St Backend (option Addon * option error);
  ai_Update : AddonClient -> Addon -> UpdateOptions -> St Backend (option Addon * option error);
  ai_UpdateStatus : AddonClient -> Addon -> UpdateOptions ->
    St Backend (option Addon * option error);
  ai_Delete : AddonClient -> string -> DeleteOptions -> St Backend (option error);
  ai_DeleteCollection : AddonClient -> DeleteOptions -> ListOptions -> St Backend (option error);
  ai_Patch : AddonClient -> string -> string -> string -> PatchOptions -> list string ->
    St Backend (option Addon * option error)
}.

(** [result = &v1alpha1.Addon{}], filled by [Into] and returned with its error. *)
Definition pointer {A : Type} (r : A * option error) : option A * option error := (Some r.1, r.2).

(** [time.Duration(s) * time.Second], in nanoseconds. *)
Definition timeout_of (o : ListOptions) : Z :=
  match TimeoutSeconds o with
  | Some s => int64_wrap (s * 1000000000)
  | None => 0
  end.

Section addons.
Context `{RestInterface}.

(** [client] is an interface value and may be nil. *)
Record addons := mkAddons { client : option RC; ad_ns : string }.

(** [c.client.Get()] and its siblings. *)
Definition start (c : addons) (v : Verb) : St Server Request :=
  match client c with
  | Some rc => mret (new_request rc v)
  | None => go_panic invalid_memory
  end.

Definition addons_Get (c : addons) (name : string) (options : GetOptions)
    : St Server (option Addon * option error) :=
  r ← start c VGet;
  resp ← Do (r ▷ SNamespace (ad_ns c) ▷ SResource "addons" ▷ SName name
               ▷ SVersionedParams (QGet options));
  mret (pointer (Into_Addon resp)).

Definition addons_List (c : addons) (opts : ListOptions) : St Server (option AddonList * option error) :=
  let timeout := timeout_of opts in
  r ← start c VGet;
  resp ← Do (r ▷ SNamespace (ad_ns c) ▷ SResource "addons"
               ▷ SVersionedParams (QList opts) ▷ STimeout timeout);
  mret (pointer (Into_AddonList resp)).

Definition addons_Watch (c : addons) (opts : ListOptions)
    : St Server (option Watcher * option error) :=
  let timeout := timeout_of opts in
  let opts := set_Watch true opts in
  r ← start c VGet;
  req_Watch (r ▷ SNamespace (ad_ns c) ▷ SResource "addons"
               ▷ SVersionedParams (QList opts) ▷ STimeout timeout).

Definition addons_Create (c : addons) (addon : Addon) (opts : CreateOptions)
    : St Server (option Addon * option error) :=
  r ← start c VPost;
  resp ← Do (r ▷ SNamespace (ad_ns c) ▷ SResource "addons"
               ▷ SVersionedParams (QCreate opts) ▷ SBody (BAddon addon));
  mret (pointer (Into_Addon resp)).

Definition addons_Update (c : addons) (addon : Addon) (opts : UpdateOptions)
    : St Server (option Addon * option error) :=
  r ← start c VPut;
  resp ← Do (r ▷ SNamespace (ad_ns c) ▷ SResource "addons" ▷ SName (addon_Name addon)
               ▷ SVersionedParams (QUpdate opts) ▷ SBody (BAddon addon));
  mret (pointer (Into_Addon resp)).

Definition addons_UpdateStatus (c : addons) (addon : Addon) (opts : UpdateOptions)
    : St Server (option Addon * option error) :=
  r ← start c VPut;
  resp ← Do (r ▷ SNamespace (ad_ns c) ▷ SResource "addons" ▷ SName (addon_Name addon)
               ▷ SSubResource ["status"] ▷ SVersionedParams (QUpdate opts)
               ▷ SBody (BAddon addon));
  mret (pointer (Into_Addon resp)).

Definition addons_Delete (c : addons) (name : string) (opts : DeleteOptions)
    : St Server (option error) :=
  r ← start c VDelete;
  resp ← Do (r ▷ SNamespace (ad_ns c) ▷ SResource "addons" ▷ SName name ▷ SBody (BDelete opts));
  mret (resp_Error resp).

Definition addons_DeleteCollection (c : addons) (opts : DeleteOptions) (listOpts : ListOptions)
    : St Server (option error) :=
  let timeout := timeout_of listOpts in
  r ← start c VDelete;
  resp ← Do (r ▷ SNamespace (ad_ns c) ▷ SResource "addons" ▷ SVersionedParams (QList listOpts)
               ▷ STimeout timeout ▷ SBody (BDelete opts));
  mret (resp_Error resp).

Definition addons_Patch (c : addons) (name pt data : string) (opts : PatchOptions)
    (subresources : list string) : St Server (option Addon * option error) :=
  r ← start c (VPatch pt);
  resp ← Do (r ▷ SNamespace (ad_ns c) ▷ SResource "addons" ▷ SName name
               ▷ SSubResource subresources ▷ SVersionedParams (QPatch opts) ▷ SBody (BData data));
  mret (pointer (Into_Addon resp)).

#[global] Instance addons_AddonInterface : AddonInterface := {|
  AddonClient := addons;
  Backend := Server;
  WatchInterface := Watcher;
  ai_Get := addons_Get;
  ai_List := addons_List;
  ai_Watch := addons_Watch;
  ai_Create := addons_Create;
  ai_Update := addons_Update;
  ai_UpdateStatus := addons_UpdateStatus;
  ai_Delete := addons_Delete;
  ai_DeleteCollection := addons_DeleteCollection;
  ai_Patch := addons_Patch |}.

(** ** The group's client, [typed/addon/v1alpha1/addon_client.go] *)

(** [*AddonmgrV1alpha1Client] is a pointer. *)
Record AddonmgrV1alpha1Client := mkGroupClient { restClient : option RC }.

Definition RESTClient (c : option AddonmgrV1alpha1Client) : option RC :=
  match c with
  | Some c => restClient c
  | None => None
  end.

Definition newAddons (c : option AddonmgrV1alpha1Client) (namespace : string) : addons :=
  mkAddons (RESTClient c) namespace.

Definition Addons (c : option AddonmgrV1alpha1Client) (namespace : string) : addons :=
  newAddons c namespace.
End addons.

Definition SchemeGroupVersion : string * string := ("addonmgr.keikoproj.io", "v1alpha1").

(** [rest.Config]; [C_other] are the fields the constructors leave alone.
    [QPS] is a [float32]. *)
Record Config {RateLimiter Other : Type} := mkConfig {
  UserAgent : string;
  QPS : spec_float;
  Burst : Z;
  C_RateLimiter : option RateLimiter;
  GroupVersion : option (string * string);
  APIPath : string;
  NegotiatedSerializer : string;
  C_other : Other
}.
Arguments Config : clear implicits.

(** What the constructors use of [rest], [discovery] and [flowcontrol]. *)
Class ClientConstructors `{RestInterface} := {
  RateLimiter : Type;
  OtherConfig : Type;
  HttpClient : Type;
  DiscoveryClient : Type;
  DefaultKubernetesUserAgent : string;
  NewTokenBucketRateLimiter : spec_float -> Z -> RateLimiter;
  HTTPClientFor : Config RateLimiter OtherConfig -> result HttpClient;
  RESTClientForConfigAndClient :
    Config RateLimiter OtherConfig -> option HttpClient -> result RC;
  NewDiscoveryClientForConfigAndClient :
    Config RateLimiter OtherConfig -> option HttpClient -> result DiscoveryClient;
  NewDiscoveryClient : option RC -> DiscoveryClient
}.

Section constructors.
Context `{ClientConstructors}.

Abbreviation RestConfig := (Config RateLimiter OtherConfig).

Definition set_UserAgent (u : string) (c : RestConfig) : RestConfig :=
  mkConfig _ _ u (QPS c) (Burst c) (C_RateLimiter c) (GroupVersion c) (APIPath c)
    (NegotiatedSerializer c) (C_other c).

Definition set_RateLimiter (l : RateLimiter) (c : RestConfig) : RestConfig :=
  mkConfig _ _ (UserAgent c) (QPS c) (Burst c) (Some l) (GroupVersion c) (APIPath c)
    (NegotiatedSerializer c) (C_other c).

Definition default_UserAgent (c : RestConfig) : RestConfig :=
  if UserAgent c == "" then set_UserAgent DefaultKubernetesUserAgent c else c.

(** It never reports an error. *)
Definition setConfigDefaults (config : RestConfig) : RestConfig * option error :=
  let gv := SchemeGroupVersion in
  let config := mkConfig _ _ (UserAgent config) (QPS config) (Burst config) (C_RateLimiter config)
    (Some gv) "/apis" "without conversion" (C_other config) in
  (default_UserAgent config, None).

Definition group_NewForConfigAndClient (c : RestConfig) (h : option HttpClient)
    : result AddonmgrV1alpha1Client :=
  match setConfigDefaults c with
  | (_, Some err) => Err err
  | (config, None) =>
      match RESTClientForConfigAndClient config h with
      | Err err => Err err
      | Ok client => Ok (mkGroupClient (Some client))
      end
  end.

Definition group_NewForConfig (c : RestConfig) : result AddonmgrV1alpha1Client :=
  match setConfigDefaults c with
  | (_, Some err) => Err err
  | (config, None) =>
      match HTTPClientFor config with
      | Err err => Err err
      | Ok httpClient => group_NewForConfigAndClient config (Some httpClient)
      end
  end.

(** [panic(err)] with an error value. *)
Definition or_die {A : Type} (r : result A) : outcome A :=
  match r with
  | Ok a => Val a
  | Err err => Panicked (Error err)
  end.

Definition group_NewForConfigOrDie (c : RestConfig) : outcome AddonmgrV1alpha1Client :=
  or_die (group_NewForConfig c).

Definition group_New (c : option RC) : AddonmgrV1alpha1Client := mkGroupClient c.

(** ** The clientset, [clientset.go] *)

Record Clientset := mkClientset {
  cs_DiscoveryClient : DiscoveryClient;
  addonmgrV1alpha1 : AddonmgrV1alpha1Client
}.

Definition AddonmgrV1alpha1 (c : Clientset) : AddonmgrV1alpha1Client := addonmgrV1alpha1 c.

Definition Discovery (c : option Clientset) : option DiscoveryClient :=
  match c with
  | None => None
  | Some c => Some (cs_DiscoveryClient c)
  end.

Definition burst_required : error :=
  Errorf "burst is required to be greater than 0 when RateLimiter is not set and QPS is set to greater than 0".

Definition QPS_positive (c : RestConfig) : bool := SFltb (S754_zero false) (QPS c).

(** The configuration with its rate limiter. *)
Definition with_rate_limiter (c : RestConfig) : result RestConfig :=
  if (match C_RateLimiter c with None => true | Some _ => false end) && QPS_positive c then
    if (Burst c <=? 0)%Z then Err burst_required
    else Ok (set_RateLimiter (NewTokenBucketRateLimiter (QPS c) (Burst c)) c)
  else Ok c.

Definition NewForConfigAndClient (c : RestConfig) (httpClient : option HttpClient)
    : result Clientset :=
  match with_rate_limiter c with
  | Err err => Err err
  | Ok configShallowCopy =>
      match group_NewForConfigAndClient configShallowCopy httpClient with
      | Err err => Err err
      | Ok addonmgr =>
          match NewDiscoveryClientForConfigAndClient configShallowCopy httpClient with
          | Err err => Err err
          | Ok discovery => Ok (mkClientset discovery addonmgr)
          end
      end
  end.

Definition NewForConfig (c : RestConfig) : result Clientset :=
  let configShallowCopy := default_UserAgent c in
  match HTTPClientFor configShallowCopy with
  | Err err => Err err
  | Ok httpClient => NewForConfigAndClient configShallowCopy (Some httpClient)
  end.

Definition NewForConfigOrDie (c : RestConfig) : outcome Clientset := or_die (NewForConfig c).

Definition clientset_New (c : option RC) : Clientset :=
  mkClientset (NewDiscoveryClient c) (group_New c).

(** [common.NewAddonClient], [pkg/common/helpers.go]: nil for an error. *)
Definition NewAddonClient (cfg : RestConfig) : option Clientset :=
  match NewForConfig cfg with
  | Err _ => None
  | Ok cli => Some cli
  end.
End constructors.
