(* ===== verification/ClientsetSpec.v ===== *)
(** What the generated client sends to the API server, and what its
    constructors make of a configuration. *)
From S2P Require Import Prelude GoStrings AddonTypes Common GoHeap Clientset.
From Stdlib Require Import SpecFloat.

(** ** The calls of the interface *)
Section calls.
Context `{MetaV1Options}.

Inductive AddonCall :=
  | MGet (name : string) (o : GetOptions)
  | MList (o : ListOptions)
  | MWatch (o : ListOptions)
  | MCreate (a : Addon) (o : CreateOptions)
  | MUpdate (a : Addon) (o : UpdateOptions)
  | MUpdateStatus (a : Addon) (o : UpdateOptions)
  | MDelete (name : string) (o : DeleteOptions)
  | MDeleteCollection (o : DeleteOptions) (lo : ListOptions)
  | MPatch (name pt data : string) (o : PatchOptions) (subresources : list string).

(** The request of a call, as the API documents it. *)
Definition request_of (ns : string) (m : AddonCall) : HttpRequest :=
  let req v n sub q d b := mkHttp v (Some ns) (Some "addons") n sub q d b in
  match m with
  | MGet n o => req VGet (Some n) [] [QGet o] 0%Z None
  | MList o => req VGet None [] [QList o] (timeout_of o) None
  | MWatch o => req VGet None [] [QList (set_Watch true o)] (timeout_of o) None
  | MCreate a o => req VPost None [] [QCreate o] 0%Z (Some (BAddon a))
  | MUpdate a o => req VPut (Some (addon_Name a)) [] [QUpdate o] 0%Z (Some (BAddon a))
  | MUpdateStatus a o =>
      req VPut (Some (addon_Name a)) ["status"] [QUpdate o] 0%Z (Some (BAddon a))
  | MDelete n o => req VDelete (Some n) [] [] 0%Z (Some (BDelete o))
  | MDeleteCollection o lo => req VDelete None [] [QList lo] (timeout_of lo) (Some (BDelete o))
  | MPatch n pt d o sub => req (VPatch pt) (Some n) sub [QPatch o] 0%Z (Some (BData d))
  end.
End calls.

(** A call through the interface. *)
Section perform.
Context `{AddonInterface}.

Inductive Reply :=
  | RAddon (a : option Addon) (e : option error)
  | RList (l : option AddonList) (e : option error)
  | RWatch (w : option WatchInterface) (e : option error)
  | RError (e : option error).

Definition reply_error (r : Reply) : option error :=
  match r with RAddon _ e | RList _ e | RWatch _ e | RError e => e end.

Definition perform (c : AddonClient) (m : AddonCall) : St Backend Reply :=
  match m with
  | MGet n o => r ← ai_Get c n o; mret (RAddon r.1 r.2)
  | MList o => r ← ai_List c o; mret (RList r.1 r.2)
  | MWatch o => r ← ai_Watch c o; mret (RWatch r.1 r.2)
  | MCreate a o => r ← ai_Create c a o; mret (RAddon r.1 r.2)
  | MUpdate a o => r ← ai_Update c a o; mret (RAddon r.1 r.2)
  | MUpdateStatus a o => r ← ai_UpdateStatus c a o; mret (RAddon r.1 r.2)
  | MDelete n o => r ← ai_Delete c n o; mret (RError r)
  | MDeleteCollection o lo => r ← ai_DeleteCollection c o lo; mret (RError r)
  | MPatch n pt d o sub => r ← ai_Patch c n pt d o sub; mret (RAddon r.1 r.2)
  end.
End perform.

(** ** Chains *)
Section chains.
Context `{RestLaws}.
Implicit Types (r : Request) (h : HttpRequest) (l : list RequestStep).

Fixpoint steps_ok h l : bool :=
  match l with
  | [] => true
  | s :: l' => step_ok valid_segment h s && steps_ok (set_step h s) l'
  end.

Definition chain r l : Request := foldl (fun r s => r ▷ s) r l.

Lemma chain_failed r e l : sent r = Err e -> sent (chain r l) = Err e.
Proof. revert r. induction l as [|s l IH]; intros r Hr; [done|]. by apply IH, sent_failed. Qed.

Lemma chain_sent r h l :
  sent r = Ok h ->
  if steps_ok h l then sent (chain r l) = Ok (foldl set_step h l)
  else exists e, sent (chain r l) = Err e.
Proof.
  revert r h. induction l as [|s l IH]; intros r h Hr; [done|]. cbn.
  destruct (step_ok valid_segment h s) eqn:Hs; cbn.
  - apply (IH (r ▷ s)), (sent_step r h s Hr Hs).
  - destruct (sent_invalid r h s Hr Hs) as [e He]. exists e. by apply chain_failed.
Qed.

(** Whether a chain from [c] gets to the server. *)
Definition goes_out v l : bool :=
  steps_ok (empty_request v) l && preflight (foldl set_step (empty_request v) l).

Lemma Do_chain c v l :
  if goes_out v l then Do (chain (new_request c v) l) = serve (foldl set_step (empty_request v) l)
  else exists e, Do (chain (new_request c v) l) = mret (refused e).
Proof.
  unfold goes_out. pose proof (chain_sent _ _ l (sent_new c v)) as Hc.
  destruct (steps_ok _ l); cbn [andb]; [|destruct Hc as [e He]; exists e; by apply Do_failed].
  destruct (preflight _) eqn:Hp; [by apply Do_sent | by eapply Do_preflight].
Qed.

Lemma Watch_chain c v l :
  if steps_ok (empty_request v) l
  then req_Watch (chain (new_request c v) l) = serve_watch (foldl set_step (empty_request v) l)
  else exists e, req_Watch (chain (new_request c v) l) = mret (None, Some e).
Proof.
  pose proof (chain_sent _ _ l (sent_new c v)) as Hc.
  destruct (steps_ok _ l); [by apply Watch_sent|]. destruct Hc as [e He]. exists e.
  by apply Watch_failed.
Qed.
End chains.

(** ** The typed client *)
Section typed_client.
Context `{RestLaws}.
Implicit Types (c : addons) (m : AddonCall).

(** The parts of the path are valid, the name is not empty, and a named
    object or a new one has a namespace. *)
Definition path_ok (ns : string) (m : AddonCall) : bool :=
  let h := request_of ns m in
  valid_segment ns &&
  (match h_name h with Some n => (n != "") && valid_segment n | None => true end) &&
  forallb valid_segment (h_subresources h) && preflight h.

(** What the caller gets from a response to the call. *)
Definition decode (m : AddonCall) (resp : Response) : Reply :=
  match m with
  | MList _ => let r := Into_AddonList resp in RList (Some r.1) r.2
  | MDelete _ _ | MDeleteCollection _ _ => RError (resp_Error resp)
  | _ => let r := Into_Addon resp in RAddon (Some r.1) r.2
  end.

Definition exchange (m : AddonCall) (h : HttpRequest) : St Server Reply :=
  match m with
  | MWatch _ => r ← serve_watch h; mret (RWatch r.1 r.2)
  | _ => resp ← serve h; mret (decode m resp)
  end.

(** The steps of a call's chain, and the verb it starts with. *)
Definition steps_of (ns : string) (m : AddonCall) : list RequestStep :=
  SNamespace ns :: SResource "addons" ::
  match m with
  | MGet n o => [SName n; SVersionedParams (QGet o)]
  | MList o => [SVersionedParams (QList o); STimeout (timeout_of o)]
  | MWatch o => [SVersionedParams (QList (set_Watch true o)); STimeout (timeout_of o)]
  | MCreate a o => [SVersionedParams (QCreate o); SBody (BAddon a)]
  | MUpdate a o => [SName (addon_Name a); SVersionedParams (QUpdate o); SBody (BAddon a)]
  | MUpdateStatus a o =>
      [SName (addon_Name a); SSubResource ["status"]; SVersionedParams (QUpdate o);
       SBody (BAddon a)]
  | MDelete n o => [SName n; SBody (BDelete o)]
  | MDeleteCollection o lo =>
      [SVersionedParams (QList lo); STimeout (timeout_of lo); SBody (BDelete o)]
  | MPatch n pt d o sub =>
      [SName n; SSubResource sub; SVersionedParams (QPatch o); SBody (BData d)]
  end.

Lemma steps_of_request ns m :
  foldl set_step (empty_request (h_verb (request_of ns m))) (steps_of ns m) = request_of ns m.
Proof. by destruct m. Qed.

Lemma steps_of_ok ns m :
  steps_ok (empty_request (h_verb (request_of ns m))) (steps_of ns m) && preflight (request_of ns m)
  = path_ok ns m.
Proof.
  unfold path_ok. f_equal.
  destruct m; cbn; rewrite valid_addons, ?valid_status, ?andb_true_r; try done;
    destruct (valid_segment ns); cbn; try done; by rewrite ?andb_true_r.
Qed.

Definition run_chain (m : AddonCall) (r : Request) : St Server Reply :=
  match m with
  | MWatch _ => x ← req_Watch r; mret (RWatch x.1 x.2)
  | _ => resp ← Do r; mret (decode m resp)
  end.

Lemma perform_chain c rc m s :
  client c = Some rc ->
  perform c m s =
  run_chain m (chain (new_request rc (h_verb (request_of (ad_ns c) m))) (steps_of (ad_ns c) m)) s.
Proof.
  intros Hc.
  destruct m; cbn;
    unfold addons_Get, addons_List, addons_Watch, addons_Create, addons_Update,
      addons_UpdateStatus, addons_Delete, addons_DeleteCollection, addons_Patch, start;
    rewrite Hc; unfold chain; cbn; unfold mbind, St_bind, mret, St_ret; cbn;
    by repeat case_match; simplify_eq/=.
Qed.

Lemma watch_steps_ok ns o :
  steps_ok (empty_request (h_verb (request_of ns (MWatch o)))) (steps_of ns (MWatch o))
  = path_ok ns (MWatch o).
Proof.
  rewrite <-steps_of_ok.
  assert (preflight (request_of ns (MWatch o)) = true) as ->; [|by rewrite andb_true_r].
  unfold preflight. cbn [request_of h_verb h_name]. by destruct (_ == _).
Qed.

(** Where the chain of a call leads. *)
Lemma Do_call rc ns m :
  let r := chain (new_request rc (h_verb (request_of ns m))) (steps_of ns m) in
  if path_ok ns m then Do r = serve (request_of ns m) else exists e, Do r = mret (refused e).
Proof.
  pose proof (Do_chain rc (h_verb (request_of ns m)) (steps_of ns m)) as Hdo.
  unfold goes_out in Hdo. by rewrite steps_of_request, steps_of_ok in Hdo.
Qed.

Lemma Watch_call rc ns o :
  let m := MWatch o in
  let r := chain (new_request rc (h_verb (request_of ns m))) (steps_of ns m) in
  if path_ok ns m then req_Watch r = serve_watch (request_of ns m)
  else exists e, req_Watch r = mret (None, Some e).
Proof.
  cbv zeta. pose proof (Watch_chain rc (h_verb (request_of ns (MWatch o))) (steps_of ns (MWatch o))) as Hw.
  by rewrite steps_of_request, watch_steps_ok in Hw.
Qed.

Lemma perform_exchange c rc m s :
  client c = Some rc -> path_ok (ad_ns c) m = true ->
  perform c m s = exchange m (request_of (ad_ns c) m) s.
Proof.
  intros Hc Hok. rewrite (perform_chain c rc m s Hc).
  pose proof (Do_call rc (ad_ns c) m) as Hdo. cbv zeta in Hdo. rewrite Hok in Hdo.
  destruct m; cbn [run_chain exchange]; unfold mbind, St_bind; rewrite ?Hdo; try done.
  pose proof (Watch_call rc (ad_ns c) o) as Hw. cbv zeta in Hw. rewrite Hok in Hw. by rewrite Hw.
Qed.

Lemma perform_refused c rc m s :
  client c = Some rc -> path_ok (ad_ns c) m = false ->
  exists r, perform c m s = Val (r, s) /\ is_Some (reply_error r).
Proof.
  intros Hc Hok. rewrite (perform_chain c rc m s Hc).
  pose proof (Do_call rc (ad_ns c) m) as Hdo. cbv zeta in Hdo. rewrite Hok in Hdo.
  assert (forall e, is_Some (reply_error (decode m (refused e)))) as Hd.
  { intros e. exists e. destruct m; cbn; auto using refused_Addon, refused_AddonList, refused_Error. }
  destruct Hdo as [e Hdo]. destruct m; cbn [run_chain]; unfold mbind, St_bind; rewrite ?Hdo;
    try (eexists; split; [reflexivity | apply Hd]).
  pose proof (Watch_call rc (ad_ns c) o) as Hw. cbv zeta in Hw. rewrite Hok in Hw.
  destruct Hw as [e' ->]. eexists. split; [reflexivity|]. by exists e'.
Qed.

(** C23: Every call of the typed client sends exactly one request, the one
    the API documents for it ([UpdateStatus] goes to the status subresource,
    a list's timeout is its [TimeoutSeconds]), and gives back the server's
    answer; a call whose path cannot be formed, such as one with an empty
    name, gives an error and sends nothing. *)
Theorem typed_client_requests (c : addons) (rc : RC) (m : AddonCall) (s : Server) :
  client c = Some rc ->
  if path_ok (ad_ns c) m then perform c m s = exchange m (request_of (ad_ns c) m) s
  else exists r, perform c m s = Val (r, s) /\ is_Some (reply_error r).
Proof.
  intros Hc. destruct (path_ok (ad_ns c) m) eqn:Hok;
    [by apply (perform_exchange c rc) | by apply (perform_refused c rc)].
Qed.
End typed_client.

(** ** Timeouts *)

(** The timeout of a list, watch or collection request is exactly the
    [TimeoutSeconds] of its options as long as that is at most 9223372036
    seconds in absolute value; the next value wraps around, to a timeout in
    the past. *)
Theorem timeout_bounds (o : ListOptions) (s : Z) :
  TimeoutSeconds o = Some s ->
  int64_range (timeout_of o) /\
  ((-9223372036 <= s <= 9223372036)%Z -> timeout_of o = (s * 1000000000)%Z) /\
  (s = 9223372037%Z -> timeout_of o = (-9223372036709551616)%Z).
Proof.
  intros Ho. unfold timeout_of. rewrite Ho. split_and!.
  - apply int64_wrap_range.
  - intros Hs. apply int64_wrap_id. unfold int64_range. lia.
  - by intros ->.
Qed.

(** ** Configurations *)
Section configurations.
Context `{ClientConstructors}.
Implicit Types (c : Config RateLimiter OtherConfig) (h : option HttpClient).

(** The limiter a clientset for [c] works with. *)
Definition limiter_of c : option RateLimiter :=
  match C_RateLimiter c with
  | Some l => Some l
  | None => if QPS_positive c then Some (NewTokenBucketRateLimiter (QPS c) (Burst c)) else None
  end.

Lemma with_rate_limiter_spec c c' :
  with_rate_limiter c = Ok c' ->
  C_RateLimiter c' = limiter_of c /\ UserAgent c' = UserAgent c /\ C_other c' = C_other c.
Proof.
  unfold with_rate_limiter, limiter_of. destruct (C_RateLimiter c) eqn:Hl; cbn.
  { intros [= <-]. by rewrite Hl. }
  destruct (QPS_positive c); [|intros [= <-]; by rewrite Hl].
  destruct (Burst c <=? 0)%Z; [done|]. by intros [= <-].
Qed.

Lemma group_client_spec c h g :
  group_NewForConfigAndClient c h = Ok g ->
  exists rc cfg, restClient g = Some rc /\ RESTClientForConfigAndClient cfg h = Ok rc /\
    C_RateLimiter cfg = C_RateLimiter c /\ GroupVersion cfg = Some SchemeGroupVersion /\
    APIPath cfg = "/apis" /\
    UserAgent cfg = (if UserAgent c == "" then DefaultKubernetesUserAgent else UserAgent c) /\
    C_other cfg = C_other c.
Proof.
  unfold group_NewForConfigAndClient, setConfigDefaults, default_UserAgent. cbn.
  destruct (RESTClientForConfigAndClient _ h) as [rc|e] eqn:Hrc; [|done]. intros [= <-].
  eexists rc, _. split; [done|]. split; [exact Hrc|]. by case_bool_decide.
Qed.

(** A clientset is refused when its configuration has no rate limiter, a
    positive [QPS] and no positive [Burst]; otherwise the group's client and
    the discovery client share one limiter, the given one or a token bucket
    of [QPS] and [Burst], and the group's client talks to the group's API
    path with a user agent. *)
Theorem clientset_config (c : Config RateLimiter OtherConfig) (h : option HttpClient) :
  (C_RateLimiter c = None -> QPS_positive c = true -> (Burst c <= 0)%Z ->
   NewForConfigAndClient c h = Err burst_required) /\
  (forall cs, NewForConfigAndClient c h = Ok cs ->
   (exists cfg, NewDiscoveryClientForConfigAndClient cfg h = Ok (cs_DiscoveryClient cs) /\
      C_RateLimiter cfg = limiter_of c) /\
   (exists rc cfg, RESTClient (Some (AddonmgrV1alpha1 cs)) = Some rc /\
      RESTClientForConfigAndClient cfg h = Ok rc /\ C_RateLimiter cfg = limiter_of c /\
      GroupVersion cfg = Some SchemeGroupVersion /\ APIPath cfg = "/apis" /\
      UserAgent cfg = (if UserAgent c == "" then DefaultKubernetesUserAgent else UserAgent c))).
Proof.
  unfold NewForConfigAndClient. split.
  - intros Hl Hq Hb. unfold with_rate_limiter. rewrite Hl, Hq. cbn.
    by rewrite (proj2 (Z.leb_le _ _) Hb).
  - intros cs. destruct (with_rate_limiter c) as [c'|e] eqn:Hw; [|done].
    apply with_rate_limiter_spec in Hw as (Hl & Hu & _). rewrite <-Hl, <-Hu.
    destruct (group_NewForConfigAndClient c' h) as [g|e] eqn:Hg; [|done].
    destruct (NewDiscoveryClientForConfigAndClient c' h) as [d|e] eqn:Hd; [|done].
    intros [= <-]. apply group_client_spec in Hg as (rc & cfg & Hrc & Hr & Hcl & Hgv & Hp & Hua & _).
    split; [by exists c'|]. exists rc, cfg. by split_and!.
Qed.
End configurations.

(** ** A concrete API server

    It keeps addons by namespace and name, and answers the requests of the
    typed client; label selectors are ["k=v"] or empty. *)
#[global] Instance sample_options : MetaV1Options := {|
  GetOptions := unit; CreateOptions := unit; UpdateOptions := unit; DeleteOptions := unit;
  PatchOptions := unit |}.

Definition addon_store : Type := gmap (string * string) Addon.

Inductive api_reply :=
  | AddonReply (a : Addon)
  | ListReply (l : list Addon)
  | ErrorReply (e : error).

Definition api_not_found : error := mkError "not found" ReasonNotFound.

Definition selects (selector : string) (a : Addon) : bool :=
  if selector == "" then true
  else match Split selector "=" with
       | [k; v] => Labels (Meta a) !! k == Some v
       | _ => false
       end.

Definition stored_in (ns selector : string) (s : addon_store) : list Addon :=
  snd <$> filter (fun kv => (ns = "" \/ kv.1.1 = ns) /\ selects selector kv.2 = true)
            (map_to_list s).

Definition serve_store (h : HttpRequest) : St addon_store api_reply := fun s =>
  let ns := default "" (h_namespace h) in
  match h_verb h, h_name h, h_body h with
  | VGet, Some n, _ =>
      Val (match s !! (ns, n) with Some a => AddonReply a | None => ErrorReply api_not_found end, s)
  | VGet, None, _ =>
      let selector := match h_params h with [QList o] => LO_LabelSelector o | _ => "" end in
      Val (ListReply (stored_in ns selector s), s)
  | VPost, _, Some (BAddon a) => Val (AddonReply a, <[(ns, addon_Name a) := a]> s)
  | VPut, Some n, Some (BAddon a) =>
      match s !! (ns, n) with
      | Some old =>
          let new := if h_subresources h == ["status"] then set_Status (fun _ => Status a) old
                     else mkAddon (Meta a) (Spec a) (Status old) in
          Val (AddonReply new, <[(ns, n) := new]> s)
      | None => Val (ErrorReply api_not_found, s)
      end
  | VDelete, Some n, _ =>
      Val (match s !! (ns, n) with Some a => AddonReply a | None => ErrorReply api_not_found end,
        delete (ns, n) s)
  | _, _, _ => Val (ErrorReply (Errorf "method not allowed"), s)
  end.

Definition zero_Addon : Addon := mkAddon (mkObjectMeta "" "" "" None [] ∅) zero_AddonSpec zero_AddonStatus.

Definition sample_segment (s : string) : bool := bool_decide (byte_free "/" s).

(** A request that has recorded an error keeps it. *)
Definition sample_step (s : RequestStep) (r : result HttpRequest) : result HttpRequest :=
  match r with
  | Ok h => if step_ok sample_segment h s then Ok (set_step h s) else Err (Errorf "invalid request")
  | Err e => Err e
  end.

Definition sample_Do (r : result HttpRequest) : St addon_store api_reply :=
  match r with
  | Ok h => if preflight h then serve_store h else mret (ErrorReply (Errorf "empty namespace"))
  | Err e => mret (ErrorReply e)
  end.

#[global] Instance sample_rest : RestInterface := {|
  RC := unit;
  Request := result HttpRequest;
  Server := addon_store;
  Response := api_reply;
  Watcher := unit;
  new_request := fun _ v => Ok (empty_request v);
  req_step := sample_step;
  Do := sample_Do;
  req_Watch := fun r => mret match r with Ok _ => (Some tt, None) | Err e => (None, Some e) end;
  Into_Addon := fun r =>
    match r with AddonReply a => (a, None) | ErrorReply e => (zero_Addon, Some e)
    | ListReply _ => (zero_Addon, Some (Errorf "no kind match")) end;
  Into_AddonList := fun r =>
    match r with ListReply l => (mkAddonList "" l, None) | ErrorReply e => (mkAddonList "" [], Some e)
    | AddonReply _ => (mkAddonList "" [], Some (Errorf "no kind match")) end;
  resp_Error := fun r => match r with ErrorReply e => Some e | _ => None end |}.

#[local] Obligation Tactic := intros; cbn in *; subst; try done.

#[global] Program Instance sample_rest_laws : RestLaws := {|
  valid_segment := sample_segment;
  sent := fun r => r;
  serve := serve_store;
  serve_watch := fun _ => mret (Some tt, None);
  refused := ErrorReply |}.
Next Obligation. cbn. by case_match. Qed.
Next Obligation. cbn. case_match; [done | by eexists]. Qed.
Next Obligation. cbn. by case_match. Qed.
Next Obligation. cbn. case_match; [done | by eexists]. Qed.

Definition sample_client (ns : string) : addons := newAddons (Some (group_New (Some tt))) ns.

Definition client_store : addon_store := {[("default", "test-addon") := sample_addon]}.

(** A copy of the stored addon with another spec and status. *)
Definition edited_addon : Addon :=
  set_Status (set_Checksum "0") (mkAddon (Meta sample_addon) zero_AddonSpec (Status sample_addon)).

Lemma typed_client_requests_witness :
  path_ok "default" (MUpdateStatus edited_addon tt) = true /\
  perform (sample_client "default") (MUpdateStatus edited_addon tt) client_store =
    exchange (MUpdateStatus edited_addon tt)
      (request_of "default" (MUpdateStatus edited_addon tt)) client_store /\
  (exists r, perform (sample_client "default") (MGet "" tt) client_store = Val (r, client_store) /\
    is_Some (reply_error r)).
Proof.
  split; [vm_compute; reflexivity|].
  pose proof (typed_client_requests (sample_client "default") tt
    (MUpdateStatus edited_addon tt) client_store eq_refl) as Hup.
  pose proof (typed_client_requests (sample_client "default") tt (MGet "" tt) client_store eq_refl)
    as Hget.
  split; [exact Hup | exact Hget].
Defined.

(** What that status update leaves in the store. *)
Example status_update_keeps_spec :
  match perform (sample_client "default") (MUpdateStatus edited_addon tt) client_store with
  | Val (_, s) => (fun a => (Spec a == Spec sample_addon, Checksum (Status a))) <$> s !! ("default", "test-addon")
  | Panicked _ => None
  end = Some (true, "0").
Proof. vm_compute. reflexivity. Qed.

Lemma timeout_bounds_witness :
  timeout_of (mkListOptions "" "" false (Some 30%Z) "") = 30000000000%Z.
Proof.
  apply (timeout_bounds (mkListOptions "" "" false (Some 30%Z) "") 30 eq_refl). lia.
Defined.

#[global] Instance sample_constructors : ClientConstructors := {|
  RateLimiter := spec_float * Z;
  OtherConfig := unit;
  HttpClient := unit;
  DiscoveryClient := option (spec_float * Z);
  DefaultKubernetesUserAgent := "addon-manager";
  NewTokenBucketRateLimiter := fun q b => (q, b);
  HTTPClientFor := fun _ => Ok tt;
  RESTClientForConfigAndClient := fun _ _ => Ok tt;
  NewDiscoveryClientForConfigAndClient := fun c _ => Ok (C_RateLimiter c);
  NewDiscoveryClient := fun _ => None |}.

(** [QPS] five, and no limiter. *)
Definition sample_config (burst : Z) : Config RateLimiter OtherConfig :=
  @mkConfig RateLimiter OtherConfig "" (S754_finite false 5 0) burst None None "" "" tt.

Definition sample_limiter : spec_float * Z := (S754_finite false 5 0, 10%Z).

Definition sample_clientset : Clientset :=
  @mkClientset sample_options sample_rest sample_constructors (Some sample_limiter)
    (mkGroupClient (Some tt)).

Lemma clientset_config_witness :
  NewForConfigAndClient (sample_config 0) (Some tt) = Err burst_required /\
  exists cfg, NewDiscoveryClientForConfigAndClient cfg (Some tt) = Ok (cs_DiscoveryClient sample_clientset) /\
    C_RateLimiter cfg = Some sample_limiter.
Proof.
  split.
  - apply (proj1 (clientset_config (sample_config 0) (Some tt)));
      [reflexivity | reflexivity | vm_compute; discriminate].
  - destruct (proj2 (clientset_config (sample_config 10) (Some tt)) sample_clientset eq_refl)
      as [(cfg & Hcfg & Hl) _].
    exists cfg. split; [exact Hcfg | exact Hl].
Defined.
