(* ===== verification/Schemes.v ===== *)
(** Which Go types the program registers for which Kubernetes kinds
    ([pkg/common/scheme.go], [api/addon/v1alpha1/register.go] and the scheme
    of the generated clientset), and the small conversions of
    [pkg/common/k8sutil.go], [pkg/common/schemas.go] and [pkg/version].

    [runtime.Scheme] and the schemes of Kubernetes and Argo are outside the
    repository: they are parameters, with what registration is documented to
    do as laws. *)
From S2P Require Import Prelude GoStrings AddonTypes Common GoHeap Unstructured Clientset.

(** ** Schemes *)

(** [*runtime.Scheme] is threaded as a value.  Registration may fail or
    panic; [recognizes] is [Scheme.Recognizes]. *)
Class SchemeLib := {
  Scheme : Type;
  NewScheme : Scheme;
  recognizes : GroupVersionKind -> Scheme -> bool;
  AddKnownTypes : string * string -> list string -> Scheme -> outcome Scheme;
  AddToGroupVersion : string * string -> Scheme -> outcome Scheme;
  (** [SchemeBuilder.AddToScheme] of a list of registration functions. *)
  builder_AddToScheme :
    list (Scheme -> outcome (Scheme * option error)) -> Scheme -> outcome (Scheme * option error);
  clientgoscheme_AddToScheme : Scheme -> outcome (Scheme * option error);
  apiextensions_AddToScheme : Scheme -> outcome (Scheme * option error);
  wfv1_AddToScheme : Scheme -> outcome (Scheme * option error)
}.

Definition registered `{SchemeLib} (s s' : Scheme) : Prop :=
  forall g, recognizes g s = true -> recognizes g s' = true.

(** Registering never forgets a kind; [AddKnownTypes] names a kind after each
    Go type; a builder applies its functions in order up to the first error. *)
Class SchemeLaws `{SchemeLib} := {
  AddKnownTypes_kinds gv ts s s' : AddKnownTypes gv ts s = Val s' ->
    registered s s' /\ forall t, t ∈ ts -> recognizes (mkGVK gv.1 gv.2 t) s' = true;
  AddToGroupVersion_kinds gv s s' : AddToGroupVersion gv s = Val s' -> registered s s';
  clientgo_kinds s s' e : clientgoscheme_AddToScheme s = Val (s', e) -> registered s s';
  apiextensions_kinds s s' e : apiextensions_AddToScheme s = Val (s', e) -> registered s s';
  wfv1_kinds s s' e : wfv1_AddToScheme s = Val (s', e) -> registered s s';
  builder_nil s : builder_AddToScheme [] s = Val (s, None);
  builder_cons f fs s : builder_AddToScheme (f :: fs) s =
    let? r := f s in
    match r with
    | (s, Some e) => Val (s, Some e)
    | (s, None) => builder_AddToScheme fs s
    end
}.

(** [schema.GroupVersion] methods. *)
Definition WithKind (gv : string * string) (kind : string) : GroupVersionKind :=
  mkGVK gv.1 gv.2 kind.
Definition GroupKind (g : GroupVersionKind) : string * string := (GVK_Group g, GVK_Kind g).

(** ** [api/addon/v1alpha1/register.go] *)
Definition AddonSchemaGroupVersionKind : GroupVersionKind :=
  mkGVK "addonmgr.keikoproj.io" "v1alpha1" "Addon".

(** A [GroupKind] is the group and the kind. *)
Definition Kind (kind : string) : string * string := GroupKind (WithKind SchemeGroupVersion kind).

(** A [GroupResource] is the group and the resource. *)
Definition Resource (resource : string) : string * string :=
  let r := mkGVR SchemeGroupVersion.1 SchemeGroupVersion.2 resource in
  (GVR_Group r, GVR_Resource r).

Section schemes.
Context `{SchemeLib}.

Definition addKnownTypes (scheme : Scheme) : outcome (Scheme * option error) :=
  let? scheme := AddKnownTypes SchemeGroupVersion ["Addon"; "AddonList"] scheme in
  let? scheme := AddToGroupVersion SchemeGroupVersion scheme in
  Val (scheme, None).

Definition AddToScheme : Scheme -> outcome (Scheme * option error) :=
  builder_AddToScheme [addKnownTypes].

(** ** [pkg/common/scheme.go] *)

(** [if err := ...; err != nil { panic(err) }] *)
Definition must (r : outcome (Scheme * option error)) : outcome Scheme :=
  let? r := r in
  match r with
  | (s, None) => Val s
  | (_, Some e) => Panicked (Error e)
  end.

Definition GetAddonMgrScheme : outcome Scheme :=
  let scheme := NewScheme in
  let? scheme := must (clientgoscheme_AddToScheme scheme) in
  let? scheme := must (apiextensions_AddToScheme scheme) in
  let? scheme := must (wfv1_AddToScheme scheme) in
  must (AddToScheme scheme).

(** ** [clientset/versioned/scheme/register.go] and its fake *)
Definition localSchemeBuilder : list (Scheme -> outcome (Scheme * option error)) := [AddToScheme].

Definition clientset_AddToScheme : Scheme -> outcome (Scheme * option error) :=
  builder_AddToScheme localSchemeBuilder.

Definition clientset_Scheme : outcome Scheme :=
  let? s := AddToGroupVersion ("", "v1") NewScheme in
  must (clientset_AddToScheme s).

(** ** What is registered *)
Context `{!SchemeLaws}.

Lemma must_Val (r : outcome (Scheme * option error)) (s : Scheme) :
  must r = Val s -> r = Val (s, None).
Proof. destruct r as [[s' [e|]]|m]; cbn; congruence. Qed.

Lemma AddToScheme_kinds (s s' : Scheme) :
  AddToScheme s = Val (s', None) ->
  registered s s' /\ recognizes AddonSchemaGroupVersionKind s' = true /\
  recognizes (WithKind SchemeGroupVersion "AddonList") s' = true.
Proof.
  unfold AddToScheme, addKnownTypes. rewrite builder_cons.
  destruct (AddKnownTypes _ _ s) as [s1|m] eqn:H1; [cbn|discriminate].
  destruct (AddToGroupVersion _ s1) as [s2|m] eqn:H2; [cbn|discriminate].
  rewrite builder_nil. intros [= <-].
  apply AddKnownTypes_kinds in H1 as [Hr Hk]. apply AddToGroupVersion_kinds in H2.
  split_and!; [intros g ?; by apply H2, Hr | apply H2, (Hk "Addon"); set_solver | apply H2, (Hk "AddonList"); set_solver].
Qed.

(** The manager's scheme, which its client and caches decode with, knows
    addons and everything the three libraries registered; when a
    registration fails the program panics before [main]. *)
Theorem GetAddonMgrScheme_kinds (s : Scheme) :
  GetAddonMgrScheme = Val s ->
  recognizes AddonSchemaGroupVersionKind s = true /\
  recognizes (WithKind SchemeGroupVersion "AddonList") s = true /\
  exists s1 s2 s3, clientgoscheme_AddToScheme NewScheme = Val (s1, None) /\
    apiextensions_AddToScheme s1 = Val (s2, None) /\ wfv1_AddToScheme s2 = Val (s3, None) /\
    registered s1 s /\ registered s2 s /\ registered s3 s.
Proof.
  unfold GetAddonMgrScheme. cbv zeta.
  destruct (must (clientgoscheme_AddToScheme _)) as [s1|m] eqn:H1; [cbn|discriminate].
  destruct (must (apiextensions_AddToScheme _)) as [s2|m] eqn:H2; [cbn|discriminate].
  destruct (must (wfv1_AddToScheme _)) as [s3|m] eqn:H3; [cbn|discriminate].
  intros H4. apply must_Val in H1, H2, H3, H4.
  apply AddToScheme_kinds in H4 as (H4 & Ha & Hl). split_and!; [done..|].
  apply wfv1_kinds in H3 as Hw. apply apiextensions_kinds in H2 as He.
  exists s1, s2, s3. split_and!; [done..| | |done]; intros g ?; apply H4; auto.
Qed.

(** The generated clientset decodes addons too. *)
Theorem clientset_Scheme_kinds (s : Scheme) :
  clientset_Scheme = Val s -> recognizes AddonSchemaGroupVersionKind s = true.
Proof.
  unfold clientset_Scheme, clientset_AddToScheme, localSchemeBuilder.
  destruct (AddToGroupVersion _ _) as [s1|m]; [cbn|discriminate].
  intros Hm%must_Val. rewrite builder_cons in Hm.
  destruct (AddToScheme s1) as [[s2 [e|]]|m] eqn:H2; [discriminate|cbn in Hm|discriminate].
  rewrite builder_nil in Hm. simplify_eq. by apply AddToScheme_kinds in H2 as (_ & ? & _).
Qed.
End schemes.

(** ** Conversions *)

Section conversions.
Context {ArgoWorkflow : Type} `{UnstructuredObject}.
(** [DefaultUnstructuredConverter] and [encoding/json] on addons, and the
    setters of [kind] and [apiVersion]. *)
Context (ToUnstructured_workflow : ArgoWorkflow -> result object)
  (FromUnstructured_addon : object -> result Addon)
  (json_Marshal_object : object -> result string)
  (json_Unmarshal_addon : string -> result Addon)
  (un_SetKind un_SetAPIVersion : string -> object -> object).

(** [common.WorkflowType] *)
Definition common_WorkflowType : object :=
  let wf := [] in
  un_SetGroupVersionKind (mkGVK "argoproj.io" "v1alpha1" "Workflow") wf.

(** [common.ToUnstructured] *)
Definition ToUnstructured (wf : ArgoWorkflow) : result object :=
  match ToUnstructured_workflow wf with
  | Err err => Err err
  | Ok obj =>
      let un := obj in
      let un := un_SetKind "Workflow" un in
      let un := un_SetAPIVersion "argoproj.io/v1alpha1" un in
      Ok un
  end.

(** [common.FromUnstructured] *)
Definition FromUnstructured (un : object) : result Addon :=
  FromUnstructuredObj FromUnstructured_addon json_Marshal_object json_Unmarshal_addon un.
End conversions.

(** ** [pkg/version] *)
Definition version_Version : string := "v0.10.0".
Definition GitCommit : string := "NONE".
Definition BuildDate : string := "UNKNOWN".

(** A JSON string literal of a string that needs no escape. *)
Definition in_quotes (s : string) : string := String dquote (s +:+ String dquote "").

Definition version_ToString : string :=
  "{" +:+ in_quotes "version" +:+ ": " +:+ in_quotes version_Version +:+ ", " +:+
  in_quotes "gitCommit" +:+ ": " +:+ in_quotes GitCommit +:+ ", " +:+
  in_quotes "buildDate" +:+ ": " +:+ in_quotes BuildDate +:+ "}".
