(* ===== verification/TestUtil.v ===== *)
(** The helpers of the behaviour and load tests ([test-bdd/testutil]) and the
    routines of the load test ([test-load/main.go]): reading an addon from a
    file of YAML documents and putting it into a cluster.

    Files, the YAML decoder, commands and the dynamic client are outside the
    repository.  A cluster is whatever the client's calls act on. *)
From S2P Require Import Prelude GoStrings AddonTypes Common GoHeap Unstructured TreeObject.

(** [errors.Wrap(err, msg)] *)
Definition Wrap (err : error) (msg : string) : error := Errorw (msg +:+ ": " +:+ Error err) err.

(** ** Parameters *)

Class TestFiles := {
  filepath_Abs : string -> result string;
  os_Open : string -> option error;
  os_ReadFile : string -> result string;
  exec_LookPath : string -> result string;
  cmd_Start : string -> list string -> option error;
  cmd_Wait : string -> list string -> option error
}.

(** What one [Decode] gives. *)
Inductive Decoded := DObject (o : object) | DEOF | DError (e : error).

(** [yaml.NewYAMLOrJSONDecoder] over some bytes or an open file, and the
    encoding of objects.  [json_Unmarshal_un] is the pointer that
    [json.Unmarshal] leaves in a nil [*unstructured.Unstructured]. *)
Class YamlDecoder := {
  Decoder : Type;
  NewYAMLOrJSONDecoder : string -> Z -> Decoder;
  NewYAMLOrJSONDecoder_file : string -> Z -> Decoder;
  Decode : Decoder -> Decoded * Decoder;
  remaining : Decoder -> nat;
  un_GetKind : object -> string;
  un_MarshalJSON : object -> result string;
  json_Unmarshal_un : string -> option object;
  CustomResourceDefinition : Type;
  CRD_Name : CustomResourceDefinition -> string;
  zero_CRD : CustomResourceDefinition;
  json_Unmarshal_crd : string -> CustomResourceDefinition -> CustomResourceDefinition
}.

(** A decoded document was read from the input, and encoding an object and
    decoding it gives the object. *)
Class YamlDecoderLaws `{YamlDecoder} := {
  Decode_reads d o d' : Decode d = (DObject o, d') -> remaining d' < remaining d;
  Marshal_Unmarshal o s : un_MarshalJSON o = Ok s -> json_Unmarshal_un s = Some o
}.

(** [dynamic.Interface] on the objects of a namespace, and the clientset of
    custom resource definitions. *)
Class DynamicClient `{YamlDecoder} := {
  Cluster : Type;
  dyn_Get : GroupVersionResource -> string -> string -> St Cluster (result object);
  dyn_Update : GroupVersionResource -> string -> object -> St Cluster (option error);
  dyn_Create : GroupVersionResource -> string -> object -> St Cluster (option error);
  dyn_Delete : GroupVersionResource -> string -> string -> St Cluster (option error);
  crd_Get : string -> St Cluster (option error);
  crd_Create : CustomResourceDefinition -> St Cluster (option error);
  crd_Delete : string -> St Cluster (option error);
  un_GetResourceVersion : object -> string;
  un_SetResourceVersion : string -> object -> object
}.

(** ** [helpers.go] *)
Section helpers.
Context `{TestFiles}.

Definition PathToOSFile (relativPath : string) : result string :=
  match filepath_Abs relativPath with
  | Err err => Err (Wrap err ("failed generate absolut file path of " +:+ relativPath))
  | Ok path =>
      match os_Open path with
      | Some err => Err (Wrap err ("failed to open file " +:+ path))
      | None => Ok path
      end
  end.

Definition KubectlApply (manifestRelativePath : string) : option error :=
  match exec_LookPath "kubectl" with
  | Err err => Some err
  | Ok kubectlBinaryPath =>
      match filepath_Abs manifestRelativePath with
      | Err err => Some (Wrap err ("failed generate absolut file path of " +:+ manifestRelativePath))
      | Ok path =>
          let applyArgs := ["apply"; "-f"; path] in
          match cmd_Start kubectlBinaryPath applyArgs with
          | Some err => Some (Wrap err "Could not exec kubectl: ")
          | None =>
              match cmd_Wait kubectlBinaryPath applyArgs with
              | Some err => Some (Wrap err "Command resulted in error: ")
              | None => None
              end
          end
      end
  end.

(** On the type and the status of each condition of a node. *)
Fixpoint isNodeReady (conditions : list (string * string)) : bool :=
  match conditions with
  | [] => false
  | (type, status) :: conditions =>
      if (type == "Ready") && (status == "True") then true else isNodeReady conditions
  end.

Definition ReadFile (path : string) : result string :=
  match os_ReadFile path with
  | Err err => Err err
  | Ok f => Ok f
  end.

Definition CRDExists `{DynamicClient} (name : string) : St Cluster bool :=
  r ← dyn_Get CRDGVR "" name;
  match r with
  | Err _ => mret false
  | Ok _ => mret true
  end.

(** [cr.Object] starts nil; with an error the object is given back too. *)
Definition ParseCustomResourceYaml `{Yaml} (raw : string) : object * option error :=
  match yaml_Unmarshal raw [] with
  | (o, Some err) => (o, Some err)
  | (o, None) => (o, None)
  end.
End helpers.

(** ** [addonresource.go] *)

(** How the loop over the documents ends: at the first document of the kind,
    at the end of the input, or at a malformed one. *)
Inductive search := SFound (o : object) | SEnd | SFailed (e : error) | SOutOfFuel.

Section addonresource.
Context `{TestFiles, DynamicClient, UnstructuredObject}.

(** [for { decoder.Decode(&out) ... }] *)
Fixpoint find_kind (kind : string) (fuel : nat) (d : Decoder) : search :=
  match fuel with
  | O => SOutOfFuel
  | S fuel' =>
      match Decode d with
      | (DEOF, _) => SEnd
      | (DError e, _) => SFailed e
      | (DObject out, d') => if un_GetKind out == kind then SFound out else find_kind kind fuel' d'
      end
  end.

(** Every document shortens the input. *)
Definition find_document (kind : string) (d : Decoder) : search :=
  find_kind kind (S (remaining d)) d.

(** The addon is a pointer, nil when no document is one. *)
Definition parseAddonYaml (relativePath : string) : result (option object) :=
  match PathToOSFile relativePath with
  | Err err => Err err
  | Ok _ =>
      match ReadFile relativePath with
      | Err err => Err err
      | Ok fileData =>
          match find_document "Addon" (NewYAMLOrJSONDecoder fileData 100) with
          | SFound out =>
              match un_MarshalJSON out with
              | Ok marshaled => Ok (json_Unmarshal_un marshaled)
              | Err err => Err err
              end
          | SEnd => Ok None
          | SFailed err => Err err
          | SOutOfFuel => Ok None
          end
      end
  end.

(** [addon.SetName(name + nameSuffix)] and the name afterwards. *)
Definition suffixed (nameSuffix : string) (addon : object) : object :=
  if nameSuffix == "" then addon else un_SetName (un_GetName addon +:+ nameSuffix) addon.

(** Update what [Get] found, create otherwise. *)
Definition update_or_create (namespace : string) (addon : object) (addonObject : result object)
    : St Cluster (option object * option error) :=
  match addonObject with
  | Ok addonObject =>
      let addon := un_SetResourceVersion (un_GetResourceVersion addonObject) addon in
      err ← dyn_Update AddonGVR namespace addon;
      mret (Some addon, err)
  | Err _ =>
      err ← dyn_Create AddonGVR namespace addon;
      mret (Some addon, err)
  end.

Definition CreateAddon (relativePath nameSuffix : string)
    : St Cluster (option object * option error) :=
  match parseAddonYaml relativePath with
  | Err err => mret (None, Some err)
  | Ok None => go_panic invalid_memory
  | Ok (Some addon) =>
      let namespace := un_GetNamespace addon in
      let addon := suffixed nameSuffix addon in
      let name := un_GetName addon in
      addonObject ← dyn_Get AddonGVR namespace name;
      update_or_create namespace addon addonObject
  end.

Definition DeleteAddon (relativePath : string) : St Cluster (option object * option error) :=
  match parseAddonYaml relativePath with
  | Err err => mret (None, Some err)
  | Ok None => go_panic invalid_memory
  | Ok (Some addon) =>
      let name := un_GetName addon in
      let namespace := un_GetNamespace addon in
      err ← dyn_Delete AddonGVR namespace name;
      mret (Some addon, err)
  end.

(** [unstructured.SetNestedField(...)] with its error ignored. *)
Definition set_field (v : string) (p : list string) (addon : object) : outcome object :=
  let? r := un_SetNestedField addon (VString v) p in Val r.1.

(** The package of the load test's addon. *)
Definition load_package (name nameSuffix : string) (addon : object) : outcome object :=
  let pkgName := name in
  let pkgVersion := "v" +:+ nameSuffix in
  let ns := "addon-event-router-ns" +:+ nameSuffix in
  let? addon := set_field pkgName ["spec"; "pkgName"] addon in
  let? addon := set_field pkgVersion ["spec"; "pkgVersion"] addon in
  set_field ns ["spec"; "params"; "namespace"] addon.

(** The lock is held throughout, so the call is one step. *)
Definition CreateLoadTestsAddon (relativePath nameSuffix : string)
    : St Cluster (option object * option error) :=
  match parseAddonYaml relativePath with
  | Err err => mret (None, Some err)
  | Ok None => go_panic invalid_memory
  | Ok (Some addon) =>
      let namespace := un_GetNamespace addon in
      let addon := suffixed nameSuffix addon in
      let name := un_GetName addon in
      addonObject ← dyn_Get AddonGVR namespace name;
      match load_package name nameSuffix addon with
      | Panicked msg => go_panic msg
      | Val addon => update_or_create namespace addon addonObject
      end
  end.

(** ** [customresource.go] *)
Definition parseCRDYaml (relativePath : string) : result CustomResourceDefinition :=
  match PathToOSFile relativePath with
  | Err err => Err err
  | Ok manifest =>
      match find_document "CustomResourceDefinition" (NewYAMLOrJSONDecoder_file manifest 100) with
      | SFound out =>
          match un_MarshalJSON out with
          | Ok marshaled => Ok (json_Unmarshal_crd marshaled zero_CRD)
          | Err err => Err err
          end
      | SEnd => Ok zero_CRD
      | SFailed err => Err err
      | SOutOfFuel => Ok zero_CRD
      end
  end.

Definition CreateCRD (relativePath : string) : St Cluster (option error) :=
  match parseCRDYaml relativePath with
  | Err err => mret (Some err)
  | Ok CRD =>
      err ← crd_Get (CRD_Name CRD);
      match err with
      | None => mret (KubectlApply relativePath)
      | Some _ => crd_Create CRD
      end
  end.

Definition DeleteCRD (relativePath : string) : St Cluster (option error) :=
  match parseCRDYaml relativePath with
  | Err err => mret (Some err)
  | Ok CRD => crd_Delete (CRD_Name CRD)
  end.

(** ** [test-load/main.go]

    The state of a routine is the cluster and the two variables that all
    routines share: the name and the namespace of the last addon.  A run of
    a routine is one between whose steps the others may run. *)
Definition numberOfRoutines : Z := 10.
Definition relativeAddonPath : string := "docs/examples/eventrouter.yaml".

Record load_state := mkLoad { ld_cluster : Cluster; addonName : string; addonNamespace : string }.

Definition on_cluster {A : Type} (m : St Cluster A) : St load_state A := fun s =>
  match m (ld_cluster s) with
  | Val (a, c) => Val (a, mkLoad c (addonName s) (addonNamespace s))
  | Panicked msg => Panicked msg
  end.

(** [a.UnstructuredContent()["status"] == nil] *)
Definition no_status (r : result object) : bool :=
  match r with
  | Err _ => true
  | Ok a => is_nil (obj_lookup a "status")
  end.

(** [for x := 0; x <= 500; x++]: poll until the addon has a status. *)
Fixpoint poll_status (tries : nat) : St load_state () :=
  match tries with
  | O => mret ()
  | S tries' =>
      s ← get_state;
      a ← on_cluster (dyn_Get AddonGVR (addonNamespace s) (addonName s));
      if no_status a then poll_status tries' else mret ()
  end.

Definition load_suffix (j : Z) : string := "-" +:+ pretty j.

(** The body of a routine's loop. *)
Definition load_one (j : Z) : St load_state () :=
  r ← on_cluster (CreateLoadTestsAddon relativeAddonPath (load_suffix j));
  match r with
  | (_, Some _) => mret ()
  | (None, None) => go_panic invalid_memory
  | (Some addon, None) =>
      modify_state (fun s => mkLoad (ld_cluster s) (un_GetName addon) (un_GetNamespace addon));;
      poll_status 501
  end.

(** [for j := i * 100; j < i*100+200; j++] *)
Definition load_numbers (i : Z) : list Z := (fun k => (i * 100 + Z.of_nat k)%Z) <$> seq 0 200.

Definition load_routine (i : Z) : St load_state () := for_each load_one (load_numbers i).

(** [for i := 1; i <= numberOfRoutines; i++] *)
Definition routines : list Z := Z.of_nat <$> seq 1 (Z.to_nat numberOfRoutines).
End addonresource.
