(* ===== verification/TestUtilSpec.v ===== *)
(** What the test helpers do: which document of a file is read, and what a
    cluster holds after an addon was put into it. *)
From S2P Require Import Prelude GoStrings AddonTypes Common GoHeap Unstructured TreeObject TestUtil.

Section documents.
Context `{YamlDecoderLaws}.

(** The documents a decoder gives before its input ends, or turns out to be
    malformed. *)
Inductive documents : Decoder -> list object -> option error -> Prop :=
  | documents_end d d' : Decode d = (DEOF, d') -> documents d [] None
  | documents_bad d d' e : Decode d = (DError e, d') -> documents d [] (Some e)
  | documents_cons d d' o l e :
      Decode d = (DObject o, d') -> documents d' l e -> documents d (o :: l) e.

Lemma documents_exist (d : Decoder) : exists l e, documents d l e.
Proof.
  induction d as [d IH] using (induction_ltof1 _ remaining).
  destruct (Decode d) as [[o| |e] d'] eqn:Hd.
  - destruct (IH d') as (l & e & Hl); [by eapply Decode_reads|].
    exists (o :: l), e. by econstructor.
  - exists [], None. by econstructor.
  - exists [], (Some e). by econstructor.
Qed.

(** The first document of a kind. *)
Definition first_of_kind (kind : string) (l : list object) : option object :=
  snd <$> list_find (fun o => un_GetKind o = kind) l.

Definition search_of (r : option object) (e : option error) : search :=
  match r, e with
  | Some o, _ => SFound o
  | None, Some e => SFailed e
  | None, None => SEnd
  end.

(** The loop ends, at the first document of the kind. *)
Lemma find_document_documents (kind : string) (d : Decoder) (l : list object) (e : option error) :
  documents d l e -> find_document kind d = search_of (first_of_kind kind l) e.
Proof.
  unfold find_document, first_of_kind. intros Hd.
  assert (forall fuel, remaining d < fuel ->
    find_kind kind fuel d = search_of (snd <$> list_find (fun o => un_GetKind o = kind) l) e) as Hf;
    [|apply Hf; lia].
  induction Hd as [d d' Hd|d d' e Hd|d d' o l e Hd Hl IH]; intros [|fuel] Hfuel; try lia;
    cbn; rewrite Hd; [done..|].
  case_bool_decide as Hk; case_decide; try done.
  rewrite IH by (apply Decode_reads in Hd; lia).
  by destruct (list_find _ l) as [[i x]|].
Qed.
End documents.

Section create.
Context `{TestFiles, YamlDecoderLaws, !DynamicClient, UnstructuredLaws}.

(** The documents of the file at a path. *)
Definition file_documents (path : string) (l : list object) (e : option error) : Prop :=
  exists p text, PathToOSFile path = Ok p /\ ReadFile path = Ok text /\
    documents (NewYAMLOrJSONDecoder text 100) l e.

(** The first addon of the file is read; documents before it may be of any
    kind, and what follows it is not looked at. *)
Lemma parse_first (path : string) (l : list object) (e : option error) (addon : object) (s : string) :
  file_documents path l e -> first_of_kind "Addon" l = Some addon -> un_MarshalJSON addon = Ok s ->
  parseAddonYaml path = Ok (Some addon).
Proof.
  intros (p & text & Hp & Ht & Hd) Hf Hs. unfold parseAddonYaml.
  rewrite Hp, Ht, (find_document_documents _ _ _ _ Hd), Hf. cbn. rewrite Hs.
  by rewrite (Marshal_Unmarshal _ _ Hs).
Qed.

(** A file without an addon is no error, but nobody can use it: putting it
    into a cluster, or deleting it, dereferences a nil pointer. *)
Theorem file_without_addon_panics (path suffix : string) (l : list object) (c : Cluster) :
  file_documents path l None -> first_of_kind "Addon" l = None ->
  parseAddonYaml path = Ok None /\
  CreateAddon path suffix c = Panicked invalid_memory /\
  CreateLoadTestsAddon path suffix c = Panicked invalid_memory /\
  DeleteAddon path c = Panicked invalid_memory.
Proof.
  intros (p & text & Hp & Ht & Hd) Hf.
  assert (parseAddonYaml path = Ok None) as Hn.
  { unfold parseAddonYaml. by rewrite Hp, Ht, (find_document_documents _ _ _ _ Hd), Hf. }
  unfold CreateAddon, CreateLoadTestsAddon, DeleteAddon. by rewrite Hn.
Qed.

(** ** The cluster

    What the API server promises: reading changes nothing and gives the
    object that is held, a write that reports success holds the object with
    the spec it was given (an update needs one to be there, a creation needs
    none), and no write touches other objects. *)
Class ClusterLaws := {
  held : Cluster -> GroupVersionResource * string * string -> option object;
  Get_held g ns n c : exists r c', dyn_Get g ns n c = Val (r, c') /\
    (forall k, held c' k = held c k) /\ (forall o, r = Ok o -> held c (g, ns, n) = Some o);
  Update_held g ns o c : exists e c', dyn_Update g ns o c = Val (e, c') /\
    (forall k, k <> (g, ns, un_GetName o) -> held c' k = held c k) /\
    (e = None -> exists o', held c' (g, ns, un_GetName o) = Some o' /\
       obj_path o' ["spec"] = obj_path o ["spec"]);
  Create_held g ns o c : exists e c', dyn_Create g ns o c = Val (e, c') /\
    (forall k, k <> (g, ns, un_GetName o) -> held c' k = held c k) /\
    (e = None -> held c (g, ns, un_GetName o) = None /\
       exists o', held c' (g, ns, un_GetName o) = Some o' /\
         obj_path o' ["spec"] = obj_path o ["spec"]);
  SetResourceVersion_apart v o q :
    apart ["metadata"; "resourceVersion"] q -> obj_path (un_SetResourceVersion v o) q = obj_path o q
}.

Context `{!ClusterLaws}.

(** Only the addon at this place changed; on success the cluster holds it
    there, with this spec. *)
Definition put (c c' : Cluster) (ns n : string) (spec : option value) (err : option error) : Prop :=
  (forall k, k <> (AddonGVR, ns, n) -> held c' k = held c k) /\
  (err = None -> exists o, held c' (AddonGVR, ns, n) = Some o /\ obj_path o ["spec"] = spec).

Lemma suffixed_name (suffix : string) (addon : object) :
  metadata_ok addon -> un_GetName (suffixed suffix addon) = un_GetName addon +:+ suffix.
Proof.
  intros Hm. unfold suffixed. case_bool_decide as Hs; [by rewrite Hs, sapp_nil_r|].
  by apply SetName_get.
Qed.

Lemma suffixed_spec (suffix : string) (addon : object) (p : list string) :
  apart ["metadata"; "name"] p -> obj_path (suffixed suffix addon) p = obj_path addon p.
Proof. intros Hp. unfold suffixed. case_bool_decide; [done|]. by apply SetName_apart. Qed.

Lemma update_or_create_put (ns : string) (addon : object) (r : result object) (c : Cluster) :
  exists addon' err c', update_or_create ns addon r c = Val ((Some addon', err), c') /\
    un_GetName addon' = un_GetName addon /\
    put c c' ns (un_GetName addon) (obj_path addon ["spec"]) err.
Proof.
  unfold update_or_create. destruct r as [o|e].
  - set (addon' := un_SetResourceVersion _ addon).
    assert (un_GetName addon' = un_GetName addon) as Hn
      by (apply GetName_path, SetResourceVersion_apart; solve_apart).
    destruct (Update_held AddonGVR ns addon' c) as (err & c' & Hu & Hk & Hs).
    exists addon', err, c'. rewrite (St_bind_step _ _ _ _ _ Hu). split_and!; [done..|].
    rewrite Hn in *. split; [done|]. intros He. destruct (Hs He) as (o' & Ho & Hspec).
    exists o'. split; [done|]. rewrite Hspec. apply SetResourceVersion_apart. solve_apart.
  - destruct (Create_held AddonGVR ns addon c) as (err & c' & Hc & Hk & Hs).
    exists addon, err, c'. rewrite (St_bind_step _ _ _ _ _ Hc). split_and!; [done..|].
    split; [done|]. intros He. by destruct (Hs He) as (_ & o' & Ho & Hspec); exists o'.
Qed.

Lemma put_after_Get (c c0 c' : Cluster) (ns n : string) (spec : option value) (err : option error) :
  (forall k, held c0 k = held c k) -> put c0 c' ns n spec err -> put c c' ns n spec err.
Proof. intros Hk [Ho Hs]. split; [|done]. intros k Hne. by rewrite Ho, Hk. Qed.

(** The test helper [CreateAddon] puts the first addon of a file of
    several documents into the cluster, under its own namespace and its name
    followed by the suffix: it never panics, no other object changes, and
    when it reports success the cluster holds the addon there with the spec
    from the file, whether it was there before or not. *)
Theorem CreateAddon_upserts (path suffix : string) (l : list object) (e : option error)
    (addon : object) (s : string) (c : Cluster) :
  file_documents path l e -> first_of_kind "Addon" l = Some addon -> un_MarshalJSON addon = Ok s ->
  metadata_ok addon ->
  exists addon' err c', CreateAddon path suffix c = Val ((Some addon', err), c') /\
    un_GetName addon' = un_GetName addon +:+ suffix /\
    put c c' (un_GetNamespace addon) (un_GetName addon +:+ suffix) (obj_path addon ["spec"]) err.
Proof.
  intros Hfile Hfirst Hs Hm. unfold CreateAddon. rewrite (parse_first _ _ _ _ _ Hfile Hfirst Hs).
  rewrite (suffixed_name _ _ Hm).
  destruct (Get_held AddonGVR (un_GetNamespace addon) (un_GetName addon +:+ suffix) c)
    as (r & c0 & Hg & Hk & _).
  rewrite (St_bind_step _ _ _ _ _ Hg).
  destruct (update_or_create_put (un_GetNamespace addon) (suffixed suffix addon) r c0)
    as (addon' & err & c' & Hu & Hn & Hput).
  exists addon', err, c'. rewrite (suffixed_name _ _ Hm) in *.
  rewrite suffixed_spec in Hput by solve_apart. split_and!; [done..|]. by eapply put_after_Get.
Qed.

(** The load test's addons: as above, but every suffix is a package and a
    namespace of its own, when the spec has room for the fields. *)
Theorem CreateLoadTestsAddon_package (path suffix : string) (l : list object) (e : option error)
    (addon o1 o2 o3 : object) (s : string) (c : Cluster) :
  file_documents path l e -> first_of_kind "Addon" l = Some addon -> un_MarshalJSON addon = Ok s ->
  metadata_ok addon ->
  let n := un_GetName addon +:+ suffix in
  un_SetNestedField (suffixed suffix addon) (VString n) ["spec"; "pkgName"] = Val (o1, None) ->
  un_SetNestedField o1 (VString ("v" +:+ suffix)) ["spec"; "pkgVersion"] = Val (o2, None) ->
  un_SetNestedField o2 (VString ("addon-event-router-ns" +:+ suffix)) ["spec"; "params"; "namespace"]
    = Val (o3, None) ->
  obj_path o3 ["spec"; "pkgName"] = Some (VString n) /\
  obj_path o3 ["spec"; "pkgVersion"] = Some (VString ("v" +:+ suffix)) /\
  obj_path o3 ["spec"; "params"; "namespace"] = Some (VString ("addon-event-router-ns" +:+ suffix)) /\
  exists addon' err c', CreateLoadTestsAddon path suffix c = Val ((Some addon', err), c') /\
    un_GetName addon' = n /\
    put c c' (un_GetNamespace addon) n (obj_path o3 ["spec"]) err.
Proof.
  intros Hfile Hfirst Hs Hm n Hf1 Hf2 Hf3.
  assert (un_GetName o3 = n) as Hn.
  { unfold n. rewrite <-(suffixed_name _ _ Hm). apply GetName_path.
    rewrite (SetNestedField_apart _ _ _ _ _ _ Hf3) by solve_apart.
    rewrite (SetNestedField_apart _ _ _ _ _ _ Hf2) by solve_apart.
    by rewrite (SetNestedField_apart _ _ _ _ _ _ Hf1) by solve_apart. }
  split_and!.
  - rewrite (SetNestedField_apart _ _ _ _ _ _ Hf3) by solve_apart.
    rewrite (SetNestedField_apart _ _ _ _ _ _ Hf2) by solve_apart. by eapply SetNestedField_path.
  - rewrite (SetNestedField_apart _ _ _ _ _ _ Hf3) by solve_apart. by eapply SetNestedField_path.
  - by eapply SetNestedField_path.
  - unfold CreateLoadTestsAddon. rewrite (parse_first _ _ _ _ _ Hfile Hfirst Hs).
    rewrite (suffixed_name _ _ Hm). fold n.
    destruct (Get_held AddonGVR (un_GetNamespace addon) n c) as (r & c0 & Hg & Hk & _).
    rewrite (St_bind_step _ _ _ _ _ Hg).
    unfold load_package, set_field. rewrite Hf1. cbn [outcome_bind fst]. rewrite Hf2.
    cbn [outcome_bind fst]. rewrite Hf3. cbn [outcome_bind fst].
    destruct (update_or_create_put (un_GetNamespace addon) o3 r c0)
      as (addon' & err & c' & Hu & Hn' & Hput).
    exists addon', err, c'. rewrite Hn in *. split_and!; [done..|]. by eapply put_after_Get.
Qed.
End create.

(** ** The load test *)

(** The ranges of the routines overlap: 2000 addons are created, under 1100
    names. *)
Example load_names : length (routines ≫= load_numbers) = 2000 /\
  length (remove_dups (routines ≫= load_numbers)) = 1100.
Proof. vm_compute. split; reflexivity. Qed.

(** Polling ends after at most its number of tries. *)
Lemma poll_status_returns `{TestFiles, DynamicClient, UnstructuredObject} (tries : nat) (s : load_state) :
  (forall g ns n c, exists r c', dyn_Get g ns n c = Val (r, c')) ->
  exists s', poll_status tries s = Val ((), s') /\ addonName s' = addonName s.
Proof.
  intros Hget. induction tries as [|tries IH] in s |- *; [by exists s|]. cbn.
  destruct (Hget AddonGVR (addonNamespace s) (addonName s) (ld_cluster s)) as (r & c' & Hr).
  erewrite St_bind_step by reflexivity.
  erewrite St_bind_step by (unfold on_cluster; by rewrite Hr).
  destruct (no_status r); [|by eexists].
  destruct (IH (mkLoad c' (addonName s) (addonNamespace s))) as (s' & Hs & Hn). by exists s'.
Qed.

(** ** Example

    A file with another document before the addon, and a cluster that is a
    function from places to objects. *)
Definition addon_doc (n : string) : object :=
  [("kind", VString "Addon");
   ("metadata", VMap [("name", VString n); ("namespace", VString "addon-manager-system")]);
   ("spec", VMap [("pkgName", VString "event-router")])].

Definition other_doc : object := [("kind", VString "Namespace")].

#[local] Instance sample_files : TestFiles := {|
  filepath_Abs p := Ok ("/" +:+ p);
  os_Open _ := None;
  os_ReadFile _ := Ok "event-router";
  exec_LookPath p := Ok p;
  cmd_Start _ _ := None;
  cmd_Wait _ _ := None |}.

(** A document is encoded as the name of its addon. *)
Definition encode_doc (o : object) : result string :=
  match o with
  | [(k1, VString a); (k2, VMap [(k3, VString n); (k4, VString ns)]); (k5, VMap [(k6, VString p)])] =>
      if bool_decide ([k1; a; k2; k3; k4; ns; k5; k6; p] =
        ["kind"; "Addon"; "metadata"; "name"; "namespace"; "addon-manager-system"; "spec"; "pkgName";
         "event-router"])
      then Ok n else Err (Errorf "unsupported")
  | _ => Err (Errorf "unsupported")
  end.

#[local] Instance sample_decoder : YamlDecoder := {|
  Decoder := list object;
  NewYAMLOrJSONDecoder text _ := [other_doc; addon_doc text];
  NewYAMLOrJSONDecoder_file _ _ := [];
  Decode d := match d with [] => (DEOF, []) | o :: d' => (DObject o, d') end;
  remaining := length;
  un_GetKind o := tree_string o ["kind"];
  un_MarshalJSON := encode_doc;
  json_Unmarshal_un n := Some (addon_doc n);
  CustomResourceDefinition := unit;
  CRD_Name _ := "";
  zero_CRD := tt;
  json_Unmarshal_crd _ c := c |}.

#[local] Instance sample_decoder_laws : YamlDecoderLaws.
Proof.
  split.
  - intros [|x d] o d'; cbn; intros ?; simplify_eq. cbn. lia.
  - cbn. unfold encode_doc. intros o s. repeat case_match; intros ?; simplify_eq.
    match goal with Hb : bool_decide _ = true |- _ => apply bool_decide_eq_true in Hb end.
    by simplify_eq.
Qed.

Definition place : Type := GroupVersionResource * string * string.
Definition fun_cluster : Type := place -> option object.

#[local] Instance gvr_eq_dec : EqDecision GroupVersionResource.
Proof. solve_decision. Defined.

Definition hold (k : place) (o : object) (c : fun_cluster) : fun_cluster := fun k' =>
  if decide (k' = k) then Some o else c k'.

#[local] Instance sample_client : DynamicClient := {|
  Cluster := fun_cluster;
  dyn_Get g ns n := fun c =>
    Val (match c (g, ns, n) with Some o => Ok o | None => Err (Errorf "not found") end, c);
  dyn_Update g ns o := fun c =>
    match c (g, ns, un_GetName o) with
    | Some _ => Val (None, hold (g, ns, un_GetName o) o c)
    | None => Val (Some (Errorf "not found"), c)
    end;
  dyn_Create g ns o := fun c =>
    match c (g, ns, un_GetName o) with
    | Some _ => Val (Some (Errorf "already exists"), c)
    | None => Val (None, hold (g, ns, un_GetName o) o c)
    end;
  dyn_Delete g ns n := fun c => Val (None, c);
  crd_Get _ := mret None;
  crd_Create _ := mret None;
  crd_Delete _ := mret None;
  un_GetResourceVersion o := tree_string o ["metadata"; "resourceVersion"];
  un_SetResourceVersion v := tree_metadata "resourceVersion" (VString v) |}.

Lemma hold_here k o c : hold k o c k = Some o.
Proof. unfold hold. by case_decide. Qed.

Lemma hold_elsewhere k o c k' : k' <> k -> hold k o c k' = c k'.
Proof. unfold hold. intros ?. by case_decide. Qed.

#[local] Program Instance sample_cluster_laws : ClusterLaws := {| held := fun c k => c k |}.
Next Obligation.
  intros g ns n c. cbn. eexists _, _. split; [done|]. split; [done|].
  intros o. by destruct (c (g, ns, n)); intros ?; simplify_eq.
Qed.
Next Obligation.
  intros g ns o c. cbn [dyn_Update sample_client]. destruct (c _) eqn:Hc.
  - eexists _, _. split; [done|]. split; [intros; by apply hold_elsewhere|].
    intros _. exists o. by rewrite hold_here.
  - eexists _, _. split; [done|]. by split.
Qed.
Next Obligation.
  intros g ns o c. cbn [dyn_Create sample_client]. destruct (c _) eqn:Hc.
  - eexists _, _. split; [done|]. by split.
  - eexists _, _. split; [done|]. split; [intros; by apply hold_elsewhere|].
    intros _. split; [done|]. exists o. by rewrite hold_here.
Qed.
Next Obligation. intros v o q. apply tree_metadata_apart. Qed.

Definition no_objects : @Cluster _ sample_client := fun _ => None.

Lemma sample_documents : documents (NewYAMLOrJSONDecoder "event-router" 100)
  [other_doc; addon_doc "event-router"] None.
Proof. do 2 (eapply documents_cons; [reflexivity|]). by eapply documents_end. Qed.

Lemma CreateAddon_upserts_witness :
  exists addon' err c',
    CreateAddon "docs/examples/eventrouter.yaml" "-7" no_objects = Val ((Some addon', err), c') /\
    un_GetName addon' = "event-router-7" /\
    put no_objects c' "addon-manager-system" "event-router-7"
      (Some (VMap [("pkgName", VString "event-router")])) err.
Proof.
  destruct (CreateAddon_upserts "docs/examples/eventrouter.yaml" "-7"
    [other_doc; addon_doc "event-router"] None (addon_doc "event-router") "event-router" no_objects)
    as (addon' & err & c' & Hc & Hn & Hp).
  - exists "/docs/examples/eventrouter.yaml", "event-router".
    split; [reflexivity|]. split; [reflexivity|]. exact sample_documents.
  - reflexivity.
  - reflexivity.
  - exact I.
  - exists addon', err, c'. split; [exact Hc|]. split; [exact Hn |].
    replace (Some (VMap [("pkgName", VString "event-router")]))
      with (obj_path (addon_doc "event-router") ["spec"]) by reflexivity.
    exact Hp.
Defined.

(** The addon is created. *)
Example created : exists c', CreateAddon "a.yaml" "-7" no_objects =
  Val ((Some (suffixed "-7" (addon_doc "event-router")), None), c').
Proof. eexists. vm_compute. reflexivity. Qed.
