(* ===== verification/LoadTest.v ===== *)
(** The load test as a process, [test-load/main.go]: the main function, the
    ten routines and the collector of measurements it starts, and the wait
    group and the channel that join them.  [TestUtil] has the body of a
    routine as one computation; here the routines run interleaved.

    [CreateLoadTestsAddon] holds the lock for its whole body, so it is one
    step; what the commands print and what the environment gives are
    parameters; printing and sleeping change nothing. *)
From S2P Require Import Prelude GoStrings AddonTypes Common GoHeap Unstructured TreeObject TestUtil.

(** ** [Summary] *)

(** The commands of one summary: what [kubectl get addons | wc -l] leaves in
    the buffer (the errors of starting and of waiting are ignored), and the
    output of a command. *)
Record Commands := mkCommands {
  addons_count : string;
  cmd_Output : string -> list string -> result string
}.

Definition ps_args (pid : string) : list string := ["-p"; pid; "-o"; "%cpu,%mem"].

Definition newline : string := String (Ascii.ascii_of_nat 10) "".

Definition summary_line (AddonsNum managerUsage wfControllerUsage : string) : string :=
  "<addons-num:" +:+ TrimSpace AddonsNum +:+ "  " +:+ newline +:+ " addon-mgr:" +:+
  TrimSuffix managerUsage newline +:+ "  " +:+ newline +:+ "wf-controller:" +:+
  TrimSuffix wfControllerUsage newline +:+ ">".

(** What is written, and the error. *)
Definition Summary (cmds : Commands) (managerPID wfctrlPID : string) (written : string)
    : string * option error :=
  match cmd_Output cmds "ps" (ps_args managerPID) with
  | Err err => (written, Some err)
  | Ok managerUsage =>
      match cmd_Output cmds "ps" (ps_args wfctrlPID) with
      | Err err => (written, Some err)
      | Ok wfControllerUsage =>
          (written +:+ (summary_line (addons_count cmds) managerUsage wfControllerUsage +:+
             newline +:+ "#############" +:+ newline), None)
      end
  end.

(** ** The process *)

(** Where the main function is: at a statement of its own. *)
Inductive main_stage :=
  | MCreate                 (* os.Create("summary.txt") *)
  | MCollect                (* go func(mgrPid, ctrlPid, writer) *)
  | MAdd                    (* wg.Add(numberOfRoutines) *)
  | MConfig                 (* GetConfigOrDie, NewForConfigOrDie *)
  | MGo (i : Z)             (* go func(i, lock), for i <= numberOfRoutines *)
  | MWait                   (* wg.Wait() *)
  | MStop                   (* stop <- true *)
  | MClose                  (* costsummary.Close() *)
  | MReturned.

Inductive collector_stage := CNone | CSelect | CSummary | CSleep | CStopped.

(** A routine: at the head of its loop with the numbers that remain, between
    the assignments of the shared variables, polling with the tries that
    remain, before [wg.Done()], or ended. *)
Inductive routine_stage :=
  | RCreate (js : list Z)
  | RName (addon : object) (js : list Z)
  | RNamespace (addon : object) (js : list Z)
  | RPoll (tries : nat) (js : list Z)
  | RDone
  | REnded.

(** The process can write to the file, finds its configuration, and knows two
    process ids. *)
Class LoadEnv := {
  os_Create : string -> option error;
  config_found : bool;
  MANAGER_PID : string;
  WFCTRL_PID : string
}.

Section process.
Context `{TestFiles, DynamicClient, UnstructuredObject, LoadEnv}.

Record process := mkProcess {
  p_main : main_stage;
  p_collector : collector_stage;
  p_routines : list routine_stage;
  p_wg : Z;
  p_shared : load_state;
  p_written : string;
  p_crashed : bool
}.

Definition p_init (c : Cluster) : process :=
  mkProcess MCreate CNone [] 0 (mkLoad c "" "") "" false.

Definition set_main (m : main_stage) (p : process) : process :=
  mkProcess m (p_collector p) (p_routines p) (p_wg p) (p_shared p) (p_written p) (p_crashed p).
Definition set_collector (c : collector_stage) (p : process) : process :=
  mkProcess (p_main p) c (p_routines p) (p_wg p) (p_shared p) (p_written p) (p_crashed p).
Definition set_routines (l : list routine_stage) (p : process) : process :=
  mkProcess (p_main p) (p_collector p) l (p_wg p) (p_shared p) (p_written p) (p_crashed p).
Definition set_shared (s : load_state) (p : process) : process :=
  mkProcess (p_main p) (p_collector p) (p_routines p) (p_wg p) s (p_written p) (p_crashed p).
Definition set_written (w : string) (p : process) : process :=
  mkProcess (p_main p) (p_collector p) (p_routines p) (p_wg p) (p_shared p) w (p_crashed p).
Definition crash (p : process) : process :=
  mkProcess (p_main p) (p_collector p) (p_routines p) (p_wg p) (p_shared p) (p_written p) true.

(** [wg.Add(delta)]: a negative counter panics. *)
Definition wg_Add (delta : Z) (p : process) : process :=
  let n := (p_wg p + delta)%Z in
  if (n <? 0)%Z then crash p
  else mkProcess (p_main p) (p_collector p) (p_routines p) n (p_shared p) (p_written p) (p_crashed p).

(** The main function; [None]: it waits or has returned. *)
Definition main_step (p : process) : option process :=
  match p_main p with
  | MCreate =>
      match os_Create "summary.txt" with
      | Some _ => Some (set_main MReturned p)
      | None => Some (set_main MCollect p)
      end
  | MCollect => Some (set_main MAdd (set_collector CSelect p))
  | MAdd => Some (set_main MConfig (wg_Add numberOfRoutines p))
  | MConfig => if config_found then Some (set_main (MGo 1) p) else Some (crash p)
  | MGo i =>
      if (i <=? numberOfRoutines)%Z
      then Some (set_main (MGo (i + 1)) (set_routines (p_routines p ++ [RCreate (load_numbers i)]) p))
      else Some (set_main MWait p)
  | MWait => if (p_wg p =? 0)%Z then Some (set_main MStop p) else None
  | MStop =>
      match p_collector p with
      | CSelect => Some (set_main MClose (set_collector CStopped p))
      | _ => None
      end
  | MClose => Some (set_main MReturned p)
  | MReturned => None
  end.

(** The collector: [default] is not chosen when [stop] is ready; then the
    main function's step is the exchange on the channel. *)
Definition collector_step (cmds : Commands) (p : process) : option process :=
  match p_collector p with
  | CSelect => match p_main p with MStop => None | _ => Some (set_collector CSummary p) end
  | CSummary =>
      let '(w, _) := Summary cmds MANAGER_PID WFCTRL_PID (p_written p) in
      Some (set_collector CSleep (set_written w p))
  | CSleep => Some (set_collector CSelect p)
  | CNone | CStopped => None
  end.

(** The step of a routine on the shared variables and the cluster. *)
Definition routine_step (st : routine_stage) (s : load_state) : outcome (routine_stage * load_state) :=
  match st with
  | RCreate [] => Val (RDone, s)
  | RCreate (j :: js) =>
      let? r := on_cluster (CreateLoadTestsAddon relativeAddonPath (load_suffix j)) s in
      match r with
      | ((_, Some _), s) => Val (RCreate js, s)
      | ((None, None), s) => Panicked invalid_memory
      | ((Some addon, None), s) => Val (RName addon js, s)
      end
  | RName addon js =>
      Val (RNamespace addon js, mkLoad (ld_cluster s) (un_GetName addon) (addonNamespace s))
  | RNamespace addon js =>
      Val (RPoll 501 js, mkLoad (ld_cluster s) (addonName s) (un_GetNamespace addon))
  | RPoll O js => Val (RCreate js, s)
  | RPoll (S tries) js =>
      let? r := on_cluster (dyn_Get AddonGVR (addonNamespace s) (addonName s)) s in
      if no_status r.1 then Val (RPoll tries js, r.2) else Val (RCreate js, r.2)
  | RDone | REnded => Val (REnded, s)
  end.

Definition routine_turn (k : nat) (p : process) : option process :=
  match p_routines p !! k with
  | None | Some REnded => None
  | Some RDone => Some (wg_Add (-1) (set_routines (<[k := REnded]> (p_routines p)) p))
  | Some st =>
      match routine_step st (p_shared p) with
      | Panicked _ => Some (crash p)
      | Val (st, s) => Some (set_routines (<[k := st]> (p_routines p)) (set_shared s p))
      end
  end.

(** Who may move, and with what: the cluster also changes by itself. *)
Inductive actor := AMain | ACollector | ARoutine (k : nat).

Record turn := mkTurn { tn_actor : actor; tn_cluster : Cluster -> Cluster; tn_cmds : Commands }.

Definition actor_step (a : actor) (cmds : Commands) (p : process) : option process :=
  match a with
  | AMain => main_step p
  | ACollector => collector_step cmds p
  | ARoutine k => routine_turn k p
  end.

(** The process has ended: the main function has returned, or a panic or a
    missing configuration has stopped it. *)
Definition ended (p : process) : bool :=
  p_crashed p || match p_main p with MReturned => true | _ => false end.

Definition cluster_moves (f : Cluster -> Cluster) (p : process) : process :=
  set_shared (mkLoad (f (ld_cluster (p_shared p))) (addonName (p_shared p)) (addonNamespace (p_shared p))) p.

Definition take_turn (p : process) (t : turn) : process :=
  if ended p then p else
  let p := cluster_moves (tn_cluster t) p in
  default p (actor_step (tn_actor t) (tn_cmds t) p).

Definition run_turns (p : process) (ts : list turn) : process := foldl take_turn p ts.
End process.
