(* ===== verification/LoadTestSpec.v ===== *)
(** The load test ends: whatever the cluster does, when the main function,
    the collector and the routines all get their turns again and again, the
    process ends, and it returns only after all routines have.  And a
    routine polls whatever addon was created last, by any routine. *)
From S2P Require Import Prelude GoStrings AddonTypes Common GoHeap Unstructured TreeObject TestUtil.
From S2P Require Import TestUtilSpec LoadTest.

(** ** Sums over the routines *)

Section total.
Context (f : routine_stage -> Z).

Fixpoint total (l : list routine_stage) : Z :=
  match l with [] => 0 | st :: l' => f st + total l' end.

Lemma total_app l1 l2 : total (l1 ++ l2) = (total l1 + total l2)%Z.
Proof. induction l1 as [|st l1 IH]; cbn; lia. Qed.

Lemma total_insert l k st st' :
  l !! k = Some st -> total (<[k := st']> l) = (total l - f st + f st')%Z.
Proof.
  revert k. induction l as [|x l IH]; intros [|k] Hk; cbn in *; [done..|by simplify_eq; lia|].
  change (f x + total (<[k:=st']> l) = f x + total l - f st + f st')%Z. rewrite (IH k Hk). lia.
Qed.

Lemma total_nonneg l : (forall st, 0 <= f st)%Z -> (0 <= total l)%Z.
Proof. intros Hf. induction l as [|st l IH]; cbn; [lia|]. specialize (Hf st). lia. Qed.
End total.

(** Routines that have not ended. *)
Definition live_one (st : routine_stage) : Z := match st with REnded => 0 | _ => 1 end.
Abbreviation live := (total live_one).

Lemma live_zero l : live l = 0%Z -> Forall (eq REnded) l.
Proof.
  induction l as [|st l IH]; [done|]. intros Hl. cbn in Hl.
  assert (0 <= live l)%Z by (apply total_nonneg; by intros []).
  destruct st; cbn in Hl; try lia. constructor; [done|]. apply IH. lia.
Qed.

Lemma live_pos l : (0 < live l)%Z -> exists k st, l !! k = Some st /\ st <> REnded.
Proof.
  induction l as [|st l IH]; cbn; [lia|]. intros Hl. destruct (live_one st) eqn:Hst.
  - destruct IH as (k & st' & Hk & Hne); [lia|]. by exists (S k), st'.
  - exists 0, st. split; [done|]. by intros ->.
  - by destruct st.
Qed.

(** ** How much is left to do *)

Definition numbers_left (js : list Z) : Z := (505 * Z.of_nat (length js) + 2)%Z.

Definition routine_work (st : routine_stage) : Z :=
  match st with
  | RCreate js => numbers_left js
  | RName _ js => numbers_left js + 504
  | RNamespace _ js => numbers_left js + 503
  | RPoll tries js => numbers_left js + Z.of_nat tries + 1
  | RDone => 1
  | REnded => 0
  end.

(** A routine that starts, and its start. *)
Definition start_work : Z := 505 * 200 + 3.

#[local] Arguments start_work : simpl never.
#[local] Arguments numbers_left : simpl never.
#[local] Arguments load_numbers : simpl never.

Lemma routine_work_start i : (routine_work (RCreate (load_numbers i)) + 1 = start_work)%Z.
Proof. cbn [routine_work]. unfold numbers_left, load_numbers. by rewrite length_fmap, length_seq. Qed.

(** The collector's way to the channel. *)
Definition collector_rank (c : collector_stage) : Z :=
  match c with CSummary => 2 | CSleep => 1 | _ => 0 end.

Section ends.
Context `{TestFiles, DynamicClient, UnstructuredObject, LoadEnv}.
Implicit Types (p : process) (t : turn) (a : actor).

Definition main_work p : Z :=
  match p_main p with
  | MReturned => 0
  | MClose => 1
  | MStop => 2 + collector_rank (p_collector p)
  | MWait => 5
  | MGo i => 6 + (11 - i) * start_work
  | MConfig => 7 + 10 * start_work
  | MAdd => 8 + 10 * start_work
  | MCollect => 9 + 10 * start_work
  | MCreate => 10 + 10 * start_work
  end.

Definition work p : Z := main_work p + total routine_work (p_routines p).

(** ** Invariant *)

Definition collecting (c : collector_stage) : Prop :=
  match c with CSelect | CSummary | CSleep => True | _ => False end.

(** The counter of the wait group is the number of routines that are still
    to end, those that are still to start included. *)
Definition shape p : Prop :=
  let l := p_routines p in
  match p_main p with
  | MCreate | MCollect => l = [] /\ p_wg p = 0%Z /\ p_collector p = CNone
  | MAdd => l = [] /\ p_wg p = 0%Z /\ collecting (p_collector p)
  | MConfig => l = [] /\ p_wg p = 10%Z /\ collecting (p_collector p)
  | MGo i => (1 <= i <= 11)%Z /\ Z.of_nat (length l) = (i - 1)%Z /\
      p_wg p = (live l + (11 - i))%Z /\ collecting (p_collector p)
  | MWait => length l = 10 /\ p_wg p = live l /\ collecting (p_collector p)
  | MStop => length l = 10 /\ p_wg p = 0%Z /\ live l = 0%Z /\ collecting (p_collector p)
  | MClose => length l = 10 /\ p_wg p = 0%Z /\ live l = 0%Z /\ p_collector p = CStopped
  | MReturned =>
      (is_Some (os_Create "summary.txt") /\ l = []) \/
      (length l = 10 /\ p_wg p = 0%Z /\ live l = 0%Z /\ p_collector p = CStopped)
  end.

Definition proc_ok p : Prop := p_crashed p = false -> shape p.

Lemma live_nonneg l : (0 <= live l)%Z.
Proof. apply total_nonneg. by intros []. Qed.

Lemma total_work_nonneg l : (0 <= total routine_work l)%Z.
Proof. apply total_nonneg. intros []; cbn; unfold numbers_left; lia. Qed.

(** ** One turn *)

(** Who is to move next for the process to go on. *)
Definition awaited p a : Prop :=
  match p_main p with
  | MWait =>
      if (p_wg p =? 0)%Z then a = AMain
      else exists k st, a = ARoutine k /\ p_routines p !! k = Some st /\ st <> REnded
  | MStop => a = match p_collector p with CSelect => AMain | _ => ACollector end
  | _ => a = AMain
  end.

(** A turn either ends the process, or leaves less work, or is spent by an
    actor that nothing waits for. *)
Definition idle p p' a : Prop :=
  work p' = work p /\ forall b, awaited p b -> awaited p' b /\ a <> b.

Definition advances p p' a : Prop := ended p' = true \/ (work p' < work p)%Z \/ idle p p' a.

Lemma start_work_pos : (0 < start_work)%Z.
Proof. done. Qed.

Definition set_wg (n : Z) p : process :=
  mkProcess (p_main p) (p_collector p) (p_routines p) n (p_shared p) (p_written p) (p_crashed p).

Lemma wg_Add_ok d p : (0 <= p_wg p + d)%Z -> wg_Add d p = set_wg (p_wg p + d) p.
Proof. intros Hd. unfold wg_Add. by rewrite (proj2 (Z.ltb_ge _ _) Hd). Qed.

Lemma ended_returned p : p_main p = MReturned -> ended p = true.
Proof. intros Hm. unfold ended. rewrite Hm. apply orb_true_r. Qed.

Lemma main_step_ok p p' :
  shape p -> p_crashed p = false -> main_step p = Some p' ->
  proc_ok p' /\ (ended p' = true \/ (work p' < work p)%Z).
Proof.
  pose proof start_work_pos as Hpos. intros Hs Hc Hstep. unfold main_step in Hstep.
  unfold proc_ok, shape, work, main_work in *. destruct (p_main p) eqn:Hm.
  - destruct (os_Create _) eqn:Ho; injection Hstep as <-; cbn.
    + split; [|left; by apply ended_returned]. intros _. left. split; [done|]. apply Hs.
    + split; [done|]. right. lia.
  - injection Hstep as <-. cbn. split; [naive_solver|]. right. lia.
  - injection Hstep as <-. destruct Hs as (Hl & Hwg & Hcol).
    rewrite wg_Add_ok by (by rewrite Hwg). cbn. rewrite Hwg, Hl.
    split; [done|]. right. cbn. lia.
  - destruct config_found; injection Hstep as <-; cbn; [|by split; [|left]].
    destruct Hs as (-> & -> & Hcol). cbn. split; [|right; lia]. intros _. by split_and!.
  - destruct Hs as (Hi & Hl & Hwg & Hcol).
    destruct (i <=? numberOfRoutines)%Z eqn:Hle; injection Hstep as <-; cbn;
      unfold numberOfRoutines in Hle.
    + apply Z.leb_le in Hle. rewrite !total_app, length_app. cbn.
      pose proof (routine_work_start i) as Hw. cbn [routine_work] in Hw.
      split; [intros _; split_and!; [lia..|done] | right; lia].
    + apply Z.leb_gt in Hle. assert (i = 11%Z) as -> by lia.
      split; [intros _; split_and!; [lia..|done] | right; lia].
  - destruct (p_wg p =? 0)%Z eqn:Hwg; [|done]. injection Hstep as <-. cbn.
    apply Z.eqb_eq in Hwg. destruct Hs as (Hl & Hw & Hcol).
    split; [intros _; split_and!; [done|done|lia|done]|]. right.
    by destruct (p_collector p); cbn; lia.
  - destruct (p_collector p) eqn:Hcol; try done. injection Hstep as <-. cbn.
    destruct Hs as (? & ? & ? & _). split; [by intros _; split_and!|]. right. lia.
  - injection Hstep as <-. cbn. destruct Hs as (? & ? & ? & ?).
    split; [intros _; by right|]. left. by apply ended_returned.
  - done.
Qed.

Lemma collector_step_ok cmds p p' :
  shape p -> p_crashed p = false -> collector_step cmds p = Some p' ->
  proc_ok p' /\ ((work p' < work p)%Z \/ (work p' = work p /\ forall b, awaited p b -> awaited p' b /\ b <> ACollector)).
Proof.
  intros Hs Hc Hstep. unfold collector_step in Hstep.
  unfold proc_ok, shape, work, main_work, awaited in *.
  destruct (p_collector p) eqn:Hcol; try done.
  - destruct (p_main p) eqn:Hm; try done; injection Hstep as <-; cbn; rewrite ?Hm; cbn;
      (split; [intros _; naive_solver|]); right; (split; [done|]);
      intros b Hb; (split; [done|]); intros ->; try done; by destruct (_ =? _)%Z; naive_solver.
  - destruct (Summary _ _ _ _) as [w e]. injection Hstep as <-. cbn.
    destruct (p_main p) eqn:Hm; cbn; (split; [intros _; naive_solver|]);
      try (left; cbn; lia); right; (split; [done|]);
      intros b Hb; (split; [done|]); intros ->; try done; by destruct (_ =? _)%Z; naive_solver.
  - injection Hstep as <-. cbn.
    destruct (p_main p) eqn:Hm; cbn; (split; [intros _; naive_solver|]);
      try (left; cbn; lia); right; (split; [done|]);
      intros b Hb; (split; [done|]); intros ->; try done; by destruct (_ =? _)%Z; naive_solver.
Qed.

Lemma routine_step_work st s st' s' :
  st <> RDone -> st <> REnded -> routine_step st s = Val (st', s') ->
  (routine_work st' < routine_work st)%Z /\ live_one st' = 1%Z.
Proof.
  intros Hd He Hstep.
  assert (forall j js, numbers_left (j :: js) = numbers_left js + 505)%Z as Hcons
    by (intros; unfold numbers_left; cbn [length]; lia).
  assert (forall js, 2 <= numbers_left js)%Z as Htwo by (intros; unfold numbers_left; lia).
  destruct st as [[|j js]|a js|a js|[|n] js| |]; try done; cbn [routine_step] in Hstep.
  - injection Hstep as <- _. cbn. split; [|done]. specialize (Htwo []). lia.
  - destruct (on_cluster _ s) as [[[[ad|] [e|]] s1]|m]; cbn in Hstep; simplify_eq; cbn;
      rewrite Hcons; (split; [lia | done]).
  - injection Hstep as <- _. cbn. split; [lia | done].
  - injection Hstep as <- _. cbn -[Z.of_nat]. split; [lia | done].
  - injection Hstep as <- _. cbn. split; [lia | done].
  - destruct (on_cluster _ s) as [[r s1]|m]; cbn -[Z.of_nat] in Hstep; [|done].
    destruct (no_status r); injection Hstep as <- _; cbn -[Z.of_nat]; (split; [lia | done]).
Qed.

(** The invariant after a routine has moved. *)
Lemma routine_shape p k st l d s :
  shape p -> p_routines p !! k = Some st -> live_one st = 1%Z ->
  length l = length (p_routines p) -> live l = (live (p_routines p) + d)%Z -> (d = 0 \/ d = -1)%Z ->
  shape (mkProcess (p_main p) (p_collector p) l (p_wg p + d) s (p_written p) (p_crashed p)) /\
  (0 <= p_wg p + d)%Z.
Proof.
  intros Hs Hk Hst Hlen Hlive Hd. unfold shape in *. cbn.
  pose proof (total_insert live_one _ k st REnded Hk) as Hins.
  pose proof (live_nonneg (<[k:=REnded]> (p_routines p))) as Hpos.
  rewrite Hst in Hins. cbn in Hins.
  destruct (p_main p).
  1-4: destruct Hs as (Hl & _); by rewrite Hl in Hk.
  - destruct Hs as (? & ? & ? & ?). split_and!; [lia..|done|lia].
  - destruct Hs as (? & ? & ?). split_and!; [lia..|done|lia].
  - exfalso. lia.
  - exfalso. lia.
  - exfalso. destruct Hs as [[_ Hl]|(_ & _ & Hz & _)]; [by rewrite Hl in Hk | lia].
Qed.

Lemma stage_is st : st = REnded \/ st = RDone \/ (st <> RDone /\ st <> REnded).
Proof. destruct st; naive_solver. Qed.

Lemma routine_turn_ok k p p' :
  shape p -> p_crashed p = false -> routine_turn k p = Some p' ->
  proc_ok p' /\ (ended p' = true \/ (work p' < work p)%Z).
Proof.
  intros Hs Hc Hstep. unfold routine_turn in Hstep.
  destruct (p_routines p !! k) as [st|] eqn:Hk; [|done].
  destruct (stage_is st) as [->|Hstage]; [done|].
  assert (live_one st = 1%Z) as Hst by (destruct st; naive_solver).
  assert (forall st' d, live_one st' = (1 + d)%Z ->
    length (<[k:=st']> (p_routines p)) = length (p_routines p) /\
    live (<[k:=st']> (p_routines p)) = (live (p_routines p) + d)%Z) as Hl.
  { intros st' d Hst'. rewrite length_insert, (total_insert live_one _ _ st) by done. split; [done | lia]. }
  destruct Hstage as [->|[Hd He]].
  - injection Hstep as <-. destruct (Hl REnded (-1)%Z eq_refl) as [Hlen Hlive].
    destruct (routine_shape p k RDone _ (-1) (p_shared p) Hs Hk Hst Hlen Hlive ltac:(by right))
      as [Hs' Hwg].
    rewrite wg_Add_ok by exact Hwg. split; [by intros _|]. right.
    unfold work, main_work. cbn. rewrite (total_insert routine_work _ k RDone) by done. cbn. lia.
  - assert (match routine_step st (p_shared p) with
      | Panicked _ => Some (crash p)
      | Val (st, s) => Some (set_routines (<[k := st]> (p_routines p)) (set_shared s p)) end = Some p')
      as Hrun by (destruct st; naive_solver).
    clear Hstep. destruct (routine_step st (p_shared p)) as [[st' s']|m] eqn:Hr;
      injection Hrun as <-; [|by split; [|left]].
    destruct (routine_step_work _ _ _ _ Hd He Hr) as [Hw Hst'].
    destruct (Hl st' 0%Z Hst') as [Hlen Hlive].
    destruct (routine_shape p k st _ 0 s' Hs Hk Hst Hlen Hlive ltac:(by left)) as [Hs' _].
    rewrite Z.add_0_r in Hs'. split; [by intros _|]. right.
    unfold work, main_work. cbn. rewrite (total_insert routine_work _ k st) by done. lia.
Qed.

(** The cluster moving by itself changes nothing of this. *)
Lemma cluster_moves_same f p :
  shape (cluster_moves f p) = shape p /\ work (cluster_moves f p) = work p /\
  awaited (cluster_moves f p) = awaited p /\ p_crashed (cluster_moves f p) = p_crashed p.
Proof. done. Qed.

(** What is awaited can move. *)
Lemma awaited_moves p a cmds :
  shape p -> p_main p <> MReturned -> awaited p a -> is_Some (actor_step a cmds p).
Proof.
  intros Hs Hm Ha. unfold awaited, shape in *. destruct (p_main p) eqn:Hmain.
  1-5: subst; cbn; unfold main_step; rewrite Hmain; by repeat case_match.
  - destruct (p_wg p =? 0)%Z eqn:Hwg.
    + subst. cbn. unfold main_step. by rewrite Hmain, Hwg.
    + destruct Ha as (k & st & -> & Hk & Hst). cbn. unfold routine_turn. rewrite Hk.
      by destruct st; try done; destruct (routine_step _ _) as [[? ?]|].
  - destruct Hs as (_ & _ & _ & Hcol). destruct (p_collector p) eqn:Hc; try done; subst; cbn.
    + unfold main_step. by rewrite Hmain, Hc.
    + unfold collector_step. rewrite Hc. by destruct (Summary _ _ _ _).
    + unfold collector_step. by rewrite Hc.
  - subst. cbn. unfold main_step. by rewrite Hmain.
  - done.
Qed.

Lemma awaited_exists p : shape p -> exists a, awaited p a.
Proof.
  intros Hs. unfold awaited, shape in *. destruct (p_main p); try by eexists.
  destruct (p_wg p =? 0)%Z eqn:Hwg; [by eexists|]. apply Z.eqb_neq in Hwg.
  destruct (live_pos (p_routines p)) as (k & st & Hk & Hst).
  { pose proof (live_nonneg (p_routines p)). lia. }
  by exists (ARoutine k), k, st.
Qed.

Lemma take_turn_ok p t :
  proc_ok p -> ended p = false ->
  proc_ok (take_turn p t) /\ advances p (take_turn p t) (tn_actor t).
Proof.
  intros Hok He. unfold take_turn. rewrite He.
  assert (p_crashed p = false /\ p_main p <> MReturned) as [Hc Hm].
  { unfold ended in He. apply orb_false_iff in He as [? Hr]. split; [done|]. by intros Hx; rewrite Hx in Hr. }
  specialize (Hok Hc). destruct (cluster_moves_same (tn_cluster t) p) as (Hs1 & Hw1 & Ha1 & Hc1).
  set (p1 := cluster_moves (tn_cluster t) p) in *. rewrite <-Hs1 in Hok.
  assert (p_main p1 <> MReturned) as Hm1 by exact Hm.
  unfold advances, idle. rewrite <-Hw1, <-Ha1. rewrite Hc in Hc1. clearbody p1.
  destruct (actor_step (tn_actor t) (tn_cmds t) p1) as [p'|] eqn:Hstep; cbn [default].
  - destruct (tn_actor t) as [| |k] eqn:Hact; cbn in Hstep.
    + destruct (main_step_ok p1 p' Hok Hc1 Hstep) as [? [?|?]]; eauto.
    + destruct (collector_step_ok _ p1 p' Hok Hc1 Hstep) as [? [?|[? Hb]]]; [by eauto|].
      split; [done|]. right. right. split; [done|]. intros b Hb'. destruct (Hb b Hb') as [? Hne]. by split; [|intros <-].
    + destruct (routine_turn_ok k p1 p' Hok Hc1 Hstep) as [? [?|?]]; eauto.
  - split; [by intros _|]. right. right. split; [done|]. intros b Hb. split; [done|].
    intros <-. destruct (awaited_moves p1 _ (tn_cmds t) Hok Hm1 Hb) as [? ?]. congruence.
Qed.

(** ** Rounds of turns *)

Lemma ended_stays p ts : ended p = true -> run_turns p ts = p.
Proof.
  intros He. unfold run_turns. induction ts as [|t ts IH]; [done|]. cbn. unfold take_turn at 2.
  by rewrite He.
Qed.

Lemma run_turns_app p ts ts' : run_turns p (ts ++ ts') = run_turns (run_turns p ts) ts'.
Proof. apply foldl_app. Qed.

Lemma run_turns_ok p ts : proc_ok p -> proc_ok (run_turns p ts) /\
  (ended (run_turns p ts) = true \/ (work (run_turns p ts) <= work p)%Z).
Proof.
  revert p. induction ts as [|t ts IH]; intros p Hok; [by split; [|right]|].
  destruct (ended p) eqn:He; [rewrite ended_stays by done; by split; [|left]|].
  destruct (take_turn_ok p t Hok He) as [Hok' Hadv]. change (run_turns p (t :: ts)) with
    (run_turns (take_turn p t) ts).
  destruct Hadv as [He'|Hadv]; [rewrite ended_stays by done; by split; [|left]|].
  assert (work (take_turn p t) <= work p)%Z by (destruct Hadv as [?|[-> _]]; lia).
  destruct (IH _ Hok') as [Hok2 [?|?]]; (split; [done|]); [by left | right; lia].
Qed.

(** When what is awaited gets a turn, the process ends or goes on. *)
Lemma run_turns_progress p ts b :
  proc_ok p -> ended p = false -> awaited p b -> b ∈ tn_actor <$> ts ->
  ended (run_turns p ts) = true \/ (work (run_turns p ts) < work p)%Z.
Proof.
  revert p. induction ts as [|t ts IH]; intros p Hok He Hb Hin; [by apply elem_of_nil in Hin|].
  destruct (take_turn_ok p t Hok He) as [Hok' Hadv].
  change (run_turns p (t :: ts)) with (run_turns (take_turn p t) ts).
  destruct Hadv as [He'|[Hlt|[Heq Hidle]]].
  - left. by rewrite ended_stays.
  - destruct (run_turns_ok (take_turn p t) ts Hok') as [_ [?|?]]; [by left | right; lia].
  - destruct (Hidle b Hb) as [Hb' Hne]. cbn in Hin. apply elem_of_cons in Hin as [->|Hin]; [done|].
    destruct (ended (take_turn p t)) eqn:He'; [left; by rewrite ended_stays|].
    rewrite <-Heq. by apply IH.
Qed.

(** A round in which everybody gets a turn, in some order. *)
Definition complete (ts : list turn) : Prop :=
  forall a, match a with ARoutine k => k < 10 | _ => True end -> a ∈ tn_actor <$> ts.

Lemma awaited_in_round p b ts : shape p -> awaited p b -> complete ts -> b ∈ tn_actor <$> ts.
Proof.
  intros Hs Hb Hts. apply Hts. unfold awaited, shape in *. destruct b as [| |k]; [done..|].
  destruct (p_main p); try done.
  - destruct (p_wg p =? 0)%Z; [done|]. destruct Hb as (k' & st & [= <-] & Hk & _).
    destruct Hs as [Hl _]. by rewrite <-Hl; eapply lookup_lt_Some.
  - by destruct (p_collector p).
Qed.

Lemma rounds_end (rounds : list (list turn)) p :
  Forall complete rounds -> proc_ok p ->
  ended (run_turns p (concat rounds)) = true \/
  (work (run_turns p (concat rounds)) + Z.of_nat (length rounds) <= work p)%Z.
Proof.
  intros Hall. revert p. induction Hall as [|ts rounds Hts _ IH]; intros p Hok; [right; cbn; lia|].
  cbn [concat]. rewrite run_turns_app. destruct (run_turns_ok p ts Hok) as [Hok1 _].
  destruct (ended p) eqn:He; [left; by rewrite !(ended_stays p)|].
  assert (shape p) as Hs by (apply Hok; by apply orb_false_iff in He as [? _]).
  destruct (awaited_exists p Hs) as [b Hb].
  destruct (run_turns_progress p ts b Hok He Hb (awaited_in_round p b ts Hs Hb Hts)) as [He'|Hlt].
  - left. by rewrite !(ended_stays (run_turns p ts)).
  - destruct (IH _ Hok1) as [?|?]; [by left|]. right. cbn [length]. lia.
Qed.

Lemma work_nonneg p : shape p -> (0 <= work p)%Z.
Proof.
  pose proof start_work_pos. intros Hs. unfold work, main_work, shape in *.
  pose proof (total_work_nonneg (p_routines p)).
  destruct (p_main p); try lia; [destruct Hs; nia | destruct (p_collector p); cbn; lia].
Qed.

(** C30: The load test ends.  Whatever the cluster does and whatever the
    commands print, once the main function, the collector and the ten
    routines have all had a turn in more rounds than there are steps to do
    (some million), in any order within each round, the process has ended;
    and if neither a panic nor a missing configuration or file ended it, then
    all ten routines have ended, the wait group is at zero and the collector
    has stopped. *)
Theorem load_test_ends (c : Cluster) (rounds : list (list turn)) :
  Forall complete rounds -> (10 + 10 * start_work < Z.of_nat (length rounds))%Z ->
  let p := run_turns (p_init c) (concat rounds) in
  ended p = true /\
  (p_crashed p = false -> os_Create "summary.txt" = None ->
   length (p_routines p) = 10 /\ Forall (eq REnded) (p_routines p) /\ p_wg p = 0%Z /\
   p_collector p = CStopped).
Proof.
  intros Hall Hlen p.
  assert (proc_ok (p_init c)) as Hok by by intros _.
  destruct (run_turns_ok (p_init c) (concat rounds) Hok) as [Hok' _]. fold p in Hok'.
  assert (ended p = true) as He.
  { destruct (rounds_end rounds (p_init c) Hall Hok) as [He|Hw]; [done|]. fold p in Hw.
    destruct (ended p) eqn:He; [done|]. exfalso.
    assert (0 <= work p)%Z by (apply work_nonneg, Hok'; by apply orb_false_iff in He as [? _]).
    assert (work (p_init c) = 10 + 10 * start_work)%Z by (unfold work, main_work; cbn; lia). lia. }
  split; [done|]. intros Hc Hfile. specialize (Hok' Hc). unfold ended in He. rewrite Hc in He.
  unfold shape in Hok'. destruct (p_main p); try done.
  destruct Hok' as [[[e He'] _]|(? & ? & Hl & ?)]; [congruence|].
  split_and!; [done| |done..]. by apply live_zero.
Qed.
End ends.

(** ** A routine on its own *)

(** [n] steps of a routine that nothing interrupts. *)
Fixpoint alone `{TestFiles, DynamicClient, UnstructuredObject} (n : nat) (st : routine_stage)
    (s : load_state) : outcome (routine_stage * load_state) :=
  match n with
  | O => Val (st, s)
  | S n' => let? r := routine_step st s in alone n' r.1 r.2
  end.

Section alone.
Context `{TestFiles, DynamicClient, UnstructuredObject}.

Lemma alone_app n m st s st' s' :
  alone n st s = Val (st', s') -> alone (n + m) st s = alone m st' s'.
Proof.
  revert st s. induction n as [|n IH]; intros st s Hn; cbn in *; [by simplify_eq|].
  destruct (routine_step st s) as [[st1 s1]|msg]; cbn in *; [by apply IH | done].
Qed.

Lemma alone_poll tries js s s' :
  poll_status tries s = Val ((), s') -> exists n, alone n (RPoll tries js) s = Val (RCreate js, s').
Proof.
  revert s. induction tries as [|tries IH]; intros s Hs.
  { cbn in Hs. injection Hs as <-. by exists 1. }
  cbn [poll_status] in Hs. apply St_bind_Val in Hs as (s1 & s1' & Hget & Hs).
  injection Hget as <- <-. apply St_bind_Val in Hs as (r & s2 & Hr & Hs).
  assert (routine_step (RPoll (S tries) js) s =
    (if no_status r then Val (RPoll tries js, s2) else Val (RCreate js, s2))) as Hstep
    by (cbn; by rewrite Hr).
  destruct (no_status r).
  - destruct (IH s2 Hs) as [n Hn]. exists (S n). cbn [alone]. by rewrite Hstep.
  - injection Hs as <-. exists 1. cbn [alone]. by rewrite Hstep.
Qed.

Lemma alone_one j js s s' :
  load_one j s = Val ((), s') -> exists n, alone n (RCreate (j :: js)) s = Val (RCreate js, s').
Proof.
  unfold load_one. intros ([ad err] & s1 & Hc & Hs)%St_bind_Val.
  destruct err as [err|].
  { assert (s1 = s') as <- by (by destruct ad; injection Hs).
    exists 1. cbn [alone routine_step]. rewrite Hc. by destruct ad. }
  destruct ad as [ad|]; [|done]. apply St_bind_Val in Hs as (u & s2 & Hm & Hs).
  injection Hm as _ <-. destruct (alone_poll 501 js _ _ Hs) as [n Hn].
  exists (3 + n). cbn [Nat.add alone routine_step]. rewrite Hc. cbn [outcome_bind fst snd].
  exact Hn.
Qed.

(** A routine that runs on its own does what [load_routine] does: the
    interleaved routines are that computation cut into steps. *)
Theorem routine_alone (i : Z) (s s' : load_state) :
  load_routine i s = Val ((), s') ->
  exists n, alone n (RCreate (load_numbers i)) s = Val (RDone, s').
Proof.
  unfold load_routine. generalize (load_numbers i). intros js.
  revert s. induction js as [|j js IH]; intros s Hs.
  - cbn in Hs. injection Hs as <-. by exists 1.
  - cbn [for_each] in Hs. apply St_bind_Val in Hs as ([] & s1 & Hj & Hs).
    destruct (alone_one j js s s1 Hj) as [n Hn], (IH s1 Hs) as [m Hm].
    exists (n + m). by rewrite (alone_app _ _ _ _ _ _ Hn).
Qed.
End alone.

(** ** Examples *)
Section examples.
#[local] Existing Instances sample_files sample_decoder sample_client tree_object.

#[local] Instance sample_load_env : LoadEnv := {|
  os_Create _ := None;
  config_found := true;
  MANAGER_PID := "7";
  WFCTRL_PID := "8" |}.

Definition sample_commands : Commands :=
  mkCommands "       3" (fun _ _ => Ok ("%CPU %MEM" +:+ newline)).

Definition a_turn (a : actor) : turn := mkTurn a id sample_commands.

Definition everybody : list turn :=
  a_turn AMain :: a_turn ACollector :: (a_turn ∘ ARoutine <$> seq 0 10).

Lemma everybody_complete : complete everybody.
Proof.
  intros a Ha. unfold everybody. cbn [fmap list_fmap tn_actor a_turn].
  destruct a as [| |k]; [set_solver..|]. do 2 right.
  rewrite <-list_fmap_compose. apply list_elem_of_fmap. exists k. split; [done|].
  apply elem_of_seq. lia.
Qed.

Definition many_rounds : list (list turn) := replicate (Z.to_nat (11 + 10 * start_work)) everybody.

Lemma load_test_ends_witness :
  let p := run_turns (p_init no_objects) (concat many_rounds) in
  ended p = true /\ (p_crashed p = false -> Forall (eq REnded) (p_routines p)).
Proof.
  destruct (load_test_ends no_objects many_rounds) as [He Hdone].
  - apply Forall_replicate. exact everybody_complete.
  - unfold many_rounds. rewrite length_replicate, Z2Nat.id by (unfold start_work; lia). lia.
  - split; [exact He|]. intros Hc. exact (proj1 (proj2 (Hdone Hc eq_refl))).
Defined.

(** After the routines have been started, the second one creates its first
    addon while the first one is about to wait for the status of its own. *)
Definition overlapping : list turn :=
  (a_turn <$> replicate 15 AMain) ++
  (a_turn <$> [ARoutine 0; ARoutine 0; ARoutine 0; ARoutine 1; ARoutine 1; ARoutine 1]).

(** The first routine has created addon 100, and now polls addon 200. *)
Theorem routine_polls_anothers_addon :
  let p := run_turns (p_init no_objects) overlapping in
  p_routines p !! 0 = Some (RPoll 501 (drop 1 (load_numbers 1))) /\
  head (load_numbers 1) = Some 100%Z /\
  addonName (p_shared p) = "event-router-200".
Proof. vm_compute. by split_and!. Qed.
End examples.
