(* ===== verification/FakeClient.v ===== *)
(** The generated fake client, [pkg/client/clientset/versioned/fake] and
    [typed/addon/v1alpha1/fake]: another implementation of [AddonInterface],
    for tests, that records actions instead of sending requests.

    [k8s.io/client-go/testing], the label selectors and the object tracker
    are parameters.  The theorem says in which sense the fake may stand in
    for the typed client. *)
From S2P Require Import Prelude GoStrings AddonTypes Common GoHeap Unstructured Clientset ClientsetSpec.

(** ** Parameters *)

(** A [runtime.Object] that a reaction returns. *)
Inductive Object :=
  | ObjAddon (a : Addon)
  | ObjAddonList (l : AddonList)
  | ObjOther (kind : string).

Class Testing `{MetaV1Options} := {
  FakeState : Type;
  Action : Type;
  FakeWatcher : Type;
  LSelector : Type;
  NewGetAction : GroupVersionResource -> string -> string -> Action;
  NewListAction : GroupVersionResource -> GroupVersionKind -> string -> ListOptions -> Action;
  NewWatchAction : GroupVersionResource -> string -> ListOptions -> Action;
  NewCreateAction : GroupVersionResource -> string -> Addon -> Action;
  NewUpdateAction : GroupVersionResource -> string -> Addon -> Action;
  NewUpdateSubresourceAction : GroupVersionResource -> string -> string -> Addon -> Action;
  NewDeleteActionWithOptions : GroupVersionResource -> string -> string -> DeleteOptions -> Action;
  NewDeleteCollectionAction : GroupVersionResource -> string -> ListOptions -> Action;
  NewPatchSubresourceAction :
    GroupVersionResource -> string -> string -> string -> string -> list string -> Action;
  Invokes : Action -> Object -> St FakeState (option Object * option error);
  InvokesWatch : Action -> St FakeState (option FakeWatcher * option error);
  (* the label selector of the options *)
  ExtractFromListOptions : ListOptions -> option LSelector;
  Everything : LSelector;
  Matches : LSelector -> gmap string string -> bool
}.

(** ** The fake client, [fake_addon.go] *)

Definition addonsResource : GroupVersionResource :=
  mkGVR "addonmgr.keikoproj.io" "v1alpha1" "addons".

Definition addonsKind : GroupVersionKind := mkGVK "addonmgr.keikoproj.io" "v1alpha1" "Addon".

Definition set_Items (l : list Addon) (x : AddonList) : AddonList :=
  mkAddonList (List_ResourceVersion x) l.

Definition empty_list : AddonList := mkAddonList "" [].

Section fake.
Context `{Testing}.

Record FakeAddons := mkFakeAddons { fa_ns : string }.

(** The check for nil, then the assertion that the object is an addon. *)
Definition as_addon (r : option Object * option error) : St FakeState (option Addon * option error) :=
  match r with
  | (None, err) => mret (None, err)
  | (Some (ObjAddon a), err) => mret (Some a, err)
  | (Some _, _) => go_panic "interface conversion: runtime.Object is not *v1alpha1.Addon"
  end.

Definition fake_Get (c : FakeAddons) (name : string) (options : GetOptions)
    : St FakeState (option Addon * option error) :=
  r ← Invokes (NewGetAction addonsResource (fa_ns c) name) (ObjAddon zero_Addon);
  as_addon r.

Definition fake_List (c : FakeAddons) (opts : ListOptions)
    : St FakeState (option AddonList * option error) :=
  r ← Invokes (NewListAction addonsResource addonsKind (fa_ns c) opts) (ObjAddonList empty_list);
  match r with
  | (None, err) => mret (None, err)
  | (Some (ObjAddonList obj), err) =>
      let label := match ExtractFromListOptions opts with
                   | Some label => label | None => Everything end in
      let items := foldl (fun l item => if Matches label (Labels (Meta item)) then l ++ [item] else l)
                     [] (Items obj) in
      mret (Some (set_Items items obj), err)
  | (Some _, _) => go_panic "interface conversion: runtime.Object is not *v1alpha1.AddonList"
  end.

Definition fake_Watch (c : FakeAddons) (opts : ListOptions)
    : St FakeState (option FakeWatcher * option error) :=
  InvokesWatch (NewWatchAction addonsResource (fa_ns c) opts).

Definition fake_Create (c : FakeAddons) (addon : Addon) (opts : CreateOptions)
    : St FakeState (option Addon * option error) :=
  r ← Invokes (NewCreateAction addonsResource (fa_ns c) addon) (ObjAddon zero_Addon);
  as_addon r.

Definition fake_Update (c : FakeAddons) (addon : Addon) (opts : UpdateOptions)
    : St FakeState (option Addon * option error) :=
  r ← Invokes (NewUpdateAction addonsResource (fa_ns c) addon) (ObjAddon zero_Addon);
  as_addon r.

Definition fake_UpdateStatus (c : FakeAddons) (addon : Addon) (opts : UpdateOptions)
    : St FakeState (option Addon * option error) :=
  r ← Invokes (NewUpdateSubresourceAction addonsResource "status" (fa_ns c) addon)
        (ObjAddon zero_Addon);
  as_addon r.

Definition fake_Delete (c : FakeAddons) (name : string) (opts : DeleteOptions)
    : St FakeState (option error) :=
  r ← Invokes (NewDeleteActionWithOptions addonsResource (fa_ns c) name opts) (ObjAddon zero_Addon);
  mret r.2.

Definition fake_DeleteCollection (c : FakeAddons) (opts : DeleteOptions) (listOpts : ListOptions)
    : St FakeState (option error) :=
  let action := NewDeleteCollectionAction addonsResource (fa_ns c) listOpts in
  r ← Invokes action (ObjAddonList empty_list);
  mret r.2.

Definition fake_Patch (c : FakeAddons) (name pt data : string) (opts : PatchOptions)
    (subresources : list string) : St FakeState (option Addon * option error) :=
  r ← Invokes (NewPatchSubresourceAction addonsResource (fa_ns c) name pt data subresources)
        (ObjAddon zero_Addon);
  as_addon r.

Definition fake_AddonInterface : AddonInterface := {|
  AddonClient := FakeAddons;
  Backend := FakeState;
  WatchInterface := FakeWatcher;
  ai_Get := fake_Get;
  ai_List := fake_List;
  ai_Watch := fake_Watch;
  ai_Create := fake_Create;
  ai_Update := fake_Update;
  ai_UpdateStatus := fake_UpdateStatus;
  ai_Delete := fake_Delete;
  ai_DeleteCollection := fake_DeleteCollection;
  ai_Patch := fake_Patch |}.

(** [fake_addon_client.go]: the addons of a namespace share the recorder. *)
Definition fake_Addons (namespace : string) : FakeAddons := mkFakeAddons namespace.
End fake.

(** ** The fake clientset, [fake/clientset_generated.go]

    Its object tracker is a parameter. *)
Section clientset.
Context {Tracker Obj Watch Act : Type}
        (NewObjectTracker : Tracker)
        (tracker_Add : Obj -> Tracker -> result Tracker)
        (tracker_Watch : GroupVersionResource -> string -> Tracker -> result Watch)
        (GetResource : Act -> GroupVersionResource)
        (GetNamespace : Act -> string).

(** What handles an action of the fake clientset. *)
Inductive reactor := ObjectReaction | WatchReaction.

Record FakeClientset := mkFakeClientset {
  fc_tracker : Tracker;
  fc_reactors : list (string * string * reactor);
  fc_watch_reactors : list (string * reactor)
}.

Fixpoint add_objects (o : Tracker) (objects : list Obj) : outcome Tracker :=
  match objects with
  | [] => Val o
  | obj :: objects' =>
      match tracker_Add obj o with
      | Err err => Panicked (Error err)
      | Ok o => add_objects o objects'
      end
  end.

Definition NewSimpleClientset (objects : list Obj) : outcome FakeClientset :=
  let? o := add_objects NewObjectTracker objects in
  Val (mkFakeClientset o [("*", "*", ObjectReaction)] [("*", WatchReaction)]).

(** The closure that handles watch actions: whether it did, and its results. *)
Definition watch_reaction (cs : FakeClientset) (action : Act) : bool * option Watch * option error :=
  match tracker_Watch (GetResource action) (GetNamespace action) (fc_tracker cs) with
  | Err err => (false, None, Some err)
  | Ok watch => (true, Some watch, None)
  end.
End clientset.

(** ** Operations

    What a request asks of the API server, and an action of the tracker. *)
Inductive Operation :=
  | OGet (r ns n : string)
  | OList (r ns selector : string)
  | OWatch (r ns selector : string)
  | OCreate (r ns : string) (a : Addon)
  | OUpdate (r ns : string) (sub : list string) (a : Addon)
  | ODelete (r ns n : string)
  | ODeleteCollection (r ns selector : string)
  | OPatch (r ns n pt data : string) (sub : list string).

Definition http_op `{MetaV1Options} (h : HttpRequest) : option Operation :=
  match h_namespace h, h_resource h with
  | Some ns, Some r =>
      match h_verb h, h_name h, h_params h, h_body h with
      | VGet, Some n, _, _ => Some (OGet r ns n)
      | VGet, None, [QList o], _ =>
          Some (if LO_Watch o then OWatch r ns (LO_LabelSelector o)
                else OList r ns (LO_LabelSelector o))
      | VPost, None, _, Some (BAddon a) => Some (OCreate r ns a)
      | VPut, Some n, _, Some (BAddon a) =>
          if n == addon_Name a then Some (OUpdate r ns (h_subresources h) a) else None
      | VDelete, Some n, _, _ => Some (ODelete r ns n)
      | VDelete, None, [QList o], _ => Some (ODeleteCollection r ns (LO_LabelSelector o))
      | VPatch pt, Some n, _, Some (BData d) => Some (OPatch r ns n pt d (h_subresources h))
      | _, _, _, _ => None
      end
  | _, _ => None
  end.

(** The documented content of the actions. *)
Class TestingLaws `{Testing} := {
  action_op : Action -> Operation;
  parse_label : string -> option LSelector;
  Extract_label o : ExtractFromListOptions o = parse_label (LO_LabelSelector o);
  op_Get g ns n : action_op (NewGetAction g ns n) = OGet (GVR_Resource g) ns n;
  op_List g k ns o :
    action_op (NewListAction g k ns o) = OList (GVR_Resource g) ns (LO_LabelSelector o);
  op_Watch g ns o : action_op (NewWatchAction g ns o) = OWatch (GVR_Resource g) ns (LO_LabelSelector o);
  op_Create g ns a : action_op (NewCreateAction g ns a) = OCreate (GVR_Resource g) ns a;
  op_Update g ns a : action_op (NewUpdateAction g ns a) = OUpdate (GVR_Resource g) ns [] a;
  op_UpdateSub g s ns a :
    action_op (NewUpdateSubresourceAction g s ns a) = OUpdate (GVR_Resource g) ns [s] a;
  op_Delete g ns n o :
    action_op (NewDeleteActionWithOptions g ns n o) = ODelete (GVR_Resource g) ns n;
  op_DeleteCollection g ns o :
    action_op (NewDeleteCollectionAction g ns o) =
    ODeleteCollection (GVR_Resource g) ns (LO_LabelSelector o);
  op_Patch g ns n pt d s :
    action_op (NewPatchSubresourceAction g ns n pt d s) = OPatch (GVR_Resource g) ns n pt d s
}.

(** ** The fake stands in for the typed client *)

Section stands_in.
Context `{RestLaws, !Testing, !TestingLaws}.
Implicit Types (m : AddonCall) (h : HttpRequest) (a : Action).

Definition selected_by (selector : string) (l : list Addon) : list Addon :=
  let label := default Everything (parse_label selector) in
  filter (fun x => Matches label (Labels (Meta x)) = true) l.

(** The server and the tracker answer an operation alike, but that the
    tracker leaves the selection of listed items to the client and has
    nothing to give besides an error. *)
Definition alike (op : Operation) (resp : Response) (r : option Object * option error) : Prop :=
  match op, r with
  | OList _ _ selector, (Some (ObjAddonList l), None) =>
      Into_AddonList resp = (set_Items (selected_by selector (Items l)) l, None)
  | OList _ _ _, (None, Some e) => (Into_AddonList resp).2 = Some e
  | ODelete _ _ _, (_, err) | ODeleteCollection _ _ _, (_, err) => resp_Error resp = err
  | (OGet _ _ _ | OCreate _ _ _ | OUpdate _ _ _ _ | OPatch _ _ _ _ _ _), (Some (ObjAddon x), None) =>
      Into_Addon resp = (x, None)
  | (OGet _ _ _ | OCreate _ _ _ | OUpdate _ _ _ _ | OPatch _ _ _ _ _ _), (None, Some e) =>
      (Into_Addon resp).2 = Some e
  | OWatch _ _ _, _ => True
  | _, _ => False
  end.

(** A request and an action for the same operation are answered alike in
    related states, and leave related states. *)
Definition same_answers (related : Server -> FakeState -> Prop) : Prop :=
  forall h a d s t,
  related s t -> http_op h = Some (action_op a) ->
  match action_op a with OWatch _ _ _ => False | _ => True end ->
  exists resp s' r t', serve h s = Val (resp, s') /\ Invokes a d t = Val (r, t') /\
    related s' t' /\ alike (action_op a) resp r.

(** The replies of the typed client and of the fake: equal, except that with
    an error the typed client gives an empty object and the fake nil. *)
Inductive same_reply : @Reply _ addons_AddonInterface -> @Reply _ fake_AddonInterface -> Prop :=
  | same_addon x : same_reply (RAddon (Some x) None) (RAddon (Some x) None)
  | same_list l : same_reply (RList (Some l) None) (RList (Some l) None)
  | same_addon_error x e : same_reply (RAddon (Some x) (Some e)) (RAddon None (Some e))
  | same_list_error l e : same_reply (RList (Some l) (Some e)) (RList None (Some e))
  | same_error e : same_reply (RError e) (RError e).

(** The calls compared: no watches. *)
Definition no_watch m : Prop :=
  match m with
  | MWatch _ => False
  | MList o => LO_Watch o = false
  | _ => True
  end.

Definition action_of (ns : string) (m : AddonCall) : Action :=
  match m with
  | MGet n _ => NewGetAction addonsResource ns n
  | MList o => NewListAction addonsResource addonsKind ns o
  | MWatch o => NewWatchAction addonsResource ns o
  | MCreate a _ => NewCreateAction addonsResource ns a
  | MUpdate a _ => NewUpdateAction addonsResource ns a
  | MUpdateStatus a _ => NewUpdateSubresourceAction addonsResource "status" ns a
  | MDelete n o => NewDeleteActionWithOptions addonsResource ns n o
  | MDeleteCollection _ lo => NewDeleteCollectionAction addonsResource ns lo
  | MPatch n pt d _ sub => NewPatchSubresourceAction addonsResource ns n pt d sub
  end.

Lemma same_operation ns m :
  no_watch m ->
  http_op (request_of ns m) = Some (action_op (action_of ns m)) /\
  match action_op (action_of ns m) with OWatch _ _ _ => False | _ => True end.
Proof.
  intros Hm. destruct m; cbn; try (rewrite Hm);
    rewrite ?op_Get, ?op_List, ?op_Create, ?op_Update, ?op_UpdateSub, ?op_Delete,
      ?op_DeleteCollection, ?op_Patch; try done; by rewrite bool_decide_eq_true_2.
Qed.

Lemma foldl_append_filter (f : Addon -> bool) l acc :
  foldl (fun l item => if f item then l ++ [item] else l) acc l = acc ++ filter (fun x => f x = true) l.
Proof.
  revert acc. induction l as [|x l IH]; intros acc; cbn [foldl]; [by rewrite app_nil_r|].
  rewrite IH, filter_cons. destruct (f x); case_decide; try done. by rewrite <-app_assoc.
Qed.

Definition default_of (m : AddonCall) : Object :=
  match m with
  | MList _ | MDeleteCollection _ _ => ObjAddonList empty_list
  | _ => ObjAddon zero_Addon
  end.

Lemma fake_reply ns m t resp r t' :
  no_watch m -> Invokes (action_of ns m) (default_of m) t = Val (r, t') ->
  alike (action_op (action_of ns m)) resp r ->
  exists reply, @perform _ fake_AddonInterface (fake_Addons ns) m t = Val (reply, t') /\
    same_reply (decode m resp) reply.
Proof.
  intros Hm Hr Ha. destruct m; try done; cbn [action_of default_of] in *;
    rewrite ?op_Get, ?op_List, ?op_Create, ?op_Update, ?op_UpdateSub, ?op_Delete,
      ?op_DeleteCollection, ?op_Patch in Ha;
    cbn; unfold fake_Get, fake_List, fake_Create, fake_Update, fake_UpdateStatus, fake_Delete,
      fake_DeleteCollection, fake_Patch, mbind, St_bind; cbn; rewrite Hr;
    destruct r as [[[x|l|k]|] [e|]]; cbn in Ha; try done;
    try (eexists; split; [reflexivity|]; cbn; rewrite ?Ha; constructor).
  eexists. split; [reflexivity|]. cbn. rewrite Ha. cbn. rewrite foldl_append_filter, Extract_label. constructor.
Qed.

Lemma stands_in_once related (c : addons) rc m s t :
  same_answers related -> client c = Some rc -> path_ok (ad_ns c) m = true -> no_watch m ->
  related s t ->
  exists r1 s' r2 t', perform c m s = Val (r1, s') /\
    @perform _ fake_AddonInterface (fake_Addons (ad_ns c)) m t = Val (r2, t') /\
    related s' t' /\ same_reply r1 r2.
Proof.
  intros Hsame Hc Hok Hm Hrel. rewrite (perform_exchange c rc m s Hc Hok).
  destruct (same_operation (ad_ns c) m Hm) as [Hop Hnw].
  destruct (Hsame _ _ (default_of m) s t Hrel Hop Hnw) as (resp & s' & r & t' & Hs & Ht & Hrel' & Ha).
  destruct (fake_reply (ad_ns c) m t resp r t' Hm Ht Ha) as (reply & Hf & Hsr).
  exists (decode m resp), s', reply, t'. split_and!; [|done..].
  destruct m; try done; cbn [exchange]; unfold mbind, St_bind; by rewrite Hs.
Qed.

(** The replies to a sequence of calls. *)
Fixpoint perform_all `{AddonInterface} (c : AddonClient) (ms : list AddonCall)
    : St Backend (list Reply) :=
  match ms with
  | [] => mret []
  | m :: ms' => r ← perform c m; rs ← perform_all c ms'; mret (r :: rs)
  end.

(** C24: The fake client stands in for the typed client: against a tracker
    and an API server that answer every operation alike, any sequence of
    calls without watches, each of which the typed client does not refuse
    before sending it ([path_ok]: a valid namespace and name, both given where
    the request needs them), gets the same objects, lists and errors from
    both, except that with an error the typed client also gives an empty
    object where the fake gives nil. *)
Theorem fake_stands_in (related : Server -> FakeState -> Prop) (c : addons) (rc : RC)
    (ms : list AddonCall) (s : Server) (t : FakeState) :
  same_answers related -> client c = Some rc ->
  Forall (fun m => path_ok (ad_ns c) m = true /\ no_watch m) ms -> related s t ->
  exists rs1 s' rs2 t', perform_all c ms s = Val (rs1, s') /\
    @perform_all _ fake_AddonInterface (fake_Addons (ad_ns c)) ms t = Val (rs2, t') /\
    related s' t' /\ Forall2 same_reply rs1 rs2.
Proof.
  intros Hsame Hc Hms. revert s t. induction Hms as [|m ms [Hok Hm] _ IH]; intros s t Hrel.
  { exists [], s, [], t. by split_and!. }
  destruct (stands_in_once related c rc m s t Hsame Hc Hok Hm Hrel)
    as (r1 & s1 & r2 & t1 & H1s & H1t & Hrel1 & Hr).
  destruct (IH s1 t1 Hrel1) as (rs1 & s2 & rs2 & t2 & H2s & H2t & Hrel2 & Hrs).
  exists (r1 :: rs1), s2, (r2 :: rs2), t2. cbn [perform_all].
  rewrite (St_bind_step _ _ _ _ _ H1s), (St_bind_step _ _ _ _ _ H2s).
  rewrite (St_bind_step _ _ _ _ _ H1t), (St_bind_step _ _ _ _ _ H2t).
  split_and!; [done..|]. by constructor.
Qed.
End stands_in.

(** ** A concrete tracker

    It keeps addons as the sample server does, and an action is the operation
    it stands for. *)
Definition action_http (op : Operation) : HttpRequest :=
  let req v ns n sub q b := mkHttp v (Some ns) (Some "addons") n sub q 0%Z b in
  match op with
  | OGet _ ns n => req VGet ns (Some n) [] [] None
  | OList _ ns _ | OWatch _ ns _ => req VGet ns None [] [] None
  | OCreate _ ns a => req VPost ns None [] [] (Some (BAddon a))
  | OUpdate _ ns sub a => req VPut ns (Some (addon_Name a)) sub [] (Some (BAddon a))
  | ODelete _ ns n => req VDelete ns (Some n) [] [] None
  | ODeleteCollection _ ns _ => req VDelete ns None [] [] None
  | OPatch _ ns n pt d sub => req (VPatch pt) ns (Some n) sub [] (Some (BData d))
  end.

Definition reply_object (r : api_reply) : option Object * option error :=
  match r with
  | AddonReply a => (Some (ObjAddon a), None)
  | ListReply l => (Some (ObjAddonList (mkAddonList "" l)), None)
  | ErrorReply e => (None, Some e)
  end.

#[global] Instance sample_testing : Testing := {|
  FakeState := addon_store;
  Action := Operation;
  FakeWatcher := unit;
  LSelector := string;
  NewGetAction := fun g ns n => OGet (GVR_Resource g) ns n;
  NewListAction := fun g _ ns o => OList (GVR_Resource g) ns (LO_LabelSelector o);
  NewWatchAction := fun g ns o => OWatch (GVR_Resource g) ns (LO_LabelSelector o);
  NewCreateAction := fun g ns a => OCreate (GVR_Resource g) ns a;
  NewUpdateAction := fun g ns a => OUpdate (GVR_Resource g) ns [] a;
  NewUpdateSubresourceAction := fun g s ns a => OUpdate (GVR_Resource g) ns [s] a;
  NewDeleteActionWithOptions := fun g ns n _ => ODelete (GVR_Resource g) ns n;
  NewDeleteCollectionAction := fun g ns o =>
    ODeleteCollection (GVR_Resource g) ns (LO_LabelSelector o);
  NewPatchSubresourceAction := fun g ns n pt d s => OPatch (GVR_Resource g) ns n pt d s;
  Invokes := fun a _ => r ← serve_store (action_http a); mret (reply_object r);
  InvokesWatch := fun _ => mret (Some tt, None);
  ExtractFromListOptions := fun o => Some (LO_LabelSelector o);
  Everything := "";
  Matches := fun sel ls =>
    selects sel (mkAddon (mkObjectMeta "" "" "" None [] ls) zero_AddonSpec zero_AddonStatus) |}.

#[global] Program Instance sample_testing_laws : TestingLaws := {|
  action_op := fun a => a;
  parse_label := Some |}.
Solve All Obligations with done.

Lemma stored_in_filter ns selector s :
  stored_in ns selector s = filter (fun a => selects selector a = true) (stored_in ns "" s).
Proof.
  unfold stored_in. induction (map_to_list s) as [|[k a] l IH]; [done|].
  rewrite !filter_cons. cbn [fst snd].
  assert (selects "" a = true) as He by done.
  repeat case_decide; try tauto; rewrite ?fmap_cons, ?filter_cons; cbn [snd];
    try case_decide; try tauto; by rewrite IH.
Qed.

Lemma sample_same_answers :
  @same_answers sample_options sample_rest sample_rest_laws sample_testing sample_testing_laws
    (@eq addon_store).
Proof.
  intros [v ns r n sub ps tm b] op d s t <- Hop Hnw. cbn in op, Hop, Hnw.
  unfold http_op in Hop. cbn in Hop.
  repeat (case_match; try done); simplify_eq/=;
    repeat match goal with Hb : bool_decide _ = true |- _ => apply bool_decide_eq_true in Hb; subst end.
  all: unfold serve_store, mbind, St_bind; cbn; try case_match; repeat case_bool_decide;
    try (by eexists _, _, _, _; split_and!).
  eexists _, _, _, _. split_and!; [done..|]. unfold set_Items. cbn. rewrite stored_in_filter. done.
Qed.

Definition labelled_addon (n v : string) : Addon :=
  mkAddon (mkObjectMeta n "default" "" None [] {["tier" := v]}) zero_AddonSpec zero_AddonStatus.

(** A test of four calls: two addons, a list by label, and a name that does
    not exist. *)
Definition sample_calls : list AddonCall :=
  [MCreate (labelled_addon "a" "infra") tt; MCreate (labelled_addon "b" "app") tt;
   MList (mkListOptions "tier=app" "" false None ""); MGet "c" tt].

(** The names of the addons that the third call lists. *)
Definition third_names
    (o : outcome (list (@Reply sample_options addons_AddonInterface) * addon_store))
    : list string :=
  match o with
  | Val ([_; _; RList (Some l) _; _], _) => (fun a => addon_Name a) <$> Items l
  | _ => []
  end.

Lemma fake_stands_in_witness :
  exists s rs1 rs2,
    perform_all (sample_client "default") sample_calls client_store = Val (rs1, s) /\
    @perform_all _ fake_AddonInterface (fake_Addons "default") sample_calls client_store = Val (rs2, s) /\
    Forall2 same_reply rs1 rs2 /\
    third_names (Val (rs1, s)) = ["b"].
Proof.
  destruct (@fake_stands_in sample_options sample_rest sample_rest_laws sample_testing
    sample_testing_laws (@eq addon_store) (sample_client "default") tt sample_calls client_store
    client_store sample_same_answers eq_refl) as (rs1 & s & rs2 & t & H1 & H2 & <- & Hr).
  - repeat constructor.
  - reflexivity.
  - exists s, rs1, rs2. split; [exact H1|]. split; [exact H2|]. split; [exact Hr|].
    rewrite <-H1. vm_compute. reflexivity.
Defined.
