(* ===== verification/Informers.v ===== *)
(** The generated informers and listers, [pkg/client/informers] and
    [pkg/client/listers].

    A shared informer factory hands out one informer per type and runs each
    once.  The informers themselves ([cache.SharedIndexInformer]) and their
    indexers are outside the repository: an informer is a reference to what
    it was constructed from, and running one is recorded. *)
From S2P Require Import Prelude GoStrings GoFmt AddonTypes Common GoHeap Clientset ClientsetSpec.

(** [reflect.Type] of a pointer to a Go type, by its name. *)
Abbreviation GoType := string (only parsing).
Definition addon_type : GoType := "*v1alpha1.Addon".

#[global] Instance GVR_eq_dec : EqDecision GroupVersionResource.
Proof. solve_decision. Defined.

Section informers.
Context `{GoRange, AddonInterface}.

(** [versioned.Interface], as far as the informers use it:
    [client.AddonmgrV1alpha1().Addons(namespace)]. *)
Context {VersionedInterface : Type} (client_Addons : VersionedInterface -> string -> AddonClient).

(** [cache.ListWatch]. *)
Record ListWatch := mkListWatch {
  ListFunc : ListOptions -> St Backend (option AddonList * option error);
  WatchFunc : ListOptions -> St Backend (option WatchInterface * option error)
}.

(** What [cache.NewSharedIndexInformer] is given. *)
Record SharedIndexInformer := mkInformer {
  inf_lw : ListWatch;
  inf_type : GoType;
  inf_resync : Z;
  inf_indexers : list string
}.

(** The informers that exist, and those that were run, in order. *)
Record system := mkSystem {
  informer_heap : list SharedIndexInformer;
  ran : list loc
}.

(** A new informer is a new object. *)
Definition NewSharedIndexInformer (lw : ListWatch) (t : GoType) (resync : Z) (indexers : list string)
    : St system loc := fun s =>
  Val (length (informer_heap s),
       mkSystem (informer_heap s ++ [mkInformer lw t resync indexers]) (ran s)).

(** [go informer.Run(stopCh)] *)
Definition go_Run (i : loc) : St system () :=
  modify_state (fun s => mkSystem (informer_heap s) (ran s ++ [i])).

(** ** The informer of addons, [informers/.../v1alpha1/addon.go] *)

Definition TweakListOptionsFunc : Type := ListOptions -> ListOptions.

Definition NewInformerFunc : Type := VersionedInterface -> Z -> St system loc.

Definition tweaked (tweakListOptions : option TweakListOptionsFunc) (o : ListOptions) : ListOptions :=
  match tweakListOptions with
  | Some f => f o
  | None => o
  end.

Definition NewFilteredAddonInformer (client : VersionedInterface) (namespace : string)
    (resyncPeriod : Z) (indexers : list string) (tweakListOptions : option TweakListOptionsFunc)
    : St system loc :=
  NewSharedIndexInformer
    (mkListWatch
       (fun options => ai_List (client_Addons client namespace) (tweaked tweakListOptions options))
       (fun options => ai_Watch (client_Addons client namespace) (tweaked tweakListOptions options)))
    addon_type resyncPeriod indexers.

Definition NewAddonInformer (client : VersionedInterface) (namespace : string) (resyncPeriod : Z)
    (indexers : list string) : St system loc :=
  NewFilteredAddonInformer client namespace resyncPeriod indexers None.

(** ** The factory, [factory.go] *)

Record factory := mkFactory {
  f_client : VersionedInterface;
  f_namespace : string;
  f_tweak : option TweakListOptionsFunc;
  defaultResync : Z;
  customResync : gmap GoType Z;
  f_informers : gmap GoType loc;
  startedInformers : gmap GoType bool
}.

Definition SharedInformerOption : Type := factory -> factory.

Definition set_customResync (m : gmap GoType Z) (f : factory) : factory :=
  mkFactory (f_client f) (f_namespace f) (f_tweak f) (defaultResync f) m (f_informers f)
    (startedInformers f).

(** The configuration maps objects to periods.  An object is a pointer, here
    a key with the type it points to, so two objects may have one type. *)
Definition WithCustomResyncConfig (t : list nat) (resyncConfig : gmap string (GoType * Z))
    : SharedInformerOption := fun f =>
  foldl (fun f kv => set_customResync (<[kv.2.1 := kv.2.2]> (customResync f)) f) f
    (range t resyncConfig).

(** The function may be nil. *)
Definition WithTweakListOptions (tweak : option TweakListOptionsFunc) : SharedInformerOption :=
  fun f => mkFactory (f_client f) (f_namespace f) tweak (defaultResync f) (customResync f)
    (f_informers f) (startedInformers f).

Definition WithNamespace (namespace : string) : SharedInformerOption := fun f =>
  mkFactory (f_client f) namespace (f_tweak f) (defaultResync f) (customResync f)
    (f_informers f) (startedInformers f).

Definition NewSharedInformerFactoryWithOptions (client : VersionedInterface) (defaultResync : Z)
    (options : list SharedInformerOption) : factory :=
  foldl (fun f opt => opt f) (mkFactory client "" None defaultResync ∅ ∅ ∅) options.

Definition NewSharedInformerFactory (client : VersionedInterface) (defaultResync : Z) : factory :=
  NewSharedInformerFactoryWithOptions client defaultResync [].

Definition NewFilteredSharedInformerFactory (client : VersionedInterface) (defaultResync : Z)
    (namespace : string) (tweak : option TweakListOptionsFunc) : factory :=
  NewSharedInformerFactoryWithOptions client defaultResync
    [WithNamespace namespace; WithTweakListOptions tweak].

(** The methods hold the factory's lock, so each is one step. *)
Definition fstate : Type := factory * system.

(** A step of the system under the factory's lock. *)
Definition lift_system {A : Type} (m : St system A) : St fstate A := fun fs =>
  match m fs.2 with
  | Val (a, s) => Val (a, (fs.1, s))
  | Panicked msg => Panicked msg
  end.

Definition modify_factory (g : factory -> factory) : St fstate () :=
  modify_state (fun fs => (g fs.1, fs.2)).

Definition set_started (t : GoType) (f : factory) : factory :=
  mkFactory (f_client f) (f_namespace f) (f_tweak f) (defaultResync f) (customResync f)
    (f_informers f) (<[t := true]> (startedInformers f)).

Definition set_informer (t : GoType) (i : loc) (f : factory) : factory :=
  mkFactory (f_client f) (f_namespace f) (f_tweak f) (defaultResync f) (customResync f)
    (<[t := i]> (f_informers f)) (startedInformers f).

Definition is_started (f : factory) (t : GoType) : bool := default false (startedInformers f !! t).

Definition start_one (kv : GoType * loc) : St fstate () :=
  fs ← get_state;
  if negb (is_started fs.1 kv.1) then
    lift_system (go_Run kv.2);;
    modify_factory (set_started kv.1)
  else mret ().

Definition Start (t : list nat) : St fstate () :=
  fs ← get_state;
  for_each start_one (range t (f_informers fs.1)).

(** [cache.WaitForCacheSync(stopCh, informer.HasSynced)] is [wait]. *)
Definition WaitForCacheSync (t : list nat) (wait : loc -> bool) (f : factory) : gmap GoType bool :=
  let informers := foldl (fun m kv => if is_started f kv.1 then <[kv.1 := kv.2]> m else m)
                     (∅ : gmap GoType loc) (range (0 :: t) (f_informers f)) in
  foldl (fun res kv => <[kv.1 := wait kv.2]> res) ∅ (range (1 :: t) informers).

Definition resync_period (f : factory) (t : GoType) : Z :=
  match customResync f !! t with
  | Some resyncPeriod => resyncPeriod
  | None => defaultResync f
  end.

Definition InformerFor (informerType : GoType) (newFunc : NewInformerFunc) : St fstate loc :=
  fs ← get_state;
  match f_informers fs.1 !! informerType with
  | Some informer => mret informer
  | None =>
      informer ← lift_system (newFunc (f_client fs.1) (resync_period fs.1 informerType));
      modify_factory (set_informer informerType informer);;
      mret informer
  end.

(** ** The interfaces of the group and the version, [interface.go]

    They carry the factory, here the state, the namespace and the function
    that tweaks options. *)
Record scope := mkScope {
  sc_namespace : string;
  sc_tweak : option TweakListOptionsFunc
}.

(** [factory.Addonmgr()], [group.V1alpha1()], [version.Addons()] *)
Definition Addonmgr (f : factory) : scope := mkScope (f_namespace f) (f_tweak f).
Definition V1alpha1 (g : scope) : scope := mkScope (sc_namespace g) (sc_tweak g).
Definition informers_Addons (v : scope) : scope := mkScope (sc_namespace v) (sc_tweak v).

Definition NamespaceIndex : string := "namespace".

Definition defaultInformer (i : scope) : NewInformerFunc := fun client resyncPeriod =>
  NewFilteredAddonInformer client (sc_namespace i) resyncPeriod [NamespaceIndex] (sc_tweak i).

Definition Informer (i : scope) : St fstate loc := InformerFor addon_type (defaultInformer i).

(** [factory.Addonmgr().V1alpha1().Addons().Informer()] *)
Definition addon_informer : St fstate loc :=
  fs ← get_state;
  Informer (informers_Addons (V1alpha1 (Addonmgr fs.1))).

(** ** [generic.go] *)

Record genericInformer := mkGeneric { gi_informer : loc; gi_resource : string * string }.

Definition no_informer (r : GroupVersionResource) : error :=
  Errorf ("no informer found for " +:+ GVR_Group r +:+ "/" +:+ GVR_Version r +:+ ", Resource=" +:+
    GVR_Resource r).

Definition ForResource (resource : GroupVersionResource) : St fstate (result genericInformer) :=
  if resource == mkGVR SchemeGroupVersion.1 SchemeGroupVersion.2 "addons" then
    informer ← addon_informer;
    mret (Ok (mkGeneric informer (GVR_Group resource, GVR_Resource resource)))
  else mret (Err (no_informer resource)).
End informers.

(** ** The listers, [listers/addon/v1alpha1/addon.go]

    [cache.Indexer] with [cache.ListAll] and its siblings is a parameter:
    the objects that the function passed to [ListAll] is called with, in
    order, and the error at the end. *)
Inductive Item := IAddon (a : Addon) | IOther.

Class Indexers := {
  Indexer : Type;
  LabelSel : Type;
  ListAll : Indexer -> LabelSel -> list Item * option error;
  ListAllByNamespace : Indexer -> string -> LabelSel -> list Item * option error;
  GetByKey : Indexer -> string -> option Item * bool * option error
}.

Section listers.
Context `{Indexers}.

Record addonLister := mkLister { l_indexer : Indexer }.
Record addonNamespaceLister := mkNamespaceLister { nl_indexer : Indexer; nl_namespace : string }.

Definition NewAddonLister (i : Indexer) : addonLister := mkLister i.

Definition not_addon : string := "interface conversion: interface {} is not *v1alpha1.Addon".

(** [ret = append(ret, m)] with the assertion that [m] is an addon. *)
Fixpoint append_addons (ret : list Addon) (l : list Item) : outcome (list Addon) :=
  match l with
  | [] => Val ret
  | IAddon a :: l' => append_addons (ret ++ [a]) l'
  | IOther :: _ => Panicked not_addon
  end.

Definition lister_List (s : addonLister) (selector : LabelSel)
    : outcome (list Addon * option error) :=
  let r := ListAll (l_indexer s) selector in
  let? ret := append_addons [] r.1 in
  Val (ret, r.2).

Definition lister_Addons (s : addonLister) (namespace : string) : addonNamespaceLister :=
  mkNamespaceLister (l_indexer s) namespace.

Definition namespace_List (s : addonNamespaceLister) (selector : LabelSel)
    : outcome (list Addon * option error) :=
  let r := ListAllByNamespace (nl_indexer s) (nl_namespace s) selector in
  let? ret := append_addons [] r.1 in
  Val (ret, r.2).

(** [errors.NewNotFound(v1alpha1.Resource("addon"), name)] *)
Definition NewNotFound_addon (name : string) : error :=
  mkError ("addon." +:+ SchemeGroupVersion.1 +:+ " " +:+ Quote name +:+ " not found") ReasonNotFound.

Definition namespace_Get (s : addonNamespaceLister) (name : string) : outcome (result Addon) :=
  match GetByKey (nl_indexer s) (nl_namespace s +:+ "/" +:+ name) with
  | (_, _, Some err) => Val (Err err)
  | (_, false, None) => Val (Err (NewNotFound_addon name))
  | (Some (IAddon a), true, None) => Val (Ok a)
  | (_, true, None) => Panicked not_addon
  end.
End listers.

(** [addonInformer.Lister()] *)
Definition Informer_Lister `{GoRange, AddonInterface, Indexers} {VersionedInterface : Type}
    (client_Addons : VersionedInterface -> string -> AddonClient) (GetIndexer : loc -> Indexer)
    (i : scope) : St (fstate (VersionedInterface:=VersionedInterface)) addonLister :=
  informer ← Informer client_Addons i;
  mret (NewAddonLister (GetIndexer informer)).
