(* ===== verification/InformersSpec.v ===== *)
(** The shared informer factory runs each of its informers once, the informer
    of addons asks for the addons of the factory's namespace, and the listers
    agree with the store behind them. *)
From S2P Require Import Prelude GoStrings GoFmt AddonTypes Common GoHeap Clientset ClientsetSpec.
From S2P Require Import FakeClient Informers.

(** ** The factory *)
Section factory.
Context `{GoRange, AddonInterface}.
Context {VersionedInterface : Type} (client_Addons : VersionedInterface -> string -> AddonClient).

Abbreviation Factory := (factory (VersionedInterface:=VersionedInterface)).
Abbreviation FState := (fstate (VersionedInterface:=VersionedInterface)).
Implicit Types (f : Factory) (s : system) (fs : FState) (ty : GoType) (i : loc).

(** A constructor of informers makes a new one. *)
Definition allocates (newFunc : NewInformerFunc (VersionedInterface:=VersionedInterface)) : Prop :=
  forall c r s, exists x, newFunc c r s =
    Val (length (informer_heap s), mkSystem (informer_heap s ++ [x]) (ran s)).

Lemma defaultInformer_allocates sc : allocates (defaultInformer client_Addons sc).
Proof. intros c r s. by eexists. Qed.

(** What callers do with a factory. *)
Inductive factory_op :=
  | FInformerFor (ty : GoType) (newFunc : NewInformerFunc (VersionedInterface:=VersionedInterface))
  | FStart (t : list nat).

Definition run_factory_op (o : factory_op) : St FState () :=
  match o with
  | FInformerFor ty newFunc => InformerFor ty newFunc;; mret ()
  | FStart t => Start t
  end.

Definition op_allocates (o : factory_op) : Prop :=
  match o with FInformerFor _ newFunc => allocates newFunc | FStart _ => True end.

(** The options that configure a factory. *)
Inductive factory_option :=
  | OptResync (t : list nat) (c : gmap string (GoType * Z))
  | OptTweak (tweak : option TweakListOptionsFunc)
  | OptNamespace (ns : string).

Definition apply_option (o : factory_option) : Factory -> Factory :=
  match o with
  | OptResync t c => WithCustomResyncConfig t c
  | OptTweak tweak => WithTweakListOptions tweak
  | OptNamespace ns => WithNamespace ns
  end.

(** Registered informers exist, one per type; those that were run are the
    registered informers of the started types, each run once. *)
Record factory_ok fs : Prop := {
  ok_exist ty i : f_informers fs.1 !! ty = Some i -> i < length (informer_heap fs.2);
  ok_inj ty1 ty2 i :
    f_informers fs.1 !! ty1 = Some i -> f_informers fs.1 !! ty2 = Some i -> ty1 = ty2;
  ok_started ty : is_started fs.1 ty = true -> is_Some (f_informers fs.1 !! ty);
  ok_ran i : i ∈ ran fs.2 <-> exists ty, f_informers fs.1 !! ty = Some i /\ is_started fs.1 ty = true;
  ok_once : NoDup (ran fs.2)
}.

(** What a step keeps. *)
Definition factory_grows fs fs' : Prop :=
  f_informers fs.1 ⊆ f_informers fs'.1 /\ ran fs.2 `prefix_of` ran fs'.2 /\
  informer_heap fs.2 `prefix_of` informer_heap fs'.2.

#[local] Instance factory_grows_preorder : PreOrder factory_grows.
Proof.
  split.
  - intros fs. by split_and!.
  - intros fs1 fs2 fs3 (? & ? & ?) (? & ? & ?). split_and!; by etrans.
Qed.

Lemma InformerFor_registered ty newFunc fs i :
  f_informers fs.1 !! ty = Some i -> InformerFor ty newFunc fs = Val (i, fs).
Proof. intros Hi. unfold InformerFor. st_eval. by rewrite Hi. Qed.

Lemma InformerFor_new ty newFunc fs :
  allocates newFunc -> f_informers fs.1 !! ty = None ->
  exists x, newFunc (f_client fs.1) (resync_period fs.1 ty) fs.2 =
      Val (length (informer_heap fs.2), mkSystem (informer_heap fs.2 ++ [x]) (ran fs.2)) /\
    InformerFor ty newFunc fs = Val (length (informer_heap fs.2),
      (set_informer ty (length (informer_heap fs.2)) fs.1,
       mkSystem (informer_heap fs.2 ++ [x]) (ran fs.2))).
Proof.
  intros Ha Hn. destruct (Ha (f_client fs.1) (resync_period fs.1 ty) fs.2) as [x Hx].
  exists x. split; [done|]. unfold InformerFor, lift_system, modify_factory. st_eval.
  rewrite Hn. by rewrite Hx.
Qed.

Lemma InformerFor_ok ty newFunc fs :
  allocates newFunc -> factory_ok fs ->
  exists i fs', InformerFor ty newFunc fs = Val (i, fs') /\ factory_ok fs' /\
    factory_grows fs fs' /\ f_informers fs'.1 !! ty = Some i /\ ran fs'.2 = ran fs.2.
Proof.
  intros Ha Hok. destruct (f_informers fs.1 !! ty) as [i|] eqn:Hi.
  { exists i, fs. by rewrite (InformerFor_registered ty newFunc fs i Hi). }
  destruct (InformerFor_new ty newFunc fs Ha Hi) as (x & _ & ->).
  eexists _, _. split; [reflexivity|]. destruct Hok as [He Hinj Hst Hran Hnd].
  assert (is_started fs.1 ty = false) as Hns.
  { destruct (is_started fs.1 ty) eqn:Hs; [|done]. apply Hst in Hs as [? ?]. congruence. }
  split; [|split; [split_and!; cbn; [by apply insert_subseteq | done | by apply prefix_app_r]|
    split; cbn; [by rewrite lookup_insert_eq | done]]].
  split; cbn.
  - intros ty' i. rewrite length_app, lookup_insert_Some. cbn.
    intros [[_ <-]|[_ Hi']]; [lia | apply He in Hi'; lia].
  - intros ty1 ty2 i. rewrite !lookup_insert_Some.
    intros [[<- <-]|[Hn1 Hi1]] [[<- E]|[Hn2 Hi2]]; [done | | |by eapply Hinj].
    + apply He in Hi2. lia.
    + subst. apply He in Hi1. lia.
  - intros ty' Hs. unfold is_started in *. cbn in Hs. rewrite lookup_insert_is_Some.
    destruct (decide (ty = ty')); [by left | right; split; [done | by apply Hst]].
  - intros i. rewrite Hran. split; intros (ty' & Hi' & Hs); exists ty'.
    + split; [|done]. rewrite lookup_insert_ne; [done|]. intros <-. congruence.
    + split; [|done]. rewrite lookup_insert_Some in Hi'. destruct Hi' as [[<- _]|[_ ?]]; [|done].
      unfold is_started in *. cbn in Hs. congruence.
  - done.
Qed.

(** One turn of the loop of [Start]. *)
Definition start_step fs (kv : GoType * loc) : FState :=
  if is_started fs.1 kv.1 then fs
  else (set_started kv.1 fs.1, mkSystem (informer_heap fs.2) (ran fs.2 ++ [kv.2])).

Lemma start_one_step kv fs : start_one kv fs = Val ((), start_step fs kv).
Proof.
  unfold start_one, start_step, lift_system, modify_factory, go_Run. st_eval.
  by destruct (is_started _ _).
Qed.

Lemma Start_steps t fs :
  Start t fs = Val ((), foldl start_step fs (range t (f_informers fs.1))).
Proof.
  apply (for_each_fold start_one id start_step (range t (f_informers fs.1)) fs).
  intros kv acc. apply start_one_step.
Qed.

Lemma is_started_insert ty ty' f :
  is_started (set_started ty f) ty' = (ty == ty') || is_started f ty'.
Proof.
  unfold is_started, set_started. cbn. case_bool_decide as Hty.
  - subst. by rewrite lookup_insert_eq.
  - by rewrite lookup_insert_ne.
Qed.

Lemma start_step_ok fs ty i :
  factory_ok fs -> f_informers fs.1 !! ty = Some i ->
  let fs' := start_step fs (ty, i) in
  factory_ok fs' /\ factory_grows fs fs' /\ f_informers fs'.1 = f_informers fs.1 /\
  is_started fs'.1 ty = true /\ (forall ty', is_started fs.1 ty' = true -> is_started fs'.1 ty' = true).
Proof.
  intros Hok Hi. unfold start_step. cbn [fst snd]. destruct (is_started fs.1 ty) eqn:Hs.
  { by split_and!. }
  destruct Hok as [He Hinj Hst Hran Hnd]. cbv zeta. split.
  - split; cbn.
    + done.
    + done.
    + intros ty'. rewrite is_started_insert. case_bool_decide; [subst; by exists i | apply Hst].
    + intros j. rewrite elem_of_app, list_elem_of_singleton, Hran. setoid_rewrite is_started_insert.
      split.
      * intros [(ty' & Hj & Hs')| ->]; [exists ty' | exists ty]; split; try done.
        -- by rewrite Hs', orb_true_r.
        -- by rewrite bool_decide_eq_true_2.
      * intros (ty' & Hj & Hs'). apply orb_true_iff in Hs' as [Heq%bool_decide_eq_true|Hs'].
        -- subst. right. congruence.
        -- left. by exists ty'.
    + apply NoDup_app. split_and!; [done | | apply NoDup_singleton].
      intros j Hj ->%list_elem_of_singleton. apply Hran in Hj as (ty' & Hj & Hs').
      assert (ty' = ty) as -> by (by eapply Hinj). congruence.
  - split; [split_and!; cbn; [done | by apply prefix_app_r | done]|]. split_and!; cbn.
    + done.
    + rewrite is_started_insert. by rewrite bool_decide_eq_true_2.
    + intros ty' Hs'. by rewrite is_started_insert, Hs', orb_true_r.
Qed.

Lemma start_steps_ok l fs :
  factory_ok fs -> (forall ty i, (ty, i) ∈ l -> f_informers fs.1 !! ty = Some i) ->
  let fs' := foldl start_step fs l in
  factory_ok fs' /\ factory_grows fs fs' /\ f_informers fs'.1 = f_informers fs.1 /\
  (forall ty, is_started fs.1 ty = true \/ ty ∈ l.*1 -> is_started fs'.1 ty = true).
Proof.
  revert fs. induction l as [|[ty i] l IH]; intros fs Hok Hl; cbn [foldl].
  { split_and!; [done..|]. intros ty [?|Hin]; [done | by apply elem_of_nil in Hin]. }
  destruct (start_step_ok fs ty i Hok) as (Hok1 & Hg1 & Hf1 & Hs1 & Hk1).
  { apply Hl. by left. }
  destruct (IH (start_step fs (ty, i)) Hok1) as (Hok2 & Hg2 & Hf2 & Hs2).
  { intros ty' i' Hin. rewrite Hf1. apply Hl. by right. }
  split_and!; [done | by etrans | congruence|].
  intros ty' [Hs|[->|Hin]%elem_of_cons]; apply Hs2; auto.
Qed.

Lemma Start_ok t fs :
  factory_ok fs ->
  exists fs', Start t fs = Val ((), fs') /\ factory_ok fs' /\ factory_grows fs fs' /\
    (forall ty i, f_informers fs'.1 !! ty = Some i -> is_started fs'.1 ty = true).
Proof.
  intros Hok. rewrite Start_steps. eexists. split; [reflexivity|].
  destruct (start_steps_ok (range t (f_informers fs.1)) fs Hok) as (Hok' & Hg & Hf & Hs).
  { intros ty i Hin. by apply elem_of_range in Hin. }
  split_and!; [done..|]. intros ty i Hi. apply Hs. right. rewrite Hf in Hi.
  apply list_elem_of_fmap. exists (ty, i). split; [done|]. by apply elem_of_range.
Qed.

Lemma factory_op_ok o fs :
  op_allocates o -> factory_ok fs ->
  exists fs', run_factory_op o fs = Val ((), fs') /\ factory_ok fs' /\ factory_grows fs fs' /\
    (forall t, o = FStart t -> forall ty i, f_informers fs'.1 !! ty = Some i -> i ∈ ran fs'.2).
Proof.
  intros Ho Hok. destruct o as [ty newFunc|t]; cbn [run_factory_op].
  - destruct (InformerFor_ok ty newFunc fs Ho Hok) as (i & fs' & Hrun & Hok' & Hg & _).
    exists fs'. rewrite (St_bind_step _ _ _ _ _ Hrun). by split_and!.
  - destruct (Start_ok t fs Hok) as (fs' & -> & Hok' & Hg & Hs). exists fs'.
    split_and!; [done..|]. intros _ _ ty i Hi. apply (ok_ran _ Hok'). exists ty.
    split; [done | by apply (Hs ty i)].
Qed.

Lemma factory_ops_ok os fs :
  Forall op_allocates os -> factory_ok fs ->
  exists fs', for_each run_factory_op os fs = Val ((), fs') /\ factory_ok fs' /\
    factory_grows fs fs' /\
    (forall t, FStart t ∈ os -> forall ty i, f_informers fs.1 !! ty = Some i -> i ∈ ran fs'.2).
Proof.
  intros Hos. revert fs. induction Hos as [|o os Ho _ IH]; intros fs Hok.
  { exists fs. split_and!; [done..|]. by intros t ?%elem_of_nil. }
  destruct (factory_op_ok o fs Ho Hok) as (fs1 & Hrun1 & Hok1 & Hg1 & Hs1).
  destruct (IH fs1 Hok1) as (fs2 & Hrun2 & Hok2 & Hg2 & Hs2).
  exists fs2. cbn [for_each]. rewrite (St_bind_step _ _ _ _ _ Hrun1).
  split_and!; [done | done | by etrans|]. intros t Hin ty i Hi.
  assert (f_informers fs1.1 !! ty = Some i) as Hi1 by (by eapply lookup_weaken; [|apply Hg1]).
  apply elem_of_cons in Hin as [<-|Hin]; [|by eapply Hs2].
  eapply elem_of_prefix; [by eapply Hs1 | apply Hg2].
Qed.

Lemma apply_option_fresh o f :
  f_informers f = ∅ -> startedInformers f = ∅ ->
  f_informers (apply_option o f) = ∅ /\ startedInformers (apply_option o f) = ∅.
Proof.
  intros Hi Hs. destruct o as [t c|tweak|ns]; cbn; [|done..].
  unfold WithCustomResyncConfig. revert f Hi Hs.
  induction (range t c) as [|kv l IH]; intros f Hi Hs; [done|]. by apply IH.
Qed.

Lemma new_factory_fresh client d opts :
  let f := NewSharedInformerFactoryWithOptions client d (apply_option <$> opts) in
  f_informers f = ∅ /\ startedInformers f = ∅.
Proof.
  unfold NewSharedInformerFactoryWithOptions. cbv zeta.
  set (f0 := mkFactory client "" None d ∅ ∅ ∅).
  assert (f_informers f0 = ∅ /\ startedInformers f0 = ∅) as Hf by done.
  revert Hf. generalize f0. induction opts as [|o opts IH]; intros f [Hi Hs]; cbn; [done|].
  apply IH. by apply apply_option_fresh.
Qed.

Lemma new_factory_ok client d opts s :
  ran s = [] -> factory_ok (NewSharedInformerFactoryWithOptions client d (apply_option <$> opts), s).
Proof.
  intros Hr. destruct (new_factory_fresh client d opts) as [Hi Hs].
  split; cbn; rewrite ?Hi, ?Hr.
  - by intros ty i ?%lookup_empty_Some.
  - by intros ty1 ty2 i ?%lookup_empty_Some.
  - unfold is_started. by rewrite Hs.
  - intros i. rewrite elem_of_nil. split; [done|]. by intros (ty & ?%lookup_empty_Some & _).
  - constructor.
Qed.

(** C22: Whatever sequence of requests for informers and [Start]s a factory
    sees, and in whatever order [Start] visits its map: it never panics, an
    informer is run at most once, only informers that were handed out are run,
    an informer once handed out for a type stays that type's informer, and
    a later [Start] makes it run. *)
Theorem factory_runs_each_informer_once (client : VersionedInterface) (d : Z)
    (opts : list factory_option) (s : system) (os1 os2 : list factory_op) :
  ran s = [] -> Forall op_allocates (os1 ++ os2) ->
  let f := NewSharedInformerFactoryWithOptions client d (apply_option <$> opts) in
  exists fs1 fs2, for_each run_factory_op os1 (f, s) = Val ((), fs1) /\
    for_each run_factory_op os2 fs1 = Val ((), fs2) /\
    NoDup (ran fs2.2) /\ ran fs1.2 `prefix_of` ran fs2.2 /\
    (forall i, i ∈ ran fs2.2 -> exists ty, f_informers fs2.1 !! ty = Some i) /\
    (forall ty i, f_informers fs1.1 !! ty = Some i ->
       f_informers fs2.1 !! ty = Some i /\ (forall t, FStart t ∈ os2 -> i ∈ ran fs2.2)).
Proof.
  intros Hs [Hos1 Hos2]%Forall_app f.
  destruct (factory_ops_ok os1 (f, s) Hos1 (new_factory_ok client d opts s Hs))
    as (fs1 & Hrun1 & Hok1 & _ & _).
  destruct (factory_ops_ok os2 fs1 Hos2 Hok1) as (fs2 & Hrun2 & Hok2 & (Hi & Hr & _) & Hst).
  exists fs1, fs2. split_and!; [done | done | apply Hok2 | done | |].
  - intros i Hin. apply (ok_ran _ Hok2) in Hin as (ty & Hty & _). by exists ty.
  - intros ty i Hty. split; [by eapply lookup_weaken|]. intros t Ht. by eapply Hst.
Qed.

(** [WaitForCacheSync] reports on the started informers, and only on them. *)
Lemma range_insert {V W} (P : string -> bool) (g : V -> W) t (m : gmap string V) (acc : gmap string W) k :
  foldl (fun a kv => if P kv.1 then <[kv.1 := g kv.2]> a else a) acc (range t m) !! k =
  match m !! k with
  | Some v => if P k then Some (g v) else acc !! k
  | None => acc !! k
  end.
Proof.
  assert (forall (l : list (string * V)) (a : gmap string W), NoDup l.*1 ->
    foldl (fun a kv => if P kv.1 then <[kv.1 := g kv.2]> a else a) a l !! k =
    match list_to_map (M:=gmap string V) l !! k with
    | Some v => if P k then Some (g v) else a !! k
    | None => a !! k
    end) as Hgen.
  { induction l as [|[k' v] l IH]; intros a Hnd; [done|]. cbn in *.
    apply NoDup_cons in Hnd as [Hk Hnd]. rewrite IH by done.
    destruct (decide (k' = k)) as [->|Hne].
    - rewrite lookup_insert_eq. rewrite (not_elem_of_list_to_map_1 _ _ Hk).
      destruct (P k); [by rewrite lookup_insert_eq | done].
    - rewrite lookup_insert_ne by done. destruct (P k'); [|done].
      by rewrite (lookup_insert_ne a). }
  rewrite Hgen by apply NoDup_range_keys.
  assert (list_to_map (range t m) = m) as ->; [|done].
  rewrite <-(list_to_map_to_list m) at 2.
  apply list_to_map_proper; [apply NoDup_range_keys | apply range_perm].
Qed.

Theorem WaitForCacheSync_spec (t : list nat) (wait : loc -> bool) (f : Factory) (ty : GoType) :
  WaitForCacheSync t wait f !! ty =
  if is_started f ty then wait <$> f_informers f !! ty else None.
Proof.
  unfold WaitForCacheSync.
  set (started := foldl _ (∅ : gmap GoType loc) _).
  assert (started !! ty = if is_started f ty then f_informers f !! ty else None) as Hs.
  { etrans; [apply (range_insert (is_started f) (fun i => i))|]. rewrite lookup_empty.
    destruct (f_informers f !! ty), (is_started f ty); done. }
  etrans; [apply (range_insert (fun _ => true) wait)|]. rewrite Hs, lookup_empty.
  destruct (is_started f ty), (f_informers f !! ty); done.
Qed.

(** Two entries of a custom resync configuration may be for one type: then
    the order of the loop decides. *)
Lemma WithCustomResyncConfig_spec t c f ty :
  let f' := WithCustomResyncConfig t c f in
  (exists k p, c !! k = Some (ty, p) /\ customResync f' !! ty = Some p) \/
  ((forall k p, c !! k <> Some (ty, p)) /\ customResync f' !! ty = customResync f !! ty).
Proof.
  unfold WithCustomResyncConfig. cbv zeta.
  assert (forall l f, let f' := foldl (fun (f : Factory) (kv : string * (GoType * Z)) =>
      set_customResync (<[kv.2.1 := kv.2.2]> (customResync f)) f) f l in
    (exists k p, (k, (ty, p)) ∈ l /\ customResync f' !! ty = Some p) \/
    ((forall k p, (k, (ty, p)) ∉ l) /\ customResync f' !! ty = customResync f !! ty)) as Hgen.
  { induction l as [|[k [ty' p]] l IH]; intros f1; cbv zeta.
    { right. split; [|done]. intros k p. apply not_elem_of_nil. }
    cbn [foldl fst snd].
    destruct (IH (set_customResync (<[ty' := p]> (customResync f1)) f1)) as [(k' & p' & Hin & Hc)|[Hno Hc]].
    { left. exists k', p'. split; [by right | done]. }
    cbn in Hc. destruct (decide (ty' = ty)) as [->|Hne].
    - left. exists k, p. split; [by left | by rewrite Hc, lookup_insert_eq].
    - right. split; [|by rewrite Hc, lookup_insert_ne].
      intros k' p' [[= _ -> _]|Hin]%elem_of_cons; [done | by apply (Hno k' p')]. }
  destruct (Hgen (range t c) f) as [(k & p & Hin & Hc)|[Hno Hc]]; [left | right].
  - exists k, p. by rewrite elem_of_range in Hin.
  - split; [|done]. intros k p Hk. apply (Hno k p). by apply elem_of_range.
Qed.

(** The informer of addons of a factory that has none yet. *)
Lemma addon_informer_new fs :
  f_informers fs.1 !! addon_type = None ->
  let x := mkInformer
    (mkListWatch
      (fun o => ai_List (client_Addons (f_client fs.1) (f_namespace fs.1)) (tweaked (f_tweak fs.1) o))
      (fun o => ai_Watch (client_Addons (f_client fs.1) (f_namespace fs.1)) (tweaked (f_tweak fs.1) o)))
    addon_type (resync_period fs.1 addon_type) [NamespaceIndex] in
  addon_informer client_Addons fs = Val (length (informer_heap fs.2),
    (set_informer addon_type (length (informer_heap fs.2)) fs.1,
     mkSystem (informer_heap fs.2 ++ [x]) (ran fs.2))).
Proof.
  intros Hn x. unfold addon_informer, Informer, InformerFor, lift_system, modify_factory. st_eval.
  by rewrite Hn.
Qed.

Lemma addon_informer_registered fs i :
  f_informers fs.1 !! addon_type = Some i -> addon_informer client_Addons fs = Val (i, fs).
Proof.
  intros Hi. unfold addon_informer, Informer. st_eval. by apply InformerFor_registered.
Qed.

Lemma ForResource_addons fs i fs' :
  addon_informer client_Addons fs = Val (i, fs') ->
  ForResource client_Addons AddonGVR fs =
  Val (Ok (mkGeneric i ("addonmgr.keikoproj.io", "addons")), fs').
Proof.
  intros Hi. unfold ForResource. rewrite bool_decide_eq_true_2 by done.
  by rewrite (St_bind_step _ _ _ _ _ Hi).
Qed.

Lemma ForResource_other r fs :
  r <> AddonGVR -> ForResource client_Addons r fs = Val (Err (no_informer r), fs).
Proof. intros Hr. unfold ForResource. by rewrite bool_decide_eq_false_2. Qed.
End factory.

(** ** The informer of addons and the typed client *)
Section addon_informer.
Context `{GoRange, RestLaws}.

(** The factory's client is the clientset's client of the group. *)
Abbreviation Factory := (factory (VersionedInterface:=option AddonmgrV1alpha1Client)).
Abbreviation FState := (fstate (VersionedInterface:=option AddonmgrV1alpha1Client)).

(** The informer of addons that a factory hands out, whether through its
    group interface or as the generic informer of the addons resource, is one
    and the same informer: it lists and watches addons in the factory's
    namespace with the factory's changes to the options, in one request
    each, with the custom resync period of the type if there is one and the
    default otherwise; for any other resource there is none. *)
Theorem addon_informer_requests (f : Factory) (s : system) (rc : RC) :
  f_client f = Some (mkGroupClient (Some rc)) -> f_informers f !! addon_type = None ->
  valid_segment (f_namespace f) = true ->
  exists i fs' x, addon_informer Addons (f, s) = Val (i, fs') /\
    addon_informer Addons fs' = Val (i, fs') /\
    ForResource Addons AddonGVR fs' =
      Val (Ok (mkGeneric i ("addonmgr.keikoproj.io", "addons")), fs') /\
    (forall r, r <> AddonGVR -> ForResource Addons r fs' = Val (Err (no_informer r), fs')) /\
    informer_heap fs'.2 !! i = Some x /\
    inf_resync x = default (defaultResync f) (customResync f !! addon_type) /\
    forall o st, let o' := tweaked (f_tweak f) o in
      (r ← ListFunc (inf_lw x) o; mret (RList r.1 r.2)) st =
        exchange (MList o') (request_of (f_namespace f) (MList o')) st /\
      (r ← WatchFunc (inf_lw x) o; mret (RWatch r.1 r.2)) st =
        exchange (MWatch o') (request_of (f_namespace f) (MWatch o')) st.
Proof.
  intros Hc Hn Hv.
  pose proof (addon_informer_new Addons (f, s) Hn) as Hi. cbv zeta in Hi.
  eexists _, _, _. split; [exact Hi|].
  set (fs' := (set_informer addon_type _ _, _)).
  assert (addon_informer Addons fs' = Val (length (informer_heap s), fs')) as Hi'.
  { apply addon_informer_registered. cbn. by rewrite lookup_insert_eq. }
  split; [exact Hi'|]. split; [by apply ForResource_addons|].
  split; [intros r Hr; by apply ForResource_other|].
  split; [apply lookup_alloc|]. split; [cbn; unfold resync_period; by destruct (customResync f !! addon_type)|].
  intros o st. cbn [fst snd inf_lw ListFunc WatchFunc]. rewrite Hc.
  assert (forall m, m = MList (tweaked (f_tweak f) o) \/ m = MWatch (tweaked (f_tweak f) o) ->
    perform (Addons (Some (mkGroupClient (Some rc))) (f_namespace f)) m st =
    exchange m (request_of (f_namespace f) m) st) as Hp.
  { intros m Hm.
    apply (perform_exchange (Addons (Some (mkGroupClient (Some rc))) (f_namespace f)) rc m st eq_refl).
    cbn [Addons newAddons ad_ns]. unfold path_ok, preflight.
    destruct Hm as [-> | ->]; cbn; rewrite Hv; by destruct (_ == _). }
  split; [apply (Hp _ (or_introl eq_refl)) | apply (Hp _ (or_intror eq_refl))].
Qed.
End addon_informer.

(** ** Listers *)

(** [cache.MetaNamespaceKeyFunc] *)
Definition namespace_key (a : Addon) : string :=
  if addon_Namespace a == "" then addon_Name a
  else addon_Namespace a +:+ "/" +:+ addon_Name a.

(** The documented behaviour of an indexer that holds addons under their
    keys. *)
Class IndexersLaws `{Indexers} := {
  contents : Indexer -> gmap string Addon;
  sel_matches : LabelSel -> gmap string string -> bool;
  contents_key ix k a : contents ix !! k = Some a -> k = namespace_key a;
  ListAll_spec ix sel :
    (ListAll ix sel).2 = None /\
    (ListAll ix sel).1 ≡ₚ
      IAddon <$> filter (fun a => sel_matches sel (Labels (Meta a)) = true)
                   (map_to_list (contents ix)).*2;
  ListAllByNamespace_spec ix ns sel :
    (ListAllByNamespace ix ns sel).2 = None /\
    (ListAllByNamespace ix ns sel).1 ≡ₚ
      IAddon <$> filter (fun a => (ns = "" \/ addon_Namespace a = ns) /\
                                  sel_matches sel (Labels (Meta a)) = true)
                   (map_to_list (contents ix)).*2;
  GetByKey_spec ix k :
    GetByKey ix k =
    (IAddon <$> contents ix !! k, bool_decide (is_Some (contents ix !! k)), None)
}.

Section listers.
Context `{IndexersLaws}.
Implicit Types (ix : Indexer) (a : Addon).

(** Names and namespaces of Kubernetes objects hold no slash. *)
Definition slash_free ix : Prop := forall k a, contents ix !! k = Some a ->
  byte_free "/" (addon_Namespace a) /\ byte_free "/" (addon_Name a).

Definition stored_addon ix a : Prop := a ∈ (map_to_list (contents ix)).*2.

Lemma stored_addon_key ix a : stored_addon ix a <-> contents ix !! namespace_key a = Some a.
Proof.
  unfold stored_addon. rewrite list_elem_of_fmap. split.
  - intros ([k x] & -> & Hin%elem_of_map_to_list). cbn. by rewrite <-(contents_key ix k x).
  - intros Ha. exists (namespace_key a, a). split; [done|]. by apply elem_of_map_to_list.
Qed.

Lemma append_addons_all l : forall ret, append_addons ret (IAddon <$> l) = Val (ret ++ l).
Proof.
  induction l as [|a l IH]; intros ret; cbn; [by rewrite app_nil_r|]. by rewrite IH, <-app_assoc.
Qed.

(** A list that is called with addons only returns them. *)
Lemma appended l l' :
  l ≡ₚ IAddon <$> l' -> exists l'', append_addons [] l = Val l'' /\ l'' ≡ₚ l'.
Proof.
  intros Hp. change (l ≡ₚ map IAddon l') in Hp. apply Permutation_map_inv in Hp as (l'' & -> & Hp).
  exists l''. split; [apply (append_addons_all l'' []) | by symmetry].
Qed.

(** Cutting at the first separator. *)
Lemma byte_free_cut c s1 s2 t1 t2 :
  byte_free c s1 -> byte_free c s2 -> s1 +:+ String c t1 = s2 +:+ String c t2 -> s1 = s2 /\ t1 = t2.
Proof.
  unfold byte_free. revert s2. induction s1 as [|x s1 IH]; intros [|y s2] Hf1 Hf2; cbn in *.
  - by intros [= ->].
  - intros [= -> _]. exfalso. apply Hf2. by left.
  - intros [= <- _]. exfalso. apply Hf1. by left.
  - intros [= <- Heq]. apply not_elem_of_cons in Hf1 as [_ Hf1], Hf2 as [_ Hf2].
    destruct (IH s2 Hf1 Hf2 Heq) as [-> ->]. done.
Qed.

Lemma byte_free_no_sep c s t : ~ byte_free c (s +:+ String c t).
Proof.
  unfold byte_free. intros Hn. apply Hn. clear Hn. induction s as [|x s IH]; cbn; [by left | by right].
Qed.

(** Only its namespace and name give an object's key. *)
Lemma key_inj ix ns n a :
  slash_free ix -> ns <> "" -> byte_free "/" ns -> stored_addon ix a ->
  namespace_key a = ns +:+ "/" +:+ n <-> addon_Namespace a = ns /\ addon_Name a = n.
Proof.
  intros Hsf Hne Hns Ha%stored_addon_key. apply Hsf in Ha as [Hfns Hfn].
  unfold namespace_key. case_bool_decide as He.
  - split; [|intros [<- _]; done]. intros Heq. exfalso. rewrite Heq in Hfn.
    by eapply byte_free_no_sep.
  - split; [|by intros [-> ->]]. by apply (byte_free_cut "/").
Qed.

Lemma NoDup_stored_keys ix (P : Addon -> Prop) `{forall a, Decision (P a)} :
  NoDup (namespace_key <$> filter P (map_to_list (contents ix)).*2).
Proof.
  eapply sublist_NoDup; [|apply fmap_sublist, sublist_filter].
  assert (namespace_key <$> (map_to_list (contents ix)).*2 = (map_to_list (contents ix)).*1) as ->;
    [|apply NoDup_fst_map_to_list].
  assert (forall k a, (k, a) ∈ map_to_list (contents ix) -> k = namespace_key a) as Hk
    by (intros k a Hin%elem_of_map_to_list; by apply (contents_key ix)).
  induction (map_to_list (contents ix)) as [|[k a] l IH]; [done|]. cbn. f_equal.
  - symmetry. apply Hk. by left.
  - apply IH. intros k' a' Hin. apply Hk. by right.
Qed.

Lemma filter_filter_and {A} (P Q : A -> Prop) `{forall x, Decision (P x)} `{forall x, Decision (Q x)}
    (l : list A) : filter P (filter Q l) = filter (fun x => P x /\ Q x) l.
Proof.
  induction l as [|x l IH]; [done|]. rewrite !filter_cons.
  repeat case_decide; rewrite ?filter_cons; repeat case_decide; try tauto; congruence.
Qed.

(** C29: The listers agree with each other and with the store behind them:
    [Get] of a namespace's lister finds exactly the stored addon with that
    namespace and name and otherwise reports that it is not found; [List]
    gives the stored addons that match the selector, each once, and the
    namespace's [List] those of them in the namespace. *)
Theorem listers_agree (ix : Indexer) (ns n : string) (sel : LabelSel) :
  slash_free ix -> ns <> "" -> byte_free "/" ns ->
  let lister := NewAddonLister ix in
  exists l nl,
    lister_List lister sel = Val (l, None) /\
    namespace_List (lister_Addons lister ns) sel = Val (nl, None) /\
    NoDup (namespace_key <$> l) /\
    (forall a, a ∈ l <-> stored_addon ix a /\ sel_matches sel (Labels (Meta a)) = true) /\
    nl ≡ₚ filter (fun a => addon_Namespace a = ns) l /\
    match namespace_Get (lister_Addons lister ns) n with
    | Val (Ok a) => stored_addon ix a /\ addon_Namespace a = ns /\ addon_Name a = n
    | Val (Err e) =>
        e = NewNotFound_addon n /\ IsNotFound (Some e) = true /\
        forall a, stored_addon ix a -> ~ (addon_Namespace a = ns /\ addon_Name a = n)
    | Panicked _ => False
    end.
Proof.
  intros Hsf Hne Hns lister.
  destruct (ListAll_spec ix sel) as [He (l & Hl & Hp)%appended].
  destruct (ListAllByNamespace_spec ix ns sel) as [Hne' (nl & Hnl & Hnp)%appended].
  exists l, nl. unfold lister_List, namespace_List. cbn [NewAddonLister lister_Addons l_indexer nl_indexer nl_namespace lister].
  split_and!.
  - by rewrite Hl, He.
  - cbn. by rewrite Hnl, Hne'.
  - rewrite Hp. by apply NoDup_stored_keys.
  - intros a. rewrite Hp, list_elem_of_filter. unfold stored_addon. tauto.
  - rewrite Hp, Hnp, filter_filter_and.
    erewrite list_filter_iff; [reflexivity|]. intros a. cbn. tauto.
  - unfold namespace_Get. rewrite GetByKey_spec.
    change (nl_namespace (lister_Addons lister ns)) with ns.
    change (nl_indexer (lister_Addons lister ns)) with ix.
    destruct (contents ix !! (ns +:+ "/" +:+ n)) as [a|] eqn:Ha.
    + rewrite bool_decide_eq_true_2 by done. cbn. pose proof (contents_key ix _ a Ha) as Hk.
      assert (stored_addon ix a) as Hst by (apply stored_addon_key; by rewrite <-Hk).
      split; [done|]. by apply (key_inj ix ns n a).
    + rewrite bool_decide_eq_false_2 by (by intros [? ?]). cbn. split_and!; [done..|].
      intros a Hst Hnn. pose proof Hst as Hc%stored_addon_key.
      apply (key_inj ix ns n a Hsf Hne Hns Hst) in Hnn. rewrite Hnn in Hc. cbn in Hc. congruence.
Qed.
End listers.

(** ** Concrete instances *)

(** The entries under their own keys. *)
Definition keyed (ix : gmap string Addon) : gmap string Addon :=
  filter (fun ka => ka.1 = namespace_key ka.2) ix.

Lemma keyed_list (ix : gmap string Addon) :
  map_to_list (keyed ix) ≡ₚ filter (fun ka => ka.1 = namespace_key ka.2) (map_to_list ix).
Proof.
  apply NoDup_Permutation; [apply NoDup_map_to_list | apply NoDup_filter, NoDup_map_to_list |].
  intros [k a]. unfold keyed.
  by rewrite elem_of_map_to_list, list_elem_of_filter, elem_of_map_to_list, map_lookup_filter_Some, (comm and).
Qed.

Definition sample_get (ix : gmap string Addon) (k : string) : option Item * bool * option error :=
  match ix !! k with
  | Some a => if k == namespace_key a then (Some (IAddon a), true, None) else (None, false, None)
  | None => (None, false, None)
  end.

Lemma sample_get_spec (ix : gmap string Addon) k :
  sample_get ix k = (IAddon <$> keyed ix !! k, bool_decide (is_Some (keyed ix !! k)), None).
Proof.
  unfold sample_get, keyed. rewrite map_lookup_filter. destruct (ix !! k) as [a|]; [|done]. cbn.
  case_guard; case_bool_decide; done.
Qed.

(** An indexer that keeps addons under their keys; a selector is ["k=v"] or
    empty. *)
#[global] Instance sample_indexers : Indexers := {|
  Indexer := gmap string Addon;
  LabelSel := string;
  ListAll := fun ix sel =>
    (IAddon <$> filter (fun a => selects sel a = true)
       (filter (fun ka => ka.1 = namespace_key ka.2) (map_to_list ix)).*2, None);
  ListAllByNamespace := fun ix ns sel =>
    (IAddon <$> filter (fun a => (ns = "" \/ addon_Namespace a = ns) /\ selects sel a = true)
       (filter (fun ka => ka.1 = namespace_key ka.2) (map_to_list ix)).*2, None);
  GetByKey := sample_get |}.

#[local] Obligation Tactic := idtac.

#[global] Program Instance sample_indexers_laws : IndexersLaws := {|
  contents := keyed;
  sel_matches := fun sel ls =>
    selects sel (mkAddon (mkObjectMeta "" "" "" None [] ls) zero_AddonSpec zero_AddonStatus) |}.
Next Obligation. intros ix k a. cbn. unfold keyed. by intros [_ ?]%map_lookup_filter_Some. Qed.
Next Obligation. intros ix sel. split; [done|]. by rewrite keyed_list. Qed.
Next Obligation. intros ix ns sel. split; [done|]. by rewrite keyed_list. Qed.
Next Obligation. exact sample_get_spec. Qed.

Definition sample_index : gmap string Addon :=
  {["default/a" := labelled_addon "a" "infra"; "default/b" := labelled_addon "b" "app"]}.

Lemma sample_index_lookup k a :
  keyed sample_index !! k = Some a -> a = labelled_addon "a" "infra" \/ a = labelled_addon "b" "app".
Proof.
  unfold keyed. intros [Hk _]%map_lookup_filter_Some. unfold sample_index in Hk.
  rewrite lookup_insert_Some, lookup_singleton_Some in Hk. naive_solver.
Qed.

Definition sample_lister : addonNamespaceLister :=
  @lister_Addons sample_indexers (@NewAddonLister sample_indexers sample_index) "default".

Definition got_name (r : outcome (result Addon)) : option string :=
  match r with Val (Ok a) => Some (addon_Name a) | _ => None end.

Lemma listers_agree_witness :
  (exists l, namespace_List sample_lister "tier=app" = Val (l, None)) /\
  got_name (namespace_Get sample_lister "b") = Some "b" /\
  namespace_Get sample_lister "c" = Val (Err (NewNotFound_addon "c")).
Proof.
  assert (slash_free sample_index) as Hsf.
  { intros k a Ha. apply sample_index_lookup in Ha as [-> | ->];
      split; apply (bool_decide_unpack _); vm_compute; exact I. }
  assert (byte_free "/" "default") as Hns by (apply (bool_decide_unpack _); vm_compute; exact I).
  destruct (@listers_agree sample_indexers sample_indexers_laws sample_index "default" "b"
    "tier=app" Hsf ltac:(discriminate) Hns) as (l & nl & _ & Hnl & _ & _ & _ & Hb).
  destruct (@listers_agree sample_indexers sample_indexers_laws sample_index "default" "c"
    "tier=app" Hsf ltac:(discriminate) Hns) as (_ & _ & _ & _ & _ & _ & _ & Hc).
  change (namespace_Get _ "b") with (namespace_Get sample_lister "b") in Hb.
  change (namespace_Get _ "c") with (namespace_Get sample_lister "c") in Hc.
  split; [exists nl; exact Hnl|].
  assert (exists n, got_name (namespace_Get sample_lister "b") = Some n) as [n Hn]
    by (eexists; vm_compute; reflexivity).
  assert (got_name (namespace_Get sample_lister "c") = None) as Hn' by (vm_compute; reflexivity).
  split.
  - destruct (namespace_Get sample_lister "b") as [[a|e]|msg]; [|discriminate..].
    cbn. f_equal. tauto.
  - destruct (namespace_Get sample_lister "c") as [[a|e]|msg]; [discriminate | | destruct Hc].
    destruct Hc as [-> _]. reflexivity.
Defined.

(** A factory for one namespace with an app selector and a resync period of
    its own for addons; it is asked for two informers, started, asked again
    and started again. *)
Definition only_app (o : ListOptions) : ListOptions :=
  mkListOptions "tier=app" (LO_FieldSelector o) (LO_Watch o) (TimeoutSeconds o) (LO_ResourceVersion o).

Definition sample_factory_options : list factory_option :=
  [OptNamespace "default"; OptTweak (Some only_app); OptResync [] {["obj" := (addon_type, 60%Z)]}].

Definition sample_new_informer : NewInformerFunc (VersionedInterface:=option AddonmgrV1alpha1Client) :=
  fun client resync => NewAddonInformer (VersionedInterface:=option AddonmgrV1alpha1Client) Addons client "" resync [].

Abbreviation sample_op := (factory_op (VersionedInterface:=option AddonmgrV1alpha1Client)).

Definition sample_ops1 : list sample_op :=
  [FInformerFor "*v1.Pod" sample_new_informer; FStart [1]; FInformerFor addon_type sample_new_informer].
Definition sample_ops2 : list sample_op :=
  [FInformerFor addon_type sample_new_informer; FStart [2]; FStart [3]].

Definition sample_group : option AddonmgrV1alpha1Client :=
  Some (@mkGroupClient sample_options sample_rest (Some tt)).

Definition sample_factory : factory (VersionedInterface:=option AddonmgrV1alpha1Client) :=
  NewSharedInformerFactoryWithOptions sample_group 30
    (@apply_option range_fwd _ <$> sample_factory_options).

Definition no_informers : system := mkSystem [] [].

Lemma factory_runs_each_informer_once_witness :
  exists fs1 fs2,
    for_each (@run_factory_op range_fwd _ _ _) sample_ops1 (sample_factory, no_informers) = Val ((), fs1) /\
    for_each (@run_factory_op range_fwd _ _ _) sample_ops2 fs1 = Val ((), fs2) /\
    ran fs1.2 = [0] /\ ran fs2.2 = [0; 1] /\ NoDup (ran fs2.2).
Proof.
  destruct (@factory_runs_each_informer_once range_fwd _ _ _ sample_group 30
    sample_factory_options no_informers sample_ops1 sample_ops2 eq_refl)
    as (fs1 & fs2 & Hrun1 & Hrun2 & Hnd & _).
  - unfold sample_ops1, sample_ops2, sample_new_informer. cbn.
    repeat constructor; intros c r s; eexists; reflexivity.
  - exists fs1, fs2. split; [exact Hrun1|]. split; [exact Hrun2|].
    assert (match for_each (@run_factory_op range_fwd _ _ _) sample_ops1 (sample_factory, no_informers) with
            | Val (_, fs) => Some (ran fs.2) | Panicked _ => None end = Some [0]) as Hr1
      by (vm_compute; reflexivity).
    assert (match for_each (@run_factory_op range_fwd _ _ _) (sample_ops1 ++ sample_ops2)
              (sample_factory, no_informers) with
            | Val (_, fs) => Some (ran fs.2) | Panicked _ => None end = Some [0; 1]) as Hr2
      by (vm_compute; reflexivity).
    rewrite for_each_app, (St_bind_step _ _ _ _ _ Hrun1), Hrun2 in Hr2.
    unfold sample_factory in Hr1. rewrite Hrun1 in Hr1.
    injection Hr1 as Hr1. injection Hr2 as Hr2. split; [exact Hr1|]. split; [exact Hr2 | exact Hnd].
Defined.

(** The resync period of the informer of addons, and the names of the addons
    it lists. *)
Definition informer_view (o : outcome (loc * fstate (VersionedInterface:=option AddonmgrV1alpha1Client)))
    (store : addon_store) : option (Z * list string) :=
  match o with
  | Val (i, fs) =>
      match informer_heap fs.2 !! i with
      | Some x =>
          match ListFunc (inf_lw x) (mkListOptions "" "" false None "") store with
          | Val ((Some l, None), _) => Some (inf_resync x, (fun a => addon_Name a) <$> Items l)
          | _ => None
          end
      | None => None
      end
  | Panicked _ => None
  end.

Definition two_addons : addon_store :=
  {[("default", "a") := labelled_addon "a" "infra"; ("default", "b") := labelled_addon "b" "app";
    ("other", "c") := labelled_addon "c" "app"]}.

Lemma addon_informer_requests_witness :
  informer_view (addon_informer Addons (sample_factory, no_informers)) two_addons = Some (60%Z, ["b"]) /\
  exists i fs', addon_informer Addons (sample_factory, no_informers) = Val (i, fs') /\
    ForResource Addons AddonGVR fs' =
      Val (Ok (mkGeneric i ("addonmgr.keikoproj.io", "addons")), fs').
Proof.
  split; [vm_compute; reflexivity|].
  destruct (@addon_informer_requests sample_options sample_rest sample_rest_laws
    sample_factory no_informers tt eq_refl eq_refl) as (i & fs' & x & Hi & _ & Hf & _).
  - vm_compute. reflexivity.
  - exists i, fs'. split; [exact Hi | exact Hf].
Defined.
